(** * The batch price-ingestion jobs of [job_manager.py]

    A shallow embedding of [PriceBatchJob] and [DualApiSequentialJob]
    (together with the part of [SteamDTClient] and of the tables of
    [db.py] they use), followed by the properties of the design
    specification that are stated about them.

    Conventions of the embedding:
    - a JSON value handed back by [resp.json()] is a [pyval];
    - a Python [str] is the [string] of its code points;
    - a Python [float] is an IEEE-754 binary64 value, [spec_float];
    - code that may raise returns a [result];
    - the job object is a record, every method takes the record and
      returns the updated one; the background thread is a program
      counter [pc] stepped by [loop_step]. *)

From Stdlib Require Import ZArith List Bool Lia.
From Stdlib Require Import Strings.Byte.
From Stdlib Require Import Floats.SpecFloat.
Import ListNotations.

Open Scope list_scope.

(** ** Strings: [str.strip] and [str.upper]

    A [str] is the sequence of its code points. *)

Inductive string : Set :=
| EmptyString
| String (c : N) (r : string).

(** String literals are read as UTF-8. *)
Fixpoint decode (l : list N) : option string :=
  match l with
  | [] => Some EmptyString
  | b :: r =>
      if (b <? 128)%N then option_map (String b) (decode r)
      else if (b <? 192)%N then None
      else if (b <? 224)%N then
        match r with
        | b1 :: r1 => option_map (String ((b - 192) * 64 + (b1 - 128))%N) (decode r1)
        | _ => None
        end
      else if (b <? 240)%N then
        match r with
        | b1 :: b2 :: r2 =>
            option_map (String ((b - 224) * 4096 + (b1 - 128) * 64 + (b2 - 128))%N)
              (decode r2)
        | _ => None
        end
      else
        match r with
        | b1 :: b2 :: b3 :: r3 =>
            option_map
              (String ((b - 240) * 262144 + (b1 - 128) * 4096 + (b2 - 128) * 64
                       + (b3 - 128))%N)
              (decode r3)
        | _ => None
        end
  end.

Fixpoint encode (s : string) : list N :=
  match s with
  | EmptyString => []
  | String c r =>
      (if c <? 128 then [c]
       else if c <? 2048 then [192 + c / 64; 128 + c mod 64]
       else if c <? 65536 then [224 + c / 4096; 128 + (c / 64) mod 64; 128 + c mod 64]
       else [240 + c / 262144; 128 + (c / 4096) mod 64; 128 + (c / 64) mod 64;
             128 + c mod 64])%N
      ++ encode r
  end.

Definition of_bytes (l : list Byte.byte) : option string := decode (map Byte.to_N l).

Definition to_bytes (s : string) : list Byte.byte :=
  map (fun n => match Byte.of_N n with Some b => b | None => Byte.x00 end) (encode s).

Declare Scope str_scope.
Delimit Scope str_scope with str.
Bind Scope str_scope with string.
String Notation string of_bytes to_bytes : str_scope.
Arguments String c%_N r%_str.
Open Scope str_scope.
Open Scope Z_scope.

Fixpoint append (a b : string) : string :=
  match a with
  | EmptyString => b
  | String c r => String c (append r b)
  end.

Fixpoint of_list (l : list N) : string :=
  match l with
  | [] => EmptyString
  | c :: r => String c (of_list r)
  end.

(** Equality of two strings, code point by code point: the equality
    of [str], of the keys of a [dict] and of the text columns of the
    store. *)
Module Str.
Fixpoint eqb (a b : string) : bool :=
  match a, b with
  | EmptyString, EmptyString => true
  | String c r, String d t => (c =? d)%N && eqb r t
  | _, _ => false
  end.

End Str.

Infix "=?" := Str.eqb : str_scope.

(** The code points [str.isspace] holds of; [str.strip] removes them
    at both ends. *)
Definition white_space : list N :=
  [9; 10; 11; 12; 13; 28; 29; 30; 31; 32; 133; 160; 5760; 8192; 8193; 8194; 8195; 8196;
   8197; 8198; 8199; 8200; 8201; 8202; 8232; 8233; 8239; 8287; 12288]%N.

Definition is_space (c : N) : bool := existsb (N.eqb c) white_space.
Arguments is_space !c.

(** The code points [str.upper] changes, each with the code points
    it puts in its place (Unicode 14.0); the mapping of a code point
    does not depend on its neighbours. *)
Definition upper_table : list (N * list N) :=
  [(97, [65]); (98, [66]); (99, [67]); (100, [68]); (101, [69]); (102, [70]); (103, [71]);
   (104, [72]); (105, [73]); (106, [74]); (107, [75]); (108, [76]); (109, [77]);
   (110, [78]); (111, [79]); (112, [80]); (113, [81]); (114, [82]); (115, [83]);
   (116, [84]); (117, [85]); (118, [86]); (119, [87]); (120, [88]); (121, [89]);
   (122, [90]); (181, [924]); (223, [83; 83]); (224, [192]); (225, [193]); (226, [194]);
   (227, [195]); (228, [196]); (229, [197]); (230, [198]); (231, [199]); (232, [200]);
   (233, [201]); (234, [202]); (235, [203]); (236, [204]); (237, [205]); (238, [206]);
   (239, [207]); (240, [208]); (241, [209]); (242, [210]); (243, [211]); (244, [212]);
   (245, [213]); (246, [214]); (248, [216]); (249, [217]); (250, [218]); (251, [219]);
   (252, [220]); (253, [221]); (254, [222]); (255, [376]); (257, [256]); (259, [258]);
   (261, [260]); (263, [262]); (265, [264]); (267, [266]); (269, [268]); (271, [270]);
   (273, [272]); (275, [274]); (277, [276]); (279, [278]); (281, [280]); (283, [282]);
   (285, [284]); (287, [286]); (289, [288]); (291, [290]); (293, [292]); (295, [294]);
   (297, [296]); (299, [298]); (301, [300]); (303, [302]); (305, [73]); (307, [306]);
   (309, [308]); (311, [310]); (314, [313]); (316, [315]); (318, [317]); (320, [319]);
   (322, [321]); (324, [323]); (326, [325]); (328, [327]); (329, [700; 78]); (331, [330]);
   (333, [332]); (335, [334]); (337, [336]); (339, [338]); (341, [340]); (343, [342]);
   (345, [344]); (347, [346]); (349, [348]); (351, [350]); (353, [352]); (355, [354]);
   (357, [356]); (359, [358]); (361, [360]); (363, [362]); (365, [364]); (367, [366]);
   (369, [368]); (371, [370]); (373, [372]); (375, [374]); (378, [377]); (380, [379]);
   (382, [381]); (383, [83]); (384, [579]); (387, [386]); (389, [388]); (392, [391]);
   (396, [395]); (402, [401]); (405, [502]); (409, [408]); (410, [573]); (414, [544]);
   (417, [416]); (419, [418]); (421, [420]); (424, [423]); (429, [428]); (432, [431]);
   (436, [435]); (438, [437]); (441, [440]); (445, [444]); (447, [503]); (453, [452]);
   (454, [452]); (456, [455]); (457, [455]); (459, [458]); (460, [458]); (462, [461]);
   (464, [463]); (466, [465]); (468, [467]); (470, [469]); (472, [471]); (474, [473]);
   (476, [475]); (477, [398]); (479, [478]); (481, [480]); (483, [482]); (485, [484]);
   (487, [486]); (489, [488]); (491, [490]); (493, [492]); (495, [494]); (496, [74; 780]);
   (498, [497]); (499, [497]); (501, [500]); (505, [504]); (507, [506]); (509, [508]);
   (511, [510]); (513, [512]); (515, [514]); (517, [516]); (519, [518]); (521, [520]);
   (523, [522]); (525, [524]); (527, [526]); (529, [528]); (531, [530]); (533, [532]);
   (535, [534]); (537, [536]); (539, [538]); (541, [540]); (543, [542]); (547, [546]);
   (549, [548]); (551, [550]); (553, [552]); (555, [554]); (557, [556]); (559, [558]);
   (561, [560]); (563, [562]); (572, [571]); (575, [11390]); (576, [11391]); (578, [577]);
   (583, [582]); (585, [584]); (587, [586]); (589, [588]); (591, [590]); (592, [11375]);
   (593, [11373]); (594, [11376]); (595, [385]); (596, [390]); (598, [393]); (599, [394]);
   (601, [399]); (603, [400]); (604, [42923]); (608, [403]); (609, [42924]); (611, [404]);
   (613, [42893]); (614, [42922]); (616, [407]); (617, [406]); (618, [42926]);
   (619, [11362]); (620, [42925]); (623, [412]); (625, [11374]); (626, [413]); (629, [415]);
   (637, [11364]); (640, [422]); (642, [42949]); (643, [425]); (647, [42929]); (648, [430]);
   (649, [580]); (650, [433]); (651, [434]); (652, [581]); (658, [439]); (669, [42930]);
   (670, [42928]); (837, [921]); (881, [880]); (883, [882]); (887, [886]); (891, [1021]);
   (892, [1022]); (893, [1023]); (912, [921; 776; 769]); (940, [902]); (941, [904]);
   (942, [905]); (943, [906]); (944, [933; 776; 769]); (945, [913]); (946, [914]);
   (947, [915]); (948, [916]); (949, [917]); (950, [918]); (951, [919]); (952, [920]);
   (953, [921]); (954, [922]); (955, [923]); (956, [924]); (957, [925]); (958, [926]);
   (959, [927]); (960, [928]); (961, [929]); (962, [931]); (963, [931]); (964, [932]);
   (965, [933]); (966, [934]); (967, [935]); (968, [936]); (969, [937]); (970, [938]);
   (971, [939]); (972, [908]); (973, [910]); (974, [911]); (976, [914]); (977, [920]);
   (981, [934]); (982, [928]); (983, [975]); (985, [984]); (987, [986]); (989, [988]);
   (991, [990]); (993, [992]); (995, [994]); (997, [996]); (999, [998]); (1001, [1000]);
   (1003, [1002]); (1005, [1004]); (1007, [1006]); (1008, [922]); (1009, [929]);
   (1010, [1017]); (1011, [895]); (1013, [917]); (1016, [1015]); (1019, [1018]);
   (1072, [1040]); (1073, [1041]); (1074, [1042]); (1075, [1043]); (1076, [1044]);
   (1077, [1045]); (1078, [1046]); (1079, [1047]); (1080, [1048]); (1081, [1049]);
   (1082, [1050]); (1083, [1051]); (1084, [1052]); (1085, [1053]); (1086, [1054]);
   (1087, [1055]); (1088, [1056]); (1089, [1057]); (1090, [1058]); (1091, [1059]);
   (1092, [1060]); (1093, [1061]); (1094, [1062]); (1095, [1063]); (1096, [1064]);
   (1097, [1065]); (1098, [1066]); (1099, [1067]); (1100, [1068]); (1101, [1069]);
   (1102, [1070]); (1103, [1071]); (1104, [1024]); (1105, [1025]); (1106, [1026]);
   (1107, [1027]); (1108, [1028]); (1109, [1029]); (1110, [1030]); (1111, [1031]);
   (1112, [1032]); (1113, [1033]); (1114, [1034]); (1115, [1035]); (1116, [1036]);
   (1117, [1037]); (1118, [1038]); (1119, [1039]); (1121, [1120]); (1123, [1122]);
   (1125, [1124]); (1127, [1126]); (1129, [1128]); (1131, [1130]); (1133, [1132]);
   (1135, [1134]); (1137, [1136]); (1139, [1138]); (1141, [1140]); (1143, [1142]);
   (1145, [1144]); (1147, [1146]); (1149, [1148]); (1151, [1150]); (1153, [1152]);
   (1163, [1162]); (1165, [1164]); (1167, [1166]); (1169, [1168]); (1171, [1170]);
   (1173, [1172]); (1175, [1174]); (1177, [1176]); (1179, [1178]); (1181, [1180]);
   (1183, [1182]); (1185, [1184]); (1187, [1186]); (1189, [1188]); (1191, [1190]);
   (1193, [1192]); (1195, [1194]); (1197, [1196]); (1199, [1198]); (1201, [1200]);
   (1203, [1202]); (1205, [1204]); (1207, [1206]); (1209, [1208]); (1211, [1210]);
   (1213, [1212]); (1215, [1214]); (1218, [1217]); (1220, [1219]); (1222, [1221]);
   (1224, [1223]); (1226, [1225]); (1228, [1227]); (1230, [1229]); (1231, [1216]);
   (1233, [1232]); (1235, [1234]); (1237, [1236]); (1239, [1238]); (1241, [1240]);
   (1243, [1242]); (1245, [1244]); (1247, [1246]); (1249, [1248]); (1251, [1250]);
   (1253, [1252]); (1255, [1254]); (1257, [1256]); (1259, [1258]); (1261, [1260]);
   (1263, [1262]); (1265, [1264]); (1267, [1266]); (1269, [1268]); (1271, [1270]);
   (1273, [1272]); (1275, [1274]); (1277, [1276]); (1279, [1278]); (1281, [1280]);
   (1283, [1282]); (1285, [1284]); (1287, [1286]); (1289, [1288]); (1291, [1290]);
   (1293, [1292]); (1295, [1294]); (1297, [1296]); (1299, [1298]); (1301, [1300]);
   (1303, [1302]); (1305, [1304]); (1307, [1306]); (1309, [1308]); (1311, [1310]);
   (1313, [1312]); (1315, [1314]); (1317, [1316]); (1319, [1318]); (1321, [1320]);
   (1323, [1322]); (1325, [1324]); (1327, [1326]); (1377, [1329]); (1378, [1330]);
   (1379, [1331]); (1380, [1332]); (1381, [1333]); (1382, [1334]); (1383, [1335]);
   (1384, [1336]); (1385, [1337]); (1386, [1338]); (1387, [1339]); (1388, [1340]);
   (1389, [1341]); (1390, [1342]); (1391, [1343]); (1392, [1344]); (1393, [1345]);
   (1394, [1346]); (1395, [1347]); (1396, [1348]); (1397, [1349]); (1398, [1350]);
   (1399, [1351]); (1400, [1352]); (1401, [1353]); (1402, [1354]); (1403, [1355]);
   (1404, [1356]); (1405, [1357]); (1406, [1358]); (1407, [1359]); (1408, [1360]);
   (1409, [1361]); (1410, [1362]); (1411, [1363]); (1412, [1364]); (1413, [1365]);
   (1414, [1366]); (1415, [1333; 1362]); (4304, [7312]); (4305, [7313]); (4306, [7314]);
   (4307, [7315]); (4308, [7316]); (4309, [7317]); (4310, [7318]); (4311, [7319]);
   (4312, [7320]); (4313, [7321]); (4314, [7322]); (4315, [7323]); (4316, [7324]);
   (4317, [7325]); (4318, [7326]); (4319, [7327]); (4320, [7328]); (4321, [7329]);
   (4322, [7330]); (4323, [7331]); (4324, [7332]); (4325, [7333]); (4326, [7334]);
   (4327, [7335]); (4328, [7336]); (4329, [7337]); (4330, [7338]); (4331, [7339]);
   (4332, [7340]); (4333, [7341]); (4334, [7342]); (4335, [7343]); (4336, [7344]);
   (4337, [7345]); (4338, [7346]); (4339, [7347]); (4340, [7348]); (4341, [7349]);
   (4342, [7350]); (4343, [7351]); (4344, [7352]); (4345, [7353]); (4346, [7354]);
   (4349, [7357]); (4350, [7358]); (4351, [7359]); (5112, [5104]); (5113, [5105]);
   (5114, [5106]); (5115, [5107]); (5116, [5108]); (5117, [5109]); (7296, [1042]);
   (7297, [1044]); (7298, [1054]); (7299, [1057]); (7300, [1058]); (7301, [1058]);
   (7302, [1066]); (7303, [1122]); (7304, [42570]); (7545, [42877]); (7549, [11363]);
   (7566, [42950]); (7681, [7680]); (7683, [7682]); (7685, [7684]); (7687, [7686]);
   (7689, [7688]); (7691, [7690]); (7693, [7692]); (7695, [7694]); (7697, [7696]);
   (7699, [7698]); (7701, [7700]); (7703, [7702]); (7705, [7704]); (7707, [7706]);
   (7709, [7708]); (7711, [7710]); (7713, [7712]); (7715, [7714]); (7717, [7716]);
   (7719, [7718]); (7721, [7720]); (7723, [7722]); (7725, [7724]); (7727, [7726]);
   (7729, [7728]); (7731, [7730]); (7733, [7732]); (7735, [7734]); (7737, [7736]);
   (7739, [7738]); (7741, [7740]); (7743, [7742]); (7745, [7744]); (7747, [7746]);
   (7749, [7748]); (7751, [7750]); (7753, [7752]); (7755, [7754]); (7757, [7756]);
   (7759, [7758]); (7761, [7760]); (7763, [7762]); (7765, [7764]); (7767, [7766]);
   (7769, [7768]); (7771, [7770]); (7773, [7772]); (7775, [7774]); (7777, [7776]);
   (7779, [7778]); (7781, [7780]); (7783, [7782]); (7785, [7784]); (7787, [7786]);
   (7789, [7788]); (7791, [7790]); (7793, [7792]); (7795, [7794]); (7797, [7796]);
   (7799, [7798]); (7801, [7800]); (7803, [7802]); (7805, [7804]); (7807, [7806]);
   (7809, [7808]); (7811, [7810]); (7813, [7812]); (7815, [7814]); (7817, [7816]);
   (7819, [7818]); (7821, [7820]); (7823, [7822]); (7825, [7824]); (7827, [7826]);
   (7829, [7828]); (7830, [72; 817]); (7831, [84; 776]); (7832, [87; 778]);
   (7833, [89; 778]); (7834, [65; 702]); (7835, [7776]); (7841, [7840]); (7843, [7842]);
   (7845, [7844]); (7847, [7846]); (7849, [7848]); (7851, [7850]); (7853, [7852]);
   (7855, [7854]); (7857, [7856]); (7859, [7858]); (7861, [7860]); (7863, [7862]);
   (7865, [7864]); (7867, [7866]); (7869, [7868]); (7871, [7870]); (7873, [7872]);
   (7875, [7874]); (7877, [7876]); (7879, [7878]); (7881, [7880]); (7883, [7882]);
   (7885, [7884]); (7887, [7886]); (7889, [7888]); (7891, [7890]); (7893, [7892]);
   (7895, [7894]); (7897, [7896]); (7899, [7898]); (7901, [7900]); (7903, [7902]);
   (7905, [7904]); (7907, [7906]); (7909, [7908]); (7911, [7910]); (7913, [7912]);
   (7915, [7914]); (7917, [7916]); (7919, [7918]); (7921, [7920]); (7923, [7922]);
   (7925, [7924]); (7927, [7926]); (7929, [7928]); (7931, [7930]); (7933, [7932]);
   (7935, [7934]); (7936, [7944]); (7937, [7945]); (7938, [7946]); (7939, [7947]);
   (7940, [7948]); (7941, [7949]); (7942, [7950]); (7943, [7951]); (7952, [7960]);
   (7953, [7961]); (7954, [7962]); (7955, [7963]); (7956, [7964]); (7957, [7965]);
   (7968, [7976]); (7969, [7977]); (7970, [7978]); (7971, [7979]); (7972, [7980]);
   (7973, [7981]); (7974, [7982]); (7975, [7983]); (7984, [7992]); (7985, [7993]);
   (7986, [7994]); (7987, [7995]); (7988, [7996]); (7989, [7997]); (7990, [7998]);
   (7991, [7999]); (8000, [8008]); (8001, [8009]); (8002, [8010]); (8003, [8011]);
   (8004, [8012]); (8005, [8013]); (8016, [933; 787]); (8017, [8025]);
   (8018, [933; 787; 768]); (8019, [8027]); (8020, [933; 787; 769]); (8021, [8029]);
   (8022, [933; 787; 834]); (8023, [8031]); (8032, [8040]); (8033, [8041]); (8034, [8042]);
   (8035, [8043]); (8036, [8044]); (8037, [8045]); (8038, [8046]); (8039, [8047]);
   (8048, [8122]); (8049, [8123]); (8050, [8136]); (8051, [8137]); (8052, [8138]);
   (8053, [8139]); (8054, [8154]); (8055, [8155]); (8056, [8184]); (8057, [8185]);
   (8058, [8170]); (8059, [8171]); (8060, [8186]); (8061, [8187]); (8064, [7944; 921]);
   (8065, [7945; 921]); (8066, [7946; 921]); (8067, [7947; 921]); (8068, [7948; 921]);
   (8069, [7949; 921]); (8070, [7950; 921]); (8071, [7951; 921]); (8072, [7944; 921]);
   (8073, [7945; 921]); (8074, [7946; 921]); (8075, [7947; 921]); (8076, [7948; 921]);
   (8077, [7949; 921]); (8078, [7950; 921]); (8079, [7951; 921]); (8080, [7976; 921]);
   (8081, [7977; 921]); (8082, [7978; 921]); (8083, [7979; 921]); (8084, [7980; 921]);
   (8085, [7981; 921]); (8086, [7982; 921]); (8087, [7983; 921]); (8088, [7976; 921]);
   (8089, [7977; 921]); (8090, [7978; 921]); (8091, [7979; 921]); (8092, [7980; 921]);
   (8093, [7981; 921]); (8094, [7982; 921]); (8095, [7983; 921]); (8096, [8040; 921]);
   (8097, [8041; 921]); (8098, [8042; 921]); (8099, [8043; 921]); (8100, [8044; 921]);
   (8101, [8045; 921]); (8102, [8046; 921]); (8103, [8047; 921]); (8104, [8040; 921]);
   (8105, [8041; 921]); (8106, [8042; 921]); (8107, [8043; 921]); (8108, [8044; 921]);
   (8109, [8045; 921]); (8110, [8046; 921]); (8111, [8047; 921]); (8112, [8120]);
   (8113, [8121]); (8114, [8122; 921]); (8115, [913; 921]); (8116, [902; 921]);
   (8118, [913; 834]); (8119, [913; 834; 921]); (8124, [913; 921]); (8126, [921]);
   (8130, [8138; 921]); (8131, [919; 921]); (8132, [905; 921]); (8134, [919; 834]);
   (8135, [919; 834; 921]); (8140, [919; 921]); (8144, [8152]); (8145, [8153]);
   (8146, [921; 776; 768]); (8147, [921; 776; 769]); (8150, [921; 834]);
   (8151, [921; 776; 834]); (8160, [8168]); (8161, [8169]); (8162, [933; 776; 768]);
   (8163, [933; 776; 769]); (8164, [929; 787]); (8165, [8172]); (8166, [933; 834]);
   (8167, [933; 776; 834]); (8178, [8186; 921]); (8179, [937; 921]); (8180, [911; 921]);
   (8182, [937; 834]); (8183, [937; 834; 921]); (8188, [937; 921]); (8526, [8498]);
   (8560, [8544]); (8561, [8545]); (8562, [8546]); (8563, [8547]); (8564, [8548]);
   (8565, [8549]); (8566, [8550]); (8567, [8551]); (8568, [8552]); (8569, [8553]);
   (8570, [8554]); (8571, [8555]); (8572, [8556]); (8573, [8557]); (8574, [8558]);
   (8575, [8559]); (8580, [8579]); (9424, [9398]); (9425, [9399]); (9426, [9400]);
   (9427, [9401]); (9428, [9402]); (9429, [9403]); (9430, [9404]); (9431, [9405]);
   (9432, [9406]); (9433, [9407]); (9434, [9408]); (9435, [9409]); (9436, [9410]);
   (9437, [9411]); (9438, [9412]); (9439, [9413]); (9440, [9414]); (9441, [9415]);
   (9442, [9416]); (9443, [9417]); (9444, [9418]); (9445, [9419]); (9446, [9420]);
   (9447, [9421]); (9448, [9422]); (9449, [9423]); (11312, [11264]); (11313, [11265]);
   (11314, [11266]); (11315, [11267]); (11316, [11268]); (11317, [11269]); (11318, [11270]);
   (11319, [11271]); (11320, [11272]); (11321, [11273]); (11322, [11274]); (11323, [11275]);
   (11324, [11276]); (11325, [11277]); (11326, [11278]); (11327, [11279]); (11328, [11280]);
   (11329, [11281]); (11330, [11282]); (11331, [11283]); (11332, [11284]); (11333, [11285]);
   (11334, [11286]); (11335, [11287]); (11336, [11288]); (11337, [11289]); (11338, [11290]);
   (11339, [11291]); (11340, [11292]); (11341, [11293]); (11342, [11294]); (11343, [11295]);
   (11344, [11296]); (11345, [11297]); (11346, [11298]); (11347, [11299]); (11348, [11300]);
   (11349, [11301]); (11350, [11302]); (11351, [11303]); (11352, [11304]); (11353, [11305]);
   (11354, [11306]); (11355, [11307]); (11356, [11308]); (11357, [11309]); (11358, [11310]);
   (11359, [11311]); (11361, [11360]); (11365, [570]); (11366, [574]); (11368, [11367]);
   (11370, [11369]); (11372, [11371]); (11379, [11378]); (11382, [11381]); (11393, [11392]);
   (11395, [11394]); (11397, [11396]); (11399, [11398]); (11401, [11400]); (11403, [11402]);
   (11405, [11404]); (11407, [11406]); (11409, [11408]); (11411, [11410]); (11413, [11412]);
   (11415, [11414]); (11417, [11416]); (11419, [11418]); (11421, [11420]); (11423, [11422]);
   (11425, [11424]); (11427, [11426]); (11429, [11428]); (11431, [11430]); (11433, [11432]);
   (11435, [11434]); (11437, [11436]); (11439, [11438]); (11441, [11440]); (11443, [11442]);
   (11445, [11444]); (11447, [11446]); (11449, [11448]); (11451, [11450]); (11453, [11452]);
   (11455, [11454]); (11457, [11456]); (11459, [11458]); (11461, [11460]); (11463, [11462]);
   (11465, [11464]); (11467, [11466]); (11469, [11468]); (11471, [11470]); (11473, [11472]);
   (11475, [11474]); (11477, [11476]); (11479, [11478]); (11481, [11480]); (11483, [11482]);
   (11485, [11484]); (11487, [11486]); (11489, [11488]); (11491, [11490]); (11500, [11499]);
   (11502, [11501]); (11507, [11506]); (11520, [4256]); (11521, [4257]); (11522, [4258]);
   (11523, [4259]); (11524, [4260]); (11525, [4261]); (11526, [4262]); (11527, [4263]);
   (11528, [4264]); (11529, [4265]); (11530, [4266]); (11531, [4267]); (11532, [4268]);
   (11533, [4269]); (11534, [4270]); (11535, [4271]); (11536, [4272]); (11537, [4273]);
   (11538, [4274]); (11539, [4275]); (11540, [4276]); (11541, [4277]); (11542, [4278]);
   (11543, [4279]); (11544, [4280]); (11545, [4281]); (11546, [4282]); (11547, [4283]);
   (11548, [4284]); (11549, [4285]); (11550, [4286]); (11551, [4287]); (11552, [4288]);
   (11553, [4289]); (11554, [4290]); (11555, [4291]); (11556, [4292]); (11557, [4293]);
   (11559, [4295]); (11565, [4301]); (42561, [42560]); (42563, [42562]); (42565, [42564]);
   (42567, [42566]); (42569, [42568]); (42571, [42570]); (42573, [42572]); (42575, [42574]);
   (42577, [42576]); (42579, [42578]); (42581, [42580]); (42583, [42582]); (42585, [42584]);
   (42587, [42586]); (42589, [42588]); (42591, [42590]); (42593, [42592]); (42595, [42594]);
   (42597, [42596]); (42599, [42598]); (42601, [42600]); (42603, [42602]); (42605, [42604]);
   (42625, [42624]); (42627, [42626]); (42629, [42628]); (42631, [42630]); (42633, [42632]);
   (42635, [42634]); (42637, [42636]); (42639, [42638]); (42641, [42640]); (42643, [42642]);
   (42645, [42644]); (42647, [42646]); (42649, [42648]); (42651, [42650]); (42787, [42786]);
   (42789, [42788]); (42791, [42790]); (42793, [42792]); (42795, [42794]); (42797, [42796]);
   (42799, [42798]); (42803, [42802]); (42805, [42804]); (42807, [42806]); (42809, [42808]);
   (42811, [42810]); (42813, [42812]); (42815, [42814]); (42817, [42816]); (42819, [42818]);
   (42821, [42820]); (42823, [42822]); (42825, [42824]); (42827, [42826]); (42829, [42828]);
   (42831, [42830]); (42833, [42832]); (42835, [42834]); (42837, [42836]); (42839, [42838]);
   (42841, [42840]); (42843, [42842]); (42845, [42844]); (42847, [42846]); (42849, [42848]);
   (42851, [42850]); (42853, [42852]); (42855, [42854]); (42857, [42856]); (42859, [42858]);
   (42861, [42860]); (42863, [42862]); (42874, [42873]); (42876, [42875]); (42879, [42878]);
   (42881, [42880]); (42883, [42882]); (42885, [42884]); (42887, [42886]); (42892, [42891]);
   (42897, [42896]); (42899, [42898]); (42900, [42948]); (42903, [42902]); (42905, [42904]);
   (42907, [42906]); (42909, [42908]); (42911, [42910]); (42913, [42912]); (42915, [42914]);
   (42917, [42916]); (42919, [42918]); (42921, [42920]); (42933, [42932]); (42935, [42934]);
   (42937, [42936]); (42939, [42938]); (42941, [42940]); (42943, [42942]); (42945, [42944]);
   (42947, [42946]); (42952, [42951]); (42954, [42953]); (42961, [42960]); (42967, [42966]);
   (42969, [42968]); (42998, [42997]); (43859, [42931]); (43888, [5024]); (43889, [5025]);
   (43890, [5026]); (43891, [5027]); (43892, [5028]); (43893, [5029]); (43894, [5030]);
   (43895, [5031]); (43896, [5032]); (43897, [5033]); (43898, [5034]); (43899, [5035]);
   (43900, [5036]); (43901, [5037]); (43902, [5038]); (43903, [5039]); (43904, [5040]);
   (43905, [5041]); (43906, [5042]); (43907, [5043]); (43908, [5044]); (43909, [5045]);
   (43910, [5046]); (43911, [5047]); (43912, [5048]); (43913, [5049]); (43914, [5050]);
   (43915, [5051]); (43916, [5052]); (43917, [5053]); (43918, [5054]); (43919, [5055]);
   (43920, [5056]); (43921, [5057]); (43922, [5058]); (43923, [5059]); (43924, [5060]);
   (43925, [5061]); (43926, [5062]); (43927, [5063]); (43928, [5064]); (43929, [5065]);
   (43930, [5066]); (43931, [5067]); (43932, [5068]); (43933, [5069]); (43934, [5070]);
   (43935, [5071]); (43936, [5072]); (43937, [5073]); (43938, [5074]); (43939, [5075]);
   (43940, [5076]); (43941, [5077]); (43942, [5078]); (43943, [5079]); (43944, [5080]);
   (43945, [5081]); (43946, [5082]); (43947, [5083]); (43948, [5084]); (43949, [5085]);
   (43950, [5086]); (43951, [5087]); (43952, [5088]); (43953, [5089]); (43954, [5090]);
   (43955, [5091]); (43956, [5092]); (43957, [5093]); (43958, [5094]); (43959, [5095]);
   (43960, [5096]); (43961, [5097]); (43962, [5098]); (43963, [5099]); (43964, [5100]);
   (43965, [5101]); (43966, [5102]); (43967, [5103]); (64256, [70; 70]); (64257, [70; 73]);
   (64258, [70; 76]); (64259, [70; 70; 73]); (64260, [70; 70; 76]); (64261, [83; 84]);
   (64262, [83; 84]); (64275, [1348; 1350]); (64276, [1348; 1333]); (64277, [1348; 1339]);
   (64278, [1358; 1350]); (64279, [1348; 1341]); (65345, [65313]); (65346, [65314]);
   (65347, [65315]); (65348, [65316]); (65349, [65317]); (65350, [65318]); (65351, [65319]);
   (65352, [65320]); (65353, [65321]); (65354, [65322]); (65355, [65323]); (65356, [65324]);
   (65357, [65325]); (65358, [65326]); (65359, [65327]); (65360, [65328]); (65361, [65329]);
   (65362, [65330]); (65363, [65331]); (65364, [65332]); (65365, [65333]); (65366, [65334]);
   (65367, [65335]); (65368, [65336]); (65369, [65337]); (65370, [65338]); (66600, [66560]);
   (66601, [66561]); (66602, [66562]); (66603, [66563]); (66604, [66564]); (66605, [66565]);
   (66606, [66566]); (66607, [66567]); (66608, [66568]); (66609, [66569]); (66610, [66570]);
   (66611, [66571]); (66612, [66572]); (66613, [66573]); (66614, [66574]); (66615, [66575]);
   (66616, [66576]); (66617, [66577]); (66618, [66578]); (66619, [66579]); (66620, [66580]);
   (66621, [66581]); (66622, [66582]); (66623, [66583]); (66624, [66584]); (66625, [66585]);
   (66626, [66586]); (66627, [66587]); (66628, [66588]); (66629, [66589]); (66630, [66590]);
   (66631, [66591]); (66632, [66592]); (66633, [66593]); (66634, [66594]); (66635, [66595]);
   (66636, [66596]); (66637, [66597]); (66638, [66598]); (66639, [66599]); (66776, [66736]);
   (66777, [66737]); (66778, [66738]); (66779, [66739]); (66780, [66740]); (66781, [66741]);
   (66782, [66742]); (66783, [66743]); (66784, [66744]); (66785, [66745]); (66786, [66746]);
   (66787, [66747]); (66788, [66748]); (66789, [66749]); (66790, [66750]); (66791, [66751]);
   (66792, [66752]); (66793, [66753]); (66794, [66754]); (66795, [66755]); (66796, [66756]);
   (66797, [66757]); (66798, [66758]); (66799, [66759]); (66800, [66760]); (66801, [66761]);
   (66802, [66762]); (66803, [66763]); (66804, [66764]); (66805, [66765]); (66806, [66766]);
   (66807, [66767]); (66808, [66768]); (66809, [66769]); (66810, [66770]); (66811, [66771]);
   (66967, [66928]); (66968, [66929]); (66969, [66930]); (66970, [66931]); (66971, [66932]);
   (66972, [66933]); (66973, [66934]); (66974, [66935]); (66975, [66936]); (66976, [66937]);
   (66977, [66938]); (66979, [66940]); (66980, [66941]); (66981, [66942]); (66982, [66943]);
   (66983, [66944]); (66984, [66945]); (66985, [66946]); (66986, [66947]); (66987, [66948]);
   (66988, [66949]); (66989, [66950]); (66990, [66951]); (66991, [66952]); (66992, [66953]);
   (66993, [66954]); (66995, [66956]); (66996, [66957]); (66997, [66958]); (66998, [66959]);
   (66999, [66960]); (67000, [66961]); (67001, [66962]); (67003, [66964]); (67004, [66965]);
   (68800, [68736]); (68801, [68737]); (68802, [68738]); (68803, [68739]); (68804, [68740]);
   (68805, [68741]); (68806, [68742]); (68807, [68743]); (68808, [68744]); (68809, [68745]);
   (68810, [68746]); (68811, [68747]); (68812, [68748]); (68813, [68749]); (68814, [68750]);
   (68815, [68751]); (68816, [68752]); (68817, [68753]); (68818, [68754]); (68819, [68755]);
   (68820, [68756]); (68821, [68757]); (68822, [68758]); (68823, [68759]); (68824, [68760]);
   (68825, [68761]); (68826, [68762]); (68827, [68763]); (68828, [68764]); (68829, [68765]);
   (68830, [68766]); (68831, [68767]); (68832, [68768]); (68833, [68769]); (68834, [68770]);
   (68835, [68771]); (68836, [68772]); (68837, [68773]); (68838, [68774]); (68839, [68775]);
   (68840, [68776]); (68841, [68777]); (68842, [68778]); (68843, [68779]); (68844, [68780]);
   (68845, [68781]); (68846, [68782]); (68847, [68783]); (68848, [68784]); (68849, [68785]);
   (68850, [68786]); (71872, [71840]); (71873, [71841]); (71874, [71842]); (71875, [71843]);
   (71876, [71844]); (71877, [71845]); (71878, [71846]); (71879, [71847]); (71880, [71848]);
   (71881, [71849]); (71882, [71850]); (71883, [71851]); (71884, [71852]); (71885, [71853]);
   (71886, [71854]); (71887, [71855]); (71888, [71856]); (71889, [71857]); (71890, [71858]);
   (71891, [71859]); (71892, [71860]); (71893, [71861]); (71894, [71862]); (71895, [71863]);
   (71896, [71864]); (71897, [71865]); (71898, [71866]); (71899, [71867]); (71900, [71868]);
   (71901, [71869]); (71902, [71870]); (71903, [71871]); (93792, [93760]); (93793, [93761]);
   (93794, [93762]); (93795, [93763]); (93796, [93764]); (93797, [93765]); (93798, [93766]);
   (93799, [93767]); (93800, [93768]); (93801, [93769]); (93802, [93770]); (93803, [93771]);
   (93804, [93772]); (93805, [93773]); (93806, [93774]); (93807, [93775]); (93808, [93776]);
   (93809, [93777]); (93810, [93778]); (93811, [93779]); (93812, [93780]); (93813, [93781]);
   (93814, [93782]); (93815, [93783]); (93816, [93784]); (93817, [93785]); (93818, [93786]);
   (93819, [93787]); (93820, [93788]); (93821, [93789]); (93822, [93790]); (93823, [93791]);
   (125218, [125184]); (125219, [125185]); (125220, [125186]); (125221, [125187]);
   (125222, [125188]); (125223, [125189]); (125224, [125190]); (125225, [125191]);
   (125226, [125192]); (125227, [125193]); (125228, [125194]); (125229, [125195]);
   (125230, [125196]); (125231, [125197]); (125232, [125198]); (125233, [125199]);
   (125234, [125200]); (125235, [125201]); (125236, [125202]); (125237, [125203]);
   (125238, [125204]); (125239, [125205]); (125240, [125206]); (125241, [125207]);
   (125242, [125208]); (125243, [125209]); (125244, [125210]); (125245, [125211]);
   (125246, [125212]); (125247, [125213]); (125248, [125214]); (125249, [125215]);
   (125250, [125216]); (125251, [125217])]%N.

Definition upper_char (c : N) : string :=
  match find (fun kv => (fst kv =? c)%N) upper_table with
  | Some kv => of_list (snd kv)
  | None => String c EmptyString
  end.
Arguments upper_char !c.

Fixpoint upper (s : string) : string :=
  match s with
  | EmptyString => EmptyString
  | String c r => append (upper_char c) (upper r)
  end.

Fixpoint lstrip (s : string) : string :=
  match s with
  | EmptyString => EmptyString
  | String c r => if is_space c then lstrip r else s
  end.

Definition is_empty (s : string) : bool :=
  match s with EmptyString => true | _ => false end.

Fixpoint rstrip (s : string) : string :=
  match s with
  | EmptyString => EmptyString
  | String c r =>
      let r' := rstrip r in
      if is_space c && is_empty r' then EmptyString else String c r'
  end.

Definition strip (s : string) : string := rstrip (lstrip s).

Fixpoint to_list (s : string) : list N :=
  match s with
  | EmptyString => []
  | String c r => c :: to_list r
  end.

(** A code point that [str.upper] leaves as it is and that is no
    white space, and a string made of such code points. *)
Definition settled (c : N) : bool :=
  negb (is_space c)
  && match find (fun kv => (fst kv =? c)%N) upper_table with Some _ => false | None => true end.
Arguments settled !c.


Fixpoint plain (s : string) : bool :=
  match s with
  | EmptyString => true
  | String c r => settled c && plain r
  end.


(** A string without white space. *)
Fixpoint no_space (s : string) : bool :=
  match s with
  | EmptyString => true
  | String c r => negb (is_space c) && no_space r
  end.

(** ** Python values *)

Set Warnings "-register-all".

Inductive pyval : Type :=
| PNone
| PBool (b : bool)
| PInt (n : Z)
| PFloat (f : spec_float)
| PStr (s : string)
| PList (l : list pyval)
| PDict (d : list (string * pyval)).

Inductive exn : Type :=
| AttributeError
| TypeError
| RuntimeError (msg : string)
| MultipleResultsFound
| RequestError (msg : string)
| StoreError
| UnicodeEncodeError.

Inductive result (A : Type) : Type :=
| Ok (a : A)
| Raise (e : exn).
Arguments Ok {A} a.
Arguments Raise {A} e.

Definition bind {A B} (m : result A) (k : A -> result B) : result B :=
  match m with
  | Ok a => k a
  | Raise e => Raise e
  end.

Notation "x <- m ;; k" := (bind m (fun x => k))
  (at level 61, m at next level, right associativity).

Definition raised {A} (r : result A) : bool :=
  match r with Ok _ => false | Raise _ => true end.

(** Truth value of a Python object, as [or], [not] and [if] test it. *)
Definition truthy (v : pyval) : bool :=
  match v with
  | PNone => false
  | PBool b => b
  | PInt n => negb (n =? 0)%Z
  | PFloat (S754_zero _) => false
  | PFloat _ => true
  | PStr s => negb (is_empty s)
  | PList l => match l with [] => false | _ => true end
  | PDict d => match d with [] => false | _ => true end
  end.

(** [a or b] once both operands are evaluated. *)
Definition py_or (a b : pyval) : pyval := if truthy a then a else b.

Definition is_none (v : pyval) : bool :=
  match v with PNone => true | _ => false end.

Definition is_list (v : pyval) : bool :=
  match v with PList _ => true | _ => false end.

(** [d.get(k)] on a dict: the value stored under [k], else [None]. *)
Definition get (d : list (string * pyval)) (k : string) : pyval :=
  match find (fun kv => Str.eqb (fst kv) k) d with
  | Some kv => snd kv
  | None => PNone
  end.

(** [v.get(k)]: only a dict has the method. *)
Definition py_get (v : pyval) (k : string) : result pyval :=
  match v with
  | PDict d => Ok (get d k)
  | _ => Raise AttributeError
  end.

(** [v.get(k1) or v.get(k2) or ... or v.get(kn)], evaluated from the
    left with short circuit: the first truthy value, else the value
    of the last operand. *)
Fixpoint get_or (v : pyval) (keys : list string) : result pyval :=
  match keys with
  | [] => Ok PNone
  | k :: ks =>
      match ks with
      | [] => py_get v k
      | _ => x <- py_get v k ;; if truthy x then Ok x else get_or v ks
      end
  end.

(** The value of that expression when [v] is the dict [d]. *)
Fixpoint first_or (d : list (string * pyval)) (keys : list string) : pyval :=
  match keys with
  | [] => PNone
  | k :: ks =>
      match ks with
      | [] => get d k
      | _ => if truthy (get d k) then get d k else first_or d ks
      end
  end.

(** [v] is what the expression selects in [d]: the value of the first
    key holding a truthy value, or that of the last key when no
    earlier key holds one. *)
Definition selects (d : list (string * pyval)) (keys : list string) (v : pyval) : Prop :=
  exists pre k post,
    keys = pre ++ k :: post
    /\ Forall (fun k' => truthy (get d k') = false) pre
    /\ get d k = v
    /\ (truthy v = true \/ post = []).

(** [v.strip()]: only a [str] has the method. *)
Definition py_strip (v : pyval) : result string :=
  match v with
  | PStr s => Ok (strip s)
  | _ => Raise AttributeError
  end.

(** [for x in v]: the elements iterated over. *)
Definition py_iter (v : pyval) : result (list pyval) :=
  match v with
  | PList l => Ok l
  | PDict d => Ok (map (fun kv => PStr (fst kv)) d)
  | PStr s => Ok (map (fun c => PStr (String c EmptyString)) (to_list s))
  | _ => Raise TypeError
  end.

(** What the interpreter and its libraries contribute and the
    repository does not define: the parsers behind [float(s)] and
    [int(s)] on a [str] ([None] when they raise), [str(v)] on a value
    that is not a [str], and the rendering of a millisecond time stamp
    by [datetime] at UTC+8 ([None] when it raises). *)
Class Runtime : Type := {
  float_of_str : string -> option spec_float;
  int_of_str : string -> option Z;
  repr : pyval -> string;
  beijing_strftime : Z -> option string
}.

(** [float(n)] on an [int]: rounded to nearest even, [OverflowError]
    beyond the range. *)
Definition float_of_int (n : Z) : option spec_float :=
  match binary_normalize 53 1024 n 0 false with
  | S754_infinity _ => None
  | f => Some f
  end.

(** [int(f)] on a [float]: truncation, an error on infinities and NaN. *)
Definition int_of_float (f : spec_float) : option Z :=
  match f with
  | S754_zero _ => Some 0
  | S754_finite s m e =>
      let mag := if (0 <=? e)%Z then Z.pos m * 2 ^ e else Z.pos m / 2 ^ (- e) in
      Some (if s then - mag else mag)
  | _ => None
  end.

Definition float_one : spec_float := S754_finite false 4503599627370496 (-52).

Section Coercions.
Context {rt : Runtime}.

(** [str(v)]. *)
Definition py_str (v : pyval) : string :=
  match v with
  | PStr s => s
  | _ => repr v
  end.

Definition _to_float (x : pyval) : option spec_float :=
  match x with
  | PFloat f => Some f
  | PInt n => float_of_int n
  | PBool b => Some (if b then float_one else S754_zero false)
  | PStr s => float_of_str s
  | _ => None
  end.

Definition _to_int (x : pyval) : option Z :=
  match x with
  | PInt n => Some n
  | PBool b => Some (if b then 1 else 0)
  | PFloat f => int_of_float f
  | PStr s => int_of_str s
  | _ => None
  end.

Definition _format_beijing_text (ms : option Z) : option string :=
  match ms with
  | None => None
  | Some n => beijing_strftime n
  end.
End Coercions.

(** ** [canonical_platform_name] *)

(** The function on a [str] argument. *)
Definition canonical_str (name : string) : string :=
  let p := upper (strip name) in
  if Str.eqb p "C5" then "C5GAME"
  else if Str.eqb p "HALO" then "HALOSKINS"
  else p.

(** The function on any argument: [(name or "")] must be a [str]. *)
Definition canonical_platform_name (name : pyval) : result string :=
  match py_or name (PStr "") with
  | PStr s => Ok (canonical_str s)
  | _ => Raise AttributeError
  end.

(** ** The tables of [db.py] *)

Module Item.
Record t : Type := { id : Z; name : option string; market_hash_name : string }.
End Item.

Module Platform.
Record t : Type :=
  { id : Z; item_id : Z; name : string; platform_item_id : option string }.
End Platform.

(** A row of [prices]; its key and [created_at] are given by the store
    on insertion and are not part of the row the job builds. *)
Module Price.
Record t : Type := {
  market_hash_name : string;
  platform : string;
  platform_item_id : option string;
  item_id : option Z;
  platform_id : option Z;
  sell_price : option spec_float;
  bidding_price : option spec_float;
  sell_count : option Z;
  bidding_count : option Z;
  update_time : option Z;
  update_time_text : option string
}.
End Price.

(** ** The world outside the job *)

(** The store, the log of the calls made to the price client (the
    credential that served the call and the names asked for), the
    number of commits attempted and the clock, in milliseconds. *)
Record world : Type := {
  items : list Item.t;
  platforms : list Platform.t;
  prices : list Price.t;
  calls : list (option string * list string);
  commits : nat;
  clock : Z
}.

(** What the job cannot decide: the answer of the remote service to
    the n-th call, and whether the store accepts the n-th commit. *)
Record env : Type := {
  post_batch : nat -> option string -> list string -> result pyval;
  commit_ok : nat -> list Price.t -> bool
}.

Definition log_call (w : world) (key : option string) (names : list string) : world :=
  {| items := items w; platforms := platforms w; prices := prices w;
     calls := calls w ++ [(key, names)]; commits := commits w; clock := clock w |}.

Definition sleep (w : world) (ms : Z) : world :=
  {| items := items w; platforms := platforms w; prices := prices w;
     calls := calls w; commits := commits w; clock := clock w + ms |}.

(** ** [SteamDTClient] *)

Module SteamDTClient.
Record t : Type := { api_key : option string }.

(** [if self.api_key]: neither [None] nor the empty string. *)
Definition has_key (c : t) : bool :=
  match api_key c with
  | Some k => negb (is_empty k)
  | None => false
  end.

Definition _ensure_key (c : t) : result unit :=
  if has_key c then Ok tt
  else Raise (RuntimeError "未配置 STEAMDT_API_KEY，请在环境变量中设置后重试。").

(** The call is logged on entry; the request goes out only with a key. *)
Definition get_price_batch (e : env) (c : t) (market_hash_names : list string)
    (w : world) : result pyval * world :=
  let w1 := log_call w (api_key c) market_hash_names in
  match _ensure_key c with
  | Raise x => (Raise x, w1)
  | Ok _ => (post_batch e (List.length (calls w)) (api_key c) market_hash_names, w1)
  end.
End SteamDTClient.

(** ** Queries of the job on the store *)

Fixpoint insert_by_id (x : Item.t) (l : list Item.t) : list Item.t :=
  match l with
  | [] => [x]
  | y :: r => if Item.id x <=? Item.id y then x :: l else y :: insert_by_id x r
  end.

(** [query(Item).filter(id >= lo, id <= hi).order_by(id.asc()).all()],
    on a store that answers. *)
Definition items_in_range (w : world) (lo hi : Z) : list Item.t :=
  fold_right insert_by_id []
    (filter (fun it => (lo <=? Item.id it) && (Item.id it <=? hi)) (items w)).

(** [int(query(func.max(Item.id)).scalar() or 0)], on a store that
    answers. *)
Definition max_item_id (w : world) : Z :=
  match items w with
  | [] => 0
  | it :: r => fold_left (fun m x => Z.max m (Item.id x)) r (Item.id it)
  end.

Definition one_or_none {A} (l : list A) : result (option A) :=
  match l with
  | [] => Ok None
  | [x] => Ok (Some x)
  | _ => Raise MultipleResultsFound
  end.

(** A string that the store takes as the parameter of a query: one
    without a surrogate code point, which UTF-8 does not encode (a
    JSON escape can put one in a name). *)
Fixpoint encodable (s : string) : bool :=
  match s with
  | EmptyString => true
  | String c r => negb ((55296 <=? c) && (c <=? 57343))%N && encodable r
  end.

(** The two lookups of the write block, on a store that answers:
    binding a name that cannot be encoded raises, and so does finding
    more than one row. *)
Definition item_by_name (w : world) (mhn : string) : result (option Item.t) :=
  if encodable mhn
  then one_or_none (filter (fun it => Str.eqb (Item.market_hash_name it) mhn) (items w))
  else Raise UnicodeEncodeError.

Definition platform_of (w : world) (iid : Z) (plat : string) : result (option Platform.t) :=
  if encodable plat
  then one_or_none
         (filter (fun p => (Platform.item_id p =? iid)%Z && Str.eqb (Platform.name p) plat)
            (platforms w))
  else Raise UnicodeEncodeError.

(** ** The write block shared by the two jobs

    Lines 197-262 of [PriceBatchJob._run_one_range] and lines 467-531 of
    [DualApiSequentialJob._run_one_range] are the same text. *)

(** A session: the rows added and not yet committed. *)
Record session : Type := { pending : list Price.t }.

Definition get_session : session := {| pending := [] |}.
Definition session_add (s : session) (row : Price.t) : session :=
  {| pending := pending s ++ [row] |}.
Definition session_rollback (s : session) : session := {| pending := [] |}.

(** The list of item records of a response. *)
Definition data_list_of (resp : pyval) : list pyval :=
  match resp with
  | PDict d =>
      match get d "data" with
      | PList l => l
      | _ =>
          match get d "items" with
          | PList l => l
          | _ => match get d "results" with PList l => l | _ => [] end
          end
      end
  | PList l => l
  | _ => []
  end.

(** Lines 228-232: the time stamp in milliseconds. *)
Definition to_millis (ut_int : option Z) : option Z :=
  match ut_int with
  | Some n => if n <? 1000000000000 then Some (n * 1000) else Some n
  | None => None
  end.

Section WriteBlock.
Context {rt : Runtime}.

(** The body of [for p in plats]: the row built from one platform entry. *)
Definition platform_row (w : world) (mhn : string) (item_id_val : option Z)
    (p : pyval) : result Price.t :=
  plat_name_raw <- get_or p ["platform"; "name"; "plat"] ;;
  plat_name <- canonical_platform_name (py_or plat_name_raw (PStr "")) ;;
  pid0 <- get_or p ["itemId"; "platformItemId"; "platform_item_id"] ;;
  let pid := py_or pid0 PNone in
  sell0 <- get_or p ["sell_price"; "sellPrice"; "sell"; "price"] ;;
  let sell := _to_float sell0 in
  buy0 <- get_or p ["bidding_price"; "biddingPrice"; "buy"; "buy_price"] ;;
  let buy := _to_float buy0 in
  sc0 <- get_or p ["sell_count"; "sellCount"] ;;
  let sell_count := _to_int sc0 in
  bc0 <- get_or p ["bidding_count"; "biddingCount"] ;;
  let bidding_count := _to_int bc0 in
  ut <- get_or p ["update_time"; "updateTime"] ;;
  let ut_int := if is_none ut then None else _to_int ut in
  let ut_int := to_millis ut_int in
  plat_id_val <-
    match item_id_val with
    | Some iid =>
        if (iid =? 0)%Z then Ok None
        else plat_rec <- platform_of w iid plat_name ;;
             Ok (option_map Platform.id plat_rec)
    | None => Ok None
    end ;;
  Ok {| Price.market_hash_name := mhn;
        Price.platform := plat_name;
        Price.platform_item_id := if is_none pid then None else Some (py_str pid);
        Price.item_id := item_id_val;
        Price.platform_id := plat_id_val;
        Price.sell_price := sell;
        Price.bidding_price := buy;
        Price.sell_count := sell_count;
        Price.bidding_count := bidding_count;
        Price.update_time := ut_int;
        Price.update_time_text := _format_beijing_text ut_int |}.

(** [for p in plats: ... sess2.add(row)]; the session reached when a
    row raises is kept, for the handler to roll back. *)
Fixpoint add_platform_rows (w : world) (mhn : string) (item_id_val : option Z)
    (plats : list pyval) (s : session) : result unit * session :=
  match plats with
  | [] => (Ok tt, s)
  | p :: ps =>
      match platform_row w mhn item_id_val p with
      | Ok row => add_platform_rows w mhn item_id_val ps (session_add s row)
      | Raise x => (Raise x, s)
      end
  end.

(** The body of [for it in (data_list or [])]. *)
Definition add_item_rows (w : world) (it : pyval) (s : session)
    : result unit * session :=
  match (x <- get_or it ["marketHashName"; "market_hash_name"] ;;
         py_strip (py_or x (PStr ""))) with
  | Raise x => (Raise x, s)
  | Ok mhn =>
      if is_empty mhn then (Ok tt, s)
      else
        match (x <- get_or it ["platforms"; "platformList"; "dataList"] ;;
               Ok (py_or x (PList []))) with
        | Raise x => (Raise x, s)
        | Ok plats0 =>
            let plats := match plats0 with PDict _ => PList [plats0] | _ => plats0 end in
            match item_by_name w mhn with
            | Raise x => (Raise x, s)
            | Ok item_rec =>
                let item_id_val := option_map Item.id item_rec in
                match py_iter plats with
                | Raise x => (Raise x, s)
                | Ok ps => add_platform_rows w mhn item_id_val ps s
                end
            end
        end
  end.

Fixpoint add_all_rows (w : world) (data_list : list pyval) (s : session)
    : result unit * session :=
  match data_list with
  | [] => (Ok tt, s)
  | it :: r =>
      match add_item_rows w it s with
      | (Ok _, s1) => add_all_rows w r s1
      | (Raise x, s1) => (Raise x, s1)
      end
  end.

(** The block from [data_list = []] to the end of the outer [for]:
    the response turned into the rows added to the session. *)
Definition build_rows (w : world) (resp : pyval) (s : session) : result unit * session :=
  add_all_rows w (data_list_of resp) s.

Definition count_commit (w : world) (rows : list Price.t) : world :=
  {| items := items w; platforms := platforms w; prices := prices w ++ rows;
     calls := calls w; commits := S (commits w); clock := clock w |}.

(** [sess2 = get_session(); try: ...; sess2.commit()
     except Exception: sess2.rollback(); raise
     finally: sess2.close()] *)
Definition write_prices (e : env) (resp : pyval) (w : world) : result unit * world :=
  let sess2 := get_session in
  match build_rows w resp sess2 with
  | (Ok _, s) =>
      if commit_ok e (commits w) (pending s)
      then (Ok tt, count_commit w (pending s))
      else let s' := session_rollback s in
           (Raise StoreError, count_commit w (pending s'))
  | (Raise x, s) =>
      let s' := session_rollback s in
      (Raise x, w)
  end.
End WriteBlock.

(** ** The background thread

    Where the thread running [_loop] stands.  [remain] counts the
    slices of 0.2 s still to wait. *)
Inductive pc : Type :=
| AtLoopHead
| AtPauseWait
| AtStopCheck
| AtRunWindow
| AtDoneCheck
| AtDelay (remain : Z)
| Exited.

(** [int(a or d)] for an optional integer argument. *)
Definition int_or (a : option Z) (d : Z) : Z :=
  match a with
  | Some n => if n =? 0 then d else n
  | None => d
  end.

Definition nonempty_names (its : list Item.t) : list string :=
  filter (fun n => negb (is_empty n)) (map Item.market_hash_name its).

(** [str(e)] of a caught exception. *)
Definition exn_message (x : exn) : string :=
  match x with
  | AttributeError => "AttributeError"
  | TypeError => "TypeError"
  | RuntimeError msg => msg
  | MultipleResultsFound => "MultipleResultsFound"
  | RequestError msg => msg
  | StoreError => "StoreError"
  | UnicodeEncodeError => "UnicodeEncodeError"
  end.

(** ** [PriceBatchJob] *)

Module PriceBatchJob.

Record t : Type := {
  client : SteamDTClient.t;
  default_batch_size : Z;
  default_interval : Z;
  _thread : bool;
  _stop_event : bool;
  _pause_event : bool;
  running : bool;
  paused : bool;
  max_id : Z;
  completed_count : Z;
  current_start_id : Z;
  batch_size : Z;
  interval_sec : Z;
  last_processed_range : option (Z * Z);
  next_run_ts : option Z
}.

(** The snapshot of [status()], without [percent] and
    [nextRunSeconds], which are computed in floating point from the
    clock. *)
Module Status.
Record t : Type := {
  running : bool;
  paused : bool;
  state : string;
  maxId : Z;
  completedCount : Z;
  currentStartId : Z;
  currentEndIdNext : Z;
  lastProcessedRange : option (Z * Z);
  intervalSec : Z;
  batchSize : Z
}.
End Status.

Definition init (client : SteamDTClient.t) (batch_size interval_sec : Z) : t :=
  {| client := client;
     default_batch_size := Z.max 1 batch_size;
     default_interval := Z.max 1 interval_sec;
     _thread := false; _stop_event := false; _pause_event := false;
     running := false; paused := false;
     max_id := 0; completed_count := 0; current_start_id := 0;
     batch_size := Z.max 1 batch_size;
     interval_sec := Z.max 1 interval_sec;
     last_processed_range := None; next_run_ts := None |}.

Definition status (st : t) : Status.t :=
  {| Status.running := running st;
     Status.paused := paused st;
     Status.state := if paused st then "paused" else if running st then "running" else "idle";
     Status.maxId := max_id st;
     Status.completedCount := completed_count st;
     Status.currentStartId := current_start_id st;
     Status.currentEndIdNext :=
       if 0 <? current_start_id st
       then Z.min (max_id st) (current_start_id st + batch_size st - 1) else 0;
     Status.lastProcessedRange := last_processed_range st;
     Status.intervalSec := interval_sec st;
     Status.batchSize := batch_size st |}.

(** [start]: the reply, the job, and the thread launched, if any, on
    a store that answers the query of the largest identifier.  The
    reply is the snapshot of the job as [start] leaves it, before the
    thread takes a step; on a running job it is the snapshot that
    line 72 asks for, which the source requests while it still holds
    the lock of the job. *)
Definition start (w : world) (start_id batch_size interval_sec : option Z) (st : t)
    : Status.t * t * option pc :=
  if running st then (status st, st, None)
  else
    let cur := int_or start_id 1 in
    let st' :=
      {| client := client st;
         default_batch_size := default_batch_size st;
         default_interval := default_interval st;
         _thread := true; _stop_event := false; _pause_event := false;
         running := true; paused := false;
         max_id := max_item_id w;
         completed_count := Z.max 0 (cur - 1);
         current_start_id := cur;
         batch_size := Z.max 1 (int_or batch_size (default_batch_size st));
         interval_sec := Z.max 1 (int_or interval_sec (default_interval st));
         last_processed_range := None; next_run_ts := None |} in
    (status st', st', Some AtLoopHead).

Definition set_pause (st : t) (b : bool) : t :=
  {| client := client st;
     default_batch_size := default_batch_size st;
     default_interval := default_interval st;
     _thread := _thread st; _stop_event := _stop_event st; _pause_event := b;
     running := running st; paused := b;
     max_id := max_id st; completed_count := completed_count st;
     current_start_id := current_start_id st;
     batch_size := batch_size st; interval_sec := interval_sec st;
     last_processed_range := last_processed_range st;
     next_run_ts := next_run_ts st |}.

Definition pause (st : t) : Status.t * t :=
  let st' := if running st && negb (paused st) then set_pause st true else st in
  (status st', st').

Definition resume (st : t) : Status.t * t :=
  let st' := if running st && paused st then set_pause st false else st in
  (status st', st').

(** [stop], first critical section: the signal. *)
Definition stop_signal (st : t) : t :=
  {| client := client st;
     default_batch_size := default_batch_size st;
     default_interval := default_interval st;
     _thread := _thread st;
     _stop_event := if running st then true else _stop_event st;
     _pause_event := _pause_event st;
     running := running st; paused := paused st;
     max_id := max_id st; completed_count := completed_count st;
     current_start_id := current_start_id st;
     batch_size := batch_size st; interval_sec := interval_sec st;
     last_processed_range := last_processed_range st;
     next_run_ts := next_run_ts st |}.

(** [stop], last critical section: back to idle. *)
Definition stop_reset (st : t) : t :=
  {| client := client st;
     default_batch_size := default_batch_size st;
     default_interval := default_interval st;
     _thread := false; _stop_event := _stop_event st;
     _pause_event := _pause_event st;
     running := false; paused := false;
     max_id := max_id st; completed_count := completed_count st;
     current_start_id := current_start_id st;
     batch_size := batch_size st; interval_sec := interval_sec st;
     last_processed_range := last_processed_range st;
     next_run_ts := None |}.

(** [stop]: between the two sections the caller joins the thread for
    at most 2 s, which changes no field (from the loop itself the
    join raises and the error is dropped). *)
Definition stop (st : t) : Status.t * t :=
  let st' := stop_reset (stop_signal st) in
  (status st', st').

(** The last critical section of [_run_one_range]. *)
Definition advance (st : t) (start_id end_id : Z) : t :=
  {| client := client st;
     default_batch_size := default_batch_size st;
     default_interval := default_interval st;
     _thread := _thread st; _stop_event := _stop_event st;
     _pause_event := _pause_event st;
     running := running st; paused := paused st;
     max_id := max_id st;
     completed_count := end_id;
     current_start_id := end_id + 1;
     batch_size := batch_size st; interval_sec := interval_sec st;
     last_processed_range := Some (start_id, end_id);
     next_run_ts := next_run_ts st |}.

Definition set_next_run_ts (st : t) (ts : Z) : t :=
  {| client := client st;
     default_batch_size := default_batch_size st;
     default_interval := default_interval st;
     _thread := _thread st; _stop_event := _stop_event st;
     _pause_event := _pause_event st;
     running := running st; paused := paused st;
     max_id := max_id st; completed_count := completed_count st;
     current_start_id := current_start_id st;
     batch_size := batch_size st; interval_sec := interval_sec st;
     last_processed_range := last_processed_range st;
     next_run_ts := Some ts |}.

Section Loop.
Context {rt : Runtime}.

(** One window.  The method reads the cursor in a first critical
    section, does its reads, its call and its writes outside the
    lock, and moves the cursor in a last critical section; the
    cursor fields are written by no other method while the loop runs,
    so the method is taken as one step.  It returns the job it
    leaves, also when it raises. *)
Definition _run_one_range (e : env) (st : t) (w : world) : result unit * t * world :=
  let start_id := current_start_id st in
  let end_id := Z.min (max_id st) (start_id + batch_size st - 1) in
  if (end_id <? start_id) || (start_id <=? 0) then (Ok tt, st, w)
  else
    match items_in_range w start_id end_id with
    | [] => (Ok tt, st, w)
    | its =>
        match nonempty_names its with
        | [] => (Ok tt, advance st start_id end_id, w)
        | names =>
            match SteamDTClient.get_price_batch e (client st) names w with
            | (Raise x, w1) => (Raise x, st, w1)
            | (Ok resp, w1) =>
                match write_prices e resp w1 with
                | (Raise x, w2) => (Raise x, st, w2)
                | (Ok _, w2) => (Ok tt, advance st start_id end_id, w2)
                end
            end
        end
    end.

(** One step of the thread running [_loop]. *)
Definition loop_step (e : env) (c : pc * t * world) : pc * t * world :=
  let '(p, st, w) := c in
  match p with
  | AtLoopHead =>
      if _stop_event st then (Exited, st, w) else (AtPauseWait, st, w)
  | AtPauseWait =>
      if paused st && negb (_stop_event st)
      then (AtPauseWait, st, sleep w 200)
      else (AtStopCheck, st, w)
  | AtStopCheck =>
      if _stop_event st then (Exited, st, w) else (AtRunWindow, st, w)
  | AtRunWindow =>
      let '(_, st1, w1) := _run_one_range e st w in
      (AtDoneCheck, st1, w1)
  | AtDoneCheck =>
      let done := max_id st <=? completed_count st in
      let st1 := set_next_run_ts st (clock w + 1000 * interval_sec st) in
      if done then (Exited, snd (stop st1), w)
      else (AtDelay (5 * interval_sec st1), st1, w)
  | AtDelay remain =>
      if (0 <? remain) && negb (_stop_event st)
      then if paused st then (AtLoopHead, st, w)
           else (AtDelay (remain - 1), st, sleep w 200)
      else (AtLoopHead, st, w)
  | Exited => c
  end.

Fixpoint run (e : env) (n : nat) (c : pc * t * world) : pc * t * world :=
  match n with
  | O => c
  | S k => run e k (loop_step e c)
  end.

(** The thread that [start] launches on [_loop], [n] steps later. *)
Definition _loop (e : env) (n : nat) (st : t) (w : world) : pc * t * world :=
  run e n (AtLoopHead, st, w).
End Loop.

End PriceBatchJob.

(** ** [DualApiSequentialJob] *)

Module DualApiSequentialJob.

Record t : Type := {
  client1 : option SteamDTClient.t;
  client2 : option SteamDTClient.t;
  default_batch_size : Z;
  default_interval : Z;
  _thread : bool;
  _stop_event : bool;
  _pause_event : bool;
  running : bool;
  paused : bool;
  max_id : Z;
  completed_count : Z;
  current_start_id : Z;
  batch_size : Z;
  interval_sec : Z;
  last_processed_range : option (Z * Z);
  next_run_ts : option Z;
  next_client_id : Z;
  last_error : option string
}.

Module Status.
Record t : Type := {
  running : bool;
  paused : bool;
  state : string;
  maxId : Z;
  completedCount : Z;
  currentStartId : Z;
  currentEndIdNext : Z;
  lastProcessedRange : option (Z * Z);
  intervalSec : Z;
  batchSize : Z;
  nextClientId : Z;
  alternating : bool;
  lastError : option string
}.
End Status.

(** What [start] returns: the snapshot, or the dict
    [{"running": False, "paused": False, "error": ...}]. *)
Inductive reply : Type :=
| Snapshot (s : Status.t)
| ConfigError (running paused : bool) (error : string).

Definition init (client1 client2 : option SteamDTClient.t)
    (batch_size interval_sec : Z) : t :=
  {| client1 := client1; client2 := client2;
     default_batch_size := Z.max 1 batch_size;
     default_interval := Z.max 1 interval_sec;
     _thread := false; _stop_event := false; _pause_event := false;
     running := false; paused := false;
     max_id := 0; completed_count := 0; current_start_id := 0;
     batch_size := Z.max 1 batch_size;
     interval_sec := Z.max 1 interval_sec;
     last_processed_range := None; next_run_ts := None;
     next_client_id := 1; last_error := None |}.

Definition status (st : t) : Status.t :=
  {| Status.running := running st;
     Status.paused := paused st;
     Status.state := if paused st then "paused" else if running st then "running" else "idle";
     Status.maxId := max_id st;
     Status.completedCount := completed_count st;
     Status.currentStartId := current_start_id st;
     Status.currentEndIdNext :=
       if 0 <? current_start_id st
       then Z.min (max_id st) (current_start_id st + batch_size st - 1) else 0;
     Status.lastProcessedRange := last_processed_range st;
     Status.intervalSec := interval_sec st;
     Status.batchSize := batch_size st;
     Status.nextClientId := next_client_id st;
     Status.alternating := true;
     Status.lastError := last_error st |}.

(** [self.clientN and getattr(self.clientN, "api_key", None)] *)
Definition configured (c : option SteamDTClient.t) : bool :=
  match c with
  | Some cl => SteamDTClient.has_key cl
  | None => false
  end.

Definition error_key_1 : string := "未配置 STEAMDT_API_KEY_1".
Definition error_key_2 : string := "未配置 STEAMDT_API_KEY_2".

Definition start (w : world) (start_id batch_size interval_sec : option Z) (st : t)
    : reply * t * option pc :=
  if running st then (Snapshot (status st), st, None)
  else if negb (configured (client1 st)) then (ConfigError false false error_key_1, st, None)
  else if negb (configured (client2 st)) then (ConfigError false false error_key_2, st, None)
  else
    let cur := int_or start_id 1 in
    let st' :=
      {| client1 := client1 st; client2 := client2 st;
         default_batch_size := default_batch_size st;
         default_interval := default_interval st;
         _thread := true; _stop_event := false; _pause_event := false;
         running := true; paused := false;
         max_id := max_item_id w;
         completed_count := Z.max 0 (cur - 1);
         current_start_id := cur;
         batch_size := Z.max 1 (int_or batch_size (default_batch_size st));
         interval_sec := Z.max 1 (int_or interval_sec (default_interval st));
         last_processed_range := None; next_run_ts := None;
         next_client_id := 1; last_error := None |} in
    (Snapshot (status st'), st', Some AtLoopHead).

Definition set_pause (st : t) (b : bool) : t :=
  {| client1 := client1 st; client2 := client2 st;
     default_batch_size := default_batch_size st;
     default_interval := default_interval st;
     _thread := _thread st; _stop_event := _stop_event st; _pause_event := b;
     running := running st; paused := b;
     max_id := max_id st; completed_count := completed_count st;
     current_start_id := current_start_id st;
     batch_size := batch_size st; interval_sec := interval_sec st;
     last_processed_range := last_processed_range st;
     next_run_ts := next_run_ts st;
     next_client_id := next_client_id st; last_error := last_error st |}.

Definition pause (st : t) : Status.t * t :=
  let st' := if running st && negb (paused st) then set_pause st true else st in
  (status st', st').

Definition resume (st : t) : Status.t * t :=
  let st' := if running st && paused st then set_pause st false else st in
  (status st', st').

Definition stop_signal (st : t) : t :=
  {| client1 := client1 st; client2 := client2 st;
     default_batch_size := default_batch_size st;
     default_interval := default_interval st;
     _thread := _thread st;
     _stop_event := if running st then true else _stop_event st;
     _pause_event := _pause_event st;
     running := running st; paused := paused st;
     max_id := max_id st; completed_count := completed_count st;
     current_start_id := current_start_id st;
     batch_size := batch_size st; interval_sec := interval_sec st;
     last_processed_range := last_processed_range st;
     next_run_ts := next_run_ts st;
     next_client_id := next_client_id st; last_error := last_error st |}.

Definition stop_reset (st : t) : t :=
  {| client1 := client1 st; client2 := client2 st;
     default_batch_size := default_batch_size st;
     default_interval := default_interval st;
     _thread := false; _stop_event := _stop_event st;
     _pause_event := _pause_event st;
     running := false; paused := false;
     max_id := max_id st; completed_count := completed_count st;
     current_start_id := current_start_id st;
     batch_size := batch_size st; interval_sec := interval_sec st;
     last_processed_range := last_processed_range st;
     next_run_ts := None;
     next_client_id := next_client_id st; last_error := last_error st |}.

Definition stop (st : t) : Status.t * t :=
  let st' := stop_reset (stop_signal st) in
  (status st', st').

(** The critical section of the two early returns of
    [_run_one_range]: the cursor moves, the credential does not. *)
Definition advance (st : t) (start_id end_id : Z) : t :=
  {| client1 := client1 st; client2 := client2 st;
     default_batch_size := default_batch_size st;
     default_interval := default_interval st;
     _thread := _thread st; _stop_event := _stop_event st;
     _pause_event := _pause_event st;
     running := running st; paused := paused st;
     max_id := max_id st;
     completed_count := end_id;
     current_start_id := end_id + 1;
     batch_size := batch_size st; interval_sec := interval_sec st;
     last_processed_range := Some (start_id, end_id);
     next_run_ts := next_run_ts st;
     next_client_id := next_client_id st; last_error := last_error st |}.

Definition set_next_client_id (st : t) (n : Z) : t :=
  {| client1 := client1 st; client2 := client2 st;
     default_batch_size := default_batch_size st;
     default_interval := default_interval st;
     _thread := _thread st; _stop_event := _stop_event st;
     _pause_event := _pause_event st;
     running := running st; paused := paused st;
     max_id := max_id st; completed_count := completed_count st;
     current_start_id := current_start_id st;
     batch_size := batch_size st; interval_sec := interval_sec st;
     last_processed_range := last_processed_range st;
     next_run_ts := next_run_ts st;
     next_client_id := n; last_error := last_error st |}.

(** The last critical section of [_run_one_range]. *)
Definition advance_and_flip (st : t) (start_id end_id client_id : Z) : t :=
  set_next_client_id (advance st start_id end_id) (if client_id =? 1 then 2 else 1).

Definition set_last_error (st : t) (err : option string) : t :=
  {| client1 := client1 st; client2 := client2 st;
     default_batch_size := default_batch_size st;
     default_interval := default_interval st;
     _thread := _thread st; _stop_event := _stop_event st;
     _pause_event := _pause_event st;
     running := running st; paused := paused st;
     max_id := max_id st; completed_count := completed_count st;
     current_start_id := current_start_id st;
     batch_size := batch_size st; interval_sec := interval_sec st;
     last_processed_range := last_processed_range st;
     next_run_ts := next_run_ts st;
     next_client_id := next_client_id st; last_error := err |}.

Definition set_next_run_ts (st : t) (ts : Z) : t :=
  {| client1 := client1 st; client2 := client2 st;
     default_batch_size := default_batch_size st;
     default_interval := default_interval st;
     _thread := _thread st; _stop_event := _stop_event st;
     _pause_event := _pause_event st;
     running := running st; paused := paused st;
     max_id := max_id st; completed_count := completed_count st;
     current_start_id := current_start_id st;
     batch_size := batch_size st; interval_sec := interval_sec st;
     last_processed_range := last_processed_range st;
     next_run_ts := Some ts;
     next_client_id := next_client_id st; last_error := last_error st |}.

(** [cli.get_price_batch(names)]; [None] has no such method. *)
Definition call_client (e : env) (cli : option SteamDTClient.t) (names : list string)
    (w : world) : result pyval * world :=
  match cli with
  | Some c => SteamDTClient.get_price_batch e c names w
  | None => (Raise AttributeError, w)
  end.

Section Loop.
Context {rt : Runtime}.

Definition _run_one_range (e : env) (st : t) (w : world) : result unit * t * world :=
  let start_id := current_start_id st in
  let end_id := Z.min (max_id st) (start_id + batch_size st - 1) in
  let client_id := next_client_id st in
  if (end_id <? start_id) || (start_id <=? 0) then (Ok tt, st, w)
  else
    match items_in_range w start_id end_id with
    | [] => (Ok tt, advance st start_id end_id, w)
    | its =>
        match nonempty_names its with
        | [] => (Ok tt, advance st start_id end_id, w)
        | names =>
            let cli := if client_id =? 1 then client1 st else client2 st in
            match call_client e cli names w with
            | (Raise x, w1) => (Raise x, st, w1)
            | (Ok resp, w1) =>
                match write_prices e resp w1 with
                | (Raise x, w2) => (Raise x, st, w2)
                | (Ok _, w2) =>
                    (Ok tt, advance_and_flip st start_id end_id client_id, w2)
                end
            end
        end
    end.

Definition loop_step (e : env) (c : pc * t * world) : pc * t * world :=
  let '(p, st, w) := c in
  match p with
  | AtLoopHead =>
      if _stop_event st then (Exited, st, w) else (AtPauseWait, st, w)
  | AtPauseWait =>
      if paused st && negb (_stop_event st)
      then (AtPauseWait, st, sleep w 200)
      else (AtStopCheck, st, w)
  | AtStopCheck =>
      if _stop_event st then (Exited, st, w) else (AtRunWindow, st, w)
  | AtRunWindow =>
      match _run_one_range e st w with
      | (Ok _, st1, w1) => (AtDoneCheck, set_last_error st1 None, w1)
      | (Raise x, st1, w1) =>
          (AtDoneCheck, set_last_error st1 (Some (exn_message x)), w1)
      end
  | AtDoneCheck =>
      let done := max_id st <=? completed_count st in
      let st1 := set_next_run_ts st (clock w + 1000 * interval_sec st) in
      if done then (Exited, snd (stop st1), w)
      else (AtDelay (5 * interval_sec st1), st1, w)
  | AtDelay remain =>
      if (0 <? remain) && negb (_stop_event st)
      then if paused st then (AtLoopHead, st, w)
           else (AtDelay (remain - 1), st, sleep w 200)
      else (AtLoopHead, st, w)
  | Exited => c
  end.

Fixpoint run (e : env) (n : nat) (c : pc * t * world) : pc * t * world :=
  match n with
  | O => c
  | S k => run e k (loop_step e c)
  end.

(** The thread that [start] launches on [_loop], [n] steps later. *)
Definition _loop (e : env) (n : nat) (st : t) (w : world) : pc * t * world :=
  run e n (AtLoopHead, st, w).
End Loop.

End DualApiSequentialJob.

(** ** Shapes of a response

    What [build_rows] needs of a response, besides the store's unique
    keys, in order not to raise. *)

(** The id that line 219 takes from the item looked up by name. *)
Definition item_id_of (w : world) (mhn : string) : option Z :=
  match item_by_name w mhn with
  | Ok item_rec => option_map Item.id item_rec
  | Raise _ => None
  end.

(** A platform entry: an object whose platform name, when truthy, is a
    string, and one that the store can take when the platform is
    looked up, which is when the item has a truthy id. *)
Definition platform_ok (item_id_val : option Z) (p : pyval) : bool :=
  match p with
  | PDict d =>
      match py_or (first_or d ["platform"; "name"; "plat"]) (PStr "") with
      | PStr s =>
          match item_id_val with
          | Some iid => (iid =? 0)%Z || encodable (canonical_str s)
          | None => true
          end
      | _ => false
      end
  | _ => false
  end.

(** An item record: an object whose name, when truthy, is a string
    and, unless the name is blank, one that the store can take and
    whose platform container is falsy, one platform entry, or a list
    of platform entries. *)
Definition item_ok (w : world) (it : pyval) : bool :=
  match it with
  | PDict d =>
      match py_or (first_or d ["marketHashName"; "market_hash_name"]) (PStr "") with
      | PStr s =>
          if is_empty (strip s) then true
          else
            encodable (strip s)
            && match py_or (first_or d ["platforms"; "platformList"; "dataList"]) (PList []) with
               | PDict pd => platform_ok (item_id_of w (strip s)) (PDict pd)
               | PList l => forallb (platform_ok (item_id_of w (strip s))) l
               | _ => false
               end
      | _ => false
      end
  | _ => false
  end.

Definition well_shaped (w : world) (resp : pyval) : bool :=
  forallb (item_ok w) (data_list_of resp).

(** The unique constraints of [db.py]: [items.market_hash_name] and
    [platforms (item_id, name)]. *)
Definition unique_keys (w : world) : Prop :=
  NoDup (map Item.market_hash_name (items w))
  /\ NoDup (map (fun p => (Platform.item_id p, Platform.name p)) (platforms w)).

(** ** Concrete inputs *)

Definition empty_world : world :=
  {| items := []; platforms := []; prices := []; calls := []; commits := 0; clock := 0 |}.

Definition item_at (i : Z) (mhn : string) : Item.t :=
  {| Item.id := i; Item.name := None; Item.market_hash_name := mhn |}.

(** A catalog with the identifiers 1, 2 and 3. *)
Definition small_world : world :=
  {| items := [item_at 1 "AK-47 | Redline"; item_at 2 "AWP | Asiimov";
               item_at 3 "M4A4 | Howl"];
     platforms := []; prices := []; calls := []; commits := 0; clock := 0 |}.

(** A catalog whose only entry has the identifier 10. *)
Definition gap_world : world :=
  {| items := [item_at 10 "AK-47 | Redline"];
     platforms := []; prices := []; calls := []; commits := 0; clock := 0 |}.

Definition keyed (k : string) : SteamDTClient.t := {| SteamDTClient.api_key := Some k |}.

Definition one_price : pyval :=
  PDict [("data", PList [PDict [("marketHashName", PStr "AK-47 | Redline");
     ("dataList", PList [PDict [("platform", PStr "C5"); ("sellPrice", PInt 12);
                                ("updateTime", PInt 1700000000)]])]])].

(** The service answers every call, the store accepts every commit. *)
Definition fair_env : env :=
  {| post_batch := fun _ _ _ => Ok one_price; commit_ok := fun _ _ => true |}.

(** The service answers, the store refuses every commit. *)
Definition refusing_store_env : env :=
  {| post_batch := fun _ _ _ => Ok one_price; commit_ok := fun _ _ => false |}.

(** The service fails on the first call and answers afterwards. *)
Definition first_call_fails_env : env :=
  {| post_batch := fun n _ _ =>
       match n with
       | O => Raise (RequestError "503 Server Error")
       | _ => Ok one_price
       end;
     commit_ok := fun _ _ => true |}.

(** A runtime to run the definitions on concrete inputs: its parsers
    accept no string, it renders no value and no date. *)
Definition stub_runtime : Runtime :=
  {| float_of_str := fun _ => None;
     int_of_str := fun _ => None;
     repr := fun _ => EmptyString;
     beijing_strftime := fun _ => None |}.

(** The single job on [small_world], windows of 2, one second between
    windows. *)
Definition single_on_small_world : PriceBatchJob.t :=
  snd (fst (PriceBatchJob.start small_world None (Some 2) (Some 1)
              (PriceBatchJob.init (keyed "K") 100 60))).

(** The dual job on [small_world], windows of 2, one second between
    windows. *)
Definition dual_on_small_world : DualApiSequentialJob.t :=
  snd (fst (DualApiSequentialJob.start small_world None (Some 2) (Some 1)
              (DualApiSequentialJob.init (Some (keyed "K1")) (Some (keyed "K2")) 100 30))).

(** ** Vocabulary of the properties *)

(** A string that does not begin with white space. *)
Definition no_lead (s : string) : bool :=
  match s with
  | EmptyString => true
  | String c _ => negb (is_space c)
  end.

(** The thread has not yet passed the pause test of the window to
    come. *)
Definition between_windows (p : pc) : bool :=
  match p with
  | AtStopCheck | AtRunWindow => false
  | _ => true
  end.

(** Where a paused thread can be: out of the loop, on its way out, or
    between two windows. *)
Definition held (p : pc) (paused stop_event : bool) : Prop :=
  p = Exited
  \/ (p = AtStopCheck /\ stop_event = true)
  \/ (between_windows p = true /\ paused = true).

(** The windows the specification expects from the cursor [start_id]
    on: each runs from the cursor to
    [min(max_id, start_id + batch_size - 1)], the next one starts right
    after. *)
Fixpoint windows_from (fuel : nat) (start_id max_id batch_size : Z) : list (Z * Z) :=
  match fuel with
  | O => []
  | S f =>
      if max_id <? start_id then []
      else
        let end_id := Z.min max_id (start_id + batch_size - 1) in
        (start_id, end_id) :: windows_from f (end_id + 1) max_id batch_size
  end.

Definition windows (max_id batch_size : Z) : list (Z * Z) :=
  windows_from (Z.to_nat max_id) 1 max_id batch_size.

(** The ranges of [l], in order, are not empty, hold at most [b]
    identifiers each, follow one another without gap or overlap and
    cover exactly the identifiers from [lo] to [hi]. *)
Fixpoint tiles (lo hi b : Z) (l : list (Z * Z)) : Prop :=
  match l with
  | [] => lo = hi + 1
  | (s, e) :: r =>
      s = lo /\ s <= e /\ e <= hi /\ e - s + 1 <= b /\ tiles (e + 1) hi b r
  end.

(** Observations on a run of [PriceBatchJob._loop]. *)
Module SingleRun.
Import PriceBatchJob.

(** The range a call of [_run_one_range] completed, if it moved the
    cursor. *)
Definition window_done (before after : t) : list (Z * Z) :=
  if current_start_id after =? current_start_id before then []
  else match last_processed_range after with
       | Some r => [r]
       | None => []
       end.

(** The windows completed during the first [n] steps of the loop. *)
Fixpoint visited {rt : Runtime} (e : env) (n : nat) (c : pc * t * world) : list (Z * Z) :=
  match n with
  | O => []
  | S k =>
      let c' := loop_step e c in
      match c with
      | (AtRunWindow, st, _) => window_done st (snd (fst c'))
      | _ => []
      end ++ visited e k c'
  end.

(** The window about to be processed, if any, is processed without
    an exception and, when its range is not empty, finds a catalog
    entry. *)
Definition window_completes {rt : Runtime} (e : env) (c : pc * t * world) : bool :=
  match c with
  | (AtRunWindow, st, w) =>
      let start_id := current_start_id st in
      let end_id := Z.min (max_id st) (start_id + batch_size st - 1) in
      negb (raised (fst (fst (_run_one_range e st w))))
      && ((end_id <? start_id) || (start_id <=? 0)
          || match items_in_range w start_id end_id with [] => false | _ => true end)
  | _ => true
  end.

(** Every window of the run from [c] completes. *)
Definition completes_along {rt : Runtime} (e : env) (c : pc * t * world) : Prop :=
  forall n, window_completes e (run e n c) = true.

(** The job on [gap_world] with windows of 5: what every step of the
    loop preserves. *)
Definition stuck (c : pc * t * world) : Prop :=
  let '(p, st, w) := c in
  p <> Exited
  /\ _stop_event st = false
  /\ paused st = false
  /\ max_id st = 10
  /\ batch_size st = 5
  /\ current_start_id st = 1
  /\ completed_count st = 0
  /\ last_processed_range st = None
  /\ items w = items gap_world
  /\ calls w = []
  /\ prices w = [].

(** A paused loop since the job was [st0] and the world [w0]. *)
Definition frozen (st0 : t) (w0 : world) (c : pc * t * world) : Prop :=
  let '(p, st, w) := c in
  held p (paused st) (_stop_event st)
  /\ current_start_id st = current_start_id st0
  /\ completed_count st = completed_count st0
  /\ last_processed_range st = last_processed_range st0
  /\ prices w = prices w0
  /\ calls w = calls w0.

End SingleRun.

(** Observations on a run of [DualApiSequentialJob._loop]. *)
Module DualRun.
Import DualApiSequentialJob.

Definition window_done (before after : t) : list (Z * Z) :=
  if current_start_id after =? current_start_id before then []
  else match last_processed_range after with
       | Some r => [r]
       | None => []
       end.

(** [st1] is [st] after the window from [s] to [en] completed. *)
Definition advanced (st : t) (s en : Z) (st1 : t) : Prop :=
  current_start_id st1 = en + 1
  /\ completed_count st1 = en
  /\ last_processed_range st1 = Some (s, en)
  /\ max_id st1 = max_id st
  /\ batch_size st1 = batch_size st
  /\ _stop_event st1 = _stop_event st
  /\ paused st1 = paused st.

Fixpoint visited {rt : Runtime} (e : env) (n : nat) (c : pc * t * world) : list (Z * Z) :=
  match n with
  | O => []
  | S k =>
      let c' := loop_step e c in
      match c with
      | (AtRunWindow, st, _) => window_done st (snd (fst c'))
      | _ => []
      end ++ visited e k c'
  end.

(** The window about to be processed, if any, is processed without
    an exception. *)
Definition window_completes {rt : Runtime} (e : env) (c : pc * t * world) : bool :=
  match c with
  | (AtRunWindow, st, w) => negb (raised (fst (fst (_run_one_range e st w))))
  | _ => true
  end.

Definition completes_along {rt : Runtime} (e : env) (c : pc * t * world) : Prop :=
  forall n, window_completes e (run e n c) = true.

Definition frozen (st0 : t) (w0 : world) (c : pc * t * world) : Prop :=
  let '(p, st, w) := c in
  held p (paused st) (_stop_event st)
  /\ current_start_id st = current_start_id st0
  /\ completed_count st = completed_count st0
  /\ last_processed_range st = last_processed_range st0
  /\ prices w = prices w0
  /\ calls w = calls w0.

(** What every operation keeps true of the dual job: it runs only
    with both credentials configured, and is paused only while
    running. *)
Definition consistent (st : t) : Prop :=
  (running st = true -> configured (client1 st) = true /\ configured (client2 st) = true)
  /\ (paused st = true -> running st = true).

End DualRun.

(** ** [start] as the routes call it

    The routes of [job_bp.py] hand [start] the values found in the
    request body, whatever they are.  [start] assigns its fields one
    after the other, and [int(...)] may raise between two
    assignments: the job is returned as the assignments made so far
    leave it, with no reply. *)

Module PriceBatchJobApi.
Import PriceBatchJob.

(** Lines 73-76: the signals cleared, the job marked as running. *)
Definition mark_running (st : t) : t :=
  {| client := client st;
     default_batch_size := default_batch_size st;
     default_interval := default_interval st;
     _thread := _thread st; _stop_event := false; _pause_event := false;
     running := true; paused := false;
     max_id := max_id st; completed_count := completed_count st;
     current_start_id := current_start_id st;
     batch_size := batch_size st; interval_sec := interval_sec st;
     last_processed_range := last_processed_range st;
     next_run_ts := next_run_ts st |}.

Definition set_batch_size (st : t) (b : Z) : t :=
  {| client := client st;
     default_batch_size := default_batch_size st;
     default_interval := default_interval st;
     _thread := _thread st; _stop_event := _stop_event st;
     _pause_event := _pause_event st;
     running := running st; paused := paused st;
     max_id := max_id st; completed_count := completed_count st;
     current_start_id := current_start_id st;
     batch_size := b; interval_sec := interval_sec st;
     last_processed_range := last_processed_range st;
     next_run_ts := next_run_ts st |}.

(** Lines 78-85: the interval, then the maximum identifier. *)
Definition set_interval_and_max_id (st : t) (i m : Z) : t :=
  {| client := client st;
     default_batch_size := default_batch_size st;
     default_interval := default_interval st;
     _thread := _thread st; _stop_event := _stop_event st;
     _pause_event := _pause_event st;
     running := running st; paused := paused st;
     max_id := m; completed_count := completed_count st;
     current_start_id := current_start_id st;
     batch_size := batch_size st; interval_sec := i;
     last_processed_range := last_processed_range st;
     next_run_ts := next_run_ts st |}.

(** Lines 87-93: the cursor, the progress, the thread. *)
Definition launch (st : t) (cur : Z) : t :=
  {| client := client st;
     default_batch_size := default_batch_size st;
     default_interval := default_interval st;
     _thread := true; _stop_event := _stop_event st;
     _pause_event := _pause_event st;
     running := running st; paused := paused st;
     max_id := max_id st; completed_count := Z.max 0 (cur - 1);
     current_start_id := cur;
     batch_size := batch_size st; interval_sec := interval_sec st;
     last_processed_range := None;
     next_run_ts := None |}.

(** [start(start_id, batch_size, interval_sec)] on any values: the
    reply ([None] when an exception leaves the method), the job, the
    thread launched. *)
Definition start {rt : Runtime} (w : world) (start_id batch_size interval_sec : pyval)
    (st : t) : option Status.t * t * option pc :=
  if running st then (Some (status st), st, None)
  else
    let st1 := mark_running st in
    match _to_int (py_or batch_size (PInt (default_batch_size st1))) with
    | None => (None, st1, None)
    | Some b =>
        let st2 := set_batch_size st1 (Z.max 1 b) in
        match _to_int (py_or interval_sec (PInt (default_interval st2))) with
        | None => (None, st2, None)
        | Some i =>
            let st3 := set_interval_and_max_id st2 (Z.max 1 i) (max_item_id w) in
            match _to_int (py_or start_id (PInt 1)) with
            | None => (None, st3, None)
            | Some cur =>
                let st4 := launch st3 cur in
                (Some (status st4), st4, Some AtLoopHead)
            end
        end
    end.

End PriceBatchJobApi.

Module DualApiSequentialJobApi.
Import DualApiSequentialJob.

Definition mark_running (st : t) : t :=
  {| client1 := client1 st; client2 := client2 st;
     default_batch_size := default_batch_size st;
     default_interval := default_interval st;
     _thread := _thread st; _stop_event := false; _pause_event := false;
     running := true; paused := false;
     max_id := max_id st; completed_count := completed_count st;
     current_start_id := current_start_id st;
     batch_size := batch_size st; interval_sec := interval_sec st;
     last_processed_range := last_processed_range st;
     next_run_ts := next_run_ts st;
     next_client_id := next_client_id st; last_error := last_error st |}.

Definition set_batch_size (st : t) (b : Z) : t :=
  {| client1 := client1 st; client2 := client2 st;
     default_batch_size := default_batch_size st;
     default_interval := default_interval st;
     _thread := _thread st; _stop_event := _stop_event st;
     _pause_event := _pause_event st;
     running := running st; paused := paused st;
     max_id := max_id st; completed_count := completed_count st;
     current_start_id := current_start_id st;
     batch_size := b; interval_sec := interval_sec st;
     last_processed_range := last_processed_range st;
     next_run_ts := next_run_ts st;
     next_client_id := next_client_id st; last_error := last_error st |}.

Definition set_interval_and_max_id (st : t) (i m : Z) : t :=
  {| client1 := client1 st; client2 := client2 st;
     default_batch_size := default_batch_size st;
     default_interval := default_interval st;
     _thread := _thread st; _stop_event := _stop_event st;
     _pause_event := _pause_event st;
     running := running st; paused := paused st;
     max_id := m; completed_count := completed_count st;
     current_start_id := current_start_id st;
     batch_size := batch_size st; interval_sec := i;
     last_processed_range := last_processed_range st;
     next_run_ts := next_run_ts st;
     next_client_id := next_client_id st; last_error := last_error st |}.

Definition launch (st : t) (cur : Z) : t :=
  {| client1 := client1 st; client2 := client2 st;
     default_batch_size := default_batch_size st;
     default_interval := default_interval st;
     _thread := true; _stop_event := _stop_event st;
     _pause_event := _pause_event st;
     running := running st; paused := paused st;
     max_id := max_id st; completed_count := Z.max 0 (cur - 1);
     current_start_id := cur;
     batch_size := batch_size st; interval_sec := interval_sec st;
     last_processed_range := None;
     next_run_ts := None;
     next_client_id := 1; last_error := None |}.

Definition start {rt : Runtime} (w : world) (start_id batch_size interval_sec : pyval)
    (st : t) : option reply * t * option pc :=
  if running st then (Some (Snapshot (status st)), st, None)
  else if negb (configured (client1 st))
  then (Some (ConfigError false false error_key_1), st, None)
  else if negb (configured (client2 st))
  then (Some (ConfigError false false error_key_2), st, None)
  else
    let st1 := mark_running st in
    match _to_int (py_or batch_size (PInt (default_batch_size st1))) with
    | None => (None, st1, None)
    | Some b =>
        let st2 := set_batch_size st1 (Z.max 1 b) in
        match _to_int (py_or interval_sec (PInt (default_interval st2))) with
        | None => (None, st2, None)
        | Some i =>
            let st3 := set_interval_and_max_id st2 (Z.max 1 i) (max_item_id w) in
            match _to_int (py_or start_id (PInt 1)) with
            | None => (None, st3, None)
            | Some cur =>
                let st4 := launch st3 cur in
                (Some (Snapshot (status st4)), st4, Some AtLoopHead)
            end
        end
    end.

End DualApiSequentialJobApi.

(** An optional integer as the value a request body holds for it. *)
Definition arg (a : option Z) : pyval :=
  match a with
  | Some n => PInt n
  | None => PNone
  end.

(** ** [job_bp.py]: the start routes

    [body] is what [request.get_json(silent=True)] returns: the parsed
    body, or [None].  The reply is [None] when an exception leaves the
    view (the server then answers 500). *)
Module job_bp.

Definition job_start {rt : Runtime} (body : pyval) (w : world) (job : PriceBatchJob.t)
    : option PriceBatchJob.Status.t * PriceBatchJob.t * option pc :=
  let payload := py_or body (PDict []) in
  match py_get payload "startId", py_get payload "batchSize",
        py_get payload "intervalSec" with
  | Ok start_id, Ok batch_size, Ok interval_sec =>
      PriceBatchJobApi.start w start_id batch_size interval_sec job
  | _, _, _ => (None, job, None)
  end.

Definition dual_job_start {rt : Runtime} (body : pyval) (w : world)
    (job : DualApiSequentialJob.t)
    : option DualApiSequentialJob.reply * DualApiSequentialJob.t * option pc :=
  let payload := py_or body (PDict []) in
  match py_get payload "startId", py_get payload "batchSize",
        py_get payload "intervalSec" with
  | Ok start_id, Ok batch_size, Ok interval_sec =>
      DualApiSequentialJobApi.start w start_id batch_size interval_sec job
  | _, _, _ => (None, job, None)
  end.

End job_bp.

(** ** [app.py]: the clients and the jobs of the application *)

(** The environment variables, as [os.getenv] reads them. *)
Definition environ : Type := string -> option string.

(** [a or b] on two optional strings. *)
Definition str_or (a b : option string) : option string :=
  match a with
  | Some s => if is_empty s then b else a
  | None => b
  end.

Definition str_truthy (a : option string) : bool :=
  match a with
  | Some s => negb (is_empty s)
  | None => false
  end.

(** [SteamDTClient.__init__]: the key given, else [STEAMDT_API_KEY]. *)
Definition new_client (env : environ) (api_key : option string) : SteamDTClient.t :=
  {| SteamDTClient.api_key := str_or api_key (env "STEAMDT_API_KEY") |}.

Module App.
Record t : Type := {
  client : SteamDTClient.t;
  client1 : option SteamDTClient.t;
  client2 : option SteamDTClient.t;
  job : PriceBatchJob.t;
  dualjob : DualApiSequentialJob.t
}.

(** Lines 24-30 and 58-60 of [create_app], with the jobs that
    [create_job_blueprint] and [create_dual_job_blueprint] build. *)
Definition create_app (env : environ) : t :=
  let api_key := env "STEAMDT_API_KEY" in
  let client := new_client env api_key in
  let api_key_1 := str_or (env "STEAMDT_API_KEY_1") (env "STEAMDT_API_KEY_A") in
  let api_key_2 := str_or (env "STEAMDT_API_KEY_2") (env "STEAMDT_API_KEY_B") in
  let client1 := if str_truthy api_key_1 then Some (new_client env api_key_1) else None in
  let client2 := if str_truthy api_key_2 then Some (new_client env api_key_2) else None in
  {| client := client; client1 := client1; client2 := client2;
     job := PriceBatchJob.init client 100 60;
     dualjob := DualApiSequentialJob.init client1 client2 100 30 |}.
End App.

(** [PLATFORM_ALIASES] and [normalize_platform_filter] of [app.py]. *)
Definition PLATFORM_ALIASES : list (string * list string) :=
  [("BUFF", ["BUFF"]);
   ("C5", ["C5"; "C5GAME"]);
   ("C5GAME", ["C5GAME"; "C5"]);
   ("YOUPIN", ["YOUPIN"; "YOUPIN898"]);
   ("HALO", ["HALO"; "HALOSKINS"]);
   ("HALOSKINS", ["HALOSKINS"; "HALO"]);
   ("STEAM", ["STEAM"]);
   ("WAXPEER", ["WAXPEER"]);
   ("SKINPORT", ["SKINPORT"]);
   ("DMARKET", ["DMARKET"])].

Definition normalize_platform_filter (name : string) : list string :=
  let p := upper (strip name) in
  if is_empty p then []
  else
    map upper
      match find (fun kv => Str.eqb (fst kv) p) PLATFORM_ALIASES with
      | Some kv => snd kv
      | None => [p]
      end.

(** ** The states a job can be in *)

(** What the methods and the loop make of a job, from its
    construction on, in any order and in any world. *)
Inductive single_reachable {rt : Runtime} : PriceBatchJob.t -> Prop :=
| SR_init (c : SteamDTClient.t) (b i : Z) :
    single_reachable (PriceBatchJob.init c b i)
| SR_start (w : world) (a b c : pyval) (st : PriceBatchJob.t) :
    single_reachable st ->
    single_reachable (snd (fst (PriceBatchJobApi.start w a b c st)))
| SR_pause (st : PriceBatchJob.t) :
    single_reachable st -> single_reachable (snd (PriceBatchJob.pause st))
| SR_resume (st : PriceBatchJob.t) :
    single_reachable st -> single_reachable (snd (PriceBatchJob.resume st))
| SR_stop_signal (st : PriceBatchJob.t) :
    single_reachable st -> single_reachable (PriceBatchJob.stop_signal st)
| SR_stop_reset (st : PriceBatchJob.t) :
    single_reachable st -> single_reachable (PriceBatchJob.stop_reset st)
| SR_loop (e : env) (p : pc) (st : PriceBatchJob.t) (w : world) :
    single_reachable st ->
    single_reachable (snd (fst (PriceBatchJob.loop_step e (p, st, w)))).

Inductive dual_reachable {rt : Runtime} : DualApiSequentialJob.t -> Prop :=
| DR_init (c1 c2 : option SteamDTClient.t) (b i : Z) :
    dual_reachable (DualApiSequentialJob.init c1 c2 b i)
| DR_start (w : world) (a b c : pyval) (st : DualApiSequentialJob.t) :
    dual_reachable st ->
    dual_reachable (snd (fst (DualApiSequentialJobApi.start w a b c st)))
| DR_pause (st : DualApiSequentialJob.t) :
    dual_reachable st -> dual_reachable (snd (DualApiSequentialJob.pause st))
| DR_resume (st : DualApiSequentialJob.t) :
    dual_reachable st -> dual_reachable (snd (DualApiSequentialJob.resume st))
| DR_stop_signal (st : DualApiSequentialJob.t) :
    dual_reachable st -> dual_reachable (DualApiSequentialJob.stop_signal st)
| DR_stop_reset (st : DualApiSequentialJob.t) :
    dual_reachable st -> dual_reachable (DualApiSequentialJob.stop_reset st)
| DR_loop (e : env) (p : pc) (st : DualApiSequentialJob.t) (w : world) :
    dual_reachable st ->
    dual_reachable (snd (fst (DualApiSequentialJob.loop_step e (p, st, w)))).

(** What holds of a job in every state it can be in: the window size
    and the interval are at least 1, it is paused only while running,
    and while it runs the pause signal is set exactly when it is
    paused. *)
Definition single_sound (st : PriceBatchJob.t) : Prop :=
  1 <= PriceBatchJob.batch_size st
  /\ 1 <= PriceBatchJob.interval_sec st
  /\ 1 <= PriceBatchJob.default_batch_size st
  /\ 1 <= PriceBatchJob.default_interval st
  /\ (PriceBatchJob.paused st = true -> PriceBatchJob.running st = true)
  /\ (PriceBatchJob.running st = true ->
      PriceBatchJob._pause_event st = PriceBatchJob.paused st).

(** The same of the dual job, which moreover runs only with its two
    credentials and points at credential 1 or 2. *)
Definition dual_sound (st : DualApiSequentialJob.t) : Prop :=
  1 <= DualApiSequentialJob.batch_size st
  /\ 1 <= DualApiSequentialJob.interval_sec st
  /\ 1 <= DualApiSequentialJob.default_batch_size st
  /\ 1 <= DualApiSequentialJob.default_interval st
  /\ (DualApiSequentialJob.paused st = true -> DualApiSequentialJob.running st = true)
  /\ (DualApiSequentialJob.running st = true ->
      DualApiSequentialJob._pause_event st = DualApiSequentialJob.paused st)
  /\ (DualApiSequentialJob.running st = true ->
      DualApiSequentialJob.configured (DualApiSequentialJob.client1 st) = true
      /\ DualApiSequentialJob.configured (DualApiSequentialJob.client2 st) = true)
  /\ (DualApiSequentialJob.next_client_id st = 1
      \/ DualApiSequentialJob.next_client_id st = 2).

(** ** Vocabulary of the further properties *)

(** How the job [st] relates to the job [st0] the loop was entered
    with. *)
Definition single_progress (st0 st : PriceBatchJob.t) : Prop :=
  PriceBatchJob.max_id st = PriceBatchJob.max_id st0
  /\ PriceBatchJob.batch_size st = PriceBatchJob.batch_size st0
  /\ PriceBatchJob.interval_sec st = PriceBatchJob.interval_sec st0
  /\ PriceBatchJob.client st = PriceBatchJob.client st0
  /\ PriceBatchJob.current_start_id st0 <= PriceBatchJob.current_start_id st
  /\ (PriceBatchJob.current_start_id st0 <= PriceBatchJob.max_id st0 + 1 ->
      PriceBatchJob.current_start_id st <= PriceBatchJob.max_id st0 + 1)
  /\ (PriceBatchJob.completed_count st0
      = Z.max 0 (PriceBatchJob.current_start_id st0 - 1) ->
      PriceBatchJob.completed_count st
      = Z.max 0 (PriceBatchJob.current_start_id st - 1)).

Definition dual_progress (st0 st : DualApiSequentialJob.t) : Prop :=
  DualApiSequentialJob.max_id st = DualApiSequentialJob.max_id st0
  /\ DualApiSequentialJob.batch_size st = DualApiSequentialJob.batch_size st0
  /\ DualApiSequentialJob.interval_sec st = DualApiSequentialJob.interval_sec st0
  /\ DualApiSequentialJob.client1 st = DualApiSequentialJob.client1 st0
  /\ DualApiSequentialJob.client2 st = DualApiSequentialJob.client2 st0
  /\ DualApiSequentialJob.current_start_id st0 <= DualApiSequentialJob.current_start_id st
  /\ (DualApiSequentialJob.current_start_id st0 <= DualApiSequentialJob.max_id st0 + 1 ->
      DualApiSequentialJob.current_start_id st <= DualApiSequentialJob.max_id st0 + 1)
  /\ (DualApiSequentialJob.completed_count st0
      = Z.max 0 (DualApiSequentialJob.current_start_id st0 - 1) ->
      DualApiSequentialJob.completed_count st
      = Z.max 0 (DualApiSequentialJob.current_start_id st - 1)).

(** The world [w'] holds the catalog of [w], its rows followed by
    others, its calls followed by others. *)
Definition extends (w w' : world) : Prop :=
  items w' = items w
  /\ platforms w' = platforms w
  /\ (exists rows, prices w' = prices w ++ rows)
  /\ (exists cs, calls w' = calls w ++ cs)
  /\ clock w <= clock w'.

(** A call that asks for at least one and at most [b] names, each of
    them the non-empty name of an item of the catalog [its]. *)
Definition call_ok (its : list Item.t) (b : Z) (c : option string * list string) : Prop :=
  snd c <> []
  /\ Z.of_nat (List.length (snd c)) <= b
  /\ Forall (fun n => is_empty n = false /\ In n (map Item.market_hash_name its)) (snd c).

(** The identifiers of the catalog are distinct: [items.id] is the
    primary key. *)
Definition unique_ids (w : world) : Prop := NoDup (map Item.id (items w)).

(** The other credential of the dual job. *)
Definition other_client_id (k : Z) : Z := if k =? 1 then 2 else 1.

(** The key the dual job calls with when its pointer is [k]. *)
Definition key_at (c1 c2 : option SteamDTClient.t) (k : Z) : option string :=
  match (if k =? 1 then c1 else c2) with
  | Some c => SteamDTClient.api_key c
  | None => None
  end.

(** The calls [cs] are made in turn: the first with the key the
    pointer [k] designates, the next one with the other key, and so
    on, which leaves the pointer at [k']. *)
Fixpoint in_turn (c1 c2 : option SteamDTClient.t) (k : Z)
    (cs : list (option string * list string)) (k' : Z) : Prop :=
  match cs with
  | [] => k' = k
  | c :: r => fst c = key_at c1 c2 k /\ in_turn c1 c2 (other_client_id k) r k'
  end.

(** The names the job asks the service for in the window [win]: the
    non-empty names of the catalog items of the window, by ascending
    identifier. *)
Definition names_asked (w : world) (win : Z * Z) : list string :=
  nonempty_names (items_in_range w (fst win) (snd win)).

(** A price row that fits the catalog made of the items [its] and the
    platforms [pls]: its name is not empty and carries no white space
    around it, its platform name is a canonical name, its item is the
    catalog item of that name if there is one, and its platform, if
    any, is a platform of that item with that platform name.  A
    canonical name is neither of the two short names. *)
Definition row_ok (its : list Item.t) (pls : list Platform.t) (r : Price.t) : Prop :=
  is_empty (Price.market_hash_name r) = false
  /\ strip (Price.market_hash_name r) = Price.market_hash_name r
  /\ canonical_str (Price.platform r) = Price.platform r
  /\ Price.platform r <> "C5"
  /\ Price.platform r <> "HALO"
  /\ match Price.item_id r with
     | Some i =>
         exists it, In it its /\ Item.id it = i
                    /\ Item.market_hash_name it = Price.market_hash_name r
     | None =>
         forall it, In it its -> Item.market_hash_name it <> Price.market_hash_name r
     end
  /\ match Price.platform_id r with
     | Some p =>
         exists pl, In pl pls /\ Platform.id pl = p
                    /\ Price.item_id r = Some (Platform.item_id pl)
                    /\ Platform.name pl = Price.platform r
     | None => True
     end.

(** The world [w'] holds the catalog of [w] and its price rows,
    followed by rows that fit the catalog. *)
Definition grows_by_rows_ok (w w' : world) : Prop :=
  items w' = items w
  /\ platforms w' = platforms w
  /\ exists rows,
      prices w' = prices w ++ rows
      /\ Forall (row_ok (items w) (platforms w)) rows.

(** A request body that carries the given integers, each under its
    key, and nothing for an argument left out. *)
Definition body_of (start_id batch_size interval_sec : option Z) : pyval :=
  let field (k : string) (a : option Z) : list (string * pyval) :=
    match a with
    | Some n => [(k, PInt n)]
    | None => []
    end in
  PDict (field "startId" start_id ++ field "batchSize" batch_size
         ++ field "intervalSec" interval_sec).

(** An environment that sets [STEAMDT_API_KEY] only, and one that
    sets the two keys of the dual job, the first under its second
    name. *)
Definition default_key_only : environ :=
  fun k => if Str.eqb k "STEAMDT_API_KEY" then Some "K" else None.

Definition two_keys : environ :=
  fun k =>
    if Str.eqb k "STEAMDT_API_KEY_A" then Some "K1"
    else if Str.eqb k "STEAMDT_API_KEY_2" then Some "K2"
    else None.

(** A loop that turns without moving: the thread has not exited, no
    stop is signalled, the cursor is at [cur], which is not positive,
    nothing is counted as completed although the catalog has a
    positive identifier, and the calls and the rows are those of
    [w0]. *)
Definition single_spinning (cur : Z) (w0 : world) (c : pc * PriceBatchJob.t * world)
    : Prop :=
  let '(p, st, w) := c in
  p <> Exited
  /\ PriceBatchJob._stop_event st = false
  /\ PriceBatchJob.current_start_id st = cur
  /\ PriceBatchJob.completed_count st = 0
  /\ 0 < PriceBatchJob.max_id st
  /\ PriceBatchJob.last_processed_range st = None
  /\ PriceBatchJob.running st = true
  /\ calls w = calls w0
  /\ prices w = prices w0.

Definition dual_spinning (cur : Z) (w0 : world) (c : pc * DualApiSequentialJob.t * world)
    : Prop :=
  let '(p, st, w) := c in
  p <> Exited
  /\ DualApiSequentialJob._stop_event st = false
  /\ DualApiSequentialJob.current_start_id st = cur
  /\ DualApiSequentialJob.completed_count st = 0
  /\ 0 < DualApiSequentialJob.max_id st
  /\ DualApiSequentialJob.last_processed_range st = None
  /\ DualApiSequentialJob.running st = true
  /\ calls w = calls w0
  /\ prices w = prices w0.

(** ** [app.py]: the test route of the two credentials

    [test_dual_fetch] asks the service for the names of a fixed range
    of the catalog with one of the two clients and stores nothing.
    Its replies: the success object, an error with status 400, or the
    error of an exception, with status 500, whose text is not
    modelled. *)
Inductive fetch_reply : Type :=
| Fetched (client_id : Z) (range : Z * Z) (count : Z) (data : pyval)
| BadRequest (error : string)
| ServerError.

Definition test_dual_fetch {rt : Runtime} (e : env) (app : App.t) (body : pyval)
    (w : world) : fetch_reply * world :=
  let payload := py_or body (PDict []) in
  match py_get payload "clientId" with
  | Raise _ => (ServerError, w)
  | Ok v =>
      match _to_int (py_or v (PInt 0)) with
      | None => (ServerError, w)
      | Some client_id =>
          if negb ((client_id =? 1) || (client_id =? 2))
          then (BadRequest "clientId 需为 1 或 2", w)
          else
            let '(start_id, end_id) := if client_id =? 1 then (1, 100) else (101, 200) in
            let cli := if client_id =? 1 then App.client1 app else App.client2 app in
            if negb (DualApiSequentialJob.configured cli)
            then (BadRequest (if client_id =? 1
                              then DualApiSequentialJob.error_key_1
                              else DualApiSequentialJob.error_key_2), w)
            else
              match nonempty_names (items_in_range w start_id end_id) with
              | [] => (BadRequest "指定ID范围无有效条目（请先刷新基础信息）", w)
              | names =>
                  match DualApiSequentialJob.call_client e cli names w with
                  | (Ok data, w1) =>
                      (Fetched client_id (start_id, end_id)
                         (Z.of_nat (List.length names)) data, w1)
                  | (Raise _, w1) => (ServerError, w1)
                  end
              end
      end
  end.

(** ** [app.py]: the names and the chunks of [admin_price_batch_by_id] *)

(** [range(0, stop, step)] for a positive [step]. *)
Definition range_by (stop step : nat) : list nat :=
  map (fun k => (k * step)%nat) (seq 0 ((stop + step - 1) / step)).

(** [lst[i:j]] for [0 <= i <= j]. *)
Definition slice {A : Type} (lst : list A) (i j : nat) : list A :=
  firstn (j - i) (skipn i lst).

(** The generator [chunk(lst, size)], as the list of what it yields:
    [lst[i:i+size]] for [i] in [range(0, len(lst), size)].  The route
    calls it with the size 100; on the size 0, where [range] raises,
    the list is empty. *)
Definition chunk {A : Type} (lst : list A) (size : nat) : list (list A) :=
  map (fun i => slice lst i (i + size)) (range_by (List.length lst) size).

(** Lines 975-992: the bounds put in order, the items of the range by
    ascending identifier, and their names, stripped, without the
    blank ones. *)
Definition batch_by_id_names (w : world) (start_id end_id : Z) : list string :=
  let '(start_id, end_id) :=
    if end_id <? start_id then (end_id, start_id) else (start_id, end_id) in
  filter (fun n => negb (is_empty n))
    (map (fun it => strip (Item.market_hash_name it)) (items_in_range w start_id end_id)).

(** The name under which the rows of the item record [it] are
    stored, the platform entries of the record, and the platform name
    under which the row of the entry [p] is stored. *)
Definition name_of (it : pyval) : string :=
  match it with
  | PDict d =>
      match py_or (first_or d ["marketHashName"; "market_hash_name"]) (PStr "") with
      | PStr s => strip s
      | _ => EmptyString
      end
  | _ => EmptyString
  end.

Definition entries_of (it : pyval) : list pyval :=
  match it with
  | PDict d =>
      if is_empty (name_of it) then []
      else
        match py_or (first_or d ["platforms"; "platformList"; "dataList"]) (PList []) with
        | PDict pd => [PDict pd]
        | PList l => l
        | _ => []
        end
  | _ => []
  end.

Definition platform_name_of (p : pyval) : string :=
  match p with
  | PDict d =>
      match py_or (first_or d ["platform"; "name"; "plat"]) (PStr "") with
      | PStr s => canonical_str s
      | _ => EmptyString
      end
  | _ => EmptyString
  end.

(** The name and the platform of each row, and those the response
    [resp] calls for: one pair for each platform entry of each item
    record, in the order of the response. *)
Definition row_keys (rows : list Price.t) : list (string * string) :=
  map (fun r => (Price.market_hash_name r, Price.platform r)) rows.

Definition keys_of (resp : pyval) : list (string * string) :=
  flat_map (fun it => map (fun p => (name_of it, platform_name_of p)) (entries_of it))
    (data_list_of resp).

(** * Properties *)

(** ** Strings *)

Module StrFacts.
Lemma eqb_eq (a b : string) : Str.eqb a b = true <-> a = b.
Proof.
  revert b. induction a as [|c r IH]; intros [|d t]; cbn; try (split; congruence).
  rewrite andb_true_iff, N.eqb_eq, IH.
  split; [intros [-> ->]; reflexivity | now intros [= -> ->]].
Qed.

Lemma eqb_refl (a : string) : Str.eqb a a = true.
Proof. now apply eqb_eq. Qed.

Lemma eqb_spec (a b : string) : reflect (a = b) (Str.eqb a b).
Proof. apply iff_reflect. symmetry. apply eqb_eq. Qed.
End StrFacts.

Lemma append_nil_r (s : string) : append s EmptyString = s.
Proof. induction s as [|c r IH]; cbn; [reflexivity | now rewrite IH]. Qed.

Lemma append_assoc (a b c : string) : append (append a b) c = append a (append b c).
Proof. induction a as [|x r IH]; cbn; [reflexivity | now rewrite IH]. Qed.

Lemma upper_append (a b : string) : upper (append a b) = append (upper a) (upper b).
Proof.
  induction a as [|c r IH]; cbn [append upper]; [reflexivity|].
  now rewrite IH, append_assoc.
Qed.

(** What [str.upper] puts in the place of a code point it changes is
    not empty, and holds neither white space nor a code point that
    [str.upper] changes; no white space is changed. *)
Lemma upper_table_settled :
  forallb (fun kv => negb (is_space (fst kv))
                     && match snd kv with [] => false | _ => true end
                     && forallb settled (snd kv)) upper_table = true.
Proof. vm_compute. reflexivity. Qed.

Lemma plain_of_list (l : list N) : forallb settled l = true -> plain (of_list l) = true.
Proof. induction l as [|c r IH]; cbn; [reflexivity|]. now destruct (settled c). Qed.

Lemma upper_char_cases (c : N) :
  upper_char c = String c EmptyString
  \/ (is_space c = false /\ is_empty (upper_char c) = false /\ plain (upper_char c) = true).
Proof.
  unfold upper_char.
  destruct (find (fun kv => (fst kv =? c)%N) upper_table) as [kv|] eqn:E; [right | now left].
  apply find_some in E as [Hin Hc]. apply N.eqb_eq in Hc. subst c.
  pose proof upper_table_settled as H. rewrite forallb_forall in H.
  specialize (H kv Hin). apply andb_true_iff in H as [H H3].
  apply andb_true_iff in H as [H1 H2]. apply negb_true_iff in H1.
  split; [exact H1|]. split; [|now apply plain_of_list].
  destruct (snd kv); [discriminate | reflexivity].
Qed.

Lemma settled_upper_char (c : N) : settled c = true -> upper_char c = String c EmptyString.
Proof.
  unfold settled, upper_char. intros H. apply andb_true_iff in H as [_ H].
  destruct (find _ upper_table); [discriminate | reflexivity].
Qed.

Lemma plain_upper (s : string) : plain s = true -> upper s = s.
Proof.
  induction s as [|c r IH]; cbn [plain upper]; [reflexivity|].
  intros H. apply andb_true_iff in H as [Hc Hr].
  now rewrite (settled_upper_char c Hc), (IH Hr).
Qed.

Lemma is_space_upper_char (c : N) :
  is_space c = true -> upper_char c = String c EmptyString.
Proof. intros H. destruct (upper_char_cases c) as [E | [E _]]; [exact E | congruence]. Qed.

Lemma upper_char_idem (c : N) : upper (upper_char c) = upper_char c.
Proof.
  destruct (upper_char_cases c) as [E | (_ & _ & E)].
  - rewrite E. cbn [upper append]. rewrite E. reflexivity.
  - now apply plain_upper.
Qed.

Lemma upper_idem (s : string) : upper (upper s) = upper s.
Proof.
  induction s as [|c r IH]; cbn [upper]; [reflexivity|].
  now rewrite upper_append, upper_char_idem, IH.
Qed.

Lemma is_empty_append (a b : string) : is_empty (append a b) = is_empty a && is_empty b.
Proof. destruct a; reflexivity. Qed.

Lemma is_empty_upper_char (c : N) : is_empty (upper_char c) = false.
Proof. destruct (upper_char_cases c) as [-> | (_ & E & _)]; [reflexivity | exact E]. Qed.

Lemma is_empty_upper (s : string) : is_empty (upper s) = is_empty s.
Proof.
  destruct s as [|c r]; cbn [upper is_empty]; [reflexivity|].
  now rewrite is_empty_append, is_empty_upper_char.
Qed.

Lemma plain_no_space (s : string) : plain s = true -> no_space s = true.
Proof.
  induction s as [|c r IH]; cbn; [reflexivity|]. unfold settled.
  intros H. apply andb_true_iff in H as [Hc Hr]. apply andb_true_iff in Hc as [Hc _].
  now rewrite Hc, IH.
Qed.

Lemma no_space_upper_char (c : N) : is_space c = false -> no_space (upper_char c) = true.
Proof.
  intros H. destruct (upper_char_cases c) as [-> | (_ & _ & E)].
  - cbn. now rewrite H.
  - now apply plain_no_space.
Qed.

Lemma lstrip_no_lead (s : string) : no_lead s = true -> lstrip s = s.
Proof.
  destruct s as [|c r]; simpl; [reflexivity|].
  destruct (is_space c); [discriminate | reflexivity].
Qed.

Lemma no_lead_append (a b : string) :
  is_empty a = false -> no_space a = true -> no_lead (append a b) = true.
Proof.
  destruct a as [|c r]; cbn; [discriminate|]. intros _ H.
  now apply andb_true_iff in H as [H _].
Qed.

Lemma rstrip_append (a b : string) :
  no_space a = true -> rstrip (append a b) = append a (rstrip b).
Proof.
  induction a as [|c r IH]; cbn [append no_space rstrip]; [reflexivity|].
  intros H. apply andb_true_iff in H as [Hc Hr]. apply negb_true_iff in Hc.
  now rewrite Hc, (IH Hr).
Qed.

Lemma upper_lstrip (s : string) : upper (lstrip s) = lstrip (upper s).
Proof.
  induction s as [|c r IH]; cbn [lstrip upper]; [reflexivity|].
  destruct (is_space c) eqn:E.
  - rewrite (is_space_upper_char c E). cbn [append lstrip]. now rewrite E.
  - cbn [upper]. symmetry. apply lstrip_no_lead.
    apply no_lead_append; [apply is_empty_upper_char | now apply no_space_upper_char].
Qed.

Lemma upper_rstrip (s : string) : upper (rstrip s) = rstrip (upper s).
Proof.
  induction s as [|c r IH]; cbn [rstrip upper]; [reflexivity|].
  destruct (is_space c) eqn:E.
  - rewrite (is_space_upper_char c E). cbn [append rstrip andb].
    rewrite E, <- IH, is_empty_upper. cbn [andb].
    destruct (is_empty (rstrip r)); [reflexivity|].
    cbn [upper]. now rewrite (is_space_upper_char c E).
  - cbn [andb upper]. rewrite rstrip_append by now apply no_space_upper_char.
    now rewrite IH.
Qed.

Lemma upper_strip (s : string) : upper (strip s) = strip (upper s).
Proof. unfold strip. now rewrite upper_rstrip, upper_lstrip. Qed.

Lemma rstrip_idem (s : string) : rstrip (rstrip s) = rstrip s.
Proof.
  induction s as [|c r IH]; simpl; [reflexivity|].
  destruct (is_space c && is_empty (rstrip r)) eqn:E; simpl; [reflexivity|].
  now rewrite IH, E.
Qed.

Lemma no_lead_lstrip (s : string) : no_lead (lstrip s) = true.
Proof.
  induction s as [|c r IH]; simpl; [reflexivity|].
  destruct (is_space c) eqn:E; [exact IH | simpl; now rewrite E].
Qed.

Lemma no_lead_rstrip (s : string) : no_lead s = true -> no_lead (rstrip s) = true.
Proof.
  destruct s as [|c r]; simpl; [reflexivity|].
  destruct (is_space c) eqn:E; [discriminate|]. intros _. simpl.
  now rewrite E.
Qed.

Lemma strip_idem (s : string) : strip (strip s) = strip s.
Proof.
  unfold strip.
  rewrite (lstrip_no_lead (rstrip (lstrip s))).
  - apply rstrip_idem.
  - apply no_lead_rstrip, no_lead_lstrip.
Qed.

Lemma upper_strip_fixed (s : string) :
  upper (strip (upper (strip s))) = upper (strip s).
Proof. now rewrite <- upper_strip, strip_idem, upper_idem. Qed.

Lemma canonical_str_idem (s : string) : canonical_str (canonical_str s) = canonical_str s.
Proof.
  unfold canonical_str at 2 3.
  destruct (Str.eqb (upper (strip s)) "C5") eqn:E1; [reflexivity|].
  destruct (Str.eqb (upper (strip s)) "HALO") eqn:E2; [reflexivity|].
  unfold canonical_str. rewrite upper_strip_fixed, E1, E2. reflexivity.
Qed.

Lemma canonical_platform_name_str (s : string) :
  canonical_platform_name (PStr s) = Ok (canonical_str s).
Proof.
  unfold canonical_platform_name, py_or. simpl.
  destruct s; reflexivity.
Qed.

(** C8. Canonicalization of a platform name is idempotent on every
    string of code points, with the white space and the upper case of
    Unicode, and every spelling of an alias (whatever its case and the
    white space around it) canonicalizes to what its canonical form
    canonicalizes to: "C5GAME" for "C5", "HALOSKINS" for "HALO". *)
Theorem canonical_platform_name_idempotent :
  (forall s : string,
      (p <- canonical_platform_name (PStr s) ;; canonical_platform_name (PStr p))
      = canonical_platform_name (PStr s))
  /\ (forall s : string, upper (strip s) = "C5" ->
        canonical_platform_name (PStr s) = canonical_platform_name (PStr "C5GAME")
        /\ canonical_platform_name (PStr s) = Ok "C5GAME")
  /\ (forall s : string, upper (strip s) = "HALO" ->
        canonical_platform_name (PStr s) = canonical_platform_name (PStr "HALOSKINS")
        /\ canonical_platform_name (PStr s) = Ok "HALOSKINS").
Proof.
  split; [|split].
  - intros s. rewrite canonical_platform_name_str. simpl.
    now rewrite canonical_platform_name_str, canonical_str_idem.
  - intros s H. rewrite !canonical_platform_name_str.
    unfold canonical_str at 1 3. rewrite H. simpl. split; reflexivity.
  - intros s H. rewrite !canonical_platform_name_str.
    unfold canonical_str at 1 3. rewrite H. simpl. split; reflexivity.
Qed.

Lemma canonical_platform_name_idempotent_witness :
  canonical_platform_name (PStr "  c5 ") = Ok "C5GAME"
  /\ canonical_platform_name (PStr "Halo") = Ok "HALOSKINS"
  /\ canonical_platform_name (PStr (String 160 (String 12288 "halo"))) = Ok "HALOSKINS"
  /\ canonical_platform_name (PStr "straße") = Ok "STRASSE"
  /\ (p <- canonical_platform_name (PStr "straße") ;; canonical_platform_name (PStr p))
     = Ok "STRASSE".
Proof.
  split; [|split; [|split; [|split]]].
  - exact (proj2 (proj1 (proj2 canonical_platform_name_idempotent) "  c5 " eq_refl)).
  - exact (proj2 (proj2 (proj2 canonical_platform_name_idempotent) "Halo" eq_refl)).
  - exact (proj2 (proj2 (proj2 canonical_platform_name_idempotent)
                    (String 160 (String 12288 "halo")) eq_refl)).
  - reflexivity.
  - rewrite (proj1 canonical_platform_name_idempotent "straße"). reflexivity.
Defined.


(** ** Key probing *)

Lemma get_or_dict (d : list (string * pyval)) (keys : list string) :
  get_or (PDict d) keys = Ok (first_or d keys).
Proof.
  induction keys as [|k ks IH]; [reflexivity|].
  destruct ks as [|k' ks']; [reflexivity|].
  change (get_or (PDict d) (k :: k' :: ks'))
    with (x <- py_get (PDict d) k ;;
          if truthy x then Ok x else get_or (PDict d) (k' :: ks')).
  change (first_or d (k :: k' :: ks'))
    with (if truthy (get d k) then get d k else first_or d (k' :: ks')).
  simpl py_get. simpl bind.
  destruct (truthy (get d k)); [reflexivity | exact IH].
Qed.

Lemma get_or_not_dict (v : pyval) (keys : list string) :
  (forall d, v <> PDict d) -> keys <> [] -> get_or v keys = Raise AttributeError.
Proof.
  intros Hv Hk. destruct keys as [|k ks]; [congruence|].
  destruct v; try (destruct ks; reflexivity).
  exfalso. eapply Hv. reflexivity.
Qed.

Lemma selects_first_or (d : list (string * pyval)) (keys : list string) (v : pyval) :
  selects d keys v -> first_or d keys = v.
Proof.
  intros (pre & k & post & -> & Hpre & Hk & Hv).
  induction Hpre as [|k0 pre0 H0 _ IH]; simpl app.
  - destruct post as [|k1 post1]; [exact Hk|].
    change (first_or d (k :: k1 :: post1))
      with (if truthy (get d k) then get d k else first_or d (k1 :: post1)).
    destruct Hv as [Hv|Hv]; [|discriminate].
    rewrite Hk, Hv. reflexivity.
  - destruct (pre0 ++ k :: post) as [|k1 r] eqn:E.
    + destruct pre0; discriminate.
    + change (first_or d (k0 :: k1 :: r))
        with (if truthy (get d k0) then get d k0 else first_or d (k1 :: r)).
      rewrite H0. exact IH.
Qed.

Section RowFacts.
Context {rt : Runtime}.

Lemma to_int_none_guard (ut : pyval) :
  (if is_none ut then None else _to_int ut) = _to_int ut.
Proof. destruct ut; reflexivity. Qed.

(** The numeric fields of the row built from a platform entry that is
    a dict. *)
Lemma platform_row_fields (w : world) (mhn : string) (iid : option Z)
    (d : list (string * pyval)) (row : Price.t) :
  platform_row w mhn iid (PDict d) = Ok row ->
  Price.sell_price row
    = _to_float (first_or d ["sell_price"; "sellPrice"; "sell"; "price"])
  /\ Price.bidding_price row
    = _to_float (first_or d ["bidding_price"; "biddingPrice"; "buy"; "buy_price"])
  /\ Price.sell_count row = _to_int (first_or d ["sell_count"; "sellCount"])
  /\ Price.bidding_count row = _to_int (first_or d ["bidding_count"; "biddingCount"])
  /\ Price.update_time row
    = to_millis (_to_int (first_or d ["update_time"; "updateTime"])).
Proof.
  unfold platform_row. rewrite !get_or_dict. cbn [bind].
  destruct (canonical_platform_name _) as [pn|x]; cbn [bind]; [|discriminate].
  rewrite to_int_none_guard.
  match goal with
  | |- bind ?m _ = _ -> _ => destruct m as [pl|x]; cbn [bind]; [|discriminate]
  end.
  intros H. injection H as <-. cbn. repeat split; reflexivity.
Qed.
End RowFacts.

(** ** The time stamp *)

(** C6. The update time of a stored row is the integer extracted from
    the platform entry, multiplied by 1000 when it is below 10^12 and
    unchanged from 10^12 on: 1700000000 gives 1700000000000 and
    1700000000000 stays; a missing update time, or one that does not
    coerce to an integer, is stored as absent. *)
Theorem update_time_is_stored_in_milliseconds {rt : Runtime}
    (w : world) (mhn : string) (iid : option Z)
    (d : list (string * pyval)) (row : Price.t) :
  platform_row w mhn iid (PDict d) = Ok row ->
  let ut := py_or (get d "update_time") (get d "updateTime") in
  (forall n, _to_int ut = Some n -> n < 10 ^ 12 ->
             Price.update_time row = Some (n * 1000))
  /\ (forall n, _to_int ut = Some n -> 10 ^ 12 <= n ->
                Price.update_time row = Some n)
  /\ (ut = PInt 1700000000 -> Price.update_time row = Some 1700000000000)
  /\ (ut = PInt 1700000000000 -> Price.update_time row = Some 1700000000000)
  /\ (ut = PNone -> Price.update_time row = None)
  /\ (_to_int ut = None -> Price.update_time row = None).
Proof.
  intros H ut.
  destruct (platform_row_fields _ _ _ _ _ H) as (_ & _ & _ & _ & Hut).
  change (first_or d ["update_time"; "updateTime"]) with ut in Hut.
  change (10 ^ 12) with 1000000000000.
  rewrite Hut. unfold to_millis.
  repeat split.
  - intros n -> Hn. destruct (Z.ltb_spec n 1000000000000); [reflexivity | lia].
  - intros n -> Hn. destruct (Z.ltb_spec n 1000000000000); [lia | reflexivity].
  - intros ->. reflexivity.
  - intros ->. reflexivity.
  - intros ->. reflexivity.
  - intros ->. reflexivity.
Qed.

Lemma update_time_is_stored_in_milliseconds_witness :
  (exists row,
      platform_row (rt := stub_runtime) empty_world "AK-47 | Redline" None
        (PDict [("platform", PStr "buff"); ("update_time", PInt 1700000000)]) = Ok row
      /\ Price.update_time row = Some 1700000000000)
  /\ (exists row,
      platform_row (rt := stub_runtime) empty_world "AK-47 | Redline" None
        (PDict [("platform", PStr "buff"); ("updateTime", PInt 1700000000000)]) = Ok row
      /\ Price.update_time row = Some 1700000000000)
  /\ (exists row,
      platform_row (rt := stub_runtime) empty_world "AK-47 | Redline" None
        (PDict [("platform", PStr "buff"); ("sellPrice", PInt 12)]) = Ok row
      /\ Price.update_time row = None)
  /\ (exists row,
      platform_row (rt := stub_runtime) empty_world "AK-47 | Redline" None
        (PDict [("platform", PStr "buff"); ("update_time", PList [PInt 1700000000])])
      = Ok row
      /\ Price.update_time row = None).
Proof.
  split; [|split; [|split]]; eexists; (split; [reflexivity|]).
  - destruct (update_time_is_stored_in_milliseconds (rt := stub_runtime) empty_world
                "AK-47 | Redline" None
                [("platform", PStr "buff"); ("update_time", PInt 1700000000)] _ eq_refl)
      as (H1 & _ & H3 & _).
    assert (E : 1700000000 < 10 ^ 12) by reflexivity.
    exact (eq_trans (H1 1700000000 eq_refl E) (eq_sym (H3 eq_refl))).
  - destruct (update_time_is_stored_in_milliseconds (rt := stub_runtime) empty_world
                "AK-47 | Redline" None
                [("platform", PStr "buff"); ("updateTime", PInt 1700000000000)] _ eq_refl)
      as (_ & H2 & _ & H4 & _).
    assert (E : 10 ^ 12 <= 1700000000000) by discriminate.
    exact (eq_trans (H2 1700000000000 eq_refl E) (eq_sym (H4 eq_refl))).
  - destruct (update_time_is_stored_in_milliseconds (rt := stub_runtime) empty_world
                "AK-47 | Redline" None
                [("platform", PStr "buff"); ("sellPrice", PInt 12)] _ eq_refl)
      as (_ & _ & _ & _ & H5 & _).
    exact (H5 eq_refl).
  - destruct (update_time_is_stored_in_milliseconds (rt := stub_runtime) empty_world
                "AK-47 | Redline" None
                [("platform", PStr "buff"); ("update_time", PList [PInt 1700000000])]
                _ eq_refl)
      as (_ & _ & _ & _ & _ & H6).
    exact (H6 eq_refl).
Defined.

(** ** Which key feeds a numeric field *)

(** The claim C10 as stated fails for a zero stored under the last
    alias: with "price" as the only price key, holding 0, the sell
    price of the row is 0.0 and not absent. *)
Lemma zero_under_last_alias_is_stored :
  exists row,
    platform_row (rt := stub_runtime) empty_world "AK-47 | Redline" None
      (PDict [("platform", PStr "BUFF"); ("price", PInt 0)]) = Ok row
    /\ Price.sell_price row = Some (S754_zero false)
    /\ Price.sell_price row <> None.
Proof.
  eexists. split; [reflexivity|]. split; [reflexivity | discriminate].
Qed.

(** C10, amended. A numeric field of a row is coerced from the value
    of the first alias key that holds a truthy value, or from the
    value of the last alias key when no earlier one is truthy.  So
    with "sell_price" at 0 and "price" at 5 the sell price is 5.0; a
    zero under "sell_price" with no other price key is stored as
    absent; a zero under the last alias "price" with no other price
    key is stored as 0.0. *)
Theorem numeric_field_takes_first_truthy_else_last {rt : Runtime}
    (w : world) (mhn : string) (iid : option Z)
    (d : list (string * pyval)) (row : Price.t) :
  platform_row w mhn iid (PDict d) = Ok row ->
  (forall v, selects d ["sell_price"; "sellPrice"; "sell"; "price"] v ->
             Price.sell_price row = _to_float v)
  /\ (forall v, selects d ["bidding_price"; "biddingPrice"; "buy"; "buy_price"] v ->
                Price.bidding_price row = _to_float v)
  /\ (forall v, selects d ["sell_count"; "sellCount"] v ->
                Price.sell_count row = _to_int v)
  /\ (forall v, selects d ["bidding_count"; "biddingCount"] v ->
                Price.bidding_count row = _to_int v)
  /\ (get d "sell_price" = PInt 0 -> get d "sellPrice" = PNone ->
      get d "sell" = PNone -> get d "price" = PInt 5 ->
      Price.sell_price row = float_of_int 5)
  /\ (get d "sell_price" = PInt 0 -> get d "sellPrice" = PNone ->
      get d "sell" = PNone -> get d "price" = PNone ->
      Price.sell_price row = None)
  /\ (get d "sell_price" = PNone -> get d "sellPrice" = PNone ->
      get d "sell" = PNone -> get d "price" = PInt 0 ->
      Price.sell_price row = Some (S754_zero false)).
Proof.
  intros H.
  destruct (platform_row_fields _ _ _ _ _ H) as (Hs & Hb & Hsc & Hbc & _).
  repeat split.
  - intros v Hv. now rewrite Hs, (selects_first_or _ _ _ Hv).
  - intros v Hv. now rewrite Hb, (selects_first_or _ _ _ Hv).
  - intros v Hv. now rewrite Hsc, (selects_first_or _ _ _ Hv).
  - intros v Hv. now rewrite Hbc, (selects_first_or _ _ _ Hv).
  - intros H1 H2 H3 H4. rewrite Hs. cbn [first_or]. now rewrite H1, H2, H3, H4.
  - intros H1 H2 H3 H4. rewrite Hs. cbn [first_or]. now rewrite H1, H2, H3, H4.
  - intros H1 H2 H3 H4. rewrite Hs. cbn [first_or]. now rewrite H1, H2, H3, H4.
Qed.

Lemma numeric_field_takes_first_truthy_else_last_witness :
  (exists row,
      platform_row (rt := stub_runtime) empty_world "AK-47 | Redline" None
        (PDict [("platform", PStr "BUFF"); ("sell_price", PInt 0); ("price", PInt 5);
                ("buy", PInt 3); ("buy_price", PInt 4);
                ("sellCount", PInt 7); ("bidding_count", PStr "")])
      = Ok row
      /\ Price.sell_price row = Some (S754_finite false 5629499534213120 (-50))
      /\ Price.bidding_price row = Some (S754_finite false 6755399441055744 (-51))
      /\ Price.sell_count row = Some 7
      /\ Price.bidding_count row = None)
  /\ (exists row,
      platform_row (rt := stub_runtime) empty_world "AK-47 | Redline" None
        (PDict [("platform", PStr "BUFF"); ("sell_price", PInt 0)]) = Ok row
      /\ Price.sell_price row = None)
  /\ (exists row,
      platform_row (rt := stub_runtime) empty_world "AK-47 | Redline" None
        (PDict [("platform", PStr "BUFF"); ("price", PInt 0)]) = Ok row
      /\ Price.sell_price row = Some (S754_zero false)
      /\ Price.sell_price row = _to_float (rt := stub_runtime) (PInt 0)).
Proof.
  split; [|split]; eexists; (split; [reflexivity|]).
  - destruct (numeric_field_takes_first_truthy_else_last (rt := stub_runtime) empty_world
                "AK-47 | Redline" None
                [("platform", PStr "BUFF"); ("sell_price", PInt 0); ("price", PInt 5);
                 ("buy", PInt 3); ("buy_price", PInt 4);
                 ("sellCount", PInt 7); ("bidding_count", PStr "")] _ eq_refl)
      as (Hs & Hb & Hsc & Hbc & Hex & _).
    split; [|split; [|split]].
    + exact (Hex eq_refl eq_refl eq_refl eq_refl).
    + apply (Hb (PInt 3)).
      exists ["bidding_price"; "biddingPrice"], "buy", ["buy_price"].
      split; [reflexivity|]. split; [repeat constructor|]. split; [reflexivity|].
      left. reflexivity.
    + apply (Hsc (PInt 7)).
      exists ["sell_count"], "sellCount", [].
      split; [reflexivity|]. split; [repeat constructor|]. split; [reflexivity|].
      left. reflexivity.
    + apply (Hbc PNone).
      exists ["bidding_count"], "biddingCount", [].
      split; [reflexivity|]. split; [repeat constructor|]. split; [reflexivity|].
      right. reflexivity.
  - destruct (numeric_field_takes_first_truthy_else_last (rt := stub_runtime) empty_world
                "AK-47 | Redline" None
                [("platform", PStr "BUFF"); ("sell_price", PInt 0)] _ eq_refl)
      as (_ & _ & _ & _ & _ & Hno & _).
    exact (Hno eq_refl eq_refl eq_refl eq_refl).
  - destruct (numeric_field_takes_first_truthy_else_last (rt := stub_runtime) empty_world
                "AK-47 | Redline" None
                [("platform", PStr "BUFF"); ("price", PInt 0)] _ eq_refl)
      as (Hs & _ & _ & _ & _ & _ & Hlast).
    split; [exact (Hlast eq_refl eq_refl eq_refl eq_refl)|].
    apply (Hs (PInt 0)).
    exists ["sell_price"; "sellPrice"; "sell"], "price", [].
    split; [reflexivity|]. split; [repeat constructor|]. split; [reflexivity|].
    right. reflexivity.
Defined.

(** ** When the normalization raises *)

Lemma filter_key_at_most_one {A K : Type} (f : A -> K) (test : A -> bool) (l : list A) :
  NoDup (map f l) ->
  (forall x y, test x = true -> test y = true -> f x = f y) ->
  (List.length (filter test l) <= 1)%nat.
Proof.
  intros Hnd Hkey. induction l as [|a r IH]; simpl; [lia|].
  inversion Hnd as [|? ? Hnotin Hnd']; subst.
  destruct (test a) eqn:Ea; [|now apply IH].
  assert (Hr : filter test r = []).
  { destruct (filter test r) as [|y ys] eqn:E; [reflexivity|].
    exfalso. apply Hnotin.
    assert (Hy : In y (filter test r)) by (rewrite E; now left).
    apply filter_In in Hy. destruct Hy as [Hin Hty].
    rewrite (Hkey a y Ea Hty). now apply in_map. }
  rewrite Hr. simpl. lia.
Qed.

Lemma one_or_none_short {A : Type} (l : list A) :
  (List.length l <= 1)%nat -> raised (one_or_none l) = false.
Proof. destruct l as [|x [|y r]]; simpl; intros; reflexivity || lia. Qed.

Lemma item_by_name_total (w : world) (mhn : string) :
  unique_keys w -> raised (item_by_name w mhn) = negb (encodable mhn).
Proof.
  intros [Hi _]. unfold item_by_name.
  destruct (encodable mhn); [|reflexivity]. apply one_or_none_short.
  apply (filter_key_at_most_one Item.market_hash_name); [exact Hi|].
  intros x y Hx Hy. apply StrFacts.eqb_eq in Hx, Hy. congruence.
Qed.

Lemma platform_of_total (w : world) (iid : Z) (plat : string) :
  unique_keys w -> raised (platform_of w iid plat) = negb (encodable plat).
Proof.
  intros [_ Hp]. unfold platform_of.
  destruct (encodable plat); [|reflexivity]. apply one_or_none_short.
  apply (filter_key_at_most_one (fun p => (Platform.item_id p, Platform.name p)));
    [exact Hp|].
  intros x y Hx Hy.
  apply andb_true_iff in Hx, Hy. destruct Hx as [Hx1 Hx2], Hy as [Hy1 Hy2].
  apply Z.eqb_eq in Hx1, Hy1. apply StrFacts.eqb_eq in Hx2, Hy2. congruence.
Qed.

Lemma py_or_twice (x e : pyval) : truthy e = false -> py_or (py_or x e) e = py_or x e.
Proof. unfold py_or. intros He. destruct (truthy x) eqn:E; [now rewrite E | now rewrite He]. Qed.

Section Shapes.
Context {rt : Runtime}.

Lemma platform_row_raised (w : world) (mhn : string) (iid : option Z) (p : pyval) :
  unique_keys w ->
  raised (platform_row w mhn iid p) = negb (platform_ok iid p).
Proof.
  intros Hu. destruct p; try reflexivity.
  unfold platform_row, platform_ok. rewrite !get_or_dict. cbn [bind].
  unfold canonical_platform_name.
  rewrite py_or_twice by reflexivity.
  destruct (py_or (first_or d ["platform"; "name"; "plat"]) (PStr ""));
    cbn [bind]; try reflexivity.
  destruct iid as [i|]; [|reflexivity].
  destruct (i =? 0); [reflexivity|]. cbn [orb].
  pose proof (platform_of_total w i (canonical_str s) Hu) as Ht.
  destruct (platform_of w i (canonical_str s)); exact Ht.
Qed.

Lemma add_platform_rows_raised (w : world) (mhn : string) (iid : option Z)
    (ps : list pyval) (s : session) :
  unique_keys w ->
  raised (fst (add_platform_rows w mhn iid ps s)) = negb (forallb (platform_ok iid) ps).
Proof.
  intros Hu. revert s. induction ps as [|p r IH]; intros s; [reflexivity|].
  cbn [add_platform_rows forallb].
  pose proof (platform_row_raised w mhn iid p Hu) as Hp.
  destruct (platform_row w mhn iid p) as [row|x]; simpl in Hp; symmetry in Hp.
  - apply negb_false_iff in Hp. rewrite Hp. apply IH.
  - apply negb_true_iff in Hp. rewrite Hp. reflexivity.
Qed.

Lemma add_item_rows_raised (w : world) (it : pyval) (s : session) :
  unique_keys w ->
  raised (fst (add_item_rows w it s)) = negb (item_ok w it).
Proof.
  intros Hu. destruct it; try reflexivity.
  unfold add_item_rows, item_ok, item_id_of. rewrite !get_or_dict. cbn [bind].
  destruct (py_or (first_or d ["marketHashName"; "market_hash_name"]) (PStr ""));
    try reflexivity.
  cbn [py_strip]. destruct (is_empty (strip s0)); [reflexivity|].
  pose proof (item_by_name_total w (strip s0) Hu) as Ht.
  destruct (item_by_name w (strip s0)) as [rec|x]; simpl in Ht;
    symmetry in Ht;
    [apply negb_false_iff in Ht | apply negb_true_iff in Ht]; rewrite Ht;
    [|reflexivity].
  cbn [andb]. unfold py_or.
  destruct (first_or d ["platforms"; "platformList"; "dataList"])
    as [|b|n|f|ps|l|pd] eqn:E; cbn [truthy].
  - reflexivity.
  - destruct b; reflexivity.
  - destruct (n =? 0); reflexivity.
  - destruct f; reflexivity.
  - destruct ps as [|c r]; reflexivity.
  - destruct l as [|p l']; [reflexivity|].
    cbn [py_iter]. apply add_platform_rows_raised, Hu.
  - destruct pd as [|kv pd']; [reflexivity|].
    cbn [py_iter]. rewrite add_platform_rows_raised by exact Hu.
    cbn [forallb]. now rewrite andb_true_r.
Qed.

End Shapes.

(** The claim C3 as stated fails: an item record that is a number, a
    name that is a number, a platform container that is a number, a
    platform entry that is a string and a name that holds a lone
    surrogate each make the normalization raise. *)
Lemma build_rows_raises_on_non_object :
  build_rows (rt := stub_runtime) empty_world (PList [PInt 5]) get_session
  = (Raise AttributeError, get_session)
  /\ build_rows (rt := stub_runtime) empty_world
       (PDict [("data", PList [PDict [("marketHashName", PInt 7)]])]) get_session
     = (Raise AttributeError, get_session)
  /\ build_rows (rt := stub_runtime) empty_world
       (PDict [("data", PList [PDict [("marketHashName", PStr "AK-47 | Redline");
                                      ("platforms", PInt 3)]])]) get_session
     = (Raise TypeError, get_session)
  /\ build_rows (rt := stub_runtime) empty_world
       (PDict [("data", PList [PDict [("marketHashName", PStr "AK-47 | Redline");
                                      ("platforms", PList [PStr "BUFF"])]])]) get_session
     = (Raise AttributeError, get_session)
  /\ build_rows (rt := stub_runtime) empty_world
       (PDict [("data", PList [PDict [("marketHashName", PStr (String 55357 "AK-47"));
                                      ("platforms", PList [])]])]) get_session
     = (Raise UnicodeEncodeError, get_session).
Proof. repeat split. Qed.

(** C3, amended. On a store that respects its unique keys, turning a
    response into rows returns normally exactly when the response is
    well shaped: every item record is an object whose name is a string
    or falsy and, unless that name is blank (empty once the Unicode
    white space around it is stripped), holds no surrogate and comes
    with a platform container that is falsy, an object, or a list of
    objects with a platform name that is a string or falsy and, when
    the store holds the item under a truthy id, holds no surrogate
    either.  Nothing is asked of the keys that are missing, of a
    response that is neither an object nor a list, of the record of a
    blank name, or of the values of the numeric fields: these give
    fewer rows or absent fields.  A response that is not well shaped
    makes the block raise. *)
Theorem build_rows_returns_iff_well_shaped {rt : Runtime}
    (w : world) (resp : pyval) (s : session) :
  unique_keys w ->
  raised (fst (build_rows w resp s)) = negb (well_shaped w resp).
Proof.
  intros Hu. unfold build_rows, well_shaped.
  generalize (data_list_of resp) as l. intros l.
  revert s. induction l as [|it r IH]; intros s; [reflexivity|].
  cbn [add_all_rows forallb].
  pose proof (add_item_rows_raised w it s Hu) as Hi.
  destruct (add_item_rows w it s) as [[u|x] s1]; simpl in Hi; symmetry in Hi.
  - apply negb_false_iff in Hi. rewrite Hi. apply IH.
  - apply negb_true_iff in Hi. rewrite Hi. reflexivity.
Qed.

Lemma build_rows_returns_iff_well_shaped_witness :
  raised (fst (build_rows (rt := stub_runtime) empty_world
     (PDict [("data", PList [PDict [("marketHashName", PStr "AK-47 | Redline");
        ("platforms", PList [PDict [("platform", PStr "c5");
                                    ("sell_price", PList [PInt 1]);
                                    ("sell_count", PDict []);
                                    ("update_time", PStr "soon")];
                             PDict [("platform", PStr (String 56832 "buff"))]])];
        PDict [("marketHashName", PStr (String 12288 (String 160 EmptyString)));
               ("platforms", PInt 3)];
        PDict [("name", PStr "no market hash name")]])])
     get_session)) = false.
Proof.
  exact (build_rows_returns_iff_well_shaped (rt := stub_runtime) empty_world _ get_session
           (conj (NoDup_nil _) (NoDup_nil _))).
Defined.

(** ** What a window leaves in the world *)

Section WorldFacts.
Context {rt : Runtime}.

Lemma write_prices_raise (e : env) (resp : pyval) (w w' : world) (x : exn) :
  write_prices e resp w = (Raise x, w') ->
  prices w' = prices w /\ calls w' = calls w.
Proof.
  unfold write_prices.
  destruct (build_rows w resp get_session) as [[u|y] s].
  - destruct (commit_ok e (commits w) (pending s)); [discriminate|].
    intros H. injection H as _ <-. simpl. split; [apply app_nil_r | reflexivity].
  - intros H. injection H as _ <-. split; reflexivity.
Qed.

Lemma write_prices_catalog (e : env) (resp : pyval) (w : world) :
  items (snd (write_prices e resp w)) = items w
  /\ platforms (snd (write_prices e resp w)) = platforms w
  /\ calls (snd (write_prices e resp w)) = calls w.
Proof.
  unfold write_prices.
  destruct (build_rows w resp get_session) as [[u|y] s]; [|repeat split].
  destruct (commit_ok e (commits w) (pending s)); repeat split.
Qed.

Lemma get_price_batch_world (e : env) (c : SteamDTClient.t) (names : list string)
    (w : world) :
  snd (SteamDTClient.get_price_batch e c names w)
  = log_call w (SteamDTClient.api_key c) names.
Proof.
  unfold SteamDTClient.get_price_batch.
  destruct (SteamDTClient._ensure_key c); reflexivity.
Qed.

Lemma call_client_world (e : env) (cli : option SteamDTClient.t) (names : list string)
    (w : world) :
  prices (snd (DualApiSequentialJob.call_client e cli names w)) = prices w
  /\ items (snd (DualApiSequentialJob.call_client e cli names w)) = items w.
Proof.
  destruct cli as [c|]; simpl; [|split; reflexivity].
  rewrite get_price_batch_world. split; reflexivity.
Qed.
End WorldFacts.

(** ** A window that fails *)

(** C5. A failure while the rows of a window are written leaves no row
    of the window in the store; the exception leaves [_run_one_range];
    the job then holds the state it had before the window, so the loop
    goes on to its completion test with the same cursor, completed
    count and last processed range, and the next window starts at the
    same identifier. *)
Theorem failed_write_rolls_back_and_keeps_cursor {rt : Runtime} (e : env) :
  (forall resp w x w',
      write_prices e resp w = (Raise x, w') -> prices w' = prices w)
  /\ (forall st w n ns resp w1 x w2,
        let start_id := PriceBatchJob.current_start_id st in
        let end_id := Z.min (PriceBatchJob.max_id st)
                            (start_id + PriceBatchJob.batch_size st - 1) in
        (end_id <? start_id) || (start_id <=? 0) = false ->
        nonempty_names (items_in_range w start_id end_id) = n :: ns ->
        SteamDTClient.get_price_batch e (PriceBatchJob.client st) (n :: ns) w
          = (Ok resp, w1) ->
        write_prices e resp w1 = (Raise x, w2) ->
        PriceBatchJob._run_one_range e st w = (Raise x, st, w2)
        /\ prices w2 = prices w
        /\ PriceBatchJob.loop_step e (AtRunWindow, st, w) = (AtDoneCheck, st, w2))
  /\ (forall st w x st' w',
        PriceBatchJob._run_one_range e st w = (Raise x, st', w') ->
        st' = st /\ prices w' = prices w)
  /\ (forall st w n ns resp w1 x w2,
        let start_id := DualApiSequentialJob.current_start_id st in
        let end_id := Z.min (DualApiSequentialJob.max_id st)
                            (start_id + DualApiSequentialJob.batch_size st - 1) in
        (end_id <? start_id) || (start_id <=? 0) = false ->
        nonempty_names (items_in_range w start_id end_id) = n :: ns ->
        DualApiSequentialJob.call_client e
          (if DualApiSequentialJob.next_client_id st =? 1
           then DualApiSequentialJob.client1 st else DualApiSequentialJob.client2 st)
          (n :: ns) w = (Ok resp, w1) ->
        write_prices e resp w1 = (Raise x, w2) ->
        DualApiSequentialJob._run_one_range e st w = (Raise x, st, w2)
        /\ prices w2 = prices w
        /\ DualApiSequentialJob.loop_step e (AtRunWindow, st, w)
           = (AtDoneCheck,
              DualApiSequentialJob.set_last_error st (Some (exn_message x)), w2))
  /\ (forall st w x st' w',
        DualApiSequentialJob._run_one_range e st w = (Raise x, st', w') ->
        st' = st /\ prices w' = prices w).
Proof.
  split; [|split; [|split; [|split]]].
  - intros resp w x w' H. apply (write_prices_raise _ _ _ _ _ H).
  - intros st w n ns resp w1 x w2 start_id end_id Hg Hn Hc Hw.
    assert (Hrun : PriceBatchJob._run_one_range e st w = (Raise x, st, w2)).
    { unfold PriceBatchJob._run_one_range. fold start_id. fold end_id. rewrite Hg.
      destruct (items_in_range w start_id end_id) as [|it its] eqn:Ei;
        [discriminate Hn|].
      rewrite Hn, Hc, Hw. reflexivity. }
    split; [exact Hrun|]. split.
    + destruct (write_prices_raise _ _ _ _ _ Hw) as [Hp _]. rewrite Hp.
      pose proof (get_price_batch_world e (PriceBatchJob.client st) (n :: ns) w) as Hl.
      rewrite Hc in Hl. simpl in Hl. rewrite Hl. reflexivity.
    + unfold PriceBatchJob.loop_step. rewrite Hrun. reflexivity.
  - intros st w x st' w'. unfold PriceBatchJob._run_one_range.
    destruct (_ || _); [discriminate|].
    destruct (items_in_range _ _ _) as [|it its]; [discriminate|].
    destruct (nonempty_names _) as [|n ns]; [discriminate|].
    pose proof (get_price_batch_world e (PriceBatchJob.client st) (n :: ns) w) as Hl.
    destruct (SteamDTClient.get_price_batch _ _ _ _) as [[resp|y] w1]; simpl in Hl.
    + destruct (write_prices e resp w1) as [[u|z] w2] eqn:Hw; [discriminate|].
      intros H. injection H as _ <- <-.
      destruct (write_prices_raise _ _ _ _ _ Hw) as [Hp _].
      rewrite Hp, Hl. split; reflexivity.
    + intros H. injection H as _ <- <-. rewrite Hl. split; reflexivity.
  - intros st w n ns resp w1 x w2 start_id end_id Hg Hn Hc Hw.
    assert (Hrun : DualApiSequentialJob._run_one_range e st w = (Raise x, st, w2)).
    { unfold DualApiSequentialJob._run_one_range. fold start_id. fold end_id. rewrite Hg.
      destruct (items_in_range w start_id end_id) as [|it its] eqn:Ei;
        [discriminate Hn|].
      rewrite Hn, Hc, Hw. reflexivity. }
    split; [exact Hrun|]. split.
    + destruct (write_prices_raise _ _ _ _ _ Hw) as [Hp _]. rewrite Hp.
      match type of Hc with
      | DualApiSequentialJob.call_client _ ?c _ _ = _ =>
          destruct (call_client_world e c (n :: ns) w) as [Hl _]
      end.
      rewrite Hc in Hl. exact Hl.
    + unfold DualApiSequentialJob.loop_step. rewrite Hrun. reflexivity.
  - intros st w x st' w'. unfold DualApiSequentialJob._run_one_range.
    destruct (_ || _); [discriminate|].
    destruct (items_in_range _ _ _) as [|it its]; [discriminate|].
    destruct (nonempty_names _) as [|n ns]; [discriminate|].
    match goal with
    | |- context [DualApiSequentialJob.call_client e ?c ?l w] =>
        destruct (call_client_world e c l w) as [Hl _];
        destruct (DualApiSequentialJob.call_client e c l w) as [[resp|y] w1]
    end; simpl in Hl.
    + destruct (write_prices e resp w1) as [[u|z] w2] eqn:Hw; [discriminate|].
      intros H. injection H as _ <- <-.
      destruct (write_prices_raise _ _ _ _ _ Hw) as [Hp _].
      rewrite Hp, Hl. split; reflexivity.
    + intros H. injection H as _ <- <-. rewrite Hl. split; reflexivity.
Qed.

Lemma failed_write_rolls_back_and_keeps_cursor_witness :
  let st := single_on_small_world in
  let dst := dual_on_small_world in
  (exists w2,
      write_prices (rt := stub_runtime) refusing_store_env one_price small_world
      = (Raise StoreError, w2)
      /\ prices w2 = [])
  /\ (exists w2,
      PriceBatchJob._run_one_range (rt := stub_runtime) refusing_store_env st small_world
      = (Raise StoreError, st, w2)
      /\ prices w2 = []
      /\ PriceBatchJob.loop_step (rt := stub_runtime) refusing_store_env
           (AtRunWindow, st, small_world) = (AtDoneCheck, st, w2))
  /\ (exists w2,
      PriceBatchJob._run_one_range (rt := stub_runtime) first_call_fails_env st small_world
      = (Raise (RequestError "503 Server Error"), st, w2)
      /\ prices w2 = [])
  /\ (exists w2,
      DualApiSequentialJob._run_one_range (rt := stub_runtime) refusing_store_env dst
        small_world = (Raise StoreError, dst, w2)
      /\ prices w2 = []
      /\ DualApiSequentialJob.loop_step (rt := stub_runtime) refusing_store_env
           (AtRunWindow, dst, small_world)
         = (AtDoneCheck, DualApiSequentialJob.set_last_error dst (Some "StoreError"), w2))
  /\ (exists w2,
      DualApiSequentialJob._run_one_range (rt := stub_runtime) first_call_fails_env dst
        small_world = (Raise (RequestError "503 Server Error"), dst, w2)
      /\ prices w2 = []).
Proof.
  intros st dst. split; [|split; [|split; [|split]]].
  - eexists.
    refine ((fun H => conj H
              (proj1 (failed_write_rolls_back_and_keeps_cursor (rt := stub_runtime)
                        refusing_store_env) one_price small_world StoreError _ H)) _).
    reflexivity.
  - eexists.
    refine (proj1 (proj2 (failed_write_rolls_back_and_keeps_cursor (rt := stub_runtime)
              refusing_store_env)) st small_world _ _ one_price _ StoreError _ _ _ _ _);
      reflexivity.
  - eexists.
    refine ((fun H => conj H
              (proj2 (proj1 (proj2 (proj2
                 (failed_write_rolls_back_and_keeps_cursor (rt := stub_runtime)
                    first_call_fails_env))) st small_world _ st _ H))) _).
    reflexivity.
  - eexists.
    refine (proj1 (proj2 (proj2 (proj2
              (failed_write_rolls_back_and_keeps_cursor (rt := stub_runtime)
                 refusing_store_env)))) dst small_world _ _ one_price _ StoreError _ _ _ _ _);
      reflexivity.
  - eexists.
    refine ((fun H => conj H
              (proj2 (proj2 (proj2 (proj2 (proj2
                 (failed_write_rolls_back_and_keeps_cursor (rt := stub_runtime)
                    first_call_fails_env)))) dst small_world _ dst _ H))) _).
    reflexivity.
Defined.

(** ** A window without catalog entries *)

Section EmptyWindow.
Context {rt : Runtime}.
Variable e : env.

Lemma stuck_step (c : pc * PriceBatchJob.t * world) :
  SingleRun.stuck c -> SingleRun.stuck (PriceBatchJob.loop_step e c).
Proof.
  destruct c as [[p st] w].
  intros (Hp & Hs & Hpa & Hm & Hb & Hc & Hcc & Hl & Hi & Hca & Hpr).
  destruct p; cbn [PriceBatchJob.loop_step].
  - rewrite Hs. repeat split; try assumption; discriminate.
  - rewrite Hpa. cbn. repeat split; try assumption; discriminate.
  - rewrite Hs. repeat split; try assumption; discriminate.
  - unfold PriceBatchJob._run_one_range. rewrite Hc, Hm, Hb.
    unfold items_in_range. rewrite Hi. cbn.
    repeat split; try assumption; discriminate.
  - rewrite Hm, Hcc. cbn.
    repeat split; try assumption; discriminate.
  - rewrite Hs, Hpa. cbn [negb andb].
    destruct (0 <? remain); cbn; repeat split; try assumption; discriminate.
  - congruence.
Qed.

Lemma stuck_run (n : nat) (c : pc * PriceBatchJob.t * world) :
  SingleRun.stuck c -> SingleRun.stuck (PriceBatchJob.run e n c).
Proof.
  revert c. induction n as [|k IH]; intros c H; [exact H|].
  cbn [PriceBatchJob.run]. apply IH, stuck_step, H.
Qed.
End EmptyWindow.

(** C1, on the input where the code departs from it.  The catalog
    holds the single identifier 10 and the window size is 5, so the
    window from 1 to 5 holds no entry.  [PriceBatchJob._run_one_range]
    returns with the job and the world as they were: the cursor is
    still 1, the completed count 0, no range is recorded; and however
    long its loop runs it never leaves this window nor exits.
    [DualApiSequentialJob._run_one_range] on the same input moves the
    cursor to 6, sets the completed count to 5 and records the range
    from 1 to 5, without a call to the client or a row written. *)
Theorem window_without_entries_single_stays_dual_advances {rt : Runtime} (e : env) :
  let st := snd (fst (PriceBatchJob.start gap_world None (Some 5) None
                        (PriceBatchJob.init (keyed "K") 100 60))) in
  let dst := snd (fst (DualApiSequentialJob.start gap_world None (Some 5) None
                        (DualApiSequentialJob.init (Some (keyed "K1")) (Some (keyed "K2"))
                           100 30))) in
  items_in_range gap_world 1 5 = []
  /\ PriceBatchJob.current_start_id st = 1
  /\ PriceBatchJob.max_id st = 10
  /\ PriceBatchJob._run_one_range e st gap_world = (Ok tt, st, gap_world)
  /\ (forall n,
        let c := PriceBatchJob._loop e n st gap_world in
        fst (fst c) <> Exited
        /\ PriceBatchJob.current_start_id (snd (fst c)) = 1
        /\ PriceBatchJob.completed_count (snd (fst c)) = 0
        /\ PriceBatchJob.last_processed_range (snd (fst c)) = None)
  /\ DualApiSequentialJob._run_one_range e dst gap_world
     = (Ok tt, DualApiSequentialJob.advance dst 1 5, gap_world)
  /\ DualApiSequentialJob.current_start_id (DualApiSequentialJob.advance dst 1 5) = 6
  /\ DualApiSequentialJob.completed_count (DualApiSequentialJob.advance dst 1 5) = 5
  /\ DualApiSequentialJob.last_processed_range (DualApiSequentialJob.advance dst 1 5)
     = Some (1, 5).
Proof.
  intros st dst.
  split; [reflexivity|]. split; [reflexivity|]. split; [reflexivity|].
  split; [reflexivity|]. split; [|repeat split].
  intros n c.
  assert (H : SingleRun.stuck c).
  { unfold c, PriceBatchJob._loop. apply stuck_run. cbn. repeat split; discriminate. }
  unfold c, PriceBatchJob._loop in *. clear c.
  destruct (PriceBatchJob.run e n (AtLoopHead, st, gap_world)) as [[p st'] w'].
  destruct H as (Hp & _ & _ & _ & _ & Hc & Hcc & Hl & _).
  cbn. repeat split; assumption.
Qed.

(** ** Which credential serves the next window *)

(** The claim C2 as stated fails: the first window, served by
    credential 1, raises; the pointer stays at 1 and the next window,
    the same one, is served by credential 1 again. *)
Lemma failed_window_is_retried_with_same_credential :
  let after1 := DualApiSequentialJob.run (rt := stub_runtime) first_call_fails_env 4
                  (AtLoopHead, dual_on_small_world, small_world) in
  let after2 := DualApiSequentialJob.run (rt := stub_runtime) first_call_fails_env 15
                  (AtLoopHead, dual_on_small_world, small_world) in
  fst (fst after1) = AtDoneCheck
  /\ DualApiSequentialJob.last_error (snd (fst after1)) = Some "503 Server Error"
  /\ calls (snd after1) = [(Some "K1", ["AK-47 | Redline"; "AWP | Asiimov"])]
  /\ DualApiSequentialJob.next_client_id (snd (fst after1)) = 1
  /\ fst (fst after2) = AtDoneCheck
  /\ DualApiSequentialJob.last_error (snd (fst after2)) = None
  /\ calls (snd after2) = [(Some "K1", ["AK-47 | Redline"; "AWP | Asiimov"]);
                           (Some "K1", ["AK-47 | Redline"; "AWP | Asiimov"])]
  /\ DualApiSequentialJob.next_client_id (snd (fst after2)) = 2.
Proof. vm_compute. repeat split. Qed.

(** C2, amended. In the dual job the credential pointer moves to the
    other credential in the critical section that advances the cursor
    after a call and a write that both succeeded, and nowhere else: a
    window that raises leaves the pointer and the cursor where they
    were, so the same window is retried with the same credential, and
    a window that returns without a call to the client leaves the
    pointer where it was. *)
Theorem credential_flips_with_the_commit_only {rt : Runtime}
    (e : env) (st : DualApiSequentialJob.t) (w : world) :
  let r := DualApiSequentialJob._run_one_range e st w in
  let st' := snd (fst r) in
  let w' := snd r in
  match fst (fst r) with
  | Raise _ =>
      DualApiSequentialJob.next_client_id st' = DualApiSequentialJob.next_client_id st
      /\ DualApiSequentialJob.current_start_id st' = DualApiSequentialJob.current_start_id st
  | Ok _ =>
      if Nat.eqb (List.length (calls w')) (List.length (calls w))
      then DualApiSequentialJob.next_client_id st' = DualApiSequentialJob.next_client_id st
      else DualApiSequentialJob.next_client_id st'
           = (if DualApiSequentialJob.next_client_id st =? 1 then 2 else 1)
           /\ DualApiSequentialJob.current_start_id st'
              = Z.min (DualApiSequentialJob.max_id st)
                  (DualApiSequentialJob.current_start_id st
                   + DualApiSequentialJob.batch_size st - 1) + 1
  end.
Proof.
  unfold DualApiSequentialJob._run_one_range.
  destruct (_ || _); [cbn; now rewrite Nat.eqb_refl|].
  destruct (items_in_range _ _ _) as [|it its]; [cbn; now rewrite Nat.eqb_refl|].
  destruct (nonempty_names _) as [|n ns]; [cbn; now rewrite Nat.eqb_refl|].
  destruct (if DualApiSequentialJob.next_client_id st =? 1
            then DualApiSequentialJob.client1 st
            else DualApiSequentialJob.client2 st) as [c|];
    cbn [DualApiSequentialJob.call_client]; [|cbn; split; reflexivity].
  pose proof (get_price_batch_world e c (n :: ns) w) as Hl.
  destruct (SteamDTClient.get_price_batch e c (n :: ns) w) as [[resp|x] w1];
    simpl in Hl; [|cbn; split; reflexivity].
  destruct (write_prices_catalog e resp w1) as (_ & _ & Hc).
  destruct (write_prices e resp w1) as [[u|x] w2]; simpl in Hc;
    [|cbn; split; reflexivity].
  cbn. rewrite Hc, Hl. cbn. rewrite length_app. cbn.
  replace (List.length (calls w) + 1)%nat with (S (List.length (calls w))) by lia.
  destruct (Nat.eqb_spec (S (List.length (calls w))) (List.length (calls w))) as [E|_];
    [lia|].
  split; reflexivity.
Qed.

(** ** Starting the dual job without its credentials *)

Module DualInvariant.
Import DualApiSequentialJob DualRun.

Lemma consistent_init (c1 c2 : option SteamDTClient.t) (b i : Z) :
  consistent (init c1 c2 b i).
Proof. split; cbn; discriminate. Qed.

Lemma consistent_start (w : world) (a b c : option Z) (st : t) :
  consistent st -> consistent (snd (fst (start w a b c st))).
Proof.
  intros H. unfold start.
  destruct (running st); [exact H|].
  destruct (configured (client1 st)) eqn:E1; [|exact H].
  destruct (configured (client2 st)) eqn:E2; [|exact H].
  split; cbn; [intros _; now split | discriminate].
Qed.

Lemma consistent_pause (st : t) : consistent st -> consistent (snd (pause st)).
Proof.
  intros [H1 H2]. unfold pause. cbn [snd].
  destruct (running st && negb (paused st)) eqn:E; [|now split].
  apply andb_true_iff in E. destruct E as [Er _].
  split; cbn; [exact H1 | intros _; exact Er].
Qed.

Lemma consistent_resume (st : t) : consistent st -> consistent (snd (resume st)).
Proof.
  intros [H1 H2]. unfold resume. cbn [snd].
  destruct (running st && paused st); [|now split].
  split; cbn; [exact H1 | discriminate].
Qed.

Lemma consistent_stop (st : t) : consistent (snd (stop st)).
Proof. split; cbn; discriminate. Qed.

Lemma consistent_run_one_range {rt : Runtime} (e : env) (st : t) (w : world) :
  consistent st -> consistent (snd (fst (_run_one_range e st w))).
Proof.
  intros H. unfold _run_one_range.
  destruct (_ || _); [exact H|].
  destruct (items_in_range _ _ _); [exact H|].
  destruct (nonempty_names _); [exact H|].
  destruct (call_client _ _ _ _) as [[resp|x] w1]; [|exact H].
  destruct (write_prices _ _ _) as [[u|x] w2]; exact H.
Qed.

Lemma consistent_loop_step {rt : Runtime} (e : env) (p : pc) (st : t) (w : world) :
  consistent st -> consistent (snd (fst (loop_step e (p, st, w)))).
Proof.
  intros H. destruct p; cbn [loop_step].
  - destruct (_stop_event st); exact H.
  - destruct (paused st && negb (_stop_event st)); exact H.
  - destruct (_stop_event st); exact H.
  - pose proof (consistent_run_one_range e st w H) as H'.
    destruct (_run_one_range e st w) as [[[u|x] st1] w1]; exact H'.
  - destruct (max_id st <=? completed_count st); [apply consistent_stop | exact H].
  - destruct ((0 <? remain) && negb (_stop_event st)); [|exact H].
    destruct (paused st); exact H.
  - exact H.
Qed.

End DualInvariant.

(** C7. When credential 1 or credential 2 of the dual job has no key,
    [start] returns the error object, with the message of the first
    missing credential (the two messages differ), launches no thread
    and returns the job unchanged in every field; the job is idle
    before and after. *)
Theorem start_without_credentials_changes_nothing
    (w : world) (a b c : option Z) (st : DualApiSequentialJob.t) :
  DualRun.consistent st ->
  DualApiSequentialJob.configured (DualApiSequentialJob.client1 st) = false
  \/ DualApiSequentialJob.configured (DualApiSequentialJob.client2 st) = false ->
  DualApiSequentialJob.start w a b c st
  = (DualApiSequentialJob.ConfigError false false
       (if DualApiSequentialJob.configured (DualApiSequentialJob.client1 st)
        then DualApiSequentialJob.error_key_2
        else DualApiSequentialJob.error_key_1),
     st, None)
  /\ DualApiSequentialJob.Status.state (DualApiSequentialJob.status st) = "idle"
  /\ DualApiSequentialJob.error_key_1 <> DualApiSequentialJob.error_key_2.
Proof.
  intros [Hrun Hpau] Hmiss.
  assert (Hr : DualApiSequentialJob.running st = false).
  { destruct (DualApiSequentialJob.running st); [|reflexivity].
    destruct (Hrun eq_refl) as [H1 H2]. destruct Hmiss; congruence. }
  assert (Hp : DualApiSequentialJob.paused st = false).
  { destruct (DualApiSequentialJob.paused st); [|reflexivity].
    rewrite (Hpau eq_refl) in Hr. discriminate. }
  split; [|split].
  - unfold DualApiSequentialJob.start. rewrite Hr.
    destruct (DualApiSequentialJob.configured (DualApiSequentialJob.client1 st));
      [|reflexivity].
    destruct Hmiss as [H|H]; [discriminate|]. rewrite H. reflexivity.
  - cbn. rewrite Hp, Hr. reflexivity.
  - discriminate.
Qed.

Lemma start_without_credentials_changes_nothing_witness :
  let st := DualApiSequentialJob.init (Some (keyed "K1")) None 100 30 in
  DualApiSequentialJob.start small_world None None None st
  = (DualApiSequentialJob.ConfigError false false DualApiSequentialJob.error_key_2, st, None)
  /\ DualApiSequentialJob.start small_world None None None
       (DualApiSequentialJob.init (Some {| SteamDTClient.api_key := Some "" |})
          (Some (keyed "K2")) 100 30)
     = (DualApiSequentialJob.ConfigError false false DualApiSequentialJob.error_key_1,
        DualApiSequentialJob.init (Some {| SteamDTClient.api_key := Some "" |})
          (Some (keyed "K2")) 100 30, None).
Proof.
  intros st. split.
  - refine (proj1 (start_without_credentials_changes_nothing small_world None None None st
                     (DualInvariant.consistent_init _ _ _ _) (or_intror _))).
    reflexivity.
  - refine (proj1 (start_without_credentials_changes_nothing small_world None None None
                     (DualApiSequentialJob.init
                        (Some {| SteamDTClient.api_key := Some "" |})
                        (Some (keyed "K2")) 100 30)
                     (DualInvariant.consistent_init _ _ _ _) (or_introl _))).
    reflexivity.
Defined.

(** ** Pausing *)

Section Paused.
Context {rt : Runtime}.
Variable e : env.

Lemma single_frozen_step (st0 : PriceBatchJob.t) (w0 : world)
    (c : pc * PriceBatchJob.t * world) :
  SingleRun.frozen st0 w0 c -> SingleRun.frozen st0 w0 (PriceBatchJob.loop_step e c).
Proof.
  destruct c as [[p st] w]. intros (Hh & Hc & Hcc & Hl & Hp & Hca).
  destruct Hh as [-> | [[-> Hs] | [Hb Hpa]]].
  - cbn. repeat split; try assumption. now left.
  - cbn [PriceBatchJob.loop_step]. rewrite Hs. repeat split; try assumption. now left.
  - destruct p; try discriminate Hb; cbn [PriceBatchJob.loop_step].
    + destruct (PriceBatchJob._stop_event st); repeat split; try assumption.
      * now left.
      * right; right. now split.
    + rewrite Hpa. destruct (PriceBatchJob._stop_event st) eqn:Es; cbn [negb andb];
        repeat split; try assumption.
      * right; left. now split.
      * right; right. now split.
    + destruct (PriceBatchJob.max_id st <=? PriceBatchJob.completed_count st);
        cbn; repeat split; try assumption.
      * now left.
      * right; right. now split.
    + rewrite Hpa.
      destruct ((0 <? remain) && negb (PriceBatchJob._stop_event st));
        repeat split; try assumption; right; right; now split.
    + repeat split; try assumption. now left.
Qed.

Lemma single_frozen_run (st0 : PriceBatchJob.t) (w0 : world) (n : nat)
    (c : pc * PriceBatchJob.t * world) :
  SingleRun.frozen st0 w0 c -> SingleRun.frozen st0 w0 (PriceBatchJob.run e n c).
Proof.
  revert c. induction n as [|k IH]; intros c H; [exact H|].
  cbn [PriceBatchJob.run]. apply IH, single_frozen_step, H.
Qed.

Lemma dual_frozen_step (st0 : DualApiSequentialJob.t) (w0 : world)
    (c : pc * DualApiSequentialJob.t * world) :
  DualRun.frozen st0 w0 c -> DualRun.frozen st0 w0 (DualApiSequentialJob.loop_step e c).
Proof.
  destruct c as [[p st] w]. intros (Hh & Hc & Hcc & Hl & Hp & Hca).
  destruct Hh as [-> | [[-> Hs] | [Hb Hpa]]].
  - cbn. repeat split; try assumption. now left.
  - cbn [DualApiSequentialJob.loop_step]. rewrite Hs.
    repeat split; try assumption. now left.
  - destruct p; try discriminate Hb; cbn [DualApiSequentialJob.loop_step].
    + destruct (DualApiSequentialJob._stop_event st); repeat split; try assumption.
      * now left.
      * right; right. now split.
    + rewrite Hpa. destruct (DualApiSequentialJob._stop_event st) eqn:Es;
        cbn [negb andb]; repeat split; try assumption.
      * right; left. now split.
      * right; right. now split.
    + destruct (DualApiSequentialJob.max_id st <=? DualApiSequentialJob.completed_count st);
        cbn; repeat split; try assumption.
      * now left.
      * right; right. now split.
    + rewrite Hpa.
      destruct ((0 <? remain) && negb (DualApiSequentialJob._stop_event st));
        repeat split; try assumption; right; right; now split.
    + repeat split; try assumption. now left.
Qed.

Lemma dual_frozen_run (st0 : DualApiSequentialJob.t) (w0 : world) (n : nat)
    (c : pc * DualApiSequentialJob.t * world) :
  DualRun.frozen st0 w0 c -> DualRun.frozen st0 w0 (DualApiSequentialJob.run e n c).
Proof.
  revert c. induction n as [|k IH]; intros c H; [exact H|].
  cbn [DualApiSequentialJob.run]. apply IH, dual_frozen_step, H.
Qed.

(** The claim C9 as stated fails: it takes the job in any state, but
    a thread that has passed the pause test of the coming window when
    the job is paused still processes that window.  On the catalog of
    two items, the job paused while its thread stands at the stop test
    calls the service and moves the cursor from 1 to 3, and so does
    the dual job: the snapshots of [status] before and after differ. *)
Lemma paused_loop_finishes_the_window_in_flight :
  PriceBatchJob.paused (snd (PriceBatchJob.pause single_on_small_world)) = true
  /\ PriceBatchJob.Status.currentStartId
       (PriceBatchJob.status (snd (PriceBatchJob.pause single_on_small_world))) = 1
  /\ PriceBatchJob.Status.currentStartId
       (PriceBatchJob.status
          (snd (fst (PriceBatchJob.run (rt := stub_runtime) fair_env 2
                       (AtStopCheck, snd (PriceBatchJob.pause single_on_small_world),
                        small_world))))) = 3
  /\ PriceBatchJob.Status.completedCount
       (PriceBatchJob.status
          (snd (fst (PriceBatchJob.run (rt := stub_runtime) fair_env 2
                       (AtStopCheck, snd (PriceBatchJob.pause single_on_small_world),
                        small_world))))) = 2
  /\ List.length
       (calls (snd (PriceBatchJob.run (rt := stub_runtime) fair_env 2
                      (AtStopCheck, snd (PriceBatchJob.pause single_on_small_world),
                       small_world)))) = 1%nat
  /\ DualApiSequentialJob.paused
       (snd (DualApiSequentialJob.pause dual_on_small_world)) = true
  /\ DualApiSequentialJob.Status.currentStartId
       (DualApiSequentialJob.status
          (snd (fst (DualApiSequentialJob.run (rt := stub_runtime) fair_env 1
                       (AtRunWindow, snd (DualApiSequentialJob.pause dual_on_small_world),
                        small_world))))) = 3.
Proof. repeat split. Qed.

(** C9, amended. [pause] leaves every field of the job but the paused
    flag and the pause signal as it was, among them the cursor, the
    completed count, the maximum identifier, the window size, the
    interval and the last processed range.  Once a running job is
    paused, a loop that stands between two windows, that is anywhere
    but past the pause test of the coming window, processes no
    window, however many steps it takes: the snapshots of [status]
    keep reporting the same cursor, completed count and last
    processed range, no call is made to the client and no row is
    written.  The same holds of the dual job. *)
Theorem pause_freezes_the_cursor :
  (forall st : PriceBatchJob.t,
      let st' := snd (PriceBatchJob.pause st) in
      (PriceBatchJob.current_start_id st' = PriceBatchJob.current_start_id st
       /\ PriceBatchJob.completed_count st' = PriceBatchJob.completed_count st
       /\ PriceBatchJob.max_id st' = PriceBatchJob.max_id st
       /\ PriceBatchJob.batch_size st' = PriceBatchJob.batch_size st
       /\ PriceBatchJob.interval_sec st' = PriceBatchJob.interval_sec st
       /\ PriceBatchJob.last_processed_range st' = PriceBatchJob.last_processed_range st
       /\ PriceBatchJob.running st' = PriceBatchJob.running st
       /\ PriceBatchJob._stop_event st' = PriceBatchJob._stop_event st
       /\ PriceBatchJob._thread st' = PriceBatchJob._thread st
       /\ PriceBatchJob.next_run_ts st' = PriceBatchJob.next_run_ts st
       /\ PriceBatchJob.client st' = PriceBatchJob.client st)
      /\ (PriceBatchJob.running st = true ->
          PriceBatchJob.paused st' = true
          /\ forall (n : nat) (p : pc) (w : world),
              between_windows p = true ->
              let c := PriceBatchJob.run e n (p, st', w) in
              let s := PriceBatchJob.status (snd (fst c)) in
              PriceBatchJob.Status.currentStartId s = PriceBatchJob.current_start_id st
              /\ PriceBatchJob.Status.completedCount s = PriceBatchJob.completed_count st
              /\ PriceBatchJob.Status.lastProcessedRange s
                 = PriceBatchJob.last_processed_range st
              /\ prices (snd c) = prices w
              /\ calls (snd c) = calls w))
  /\ (forall st : DualApiSequentialJob.t,
      let st' := snd (DualApiSequentialJob.pause st) in
      (DualApiSequentialJob.current_start_id st' = DualApiSequentialJob.current_start_id st
       /\ DualApiSequentialJob.completed_count st' = DualApiSequentialJob.completed_count st
       /\ DualApiSequentialJob.max_id st' = DualApiSequentialJob.max_id st
       /\ DualApiSequentialJob.batch_size st' = DualApiSequentialJob.batch_size st
       /\ DualApiSequentialJob.interval_sec st' = DualApiSequentialJob.interval_sec st
       /\ DualApiSequentialJob.last_processed_range st'
          = DualApiSequentialJob.last_processed_range st
       /\ DualApiSequentialJob.running st' = DualApiSequentialJob.running st
       /\ DualApiSequentialJob._stop_event st' = DualApiSequentialJob._stop_event st
       /\ DualApiSequentialJob.next_client_id st' = DualApiSequentialJob.next_client_id st
       /\ DualApiSequentialJob.last_error st' = DualApiSequentialJob.last_error st)
      /\ (DualApiSequentialJob.running st = true ->
          DualApiSequentialJob.paused st' = true
          /\ forall (n : nat) (p : pc) (w : world),
              between_windows p = true ->
              let c := DualApiSequentialJob.run e n (p, st', w) in
              let s := DualApiSequentialJob.status (snd (fst c)) in
              DualApiSequentialJob.Status.currentStartId s
              = DualApiSequentialJob.current_start_id st
              /\ DualApiSequentialJob.Status.completedCount s
                 = DualApiSequentialJob.completed_count st
              /\ DualApiSequentialJob.Status.lastProcessedRange s
                 = DualApiSequentialJob.last_processed_range st
              /\ prices (snd c) = prices w
              /\ calls (snd c) = calls w)).
Proof.
  split.
  - intros st st'. split.
    + unfold st', PriceBatchJob.pause. cbn [snd].
      destruct (PriceBatchJob.running st && negb (PriceBatchJob.paused st));
        repeat split.
    + intros Hr.
      assert (Hp : PriceBatchJob.paused st' = true).
      { unfold st', PriceBatchJob.pause. cbn [snd]. rewrite Hr.
        destruct (PriceBatchJob.paused st) eqn:E; cbn; [exact E | reflexivity]. }
      split; [exact Hp|]. intros n p w Hb c s.
      assert (H : SingleRun.frozen st' w c).
      { apply single_frozen_run. cbn. repeat split. right; right. now split. }
      unfold s, c in *.
      destruct (PriceBatchJob.run e n (p, st', w)) as [[p1 st1] w1].
      destruct H as (_ & Hc & Hcc & Hl & Hpr & Hca). cbn.
      rewrite Hc, Hcc, Hl.
      unfold st', PriceBatchJob.pause. cbn [snd].
      destruct (PriceBatchJob.running st && negb (PriceBatchJob.paused st));
        repeat split; assumption.
  - intros st st'. split.
    + unfold st', DualApiSequentialJob.pause. cbn [snd].
      destruct (DualApiSequentialJob.running st && negb (DualApiSequentialJob.paused st));
        repeat split.
    + intros Hr.
      assert (Hp : DualApiSequentialJob.paused st' = true).
      { unfold st', DualApiSequentialJob.pause. cbn [snd]. rewrite Hr.
        destruct (DualApiSequentialJob.paused st) eqn:E; cbn; [exact E | reflexivity]. }
      split; [exact Hp|]. intros n p w Hb c s.
      assert (H : DualRun.frozen st' w c).
      { apply dual_frozen_run. cbn. repeat split. right; right. now split. }
      unfold s, c in *.
      destruct (DualApiSequentialJob.run e n (p, st', w)) as [[p1 st1] w1].
      destruct H as (_ & Hc & Hcc & Hl & Hpr & Hca). cbn.
      rewrite Hc, Hcc, Hl.
      unfold st', DualApiSequentialJob.pause. cbn [snd].
      destruct (DualApiSequentialJob.running st && negb (DualApiSequentialJob.paused st));
        repeat split; assumption.
Qed.
End Paused.

Lemma pause_freezes_the_cursor_witness :
  let st := snd (fst (PriceBatchJob.start small_world None (Some 2) (Some 1)
                        (PriceBatchJob.init (keyed "K") 100 60))) in
  let st' := snd (PriceBatchJob.pause st) in
  let c := PriceBatchJob.run (rt := stub_runtime) fair_env 40 (AtLoopHead, st', small_world) in
  let dst' := snd (DualApiSequentialJob.pause dual_on_small_world) in
  let dc := DualApiSequentialJob.run (rt := stub_runtime) fair_env 40
              (AtDelay 3, dst', small_world) in
  PriceBatchJob.paused st' = true
  /\ PriceBatchJob.Status.currentStartId (PriceBatchJob.status (snd (fst c))) = 1
  /\ PriceBatchJob.Status.completedCount (PriceBatchJob.status (snd (fst c))) = 0
  /\ prices (snd c) = []
  /\ DualApiSequentialJob.Status.currentStartId
       (DualApiSequentialJob.status (snd (fst dc))) = 1
  /\ calls (snd dc) = [].
Proof.
  intros st st' c dst' dc.
  destruct (proj2 (proj1 (pause_freezes_the_cursor (rt := stub_runtime) fair_env) st) eq_refl)
    as [Hp Hrun].
  destruct (Hrun 40%nat AtLoopHead small_world eq_refl) as (H1 & H2 & _ & H4 & _).
  destruct (proj2 (proj2 (pause_freezes_the_cursor (rt := stub_runtime) fair_env)
                     dual_on_small_world) eq_refl) as [_ Hdrun].
  destruct (Hdrun 40%nat (AtDelay 3) small_world eq_refl) as (D1 & _ & _ & _ & D5).
  repeat split; assumption.
Defined.

(** ** The windows of a run *)

Lemma windows_from_tiles (fuel : nat) (s m b : Z) :
  1 <= b -> s <= m + 1 -> (Z.to_nat (m + 1 - s) <= fuel)%nat ->
  tiles s m b (windows_from fuel s m b).
Proof.
  intros Hb. revert s. induction fuel as [|f IH]; intros s Hs Hf; cbn [windows_from].
  - cbn. lia.
  - destruct (Z.ltb_spec m s) as [Hlt|Hge]; [cbn; lia|].
    cbn [tiles]. repeat split; try lia. apply IH; lia.
Qed.

Lemma windows_from_empty (fuel : nat) (s m b : Z) :
  m < s -> windows_from fuel s m b = [].
Proof.
  intros H. destruct fuel; [reflexivity|]. cbn.
  destruct (Z.ltb_spec m s); [reflexivity | lia].
Qed.

Section SingleRunFacts.
Import PriceBatchJob SingleRun.
Context {rt : Runtime}.
Variable e : env.
Local Abbreviation visited := (SingleRun.visited e).
Local Abbreviation window_completes := (SingleRun.window_completes e).
Local Abbreviation completes_along := (SingleRun.completes_along e).

Lemma run_add (a b : nat) (c : pc * t * world) :
  run e (a + b) c = run e b (run e a c).
Proof.
  revert c. induction a as [|a IH]; intros c; [reflexivity|].
  cbn [Nat.add run]. apply IH.
Qed.

Lemma visited_add (a b : nat) (c : pc * t * world) :
  visited (a + b) c = visited a c ++ visited b (run e a c).
Proof.
  revert c. induction a as [|a IH]; intros c; [reflexivity|].
  cbn [Nat.add run visited]. rewrite IH, app_assoc. reflexivity.
Qed.

Lemma run_exited (n : nat) (st : t) (w : world) :
  run e n (Exited, st, w) = (Exited, st, w).
Proof. induction n as [|n IH]; [reflexivity | exact IH]. Qed.

Lemma completes_along_run (a : nat) (c : pc * t * world) :
  completes_along c -> completes_along (run e a c).
Proof. intros H n. rewrite <- run_add. apply H. Qed.

Lemma completes_along_bounded (N : nat) (c : pc * t * world) :
  fst (fst (run e N c)) = Exited ->
  forallb (fun k => window_completes (run e k c)) (seq 0 N) = true ->
  completes_along c.
Proof.
  intros Hex Hall n.
  destruct (Nat.lt_ge_cases n N) as [Hlt|Hge].
  - rewrite forallb_forall in Hall. apply Hall. apply in_seq. lia.
  - replace n with (N + (n - N))%nat by lia. rewrite run_add.
    destruct (run e N c) as [[p st] w]. cbn in Hex. subst p.
    rewrite run_exited. reflexivity.
Qed.

(** A window that completes moves the cursor past its end. *)
Lemma run_one_range_completes (st : t) (w : world) :
  let start_id := current_start_id st in
  let end_id := Z.min (max_id st) (start_id + batch_size st - 1) in
  start_id <= end_id -> 0 < start_id ->
  window_completes (AtRunWindow, st, w) = true ->
  snd (fst (_run_one_range e st w)) = advance st start_id end_id.
Proof.
  intros start_id end_id Hse Hs. unfold window_completes.
  fold start_id. fold end_id.
  unfold _run_one_range. fold start_id. fold end_id.
  destruct (Z.ltb_spec end_id start_id); [lia|].
  destruct (Z.leb_spec start_id 0); [lia|]. cbn [orb].
  destruct (items_in_range w start_id end_id) as [|it its];
    [rewrite andb_false_r; discriminate|].
  destruct (nonempty_names (it :: its)) as [|n ns]; [reflexivity|].
  destruct (SteamDTClient.get_price_batch e (client st) (n :: ns) w) as [[resp|x] w1];
    [|discriminate].
  destruct (write_prices e resp w1) as [[u|x] w2]; [reflexivity | discriminate].
Qed.

(** An empty range leaves the job as it is. *)
Lemma run_one_range_out_of_range (st : t) (w : world) :
  Z.min (max_id st) (current_start_id st + batch_size st - 1) < current_start_id st ->
  _run_one_range e st w = (Ok tt, st, w).
Proof.
  intros H. unfold _run_one_range.
  destruct (Z.ltb_spec (Z.min (max_id st) (current_start_id st + batch_size st - 1))
              (current_start_id st)); [reflexivity | lia].
Qed.

(** Waiting out the interval ends at the head of the loop, with the
    job as it was. *)
Lemma delay_reaches_loop_head (k : nat) (remain : Z) (st : t) (w : world) :
  _stop_event st = false -> paused st = false ->
  (Z.to_nat remain <= k)%nat ->
  exists n w',
    run e n (AtDelay remain, st, w) = (AtLoopHead, st, w')
    /\ visited n (AtDelay remain, st, w) = [].
Proof.
  intros Hs Hp. revert remain w. induction k as [|k IH]; intros remain w Hk.
  - exists 1%nat, w. cbn. rewrite Hs, Hp.
    destruct (Z.ltb_spec 0 remain); [lia|]. split; reflexivity.
  - destruct (Z.ltb_spec 0 remain) as [Hpos|Hnpos].
    + destruct (IH (remain - 1) (sleep w 200)) as (n & w' & Hrun & Hvis); [lia|].
      exists (S n), w'. cbn [run visited loop_step]. rewrite Hs, Hp.
      destruct (Z.ltb_spec 0 remain); [|lia]. cbn [negb andb app].
      split; assumption.
    + exists 1%nat, w. cbn. rewrite Hs, Hp.
      destruct (Z.ltb_spec 0 remain); [lia|]. split; reflexivity.
Qed.

Lemma head_reaches_window (st : t) (w : world) :
  _stop_event st = false -> paused st = false ->
  run e 3 (AtLoopHead, st, w) = (AtRunWindow, st, w)
  /\ visited 3 (AtLoopHead, st, w) = [].
Proof.
  intros Hs Hp. cbn [run visited loop_step].
  rewrite Hs. cbn [run visited loop_step]. rewrite Hp. cbn [andb].
  cbn [run visited loop_step]. rewrite Hs. split; reflexivity.
Qed.

Lemma window_done_advance (st : t) (s en : Z) :
  current_start_id st = s -> s <= en ->
  window_done st (advance st s en) = [(s, en)].
Proof.
  intros Hc Hle. unfold window_done. cbn. rewrite Hc.
  destruct (Z.eqb_spec (en + 1) s); [lia | reflexivity].
Qed.

(** One turn of the loop on a window that completes. *)
Lemma iteration_completes (st : t) (w : world) :
  let start_id := current_start_id st in
  let end_id := Z.min (max_id st) (start_id + batch_size st - 1) in
  _stop_event st = false -> paused st = false ->
  1 <= batch_size st -> 1 <= start_id <= max_id st ->
  completes_along (AtLoopHead, st, w) ->
  exists w',
    run e 4 (AtLoopHead, st, w) = (AtDoneCheck, advance st start_id end_id, w')
    /\ visited 4 (AtLoopHead, st, w) = [(start_id, end_id)].
Proof.
  intros start_id end_id Hs Hp Hb Hr Hall.
  destruct (head_reaches_window st w Hs Hp) as [H3 V3].
  pose proof (Hall 3%nat) as Hw. rewrite H3 in Hw.
  assert (Hle : start_id <= end_id) by (unfold end_id; lia).
  pose proof (run_one_range_completes st w Hle ltac:(lia) Hw) as Hadv.
  fold start_id in Hadv. fold end_id in Hadv.
  change 4%nat with (3 + 1)%nat. rewrite run_add, visited_add, H3, V3.
  cbn [run visited loop_step app].
  destruct (_run_one_range e st w) as [[r st1] w1]. cbn in Hadv. subst st1.
  exists w1. cbn [fst snd]. split; [reflexivity|].
  rewrite app_nil_r. apply window_done_advance; [reflexivity | exact Hle].
Qed.

Lemma window_step_out_of_range (st : t) (w : world) :
  Z.min (max_id st) (current_start_id st + batch_size st - 1) < current_start_id st ->
  loop_step e (AtRunWindow, st, w) = (AtDoneCheck, st, w).
Proof.
  intros H. cbn [loop_step]. now rewrite run_one_range_out_of_range.
Qed.

Lemma done_check_exits (st : t) (w : world) :
  max_id st <= completed_count st ->
  loop_step e (AtDoneCheck, st, w)
  = (Exited, snd (stop (set_next_run_ts st (clock w + 1000 * interval_sec st))), w).
Proof.
  intros H. cbn [loop_step].
  destruct (Z.leb_spec (max_id st) (completed_count st)); [reflexivity | lia].
Qed.

Lemma done_check_delays (st : t) (w : world) :
  completed_count st < max_id st ->
  loop_step e (AtDoneCheck, st, w)
  = (AtDelay (5 * interval_sec st),
     set_next_run_ts st (clock w + 1000 * interval_sec st), w).
Proof.
  intros H. cbn [loop_step].
  destruct (Z.leb_spec (max_id st) (completed_count st)); [lia | reflexivity].
Qed.

(** With no window left the loop exits at its next completion test. *)
Lemma nothing_left_exits (st : t) (w : world) :
  _stop_event st = false -> paused st = false ->
  1 <= batch_size st ->
  max_id st < current_start_id st ->
  max_id st <= completed_count st ->
  run e 5 (AtLoopHead, st, w)
  = (Exited, snd (stop (set_next_run_ts st (clock w + 1000 * interval_sec st))), w)
  /\ visited 5 (AtLoopHead, st, w) = [].
Proof.
  intros Hs Hp Hb Hlt Hdone.
  destruct (head_reaches_window st w Hs Hp) as [H3 V3].
  change 5%nat with (3 + 2)%nat. rewrite run_add, visited_add, H3, V3.
  cbn [run visited app].
  rewrite window_step_out_of_range by lia.
  rewrite done_check_exits by exact Hdone.
  cbn [fst snd]. unfold window_done. rewrite Z.eqb_refl. split; reflexivity.
Qed.

(** From the head of the loop the job works through the windows that
    are left and exits. *)
Lemma run_covers (fuel : nat) (st : t) (w : world) :
  _stop_event st = false -> paused st = false ->
  1 <= batch_size st ->
  1 <= current_start_id st <= max_id st + 1 ->
  completed_count st = current_start_id st - 1 ->
  (Z.to_nat (max_id st + 1 - current_start_id st) <= fuel)%nat ->
  completes_along (AtLoopHead, st, w) ->
  exists n stf wf,
    run e n (AtLoopHead, st, w) = (Exited, stf, wf)
    /\ visited n (AtLoopHead, st, w)
       = windows_from fuel (current_start_id st) (max_id st) (batch_size st)
    /\ completed_count stf = max_id st
    /\ running stf = false
    /\ paused stf = false.
Proof.
  revert st w. induction fuel as [|f IH]; intros st w Hs Hp Hb Hr Hcc Hf Hall.
  - (* nothing is left *)
    destruct (nothing_left_exits st w Hs Hp Hb) as [H5 V5]; [lia | lia |].
    eexists 5%nat, _, _. split; [exact H5|]. split; [exact V5|].
    cbn. repeat split; lia.
  - destruct (Z.ltb_spec (max_id st) (current_start_id st)) as [Hlt|Hge].
    + (* nothing is left *)
      destruct (nothing_left_exits st w Hs Hp Hb) as [H5 V5]; [lia | lia |].
      eexists 5%nat, _, _. split; [exact H5|].
      rewrite windows_from_empty by lia. split; [exact V5|].
      cbn. repeat split; lia.
    + (* one window, then the rest *)
      set (s := current_start_id st) in *.
      set (en := Z.min (max_id st) (s + batch_size st - 1)).
      destruct (iteration_completes st w Hs Hp Hb ltac:(fold s; lia) Hall)
        as (w1 & H4 & V4).
      fold s in H4, V4. fold en in H4, V4.
      cbn [windows_from].
      destruct (Z.ltb_spec (max_id st) s); [lia|]. fold en.
      destruct (Z.leb_spec (max_id st) en) as [Hdone|Hmore].
      * (* the last window *)
        eexists 5%nat, _, _. change 5%nat with (4 + 1)%nat.
        rewrite run_add, visited_add, H4, V4.
        cbn [run visited app].
        rewrite done_check_exits by exact Hdone.
        split; [reflexivity|].
        rewrite windows_from_empty by lia.
        cbn. repeat split. unfold en in *. lia.
      * (* more windows follow *)
        set (st2 := set_next_run_ts (advance st s en)
                      (clock w1 + 1000 * interval_sec (advance st s en))).
        assert (H5 : run e 5 (AtLoopHead, st, w)
                     = (AtDelay (5 * interval_sec (advance st s en)), st2, w1)).
        { change 5%nat with (4 + 1)%nat. rewrite run_add, H4.
          cbn [run]. apply done_check_delays. exact Hmore. }
        assert (V5 : visited 5 (AtLoopHead, st, w) = [(s, en)]).
        { change 5%nat with (4 + 1)%nat. rewrite visited_add, H4, V4. reflexivity. }
        destruct (delay_reaches_loop_head
                    (Z.to_nat (5 * interval_sec (advance st s en)))
                    (5 * interval_sec (advance st s en)) st2 w1 Hs Hp (Nat.le_refl _))
          as (nd & w2 & Hd & Vd).
        assert (Hall2 : completes_along (AtLoopHead, st2, w2)).
        { pose proof (completes_along_run (5 + nd) _ Hall) as H'.
          rewrite run_add, H5, Hd in H'. exact H'. }
        destruct (IH st2 w2 Hs Hp Hb) as (n & stf & wf & Hrun & Hvis & Hc & Hrn & Hpa);
          [cbn; unfold en; lia | cbn; lia | cbn; unfold en in *; lia | exact Hall2 |].
        exists (5 + nd + n)%nat, stf, wf.
        rewrite !visited_add, !run_add, H5, V5, Hd, Vd, Hrun, Hvis.
        cbn [app]. repeat split; assumption.
Qed.

End SingleRunFacts.

Section DualRunFacts.
Import DualApiSequentialJob DualRun.
Context {rt : Runtime}.
Variable e : env.
Local Abbreviation visited := (DualRun.visited e).
Local Abbreviation window_completes := (DualRun.window_completes e).
Local Abbreviation completes_along := (DualRun.completes_along e).

Lemma dual_run_add (a b : nat) (c : pc * t * world) :
  run e (a + b) c = run e b (run e a c).
Proof.
  revert c. induction a as [|a IH]; intros c; [reflexivity|].
  cbn [Nat.add run]. apply IH.
Qed.

Lemma dual_visited_add (a b : nat) (c : pc * t * world) :
  visited (a + b) c = visited a c ++ visited b (run e a c).
Proof.
  revert c. induction a as [|a IH]; intros c; [reflexivity|].
  cbn [Nat.add run visited]. rewrite IH, app_assoc. reflexivity.
Qed.

Lemma dual_run_exited (n : nat) (st : t) (w : world) :
  run e n (Exited, st, w) = (Exited, st, w).
Proof. induction n as [|n IH]; [reflexivity | exact IH]. Qed.

Lemma dual_completes_along_run (a : nat) (c : pc * t * world) :
  completes_along c -> completes_along (run e a c).
Proof. intros H n. rewrite <- dual_run_add. apply H. Qed.

Lemma dual_completes_along_bounded (N : nat) (c : pc * t * world) :
  fst (fst (run e N c)) = Exited ->
  forallb (fun k => window_completes (run e k c)) (seq 0 N) = true ->
  completes_along c.
Proof.
  intros Hex Hall n.
  destruct (Nat.lt_ge_cases n N) as [Hlt|Hge].
  - rewrite forallb_forall in Hall. apply Hall. apply in_seq. lia.
  - replace n with (N + (n - N))%nat by lia. rewrite dual_run_add.
    destruct (run e N c) as [[p st] w]. cbn in Hex. subst p.
    rewrite dual_run_exited. reflexivity.
Qed.

(** A window that completes moves the cursor past its end, with or
    without catalog entries in its range. *)
Lemma dual_run_one_range_completes (st : t) (w : world) :
  let start_id := current_start_id st in
  let end_id := Z.min (max_id st) (start_id + batch_size st - 1) in
  start_id <= end_id -> 0 < start_id ->
  window_completes (AtRunWindow, st, w) = true ->
  exists st1 w1,
    _run_one_range e st w = (Ok tt, st1, w1) /\ advanced st start_id end_id st1.
Proof.
  intros start_id end_id Hse Hs. unfold window_completes.
  unfold _run_one_range. fold start_id. fold end_id.
  destruct (Z.ltb_spec end_id start_id); [lia|].
  destruct (Z.leb_spec start_id 0); [lia|]. cbn [orb].
  destruct (items_in_range w start_id end_id) as [|it its].
  { intros _. eexists _, _. split; [reflexivity|]. repeat split. }
  destruct (nonempty_names (it :: its)) as [|n ns].
  { intros _. eexists _, _. split; [reflexivity|]. repeat split. }
  destruct (call_client e _ (n :: ns) w) as [[resp|x] w1]; [|discriminate].
  destruct (write_prices e resp w1) as [[[] |x] w2]; [|discriminate].
  intros _. eexists _, _. split; [reflexivity|]. repeat split.
Qed.

Lemma dual_run_one_range_out_of_range (st : t) (w : world) :
  Z.min (max_id st) (current_start_id st + batch_size st - 1) < current_start_id st ->
  _run_one_range e st w = (Ok tt, st, w).
Proof.
  intros H. unfold _run_one_range.
  destruct (Z.ltb_spec (Z.min (max_id st) (current_start_id st + batch_size st - 1))
              (current_start_id st)); [reflexivity | lia].
Qed.

Lemma dual_delay_reaches_loop_head (k : nat) (remain : Z) (st : t) (w : world) :
  _stop_event st = false -> paused st = false ->
  (Z.to_nat remain <= k)%nat ->
  exists n w',
    run e n (AtDelay remain, st, w) = (AtLoopHead, st, w')
    /\ visited n (AtDelay remain, st, w) = [].
Proof.
  intros Hs Hp. revert remain w. induction k as [|k IH]; intros remain w Hk.
  - exists 1%nat, w. cbn. rewrite Hs, Hp.
    destruct (Z.ltb_spec 0 remain); [lia|]. split; reflexivity.
  - destruct (Z.ltb_spec 0 remain) as [Hpos|Hnpos].
    + destruct (IH (remain - 1) (sleep w 200)) as (n & w' & Hrun & Hvis); [lia|].
      exists (S n), w'. cbn [run visited loop_step]. rewrite Hs, Hp.
      destruct (Z.ltb_spec 0 remain); [|lia]. cbn [negb andb app].
      split; assumption.
    + exists 1%nat, w. cbn. rewrite Hs, Hp.
      destruct (Z.ltb_spec 0 remain); [lia|]. split; reflexivity.
Qed.

Lemma dual_head_reaches_window (st : t) (w : world) :
  _stop_event st = false -> paused st = false ->
  run e 3 (AtLoopHead, st, w) = (AtRunWindow, st, w)
  /\ visited 3 (AtLoopHead, st, w) = [].
Proof.
  intros Hs Hp. cbn [run visited loop_step].
  rewrite Hs. cbn [run visited loop_step]. rewrite Hp. cbn [andb].
  cbn [run visited loop_step]. rewrite Hs. split; reflexivity.
Qed.

(** One turn of the loop on a window that completes. *)
Lemma dual_iteration_completes (st : t) (w : world) :
  let start_id := current_start_id st in
  let end_id := Z.min (max_id st) (start_id + batch_size st - 1) in
  _stop_event st = false -> paused st = false ->
  1 <= batch_size st -> 1 <= start_id <= max_id st ->
  completes_along (AtLoopHead, st, w) ->
  exists st1 w',
    run e 4 (AtLoopHead, st, w) = (AtDoneCheck, st1, w')
    /\ advanced st start_id end_id st1
    /\ visited 4 (AtLoopHead, st, w) = [(start_id, end_id)].
Proof.
  intros start_id end_id Hs Hp Hb Hr Hall.
  destruct (dual_head_reaches_window st w Hs Hp) as [H3 V3].
  pose proof (Hall 3%nat) as Hw. rewrite H3 in Hw.
  assert (Hle : start_id <= end_id) by (unfold end_id; lia).
  destruct (dual_run_one_range_completes st w Hle ltac:(lia) Hw)
    as (st1 & w1 & Hrun & Hadv).
  fold start_id in Hadv. fold end_id in Hadv.
  change 4%nat with (3 + 1)%nat. rewrite dual_run_add, dual_visited_add, H3, V3.
  cbn [run visited loop_step app]. rewrite Hrun.
  exists (set_last_error st1 None), w1. cbn [fst snd].
  destruct Hadv as (A1 & A2 & A3 & A4 & A5 & A6 & A7).
  split; [reflexivity|]. split; [repeat split; assumption|].
  rewrite app_nil_r. unfold window_done. cbn. rewrite A1, A3.
  fold start_id. destruct (Z.eqb_spec (end_id + 1) start_id); [lia | reflexivity].
Qed.

Lemma dual_done_check_exits (st : t) (w : world) :
  max_id st <= completed_count st ->
  loop_step e (AtDoneCheck, st, w)
  = (Exited, snd (stop (set_next_run_ts st (clock w + 1000 * interval_sec st))), w).
Proof.
  intros H. cbn [loop_step].
  destruct (Z.leb_spec (max_id st) (completed_count st)); [reflexivity | lia].
Qed.

Lemma dual_done_check_delays (st : t) (w : world) :
  completed_count st < max_id st ->
  loop_step e (AtDoneCheck, st, w)
  = (AtDelay (5 * interval_sec st),
     set_next_run_ts st (clock w + 1000 * interval_sec st), w).
Proof.
  intros H. cbn [loop_step].
  destruct (Z.leb_spec (max_id st) (completed_count st)); [lia | reflexivity].
Qed.

(** With no window left the loop exits at its next completion test. *)
Lemma dual_nothing_left_exits (st : t) (w : world) :
  _stop_event st = false -> paused st = false ->
  1 <= batch_size st ->
  max_id st < current_start_id st ->
  max_id st <= completed_count st ->
  exists stf,
    run e 5 (AtLoopHead, st, w) = (Exited, stf, w)
    /\ completed_count stf = completed_count st
    /\ running stf = false /\ paused stf = false
    /\ visited 5 (AtLoopHead, st, w) = [].
Proof.
  intros Hs Hp Hb Hlt Hdone.
  destruct (dual_head_reaches_window st w Hs Hp) as [H3 V3].
  change 5%nat with (3 + 2)%nat. rewrite dual_run_add, dual_visited_add, H3, V3.
  cbn [run visited app].
  assert (Hw : loop_step e (AtRunWindow, st, w)
               = (AtDoneCheck, set_last_error st None, w)).
  { cbn [loop_step]. now rewrite dual_run_one_range_out_of_range by lia. }
  rewrite Hw, dual_done_check_exits by exact Hdone.
  eexists. split; [reflexivity|].
  cbn. unfold window_done. cbn. rewrite Z.eqb_refl. repeat split.
Qed.

(** From the head of the loop the job works through the windows that
    are left and exits. *)
Lemma dual_run_covers (fuel : nat) (st : t) (w : world) :
  _stop_event st = false -> paused st = false ->
  1 <= batch_size st ->
  1 <= current_start_id st <= max_id st + 1 ->
  completed_count st = current_start_id st - 1 ->
  (Z.to_nat (max_id st + 1 - current_start_id st) <= fuel)%nat ->
  completes_along (AtLoopHead, st, w) ->
  exists n stf wf,
    run e n (AtLoopHead, st, w) = (Exited, stf, wf)
    /\ visited n (AtLoopHead, st, w)
       = windows_from fuel (current_start_id st) (max_id st) (batch_size st)
    /\ completed_count stf = max_id st
    /\ running stf = false
    /\ paused stf = false.
Proof.
  revert st w. induction fuel as [|f IH]; intros st w Hs Hp Hb Hr Hcc Hf Hall.
  - destruct (dual_nothing_left_exits st w Hs Hp Hb) as (stf & H5 & Hc & Hrn & Hpa & V5);
      [lia | lia |].
    exists 5%nat, stf, w. split; [exact H5|]. split; [exact V5|].
    repeat split; try assumption. lia.
  - destruct (Z.ltb_spec (max_id st) (current_start_id st)) as [Hlt|Hge].
    + destruct (dual_nothing_left_exits st w Hs Hp Hb) as (stf & H5 & Hc & Hrn & Hpa & V5);
        [lia | lia |].
      exists 5%nat, stf, w. split; [exact H5|].
      rewrite windows_from_empty by lia. split; [exact V5|].
      repeat split; try assumption. lia.
    + set (s := current_start_id st) in *.
      set (en := Z.min (max_id st) (s + batch_size st - 1)).
      destruct (dual_iteration_completes st w Hs Hp Hb ltac:(fold s; lia) Hall)
        as (st1 & w1 & H4 & Hadv & V4).
      fold s in H4, V4, Hadv. fold en in H4, V4, Hadv.
      destruct Hadv as (A1 & A2 & A3 & A4 & A5 & A6 & A7).
      cbn [windows_from].
      destruct (Z.ltb_spec (max_id st) s); [lia|]. fold en.
      destruct (Z.leb_spec (max_id st) en) as [Hdone|Hmore].
      * eexists 5%nat, _, _. change 5%nat with (4 + 1)%nat.
        rewrite dual_run_add, dual_visited_add, H4, V4.
        cbn [run visited app].
        rewrite dual_done_check_exits by lia.
        split; [reflexivity|].
        rewrite windows_from_empty by lia.
        cbn. repeat split. unfold en in *. lia.
      * set (st2 := set_next_run_ts st1 (clock w1 + 1000 * interval_sec st1)).
        assert (H5 : run e 5 (AtLoopHead, st, w)
                     = (AtDelay (5 * interval_sec st1), st2, w1)).
        { change 5%nat with (4 + 1)%nat. rewrite dual_run_add, H4.
          cbn [run]. apply dual_done_check_delays. lia. }
        assert (V5 : visited 5 (AtLoopHead, st, w) = [(s, en)]).
        { change 5%nat with (4 + 1)%nat. rewrite dual_visited_add, H4, V4. reflexivity. }
        assert (Hs2 : _stop_event st2 = false) by (cbn; congruence).
        assert (Hp2 : paused st2 = false) by (cbn; congruence).
        assert (Hb2 : 1 <= batch_size st2) by (cbn; lia).
        destruct (dual_delay_reaches_loop_head
                    (Z.to_nat (5 * interval_sec st1))
                    (5 * interval_sec st1) st2 w1 Hs2 Hp2 (Nat.le_refl _))
          as (nd & w2 & Hd & Vd).
        assert (Hall2 : completes_along (AtLoopHead, st2, w2)).
        { pose proof (dual_completes_along_run (5 + nd) _ Hall) as H'.
          rewrite dual_run_add, H5, Hd in H'. exact H'. }
        destruct (IH st2 w2 Hs2 Hp2 Hb2)
          as (n & stf & wf & Hrun & Hvis & Hc & Hrn & Hpa);
          [cbn; unfold en in *; lia | cbn; lia | cbn; unfold en in *; lia | exact Hall2 |].
        exists (5 + nd + n)%nat, stf, wf.
        rewrite !dual_visited_add, !dual_run_add, H5, V5, Hd, Vd, Hrun, Hvis.
        cbn [app]. cbn [current_start_id max_id batch_size set_next_run_ts st2].
        rewrite A1, A4, A5.
        repeat split; try assumption. cbn in Hc. lia.
Qed.

End DualRunFacts.

(** The claim C4 as stated fails: with the cursor at 1, a maximum
    identifier of 3 and windows of 2, a window whose call to the
    service fails leaves the cursor at 1 and the completed count at 0;
    the turn of the loop completes no window. *)
Lemma failed_window_does_not_advance_cursor :
  let r := PriceBatchJob._run_one_range (rt := stub_runtime) first_call_fails_env
             single_on_small_world small_world in
  PriceBatchJob.current_start_id single_on_small_world = 1
  /\ PriceBatchJob.max_id single_on_small_world = 3
  /\ PriceBatchJob.batch_size single_on_small_world = 2
  /\ fst (fst r) = Raise (RequestError "503 Server Error")
  /\ PriceBatchJob.current_start_id (snd (fst r)) = 1
  /\ PriceBatchJob.completed_count (snd (fst r)) = 0
  /\ SingleRun.visited (rt := stub_runtime) first_call_fails_env 4
       (AtLoopHead, single_on_small_world, small_world) = [].
Proof. vm_compute. repeat split. Qed.

(** C4, amended. For every maximum identifier at least 0 and window
    size at least 1, a job that starts with the cursor at 1 and whose
    every window completes (its processing raises no exception and,
    in the single job, finds a catalog entry in its range) runs to the
    exit of its loop.  The windows it completes are, in order, the
    ranges from the cursor to [min(max_id, start + batch_size - 1)]:
    each holds between 1 and [batch_size] identifiers, each starts
    right after the one before, and together they cover exactly 1 to
    [max_id], so the cursor grows strictly from window to window.  At
    the exit the completed count equals [max_id] and the job is
    idle. *)
Theorem completed_windows_tile_the_catalog {rt : Runtime} (e : env) :
  (forall (st : PriceBatchJob.t) (w : world),
      1 <= PriceBatchJob.batch_size st ->
      0 <= PriceBatchJob.max_id st ->
      PriceBatchJob.current_start_id st = 1 ->
      PriceBatchJob.completed_count st = 0 ->
      PriceBatchJob._stop_event st = false ->
      PriceBatchJob.paused st = false ->
      SingleRun.completes_along e (AtLoopHead, st, w) ->
      exists n,
        let c := PriceBatchJob._loop e n st w in
        let ws := windows (PriceBatchJob.max_id st) (PriceBatchJob.batch_size st) in
        fst (fst c) = Exited
        /\ SingleRun.visited e n (AtLoopHead, st, w) = ws
        /\ tiles 1 (PriceBatchJob.max_id st) (PriceBatchJob.batch_size st) ws
        /\ PriceBatchJob.completed_count (snd (fst c)) = PriceBatchJob.max_id st
        /\ PriceBatchJob.running (snd (fst c)) = false
        /\ PriceBatchJob.Status.state (PriceBatchJob.status (snd (fst c))) = "idle")
  /\ (forall (st : DualApiSequentialJob.t) (w : world),
      1 <= DualApiSequentialJob.batch_size st ->
      0 <= DualApiSequentialJob.max_id st ->
      DualApiSequentialJob.current_start_id st = 1 ->
      DualApiSequentialJob.completed_count st = 0 ->
      DualApiSequentialJob._stop_event st = false ->
      DualApiSequentialJob.paused st = false ->
      DualRun.completes_along e (AtLoopHead, st, w) ->
      exists n,
        let c := DualApiSequentialJob._loop e n st w in
        let ws := windows (DualApiSequentialJob.max_id st)
                    (DualApiSequentialJob.batch_size st) in
        fst (fst c) = Exited
        /\ DualRun.visited e n (AtLoopHead, st, w) = ws
        /\ tiles 1 (DualApiSequentialJob.max_id st) (DualApiSequentialJob.batch_size st) ws
        /\ DualApiSequentialJob.completed_count (snd (fst c))
           = DualApiSequentialJob.max_id st
        /\ DualApiSequentialJob.running (snd (fst c)) = false
        /\ DualApiSequentialJob.Status.state
             (DualApiSequentialJob.status (snd (fst c))) = "idle").
Proof.
  split.
  - intros st w Hb Hm Hc Hcc Hs Hp Hall.
    destruct (run_covers e (Z.to_nat (PriceBatchJob.max_id st)) st w Hs Hp Hb)
      as (n & stf & wf & Hrun & Hvis & Hdone & Hrn & Hpa);
      [lia | lia | rewrite Hc; lia | exact Hall |].
    exists n. cbn zeta. unfold PriceBatchJob._loop, DualApiSequentialJob._loop.
    rewrite Hrun, Hvis, Hc. cbn [fst snd].
    split; [reflexivity|]. split; [reflexivity|]. split.
    + apply windows_from_tiles; lia.
    + split; [exact Hdone|]. split; [exact Hrn|].
      cbn. now rewrite Hpa, Hrn.
  - intros st w Hb Hm Hc Hcc Hs Hp Hall.
    destruct (dual_run_covers e (Z.to_nat (DualApiSequentialJob.max_id st))
                st w Hs Hp Hb)
      as (n & stf & wf & Hrun & Hvis & Hdone & Hrn & Hpa);
      [lia | lia | rewrite Hc; lia | exact Hall |].
    exists n. cbn zeta. unfold PriceBatchJob._loop, DualApiSequentialJob._loop.
    rewrite Hrun, Hvis, Hc. cbn [fst snd].
    split; [reflexivity|]. split; [reflexivity|]. split.
    + apply windows_from_tiles; lia.
    + split; [exact Hdone|]. split; [exact Hrn|].
      cbn. now rewrite Hpa, Hrn.
Qed.

Lemma completed_windows_tile_the_catalog_witness :
  (exists n,
      let c := PriceBatchJob._loop (rt := stub_runtime) fair_env n
                 single_on_small_world small_world in
      fst (fst c) = Exited
      /\ SingleRun.visited (rt := stub_runtime) fair_env n
           (AtLoopHead, single_on_small_world, small_world) = [(1, 2); (3, 3)]
      /\ PriceBatchJob.completed_count (snd (fst c)) = 3
      /\ PriceBatchJob.running (snd (fst c)) = false)
  /\ (exists n,
      let c := DualApiSequentialJob._loop (rt := stub_runtime) fair_env n
                 dual_on_small_world small_world in
      fst (fst c) = Exited
      /\ DualRun.visited (rt := stub_runtime) fair_env n
           (AtLoopHead, dual_on_small_world, small_world) = [(1, 2); (3, 3)]
      /\ DualApiSequentialJob.completed_count (snd (fst c)) = 3
      /\ DualApiSequentialJob.running (snd (fst c)) = false).
Proof.
  split.
  - assert (Hb : 1 <= PriceBatchJob.batch_size single_on_small_world)
      by (vm_compute; discriminate).
    assert (Hm : 0 <= PriceBatchJob.max_id single_on_small_world)
      by (vm_compute; discriminate).
    assert (Hall : SingleRun.completes_along (rt := stub_runtime) fair_env
                     (AtLoopHead, single_on_small_world, small_world)).
    { apply (completes_along_bounded fair_env 16); vm_compute; reflexivity. }
    destruct (proj1 (completed_windows_tile_the_catalog (rt := stub_runtime) fair_env)
                single_on_small_world small_world Hb Hm eq_refl eq_refl eq_refl eq_refl Hall)
      as (n & H1 & H2 & _ & H4 & H5 & _).
    exists n.
    split; [exact H1|]. split; [exact H2|]. split; [exact H4 | exact H5].
  - assert (Hb : 1 <= DualApiSequentialJob.batch_size dual_on_small_world)
      by (vm_compute; discriminate).
    assert (Hm : 0 <= DualApiSequentialJob.max_id dual_on_small_world)
      by (vm_compute; discriminate).
    assert (Hall : DualRun.completes_along (rt := stub_runtime) fair_env
                     (AtLoopHead, dual_on_small_world, small_world)).
    { apply (dual_completes_along_bounded fair_env 16); vm_compute; reflexivity. }
    destruct (proj2 (completed_windows_tile_the_catalog (rt := stub_runtime) fair_env)
                dual_on_small_world small_world Hb Hm eq_refl eq_refl eq_refl eq_refl Hall)
      as (n & H1 & H2 & _ & H4 & H5 & _).
    exists n.
    split; [exact H1|]. split; [exact H2|]. split; [exact H4 | exact H5].
Defined.

(** * More properties of the program *)

(** ** The states a job can be in *)

Ltac sound_finish :=
  unfold single_sound, dual_sound,
    DualApiSequentialJob.advance_and_flip in *;
  cbn in *; repeat split; intros;
  try assumption; try lia; try reflexivity; try discriminate; auto;
  try match goal with
      | H : ?a = true -> _ /\ _, H' : ?a = true |- _ =>
          destruct (H H'); assumption
      end.

Section Reachable.
Context {rt : Runtime}.

Lemma single_run_one_range_state (e : env) (st : PriceBatchJob.t) (w : world) :
  let st' := snd (fst (PriceBatchJob._run_one_range e st w)) in
  st' = st
  \/ st' = PriceBatchJob.advance st (PriceBatchJob.current_start_id st)
             (Z.min (PriceBatchJob.max_id st)
                (PriceBatchJob.current_start_id st + PriceBatchJob.batch_size st - 1)).
Proof.
  unfold PriceBatchJob._run_one_range.
  destruct (_ || _); [now left|].
  destruct (items_in_range _ _ _); [now left|].
  destruct (nonempty_names _); [now right|].
  destruct (SteamDTClient.get_price_batch _ _ _ _) as [[resp|x] w1]; [|now left].
  destruct (write_prices _ _ _) as [[u|x] w2]; [now right | now left].
Qed.

Lemma dual_run_one_range_state (e : env) (st : DualApiSequentialJob.t) (w : world) :
  let st' := snd (fst (DualApiSequentialJob._run_one_range e st w)) in
  let s := DualApiSequentialJob.current_start_id st in
  let en := Z.min (DualApiSequentialJob.max_id st)
              (s + DualApiSequentialJob.batch_size st - 1) in
  st' = st
  \/ st' = DualApiSequentialJob.advance st s en
  \/ st' = DualApiSequentialJob.advance_and_flip st s en
             (DualApiSequentialJob.next_client_id st).
Proof.
  unfold DualApiSequentialJob._run_one_range.
  destruct (_ || _); [now left|].
  destruct (items_in_range _ _ _); [right; now left|].
  destruct (nonempty_names _); [right; now left|].
  destruct (DualApiSequentialJob.call_client _ _ _ _) as [[resp|x] w1]; [|now left].
  destruct (write_prices _ _ _) as [[u|x] w2]; [right; now right | now left].
Qed.

Lemma single_sound_loop_step (e : env) (p : pc) (st : PriceBatchJob.t) (w : world) :
  single_sound st -> single_sound (snd (fst (PriceBatchJob.loop_step e (p, st, w)))).
Proof.
  intros H. destruct p; cbn [PriceBatchJob.loop_step].
  - destruct (PriceBatchJob._stop_event st); exact H.
  - destruct (PriceBatchJob.paused st && negb (PriceBatchJob._stop_event st)); exact H.
  - destruct (PriceBatchJob._stop_event st); exact H.
  - pose proof (single_run_one_range_state e st w) as Hst.
    destruct (PriceBatchJob._run_one_range e st w) as [[r st1] w1].
    cbn in Hst |- *. destruct Hst as [-> | ->]; exact H.
  - destruct H as (H1 & H2 & H3 & H4 & H5 & H6).
    destruct (PriceBatchJob.max_id st <=? PriceBatchJob.completed_count st);
      sound_finish.
  - destruct ((0 <? remain) && negb (PriceBatchJob._stop_event st)); [|exact H].
    destruct (PriceBatchJob.paused st); exact H.
  - exact H.
Qed.

Lemma dual_sound_loop_step (e : env) (p : pc) (st : DualApiSequentialJob.t) (w : world) :
  dual_sound st -> dual_sound (snd (fst (DualApiSequentialJob.loop_step e (p, st, w)))).
Proof.
  intros H. destruct p; cbn [DualApiSequentialJob.loop_step].
  - destruct (DualApiSequentialJob._stop_event st); exact H.
  - destruct (DualApiSequentialJob.paused st && negb (DualApiSequentialJob._stop_event st));
      exact H.
  - destruct (DualApiSequentialJob._stop_event st); exact H.
  - pose proof (dual_run_one_range_state e st w) as Hst.
    destruct H as (H1 & H2 & H3 & H4 & H5 & H6 & H7 & H8).
    destruct (DualApiSequentialJob._run_one_range e st w) as [[[u|x] st1] w1];
      cbn in Hst |- *; destruct Hst as [-> | [-> | ->]];
      sound_finish;
      destruct (DualApiSequentialJob.next_client_id st =? 1); auto.
  - destruct H as (H1 & H2 & H3 & H4 & H5 & H6 & H7 & H8).
    destruct (DualApiSequentialJob.max_id st <=? DualApiSequentialJob.completed_count st);
      sound_finish.
  - destruct ((0 <? remain) && negb (DualApiSequentialJob._stop_event st)); [|exact H].
    destruct (DualApiSequentialJob.paused st); exact H.
  - exact H.
Qed.

(** X1. In every state that the constructor, [start] on any arguments
    (also when it raises half way), [pause], [resume], the two halves
    of [stop] and the steps of the loop can produce, in any order: the
    window size and the interval are at least 1, the job is paused
    only while running, and while it runs the pause signal equals the
    paused flag; the dual job moreover runs only with both
    credentials configured and its credential pointer is 1 or 2. *)
Theorem reachable_jobs_are_sound :
  (forall st : PriceBatchJob.t, single_reachable st -> single_sound st)
  /\ (forall st : DualApiSequentialJob.t, dual_reachable st -> dual_sound st).
Proof.
  split.
  - intros st H. induction H as [c b i | w a b c st _ IH | st _ IH | st _ IH
                                  | st _ IH | st _ IH | e p st w _ IH].
    + unfold single_sound. cbn. repeat split; try lia; intros; discriminate.
    + unfold PriceBatchJobApi.start.
      destruct (PriceBatchJob.running st); [exact IH|].
      destruct IH as (H1 & H2 & H3 & H4 & H5 & H6).
      destruct (_to_int _) as [bs|]; [|sound_finish].
      destruct (_to_int _) as [iv|]; [|sound_finish].
      destruct (_to_int _) as [cur|]; sound_finish.
    + unfold PriceBatchJob.pause. cbn [snd].
      destruct (PriceBatchJob.running st) eqn:Er; cbn [andb]; [|exact IH].
      destruct (PriceBatchJob.paused st) eqn:Ep; cbn [negb]; [exact IH|].
      destruct IH as (H1 & H2 & H3 & H4 & H5 & H6). sound_finish.
    + unfold PriceBatchJob.resume. cbn [snd].
      destruct (PriceBatchJob.running st) eqn:Er; cbn [andb]; [|exact IH].
      destruct (PriceBatchJob.paused st) eqn:Ep; [|exact IH].
      destruct IH as (H1 & H2 & H3 & H4 & H5 & H6). sound_finish.
    + destruct IH as (H1 & H2 & H3 & H4 & H5 & H6). sound_finish.
    + destruct IH as (H1 & H2 & H3 & H4 & H5 & H6). sound_finish.
    + apply single_sound_loop_step, IH.
  - intros st H. induction H as [c1 c2 b i | w a b c st _ IH | st _ IH | st _ IH
                                  | st _ IH | st _ IH | e p st w _ IH].
    + unfold dual_sound. cbn. repeat split; try lia; intros; discriminate.
    + unfold DualApiSequentialJobApi.start.
      destruct (DualApiSequentialJob.running st); [exact IH|].
      destruct (DualApiSequentialJob.configured (DualApiSequentialJob.client1 st)) eqn:E1;
        [|exact IH].
      destruct (DualApiSequentialJob.configured (DualApiSequentialJob.client2 st)) eqn:E2;
        [|exact IH].
      cbn [negb].
      destruct IH as (H1 & H2 & H3 & H4 & H5 & H6 & H7 & H8).
      destruct (_to_int _) as [bs|]; [|sound_finish].
      destruct (_to_int _) as [iv|]; [|sound_finish].
      destruct (_to_int _) as [cur|]; sound_finish.
    + unfold DualApiSequentialJob.pause. cbn [snd].
      destruct (DualApiSequentialJob.running st) eqn:Er; cbn [andb]; [|exact IH].
      destruct (DualApiSequentialJob.paused st) eqn:Ep; cbn [negb]; [exact IH|].
      destruct IH as (H1 & H2 & H3 & H4 & H5 & H6 & H7 & H8). sound_finish.
    + unfold DualApiSequentialJob.resume. cbn [snd].
      destruct (DualApiSequentialJob.running st) eqn:Er; cbn [andb]; [|exact IH].
      destruct (DualApiSequentialJob.paused st) eqn:Ep; [|exact IH].
      destruct IH as (H1 & H2 & H3 & H4 & H5 & H6 & H7 & H8). sound_finish.
    + destruct IH as (H1 & H2 & H3 & H4 & H5 & H6 & H7 & H8). sound_finish.
    + destruct IH as (H1 & H2 & H3 & H4 & H5 & H6 & H7 & H8). sound_finish.
    + apply dual_sound_loop_step, IH.
Qed.
End Reachable.

Lemma reachable_jobs_are_sound_witness :
  single_sound
    (snd (fst (PriceBatchJobApi.start (rt := stub_runtime) small_world
                 (PInt (-3)) (PList [PInt 5]) PNone (PriceBatchJob.init (keyed "K") 0 0))))
  /\ dual_sound
       (DualApiSequentialJob.stop_reset
          (snd (DualApiSequentialJob.pause
                  (snd (fst (DualApiSequentialJobApi.start (rt := stub_runtime) small_world
                               PNone (PInt 0) (PInt (-7))
                               (DualApiSequentialJob.init (Some (keyed "K1"))
                                  (Some (keyed "K2")) 100 30))))))).
Proof.
  split.
  - apply (proj1 (reachable_jobs_are_sound (rt := stub_runtime))).
    apply SR_start, SR_init.
  - apply (proj2 (reachable_jobs_are_sound (rt := stub_runtime))).
    apply DR_stop_reset, DR_pause, DR_start, DR_init.
Defined.

(** ** Pausing and resuming *)

(** X2. [pause] and [resume] undo each other on a running job: a job
    that runs and is not paused is, after [pause] then [resume], the
    job it was, and a paused job is, after [resume] then [pause], the
    job it was.  Each of the two is idempotent, and on an idle job
    both change nothing. *)
Theorem pause_and_resume_undo_each_other :
  (forall st : PriceBatchJob.t,
      snd (PriceBatchJob.pause (snd (PriceBatchJob.pause st))) = snd (PriceBatchJob.pause st)
      /\ snd (PriceBatchJob.resume (snd (PriceBatchJob.resume st)))
         = snd (PriceBatchJob.resume st)
      /\ (PriceBatchJob.running st = false ->
          snd (PriceBatchJob.pause st) = st /\ snd (PriceBatchJob.resume st) = st)
      /\ (single_sound st -> PriceBatchJob.running st = true ->
          PriceBatchJob.paused st = false ->
          PriceBatchJob.Status.state (fst (PriceBatchJob.pause st)) = "paused"
          /\ snd (PriceBatchJob.resume (snd (PriceBatchJob.pause st))) = st)
      /\ (single_sound st -> PriceBatchJob.paused st = true ->
          PriceBatchJob.Status.state (fst (PriceBatchJob.resume st)) = "running"
          /\ snd (PriceBatchJob.pause (snd (PriceBatchJob.resume st))) = st))
  /\ (forall st : DualApiSequentialJob.t,
      snd (DualApiSequentialJob.pause (snd (DualApiSequentialJob.pause st)))
      = snd (DualApiSequentialJob.pause st)
      /\ snd (DualApiSequentialJob.resume (snd (DualApiSequentialJob.resume st)))
         = snd (DualApiSequentialJob.resume st)
      /\ (DualApiSequentialJob.running st = false ->
          snd (DualApiSequentialJob.pause st) = st
          /\ snd (DualApiSequentialJob.resume st) = st)
      /\ (dual_sound st -> DualApiSequentialJob.running st = true ->
          DualApiSequentialJob.paused st = false ->
          DualApiSequentialJob.Status.state (fst (DualApiSequentialJob.pause st)) = "paused"
          /\ snd (DualApiSequentialJob.resume (snd (DualApiSequentialJob.pause st))) = st)
      /\ (dual_sound st -> DualApiSequentialJob.paused st = true ->
          DualApiSequentialJob.Status.state (fst (DualApiSequentialJob.resume st))
          = "running"
          /\ snd (DualApiSequentialJob.pause (snd (DualApiSequentialJob.resume st))) = st)).
Proof.
  split.
  - intros st. unfold PriceBatchJob.pause, PriceBatchJob.resume. cbn [fst snd].
    split; [|split; [|split; [|split]]].
    + destruct (PriceBatchJob.running st) eqn:Er, (PriceBatchJob.paused st) eqn:Ep;
        cbn; rewrite ?Er, ?Ep; reflexivity.
    + destruct (PriceBatchJob.running st) eqn:Er, (PriceBatchJob.paused st) eqn:Ep;
        cbn; rewrite ?Er, ?Ep; reflexivity.
    + intros ->. split; reflexivity.
    + intros (_ & _ & _ & _ & _ & Hev) Hr Hp. specialize (Hev Hr).
      rewrite Hr, Hp. cbn. rewrite Hr. cbn. split; [reflexivity|].
      destruct st. cbn in *. subst. reflexivity.
    + intros (_ & _ & _ & _ & Hpr & Hev) Hp. pose proof (Hpr Hp) as Hr.
      specialize (Hev Hr). rewrite Hr, Hp. cbn. rewrite Hr. cbn. split; [reflexivity|].
      destruct st. cbn in *. subst. reflexivity.
  - intros st. unfold DualApiSequentialJob.pause, DualApiSequentialJob.resume.
    cbn [fst snd]. split; [|split; [|split; [|split]]].
    + destruct (DualApiSequentialJob.running st) eqn:Er,
        (DualApiSequentialJob.paused st) eqn:Ep; cbn; rewrite ?Er, ?Ep; reflexivity.
    + destruct (DualApiSequentialJob.running st) eqn:Er,
        (DualApiSequentialJob.paused st) eqn:Ep; cbn; rewrite ?Er, ?Ep; reflexivity.
    + intros ->. split; reflexivity.
    + intros (_ & _ & _ & _ & _ & Hev & _) Hr Hp. specialize (Hev Hr).
      rewrite Hr, Hp. cbn. rewrite Hr. cbn. split; [reflexivity|].
      destruct st. cbn in *. subst. reflexivity.
    + intros (_ & _ & _ & _ & Hpr & Hev & _) Hp. pose proof (Hpr Hp) as Hr.
      specialize (Hev Hr). rewrite Hr, Hp. cbn. rewrite Hr. cbn. split; [reflexivity|].
      destruct st. cbn in *. subst. reflexivity.
Qed.

Ltac sound_by_computation :=
  unfold single_sound, dual_sound; repeat split;
  try (vm_compute; discriminate);
  try (intros _; reflexivity);
  try (intros _; split; reflexivity);
  try (left; reflexivity).

Lemma pause_and_resume_undo_each_other_witness :
  snd (PriceBatchJob.resume (snd (PriceBatchJob.pause single_on_small_world)))
  = single_on_small_world
  /\ snd (PriceBatchJob.pause (PriceBatchJob.init (keyed "K") 100 60))
     = PriceBatchJob.init (keyed "K") 100 60
  /\ snd (PriceBatchJob.pause
            (snd (PriceBatchJob.resume (snd (PriceBatchJob.pause single_on_small_world)))))
     = snd (PriceBatchJob.pause single_on_small_world)
  /\ snd (DualApiSequentialJob.resume (snd (DualApiSequentialJob.pause dual_on_small_world)))
     = dual_on_small_world
  /\ snd (DualApiSequentialJob.resume
            (DualApiSequentialJob.init (Some (keyed "K1")) (Some (keyed "K2")) 100 30))
     = DualApiSequentialJob.init (Some (keyed "K1")) (Some (keyed "K2")) 100 30
  /\ snd (DualApiSequentialJob.pause
            (snd (DualApiSequentialJob.resume
                    (snd (DualApiSequentialJob.pause dual_on_small_world)))))
     = snd (DualApiSequentialJob.pause dual_on_small_world).
Proof.
  assert (S1 : single_sound single_on_small_world) by sound_by_computation.
  assert (S2 : single_sound (snd (PriceBatchJob.pause single_on_small_world)))
    by sound_by_computation.
  assert (D1 : dual_sound dual_on_small_world) by sound_by_computation.
  assert (D2 : dual_sound (snd (DualApiSequentialJob.pause dual_on_small_world)))
    by sound_by_computation.
  split; [|split; [|split; [|split; [|split]]]].
  - exact (proj2 (proj1 (proj2 (proj2 (proj2
             (proj1 pause_and_resume_undo_each_other single_on_small_world))))
             S1 eq_refl eq_refl)).
  - exact (proj1 (proj1 (proj2 (proj2
             (proj1 pause_and_resume_undo_each_other
                (PriceBatchJob.init (keyed "K") 100 60)))) eq_refl)).
  - exact (proj2 (proj2 (proj2 (proj2 (proj2
             (proj1 pause_and_resume_undo_each_other
                (snd (PriceBatchJob.pause single_on_small_world))))))
             S2 eq_refl)).
  - exact (proj2 (proj1 (proj2 (proj2 (proj2
             (proj2 pause_and_resume_undo_each_other dual_on_small_world))))
             D1 eq_refl eq_refl)).
  - exact (proj2 (proj1 (proj2 (proj2
             (proj2 pause_and_resume_undo_each_other
                (DualApiSequentialJob.init (Some (keyed "K1")) (Some (keyed "K2")) 100 30))))
             eq_refl)).
  - exact (proj2 (proj2 (proj2 (proj2 (proj2
             (proj2 pause_and_resume_undo_each_other
                (snd (DualApiSequentialJob.pause dual_on_small_world))))))
             D2 eq_refl)).
Defined.

(** ** Stopping *)

Section Stopping.
Context {rt : Runtime}.
Variable e : env.

Lemma single_done_check_with_stop (st : PriceBatchJob.t) (w : world) :
  PriceBatchJob._stop_event st = true ->
  exists st',
    PriceBatchJob.run e 3 (AtDoneCheck, st, w) = (Exited, st', w)
    /\ PriceBatchJob.current_start_id st' = PriceBatchJob.current_start_id st
    /\ PriceBatchJob.completed_count st' = PriceBatchJob.completed_count st
    /\ PriceBatchJob.last_processed_range st' = PriceBatchJob.last_processed_range st.
Proof.
  intros Hs. cbn [PriceBatchJob.run PriceBatchJob.loop_step].
  destruct (PriceBatchJob.max_id st <=? PriceBatchJob.completed_count st).
  - eexists. repeat split.
  - cbn [PriceBatchJob.run PriceBatchJob.loop_step PriceBatchJob._stop_event
           PriceBatchJob.set_next_run_ts].
    rewrite Hs, andb_false_r. cbn. rewrite Hs. eexists. repeat split.
Qed.

Lemma dual_done_check_with_stop (st : DualApiSequentialJob.t) (w : world) :
  DualApiSequentialJob._stop_event st = true ->
  exists st',
    DualApiSequentialJob.run e 3 (AtDoneCheck, st, w) = (Exited, st', w)
    /\ DualApiSequentialJob.current_start_id st' = DualApiSequentialJob.current_start_id st
    /\ DualApiSequentialJob.completed_count st' = DualApiSequentialJob.completed_count st
    /\ DualApiSequentialJob.last_processed_range st'
       = DualApiSequentialJob.last_processed_range st.
Proof.
  intros Hs. cbn [DualApiSequentialJob.run DualApiSequentialJob.loop_step].
  destruct (DualApiSequentialJob.max_id st <=? DualApiSequentialJob.completed_count st).
  - eexists. repeat split.
  - cbn [DualApiSequentialJob.run DualApiSequentialJob.loop_step
           DualApiSequentialJob._stop_event DualApiSequentialJob.set_next_run_ts].
    rewrite Hs, andb_false_r. cbn. rewrite Hs. eexists. repeat split.
Qed.

(** With the stop signal set, a loop that does not stand right before
    a window reaches none. *)
Lemma single_stopped_visits_nothing (n : nat) (p : pc) (st : PriceBatchJob.t) (w : world) :
  PriceBatchJob._stop_event st = true -> p <> AtRunWindow ->
  SingleRun.visited e n (p, st, w) = [].
Proof.
  revert p st w. induction n as [|k IH]; intros p st w Hs Hp; [reflexivity|].
  cbn [SingleRun.visited].
  destruct p; try congruence; cbn [PriceBatchJob.loop_step app].
  - rewrite Hs. apply IH; [exact Hs | discriminate].
  - rewrite Hs, andb_false_r. apply IH; [exact Hs | discriminate].
  - rewrite Hs. apply IH; [exact Hs | discriminate].
  - destruct (PriceBatchJob.max_id st <=? PriceBatchJob.completed_count st);
      (apply IH; [|discriminate]); cbn;
      [destruct (PriceBatchJob.running st); [reflexivity | exact Hs] | exact Hs].
  - rewrite Hs, andb_false_r. apply IH; [exact Hs | discriminate].
  - apply IH; [exact Hs | discriminate].
Qed.

Lemma dual_stopped_visits_nothing (n : nat) (p : pc) (st : DualApiSequentialJob.t)
    (w : world) :
  DualApiSequentialJob._stop_event st = true -> p <> AtRunWindow ->
  DualRun.visited e n (p, st, w) = [].
Proof.
  revert p st w. induction n as [|k IH]; intros p st w Hs Hp; [reflexivity|].
  cbn [DualRun.visited].
  destruct p; try congruence; cbn [DualApiSequentialJob.loop_step app].
  - rewrite Hs. apply IH; [exact Hs | discriminate].
  - rewrite Hs, andb_false_r. apply IH; [exact Hs | discriminate].
  - rewrite Hs. apply IH; [exact Hs | discriminate].
  - destruct (DualApiSequentialJob.max_id st <=? DualApiSequentialJob.completed_count st);
      (apply IH; [|discriminate]); cbn;
      [destruct (DualApiSequentialJob.running st); [reflexivity | exact Hs] | exact Hs].
  - rewrite Hs, andb_false_r. apply IH; [exact Hs | discriminate].
  - apply IH; [exact Hs | discriminate].
Qed.

(** X3. Once the stop signal is set, the loop is out after at most 4
    of its steps, wherever it stands and whatever the service and the
    store do.  Unless it stood right before a window, it completes no
    window and leaves the cursor, the completed count and the world
    as they were: no call, no row, no sleep.  A loop that stood right
    before a window processes that one window and no other: the
    cursor, the completed count, the last processed range and the
    world it ends with are those [_run_one_range] left, and the
    windows completed on the way are the one of that call, if it
    completed.  [stop] sets the signal on a running job. *)
Theorem stop_signal_ends_the_loop :
  (forall (p : pc) (st : PriceBatchJob.t) (w : world),
      PriceBatchJob._stop_event st = true ->
      let c := PriceBatchJob.run e 4 (p, st, w) in
      let r := PriceBatchJob._run_one_range e st w in
      fst (fst c) = Exited
      /\ (p <> AtRunWindow ->
          PriceBatchJob.current_start_id (snd (fst c)) = PriceBatchJob.current_start_id st
          /\ PriceBatchJob.completed_count (snd (fst c)) = PriceBatchJob.completed_count st
          /\ snd c = w
          /\ SingleRun.visited e 4 (p, st, w) = [])
      /\ (p = AtRunWindow ->
          c = PriceBatchJob.run e 3 (AtDoneCheck, snd (fst r), snd r)
          /\ PriceBatchJob.current_start_id (snd (fst c))
             = PriceBatchJob.current_start_id (snd (fst r))
          /\ PriceBatchJob.completed_count (snd (fst c))
             = PriceBatchJob.completed_count (snd (fst r))
          /\ PriceBatchJob.last_processed_range (snd (fst c))
             = PriceBatchJob.last_processed_range (snd (fst r))
          /\ snd c = snd r
          /\ SingleRun.visited e 4 (p, st, w) = SingleRun.window_done st (snd (fst r))))
  /\ (forall st : PriceBatchJob.t,
        PriceBatchJob.running st = true ->
        PriceBatchJob._stop_event (PriceBatchJob.stop_signal st) = true)
  /\ (forall (p : pc) (st : DualApiSequentialJob.t) (w : world),
      DualApiSequentialJob._stop_event st = true ->
      let c := DualApiSequentialJob.run e 4 (p, st, w) in
      let r := DualApiSequentialJob._run_one_range e st w in
      fst (fst c) = Exited
      /\ (p <> AtRunWindow ->
          DualApiSequentialJob.current_start_id (snd (fst c))
          = DualApiSequentialJob.current_start_id st
          /\ DualApiSequentialJob.completed_count (snd (fst c))
             = DualApiSequentialJob.completed_count st
          /\ snd c = w
          /\ DualRun.visited e 4 (p, st, w) = [])
      /\ (p = AtRunWindow ->
          DualApiSequentialJob.current_start_id (snd (fst c))
          = DualApiSequentialJob.current_start_id (snd (fst r))
          /\ DualApiSequentialJob.completed_count (snd (fst c))
             = DualApiSequentialJob.completed_count (snd (fst r))
          /\ DualApiSequentialJob.last_processed_range (snd (fst c))
             = DualApiSequentialJob.last_processed_range (snd (fst r))
          /\ DualApiSequentialJob.next_client_id (snd (fst c))
             = DualApiSequentialJob.next_client_id (snd (fst r))
          /\ snd c = snd r
          /\ DualRun.visited e 4 (p, st, w) = DualRun.window_done st (snd (fst r))))
  /\ (forall st : DualApiSequentialJob.t,
        DualApiSequentialJob.running st = true ->
        DualApiSequentialJob._stop_event (DualApiSequentialJob.stop_signal st) = true).
Proof.
  split; [|split; [|split]].
  - intros p st w Hs c r.
    assert (Hnone : p <> AtRunWindow -> SingleRun.visited e 4 (p, st, w) = [])
      by (apply single_stopped_visits_nothing; exact Hs).
    unfold c, r. clear c r. destruct p.
    + cbn [PriceBatchJob.run PriceBatchJob.loop_step]. rewrite Hs.
      cbn [PriceBatchJob.run PriceBatchJob.loop_step fst snd].
      repeat split; intros; auto; congruence.
    + cbn [PriceBatchJob.run PriceBatchJob.loop_step]. rewrite Hs, andb_false_r.
      cbn [PriceBatchJob.run PriceBatchJob.loop_step]. rewrite Hs.
      cbn [PriceBatchJob.run PriceBatchJob.loop_step fst snd].
      repeat split; intros; auto; congruence.
    + cbn [PriceBatchJob.run PriceBatchJob.loop_step]. rewrite Hs.
      cbn [PriceBatchJob.run PriceBatchJob.loop_step fst snd].
      repeat split; intros; auto; congruence.
    + clear Hnone. change 4%nat with (1 + 3)%nat. rewrite run_add.
      assert (H1 : PriceBatchJob.loop_step e (AtRunWindow, st, w)
                   = (AtDoneCheck, snd (fst (PriceBatchJob._run_one_range e st w)),
                      snd (PriceBatchJob._run_one_range e st w))).
      { cbn. destruct (PriceBatchJob._run_one_range e st w) as [[r st1] w1].
        reflexivity. }
      assert (H1' : PriceBatchJob.run e 1 (AtRunWindow, st, w)
                    = (AtDoneCheck, snd (fst (PriceBatchJob._run_one_range e st w)),
                       snd (PriceBatchJob._run_one_range e st w))) by exact H1.
      rewrite H1'.
      pose proof (single_run_one_range_state e st w) as Hst. cbn zeta in Hst.
      assert (Hs1 : PriceBatchJob._stop_event
                      (snd (fst (PriceBatchJob._run_one_range e st w))) = true)
        by (destruct Hst as [-> | ->]; exact Hs).
      destruct (single_done_check_with_stop _ (snd (PriceBatchJob._run_one_range e st w))
                  Hs1) as (st' & Hrun & Hc & Hcc & Hl).
      split; [rewrite Hrun; reflexivity|]. split; [congruence|]. intros _.
      split; [reflexivity|]. rewrite Hrun. cbn [fst snd].
      split; [exact Hc|]. split; [exact Hcc|]. split; [exact Hl|]. split; [reflexivity|].
      change (SingleRun.visited e (1 + 3) (AtRunWindow, st, w))
        with (SingleRun.window_done st
                (snd (fst (PriceBatchJob.loop_step e (AtRunWindow, st, w))))
              ++ SingleRun.visited e 3 (PriceBatchJob.loop_step e (AtRunWindow, st, w))).
      rewrite H1. cbn [fst snd].
      rewrite single_stopped_visits_nothing by (exact Hs1 || discriminate).
      apply app_nil_r.
    + change 4%nat with (3 + 1)%nat. rewrite run_add.
      destruct (single_done_check_with_stop st w Hs) as (st' & Hrun & Hc & Hcc & _).
      rewrite Hrun. cbn [PriceBatchJob.run PriceBatchJob.loop_step fst snd].
      repeat split; intros; auto; congruence.
    + cbn [PriceBatchJob.run PriceBatchJob.loop_step]. rewrite Hs, andb_false_r.
      cbn [PriceBatchJob.run PriceBatchJob.loop_step]. rewrite Hs.
      cbn [PriceBatchJob.run PriceBatchJob.loop_step fst snd].
      repeat split; intros; auto; congruence.
    + cbn [PriceBatchJob.run PriceBatchJob.loop_step fst snd].
      repeat split; intros; auto; congruence.
  - intros st Hr. cbn. now rewrite Hr.
  - intros p st w Hs c r.
    assert (Hnone : p <> AtRunWindow -> DualRun.visited e 4 (p, st, w) = [])
      by (apply dual_stopped_visits_nothing; exact Hs).
    unfold c, r. clear c r. destruct p.
    + cbn [DualApiSequentialJob.run DualApiSequentialJob.loop_step]. rewrite Hs.
      cbn [DualApiSequentialJob.run DualApiSequentialJob.loop_step fst snd].
      repeat split; intros; auto; congruence.
    + cbn [DualApiSequentialJob.run DualApiSequentialJob.loop_step].
      rewrite Hs, andb_false_r.
      cbn [DualApiSequentialJob.run DualApiSequentialJob.loop_step]. rewrite Hs.
      cbn [DualApiSequentialJob.run DualApiSequentialJob.loop_step fst snd].
      repeat split; intros; auto; congruence.
    + cbn [DualApiSequentialJob.run DualApiSequentialJob.loop_step]. rewrite Hs.
      cbn [DualApiSequentialJob.run DualApiSequentialJob.loop_step fst snd].
      repeat split; intros; auto; congruence.
    + clear Hnone. change 4%nat with (1 + 3)%nat. rewrite dual_run_add.
      pose proof (dual_run_one_range_state e st w) as Hst. cbn zeta in Hst.
      assert (Hs1 : DualApiSequentialJob._stop_event
                      (snd (fst (DualApiSequentialJob._run_one_range e st w))) = true)
        by (destruct Hst as [-> | [-> | ->]]; exact Hs).
      assert (H1 : exists err,
                 DualApiSequentialJob.loop_step e (AtRunWindow, st, w)
                 = (AtDoneCheck,
                    DualApiSequentialJob.set_last_error
                      (snd (fst (DualApiSequentialJob._run_one_range e st w))) err,
                    snd (DualApiSequentialJob._run_one_range e st w))).
      { cbn. destruct (DualApiSequentialJob._run_one_range e st w) as [[[u|x] st1] w1];
          eexists; reflexivity. }
      destruct H1 as (err & H1).
      assert (H1' : DualApiSequentialJob.run e 1 (AtRunWindow, st, w)
                    = (AtDoneCheck,
                       DualApiSequentialJob.set_last_error
                         (snd (fst (DualApiSequentialJob._run_one_range e st w))) err,
                       snd (DualApiSequentialJob._run_one_range e st w))) by exact H1.
      rewrite H1'.
      assert (Hs2 : DualApiSequentialJob._stop_event
                      (DualApiSequentialJob.set_last_error
                         (snd (fst (DualApiSequentialJob._run_one_range e st w))) err)
                    = true) by exact Hs1.
      destruct (dual_done_check_with_stop _ (snd (DualApiSequentialJob._run_one_range e st w))
                  Hs2) as (st' & Hrun & Hc & Hcc & Hl).
      assert (Hn : DualApiSequentialJob.next_client_id st'
                   = DualApiSequentialJob.next_client_id
                       (snd (fst (DualApiSequentialJob._run_one_range e st w)))).
      { revert Hrun. cbn [DualApiSequentialJob.run DualApiSequentialJob.loop_step].
        destruct (_ <=? _).
        - cbn. intros [= <-]. reflexivity.
        - cbn [DualApiSequentialJob.run DualApiSequentialJob.loop_step
               DualApiSequentialJob._stop_event DualApiSequentialJob.set_next_run_ts].
          cbn [DualApiSequentialJob.set_last_error DualApiSequentialJob._stop_event].
          rewrite Hs1, andb_false_r. cbn. rewrite Hs1. intros [= <-]. reflexivity. }
      split; [rewrite Hrun; reflexivity|]. split; [congruence|]. intros _.
      rewrite Hrun. cbn [fst snd].
      split; [exact Hc|]. split; [exact Hcc|]. split; [exact Hl|]. split; [exact Hn|].
      split; [reflexivity|].
      change (DualRun.visited e (1 + 3) (AtRunWindow, st, w))
        with (DualRun.window_done st
                (snd (fst (DualApiSequentialJob.loop_step e (AtRunWindow, st, w))))
              ++ DualRun.visited e 3 (DualApiSequentialJob.loop_step e (AtRunWindow, st, w))).
      rewrite H1. cbn [fst snd].
      rewrite dual_stopped_visits_nothing by (exact Hs2 || discriminate).
      apply app_nil_r.
    + change 4%nat with (3 + 1)%nat. rewrite dual_run_add.
      destruct (dual_done_check_with_stop st w Hs) as (st' & Hrun & Hc & Hcc & _).
      rewrite Hrun. cbn [DualApiSequentialJob.run DualApiSequentialJob.loop_step fst snd].
      repeat split; intros; auto; congruence.
    + cbn [DualApiSequentialJob.run DualApiSequentialJob.loop_step].
      rewrite Hs, andb_false_r.
      cbn [DualApiSequentialJob.run DualApiSequentialJob.loop_step]. rewrite Hs.
      cbn [DualApiSequentialJob.run DualApiSequentialJob.loop_step fst snd].
      repeat split; intros; auto; congruence.
    + cbn [DualApiSequentialJob.run DualApiSequentialJob.loop_step fst snd].
      repeat split; intros; auto; congruence.
  - intros st Hr. cbn. now rewrite Hr.
Qed.
End Stopping.

Lemma stop_signal_ends_the_loop_witness :
  let st := PriceBatchJob.stop_signal single_on_small_world in
  let dst := DualApiSequentialJob.stop_signal
               (snd (DualApiSequentialJob.pause dual_on_small_world)) in
  PriceBatchJob._stop_event st = true
  /\ fst (fst (PriceBatchJob.run (rt := stub_runtime) fair_env 4
                 (AtDelay 3, st, small_world))) = Exited
  /\ snd (PriceBatchJob.run (rt := stub_runtime) fair_env 4 (AtDelay 3, st, small_world))
     = small_world
  /\ fst (fst (PriceBatchJob.run (rt := stub_runtime) fair_env 4
                 (AtRunWindow, st, small_world))) = Exited
  /\ SingleRun.visited (rt := stub_runtime) fair_env 4 (AtRunWindow, st, small_world)
     = [(1, 2)]
  /\ DualApiSequentialJob._stop_event dst = true
  /\ fst (fst (DualApiSequentialJob.run (rt := stub_runtime) fair_env 4
                 (AtPauseWait, dst, small_world))) = Exited
  /\ snd (DualApiSequentialJob.run (rt := stub_runtime) fair_env 4
            (AtPauseWait, dst, small_world)) = small_world
  /\ DualApiSequentialJob.current_start_id
       (snd (fst (DualApiSequentialJob.run (rt := stub_runtime) fair_env 4
                    (AtRunWindow, dst, small_world)))) = 3
  /\ List.length
       (calls (snd (DualApiSequentialJob.run (rt := stub_runtime) fair_env 4
                      (AtRunWindow, dst, small_world)))) = 1%nat.
Proof.
  intros st dst.
  pose proof (stop_signal_ends_the_loop (rt := stub_runtime) fair_env)
    as (Hs & Hsig & Hd & Hdsig).
  assert (E1 : PriceBatchJob._stop_event st = true)
    by exact (Hsig single_on_small_world eq_refl).
  assert (E2 : DualApiSequentialJob._stop_event dst = true)
    by exact (Hdsig (snd (DualApiSequentialJob.pause dual_on_small_world)) eq_refl).
  destruct (Hs (AtDelay 3) st small_world E1) as (A1 & A2 & _).
  destruct (A2 ltac:(discriminate)) as (_ & _ & A3 & _).
  destruct (Hs AtRunWindow st small_world E1) as (B1 & _ & B2).
  destruct (B2 eq_refl) as (_ & _ & _ & _ & _ & B3).
  destruct (Hd AtPauseWait dst small_world E2) as (C1 & C2 & _).
  destruct (C2 ltac:(discriminate)) as (_ & _ & C3 & _).
  destruct (Hd AtRunWindow dst small_world E2) as (_ & _ & D2).
  destruct (D2 eq_refl) as (D3 & _ & _ & _ & D4 & _).
  split; [exact E1|]. split; [exact A1|]. split; [exact A3|]. split; [exact B1|].
  split; [rewrite B3; reflexivity|].
  split; [exact E2|]. split; [exact C1|]. split; [exact C3|].
  split; [rewrite D3; reflexivity | rewrite D4; reflexivity].
Defined.

(** ** What any run of the loop keeps *)

Section AnyRun.
Context {rt : Runtime}.
Variable e : env.

Lemma single_run_one_range_effect (st : PriceBatchJob.t) (w : world) :
  let st' := snd (fst (PriceBatchJob._run_one_range e st w)) in
  let s := PriceBatchJob.current_start_id st in
  let en := Z.min (PriceBatchJob.max_id st) (s + PriceBatchJob.batch_size st - 1) in
  st' = st \/ (st' = PriceBatchJob.advance st s en /\ s <= en /\ 0 < s).
Proof.
  unfold PriceBatchJob._run_one_range.
  destruct (Z.ltb_spec
              (Z.min (PriceBatchJob.max_id st)
                 (PriceBatchJob.current_start_id st + PriceBatchJob.batch_size st - 1))
              (PriceBatchJob.current_start_id st)); [now left|].
  destruct (Z.leb_spec (PriceBatchJob.current_start_id st) 0); [now left|].
  cbn [orb].
  destruct (items_in_range _ _ _); [now left|].
  destruct (nonempty_names _); [right; repeat split; lia|].
  destruct (SteamDTClient.get_price_batch _ _ _ _) as [[resp|x] w1]; [|now left].
  destruct (write_prices _ _ _) as [[u|x] w2]; [right; repeat split; lia | now left].
Qed.

Lemma dual_run_one_range_effect (st : DualApiSequentialJob.t) (w : world) :
  let st' := snd (fst (DualApiSequentialJob._run_one_range e st w)) in
  let s := DualApiSequentialJob.current_start_id st in
  let en := Z.min (DualApiSequentialJob.max_id st)
              (s + DualApiSequentialJob.batch_size st - 1) in
  st' = st
  \/ ((st' = DualApiSequentialJob.advance st s en
       \/ st' = DualApiSequentialJob.advance_and_flip st s en
                  (DualApiSequentialJob.next_client_id st))
      /\ s <= en /\ 0 < s).
Proof.
  unfold DualApiSequentialJob._run_one_range.
  destruct (Z.ltb_spec
              (Z.min (DualApiSequentialJob.max_id st)
                 (DualApiSequentialJob.current_start_id st
                  + DualApiSequentialJob.batch_size st - 1))
              (DualApiSequentialJob.current_start_id st)); [now left|].
  destruct (Z.leb_spec (DualApiSequentialJob.current_start_id st) 0); [now left|].
  cbn [orb].
  destruct (items_in_range _ _ _); [right; split; [now left | lia]|].
  destruct (nonempty_names _); [right; split; [now left | lia]|].
  destruct (DualApiSequentialJob.call_client _ _ _ _) as [[resp|x] w1]; [|now left].
  destruct (write_prices _ _ _) as [[u|x] w2]; [right; split; [now right | lia] | now left].
Qed.

Lemma single_progress_step (st0 : PriceBatchJob.t) (p : pc) (st : PriceBatchJob.t)
    (w : world) :
  single_progress st0 st ->
  single_progress st0 (snd (fst (PriceBatchJob.loop_step e (p, st, w)))).
Proof.
  intros H. destruct p; cbn [PriceBatchJob.loop_step].
  - destruct (PriceBatchJob._stop_event st); exact H.
  - destruct (PriceBatchJob.paused st && negb (PriceBatchJob._stop_event st)); exact H.
  - destruct (PriceBatchJob._stop_event st); exact H.
  - pose proof (single_run_one_range_effect st w) as Hst.
    destruct (PriceBatchJob._run_one_range e st w) as [[r st1] w1].
    cbn in Hst |- *. destruct Hst as [-> | (-> & Hle & Hpos)]; [exact H|].
    destruct H as (H1 & H2 & H3 & H4 & H5 & H6 & H7).
    unfold single_progress. cbn. repeat split; try assumption; intros; lia.
  - destruct H as (H1 & H2 & H3 & H4 & H5 & H6 & H7).
    destruct (PriceBatchJob.max_id st <=? PriceBatchJob.completed_count st);
      unfold single_progress; cbn; repeat split; assumption.
  - destruct ((0 <? remain) && negb (PriceBatchJob._stop_event st)); [|exact H].
    destruct (PriceBatchJob.paused st); exact H.
  - exact H.
Qed.

Lemma dual_progress_step (st0 : DualApiSequentialJob.t) (p : pc)
    (st : DualApiSequentialJob.t) (w : world) :
  dual_progress st0 st ->
  dual_progress st0 (snd (fst (DualApiSequentialJob.loop_step e (p, st, w)))).
Proof.
  intros H. destruct p; cbn [DualApiSequentialJob.loop_step].
  - destruct (DualApiSequentialJob._stop_event st); exact H.
  - destruct (DualApiSequentialJob.paused st && negb (DualApiSequentialJob._stop_event st));
      exact H.
  - destruct (DualApiSequentialJob._stop_event st); exact H.
  - pose proof (dual_run_one_range_effect st w) as Hst.
    destruct H as (H1 & H2 & H3 & H4 & H5 & H6 & H7 & H8).
    destruct (DualApiSequentialJob._run_one_range e st w) as [[[u|x] st1] w1];
      cbn in Hst |- *;
      destruct Hst as [-> | ([-> | ->] & Hle & Hpos)];
      unfold dual_progress, DualApiSequentialJob.advance_and_flip; cbn;
      repeat split; try assumption; intros; lia.
  - destruct H as (H1 & H2 & H3 & H4 & H5 & H6 & H7 & H8).
    destruct (DualApiSequentialJob.max_id st <=? DualApiSequentialJob.completed_count st);
      unfold dual_progress; cbn; repeat split; assumption.
  - destruct ((0 <? remain) && negb (DualApiSequentialJob._stop_event st)); [|exact H].
    destruct (DualApiSequentialJob.paused st); exact H.
  - exact H.
Qed.

(** X4. Along every run of the loop, from any point of it, whatever
    the service and the store do: the maximum identifier, the window
    size, the interval and the clients stay as they were; the cursor
    never moves back; a cursor that was at most [max_id + 1] stays at
    most [max_id + 1]; and if the completed count was
    [max(0, cursor - 1)], as [start] sets it, it still is. *)
Theorem progress_is_kept_along_any_run :
  (forall (n : nat) (p : pc) (st : PriceBatchJob.t) (w : world),
      single_progress st (snd (fst (PriceBatchJob.run e n (p, st, w)))))
  /\ (forall (n : nat) (p : pc) (st : DualApiSequentialJob.t) (w : world),
      dual_progress st (snd (fst (DualApiSequentialJob.run e n (p, st, w))))).
Proof.
  split.
  - intros n p st w.
    assert (H : forall c, single_progress st (snd (fst c)) ->
                          single_progress st (snd (fst (PriceBatchJob.run e n c)))).
    { induction n as [|k IH]; intros c Hc; [exact Hc|].
      cbn [PriceBatchJob.run]. apply IH. destruct c as [[p1 st1] w1].
      apply single_progress_step, Hc. }
    apply H. unfold single_progress. cbn. repeat split; auto; lia.
  - intros n p st w.
    assert (H : forall c, dual_progress st (snd (fst c)) ->
                          dual_progress st (snd (fst (DualApiSequentialJob.run e n c)))).
    { induction n as [|k IH]; intros c Hc; [exact Hc|].
      cbn [DualApiSequentialJob.run]. apply IH. destruct c as [[p1 st1] w1].
      apply dual_progress_step, Hc. }
    apply H. unfold dual_progress. cbn. repeat split; auto; lia.
Qed.
End AnyRun.

Lemma progress_is_kept_along_any_run_witness :
  let st := snd (fst (PriceBatchJob.run (rt := stub_runtime) first_call_fails_env 20
                        (AtLoopHead, single_on_small_world, small_world))) in
  let dst := snd (fst (DualApiSequentialJob.run (rt := stub_runtime) refusing_store_env 20
                         (AtLoopHead, dual_on_small_world, small_world))) in
  PriceBatchJob.current_start_id st <= 3 + 1
  /\ PriceBatchJob.completed_count st = Z.max 0 (PriceBatchJob.current_start_id st - 1)
  /\ DualApiSequentialJob.current_start_id dst <= 3 + 1
  /\ DualApiSequentialJob.completed_count dst
     = Z.max 0 (DualApiSequentialJob.current_start_id dst - 1).
Proof.
  intros st dst.
  destruct (proj1 (progress_is_kept_along_any_run (rt := stub_runtime) first_call_fails_env)
              20%nat AtLoopHead single_on_small_world small_world)
    as (_ & _ & _ & _ & _ & H6 & H7).
  destruct (proj2 (progress_is_kept_along_any_run (rt := stub_runtime) refusing_store_env)
              20%nat AtLoopHead dual_on_small_world small_world)
    as (_ & _ & _ & _ & _ & _ & D7 & D8).
  assert (E1 : PriceBatchJob.current_start_id single_on_small_world
               <= PriceBatchJob.max_id single_on_small_world + 1)
    by (vm_compute; discriminate).
  assert (E2 : DualApiSequentialJob.current_start_id dual_on_small_world
               <= DualApiSequentialJob.max_id dual_on_small_world + 1)
    by (vm_compute; discriminate).
  split; [exact (H6 E1)|]. split; [exact (H7 eq_refl)|].
  split; [exact (D7 E2) | exact (D8 eq_refl)].
Defined.

(** ** What the job does to the store *)

Section Store.
Context {rt : Runtime}.
Variable e : env.

Lemma extends_refl (w : world) : extends w w.
Proof.
  repeat split; try (exists []; now rewrite app_nil_r). lia.
Qed.

Lemma extends_trans (w1 w2 w3 : world) : extends w1 w2 -> extends w2 w3 -> extends w1 w3.
Proof.
  intros (I1 & P1 & (r1 & R1) & (c1 & C1) & K1) (I2 & P2 & (r2 & R2) & (c2 & C2) & K2).
  repeat split; try congruence.
  - exists (r1 ++ r2). now rewrite R2, R1, app_assoc.
  - exists (c1 ++ c2). now rewrite C2, C1, app_assoc.
  - lia.
Qed.

Lemma write_prices_extends (resp : pyval) (w : world) :
  extends w (snd (write_prices e resp w)).
Proof.
  unfold write_prices.
  destruct (build_rows w resp get_session) as [[u|x] s]; [|apply extends_refl].
  destruct (commit_ok e (commits w) (pending s)); cbn.
  - repeat split; cbn; try lia; [now exists (pending s) | exists []; now rewrite app_nil_r].
  - repeat split; cbn; try lia; exists []; now rewrite app_nil_r.
Qed.

Lemma log_call_extends (w : world) (k : option string) (names : list string) :
  extends w (log_call w k names).
Proof.
  repeat split; cbn; try lia; [exists []; now rewrite app_nil_r | now exists [(k, names)]].
Qed.

Lemma single_run_one_range_extends (st : PriceBatchJob.t) (w : world) :
  extends w (snd (PriceBatchJob._run_one_range e st w)).
Proof.
  unfold PriceBatchJob._run_one_range.
  destruct (_ || _); [apply extends_refl|].
  destruct (items_in_range _ _ _); [apply extends_refl|].
  destruct (nonempty_names _) as [|n ns]; [apply extends_refl|].
  pose proof (get_price_batch_world e (PriceBatchJob.client st) (n :: ns) w) as Hl.
  destruct (SteamDTClient.get_price_batch _ _ _ _) as [[resp|x] w1]; cbn in Hl; subst w1.
  - pose proof (write_prices_extends resp
                  (log_call w (SteamDTClient.api_key (PriceBatchJob.client st)) (n :: ns)))
      as Hw.
    destruct (write_prices _ _ _) as [[u|x] w2]; cbn in Hw |- *;
      exact (extends_trans _ _ _ (log_call_extends _ _ _) Hw).
  - apply log_call_extends.
Qed.

Lemma dual_run_one_range_extends (st : DualApiSequentialJob.t) (w : world) :
  extends w (snd (DualApiSequentialJob._run_one_range e st w)).
Proof.
  unfold DualApiSequentialJob._run_one_range.
  destruct (_ || _); [apply extends_refl|].
  destruct (items_in_range _ _ _); [apply extends_refl|].
  destruct (nonempty_names _) as [|n ns]; [apply extends_refl|].
  destruct (if DualApiSequentialJob.next_client_id st =? 1
            then DualApiSequentialJob.client1 st
            else DualApiSequentialJob.client2 st) as [c|];
    cbn [DualApiSequentialJob.call_client]; [|apply extends_refl].
  pose proof (get_price_batch_world e c (n :: ns) w) as Hl.
  destruct (SteamDTClient.get_price_batch _ _ _ _) as [[resp|x] w1]; cbn in Hl; subst w1.
  - pose proof (write_prices_extends resp (log_call w (SteamDTClient.api_key c) (n :: ns)))
      as Hw.
    destruct (write_prices _ _ _) as [[u|x] w2]; cbn in Hw |- *;
      exact (extends_trans _ _ _ (log_call_extends _ _ _) Hw).
  - apply log_call_extends.
Qed.

Lemma sleep_extends (w : world) : extends w (sleep w 200).
Proof. repeat split; cbn; try lia; exists []; now rewrite app_nil_r. Qed.

(** X5. The job only appends: after any number of steps of the loop,
    from any point of it and whatever the service and the store do,
    the items and the platforms of the store are the ones it found,
    the price rows it found are still there, unchanged and in the
    same order, followed by the rows it wrote, and the clock has not
    gone back. *)
Theorem the_job_only_appends :
  (forall (n : nat) (c : pc * PriceBatchJob.t * world),
      extends (snd c) (snd (PriceBatchJob.run e n c)))
  /\ (forall (n : nat) (c : pc * DualApiSequentialJob.t * world),
      extends (snd c) (snd (DualApiSequentialJob.run e n c))).
Proof.
  split.
  - induction n as [|k IH]; intros c; [apply extends_refl|].
    cbn [PriceBatchJob.run].
    apply (extends_trans _ (snd (PriceBatchJob.loop_step e c))); [|apply IH].
    destruct c as [[p st] w]. destruct p; cbn [PriceBatchJob.loop_step snd].
    + destruct (PriceBatchJob._stop_event st); apply extends_refl.
    + destruct (PriceBatchJob.paused st && negb (PriceBatchJob._stop_event st));
        [apply sleep_extends | apply extends_refl].
    + destruct (PriceBatchJob._stop_event st); apply extends_refl.
    + pose proof (single_run_one_range_extends st w) as H.
      destruct (PriceBatchJob._run_one_range e st w) as [[r st1] w1]. exact H.
    + destruct (PriceBatchJob.max_id st <=? PriceBatchJob.completed_count st);
        apply extends_refl.
    + destruct ((0 <? remain) && negb (PriceBatchJob._stop_event st));
        [|apply extends_refl].
      destruct (PriceBatchJob.paused st); [apply extends_refl | apply sleep_extends].
    + apply extends_refl.
  - induction n as [|k IH]; intros c; [apply extends_refl|].
    cbn [DualApiSequentialJob.run].
    apply (extends_trans _ (snd (DualApiSequentialJob.loop_step e c))); [|apply IH].
    destruct c as [[p st] w]. destruct p; cbn [DualApiSequentialJob.loop_step snd].
    + destruct (DualApiSequentialJob._stop_event st); apply extends_refl.
    + destruct (DualApiSequentialJob.paused st
                && negb (DualApiSequentialJob._stop_event st));
        [apply sleep_extends | apply extends_refl].
    + destruct (DualApiSequentialJob._stop_event st); apply extends_refl.
    + pose proof (dual_run_one_range_extends st w) as H.
      destruct (DualApiSequentialJob._run_one_range e st w) as [[[u|x] st1] w1]; exact H.
    + destruct (DualApiSequentialJob.max_id st
                <=? DualApiSequentialJob.completed_count st); apply extends_refl.
    + destruct ((0 <? remain) && negb (DualApiSequentialJob._stop_event st));
        [|apply extends_refl].
      destruct (DualApiSequentialJob.paused st); [apply extends_refl | apply sleep_extends].
    + apply extends_refl.
Qed.
End Store.

(** ** What the job asks the service *)

Lemma In_insert_by_id (x y : Item.t) (l : list Item.t) :
  In y (insert_by_id x l) <-> y = x \/ In y l.
Proof.
  induction l as [|z r IH]; cbn.
  - intuition congruence.
  - destruct (Item.id x <=? Item.id z); cbn; [intuition congruence|].
    rewrite IH. intuition congruence.
Qed.

Lemma length_insert_by_id (x : Item.t) (l : list Item.t) :
  List.length (insert_by_id x l) = S (List.length l).
Proof.
  induction l as [|z r IH]; cbn; [reflexivity|].
  destruct (Item.id x <=? Item.id z); cbn; [reflexivity | now rewrite IH].
Qed.

Lemma In_sort_by_id (y : Item.t) (l : list Item.t) :
  In y (fold_right insert_by_id [] l) <-> In y l.
Proof.
  induction l as [|z r IH]; cbn; [tauto|].
  rewrite In_insert_by_id, IH. intuition congruence.
Qed.

Lemma length_sort_by_id (l : list Item.t) :
  List.length (fold_right insert_by_id [] l) = List.length l.
Proof.
  induction l as [|z r IH]; cbn; [reflexivity|].
  now rewrite length_insert_by_id, IH.
Qed.

Lemma In_items_in_range (w : world) (lo hi : Z) (it : Item.t) :
  In it (items_in_range w lo hi)
  <-> In it (items w) /\ lo <= Item.id it <= hi.
Proof.
  unfold items_in_range. rewrite In_sort_by_id, filter_In.
  rewrite andb_true_iff, !Z.leb_le. tauto.
Qed.

Lemma NoDup_map_filter {A B : Type} (f : A -> B) (t : A -> bool) (l : list A) :
  NoDup (map f l) -> NoDup (map f (filter t l)).
Proof.
  induction l as [|a r IH]; cbn; [trivial|].
  intros H. apply NoDup_cons_iff in H as [Hn Hr].
  destruct (t a); cbn; [|now apply IH].
  constructor; [|now apply IH].
  intros Hin. apply Hn. apply in_map_iff in Hin as (x & Hx & Hin).
  apply filter_In in Hin as [Hin _]. apply in_map_iff. now exists x.
Qed.

(** Distinct integers between [lo] and [hi] are at most
    [hi - lo + 1]. *)
Lemma distinct_in_range (lo hi : Z) (l : list Z) :
  NoDup l -> Forall (fun z => lo <= z <= hi) l -> lo <= hi + 1 ->
  Z.of_nat (List.length l) <= hi - lo + 1.
Proof.
  intros Hnd Hall Hle.
  assert (Hincl : incl l (map (fun k => lo + Z.of_nat k) (seq 0 (Z.to_nat (hi - lo + 1))))).
  { intros z Hz. rewrite Forall_forall in Hall. specialize (Hall z Hz).
    apply in_map_iff. exists (Z.to_nat (z - lo)). split; [lia|].
    apply in_seq. lia. }
  pose proof (NoDup_incl_length Hnd Hincl) as Hlen.
  rewrite length_map, length_seq in Hlen. lia.
Qed.

Lemma length_items_in_range (w : world) (lo hi : Z) :
  unique_ids w -> lo <= hi + 1 ->
  Z.of_nat (List.length (items_in_range w lo hi)) <= hi - lo + 1.
Proof.
  intros Hu Hle. unfold items_in_range. rewrite length_sort_by_id.
  rewrite <- (length_map Item.id).
  apply distinct_in_range; [now apply NoDup_map_filter | | exact Hle].
  apply Forall_forall. intros z Hz.
  apply in_map_iff in Hz as (it & <- & Hin).
  apply filter_In in Hin as [_ Hin].
  apply andb_true_iff in Hin as [H1 H2]. apply Z.leb_le in H1, H2. lia.
Qed.

Lemma length_nonempty_names (its : list Item.t) :
  (List.length (nonempty_names its) <= List.length its)%nat.
Proof.
  unfold nonempty_names.
  etransitivity; [apply filter_length_le | now rewrite length_map].
Qed.

Lemma In_nonempty_names (its : list Item.t) (n : string) :
  In n (nonempty_names its)
  <-> is_empty n = false /\ In n (map Item.market_hash_name its).
Proof.
  unfold nonempty_names. rewrite filter_In, negb_true_iff. tauto.
Qed.

(** The names of a window, when there are some, make a call that is
    in order. *)
Lemma window_names_ok (w : world) (s en b : Z) (k : option string) :
  unique_ids w -> s <= en -> en <= s + b - 1 ->
  nonempty_names (items_in_range w s en) <> [] ->
  call_ok (items w) b (k, nonempty_names (items_in_range w s en)).
Proof.
  intros Hu Hse Hb Hne. unfold call_ok. cbn [snd]. split; [exact Hne|]. split.
  - pose proof (length_nonempty_names (items_in_range w s en)).
    pose proof (length_items_in_range w s en Hu ltac:(lia)). lia.
  - apply Forall_forall. intros n Hn.
    apply In_nonempty_names in Hn as [He Hin]. split; [exact He|].
    apply in_map_iff in Hin as (it & <- & Hin).
    apply In_items_in_range in Hin as [Hin _]. now apply in_map.
Qed.

Section Calls.
Context {rt : Runtime}.
Variable e : env.

Lemma single_progress_refl (st : PriceBatchJob.t) : single_progress st st.
Proof. unfold single_progress. repeat split; try lia; auto. Qed.

Lemma dual_progress_refl (st : DualApiSequentialJob.t) : dual_progress st st.
Proof. unfold dual_progress. repeat split; try lia; auto. Qed.

(** The call of one window, if it makes one. *)
Lemma single_run_one_range_calls (st : PriceBatchJob.t) (w : world) :
  unique_ids w ->
  let w' := snd (PriceBatchJob._run_one_range e st w) in
  let k := SteamDTClient.api_key (PriceBatchJob.client st) in
  items w' = items w
  /\ (calls w' = calls w
      \/ exists names,
          calls w' = calls w ++ [(k, names)]
          /\ call_ok (items w) (PriceBatchJob.batch_size st) (k, names)).
Proof.
  intros Hu. unfold PriceBatchJob._run_one_range.
  set (s := PriceBatchJob.current_start_id st).
  set (en := Z.min (PriceBatchJob.max_id st) (s + PriceBatchJob.batch_size st - 1)).
  destruct (Z.ltb_spec en s); [cbn; auto|].
  destruct (Z.leb_spec s 0); [cbn; auto|]. cbn [orb].
  destruct (items_in_range w s en) as [|it its] eqn:Hits; [cbn; auto|].
  destruct (nonempty_names (it :: its)) as [|n ns] eqn:Hn; [cbn; auto|].
  pose proof (get_price_batch_world e (PriceBatchJob.client st) (n :: ns) w) as Hl.
  assert (Hok : call_ok (items w) (PriceBatchJob.batch_size st)
                  (SteamDTClient.api_key (PriceBatchJob.client st), n :: ns)).
  { rewrite <- Hn, <- Hits. apply window_names_ok; [exact Hu | lia | lia |].
    rewrite Hits, Hn. discriminate. }
  destruct (SteamDTClient.get_price_batch _ _ _ _) as [[resp|x] w1]; cbn in Hl; subst w1.
  - pose proof (write_prices_catalog e resp
                  (log_call w (SteamDTClient.api_key (PriceBatchJob.client st)) (n :: ns)))
      as (Hi & _ & Hc).
    destruct (write_prices _ _ _) as [[u|x] w2]; cbn in Hi, Hc |- *;
      (split; [exact Hi | right; exists (n :: ns); split; [exact Hc | exact Hok]]).
  - cbn. split; [reflexivity | right; exists (n :: ns); split; [reflexivity | exact Hok]].
Qed.

Lemma dual_run_one_range_calls (st : DualApiSequentialJob.t) (w : world) :
  unique_ids w ->
  let w' := snd (DualApiSequentialJob._run_one_range e st w) in
  items w' = items w
  /\ (calls w' = calls w
      \/ exists cl names,
          (if DualApiSequentialJob.next_client_id st =? 1
           then DualApiSequentialJob.client1 st
           else DualApiSequentialJob.client2 st) = Some cl
          /\ calls w' = calls w ++ [(SteamDTClient.api_key cl, names)]
          /\ call_ok (items w) (DualApiSequentialJob.batch_size st)
               (SteamDTClient.api_key cl, names)).
Proof.
  intros Hu. unfold DualApiSequentialJob._run_one_range.
  set (s := DualApiSequentialJob.current_start_id st).
  set (en := Z.min (DualApiSequentialJob.max_id st)
               (s + DualApiSequentialJob.batch_size st - 1)).
  destruct (Z.ltb_spec en s); [cbn; auto|].
  destruct (Z.leb_spec s 0); [cbn; auto|]. cbn [orb].
  destruct (items_in_range w s en) as [|it its] eqn:Hits; [cbn; auto|].
  destruct (nonempty_names (it :: its)) as [|n ns] eqn:Hn; [cbn; auto|].
  destruct (if DualApiSequentialJob.next_client_id st =? 1
            then DualApiSequentialJob.client1 st
            else DualApiSequentialJob.client2 st) as [c|];
    cbn [DualApiSequentialJob.call_client]; [|cbn; auto].
  pose proof (get_price_batch_world e c (n :: ns) w) as Hl.
  assert (Hok : call_ok (items w) (DualApiSequentialJob.batch_size st)
                  (SteamDTClient.api_key c, n :: ns)).
  { rewrite <- Hn, <- Hits. apply window_names_ok; [exact Hu | lia | lia |].
    rewrite Hits, Hn. discriminate. }
  destruct (SteamDTClient.get_price_batch _ _ _ _) as [[resp|x] w1]; cbn in Hl; subst w1.
  - pose proof (write_prices_catalog e resp (log_call w (SteamDTClient.api_key c) (n :: ns)))
      as (Hi & _ & Hc).
    destruct (write_prices _ _ _) as [[u|x] w2]; cbn in Hi, Hc |- *;
      (split; [exact Hi |
               right; exists c, (n :: ns); split; [reflexivity | split; [exact Hc | exact Hok]]]).
  - cbn. split; [reflexivity |].
    right; exists c, (n :: ns); split; [reflexivity | split; [reflexivity | exact Hok]].
Qed.

Lemma single_calls_step (p : pc) (st : PriceBatchJob.t) (w : world) :
  unique_ids w ->
  let w' := snd (PriceBatchJob.loop_step e (p, st, w)) in
  items w' = items w
  /\ exists cs,
      calls w' = calls w ++ cs
      /\ Forall (fun c => call_ok (items w) (PriceBatchJob.batch_size st) c
                          /\ fst c = SteamDTClient.api_key (PriceBatchJob.client st)) cs.
Proof.
  intros Hu.
  assert (Hsame : forall w', items w' = items w -> calls w' = calls w ->
            items w' = items w
            /\ exists cs,
                calls w' = calls w ++ cs
                /\ Forall (fun c => call_ok (items w) (PriceBatchJob.batch_size st) c
                            /\ fst c = SteamDTClient.api_key (PriceBatchJob.client st)) cs).
  { intros w' Hi Hc. split; [exact Hi|]. exists []. now rewrite app_nil_r. }
  destruct p; cbn [PriceBatchJob.loop_step].
  - destruct (PriceBatchJob._stop_event st); now apply Hsame.
  - destruct (PriceBatchJob.paused st && negb (PriceBatchJob._stop_event st));
      now apply Hsame.
  - destruct (PriceBatchJob._stop_event st); now apply Hsame.
  - pose proof (single_run_one_range_calls st w Hu) as (Hi & Hc).
    destruct (PriceBatchJob._run_one_range e st w) as [[r st1] w1]. cbn in Hi, Hc |- *.
    destruct Hc as [Hc | (names & Hc & Hok)]; [now apply Hsame|].
    split; [exact Hi|]. eexists. split; [exact Hc|].
    constructor; [split; [exact Hok | reflexivity] | constructor].
  - destruct (PriceBatchJob.max_id st <=? PriceBatchJob.completed_count st);
      now apply Hsame.
  - destruct ((0 <? remain) && negb (PriceBatchJob._stop_event st)); [|now apply Hsame].
    destruct (PriceBatchJob.paused st); now apply Hsame.
  - now apply Hsame.
Qed.

Lemma dual_calls_step (p : pc) (st : DualApiSequentialJob.t) (w : world) :
  unique_ids w ->
  let w' := snd (DualApiSequentialJob.loop_step e (p, st, w)) in
  items w' = items w
  /\ exists cs,
      calls w' = calls w ++ cs
      /\ Forall (fun c => call_ok (items w) (DualApiSequentialJob.batch_size st) c
                          /\ exists cl,
                              (DualApiSequentialJob.client1 st = Some cl
                               \/ DualApiSequentialJob.client2 st = Some cl)
                              /\ fst c = SteamDTClient.api_key cl) cs.
Proof.
  intros Hu.
  assert (Hsame : forall w', items w' = items w -> calls w' = calls w ->
            items w' = items w
            /\ exists cs,
                calls w' = calls w ++ cs
                /\ Forall (fun c => call_ok (items w) (DualApiSequentialJob.batch_size st) c
                            /\ exists cl,
                                (DualApiSequentialJob.client1 st = Some cl
                                 \/ DualApiSequentialJob.client2 st = Some cl)
                                /\ fst c = SteamDTClient.api_key cl) cs).
  { intros w' Hi Hc. split; [exact Hi|]. exists []. now rewrite app_nil_r. }
  destruct p; cbn [DualApiSequentialJob.loop_step].
  - destruct (DualApiSequentialJob._stop_event st); now apply Hsame.
  - destruct (DualApiSequentialJob.paused st && negb (DualApiSequentialJob._stop_event st));
      now apply Hsame.
  - destruct (DualApiSequentialJob._stop_event st); now apply Hsame.
  - pose proof (dual_run_one_range_calls st w Hu) as (Hi & Hc).
    destruct (DualApiSequentialJob._run_one_range e st w) as [[[u|x] st1] w1];
      cbn in Hi, Hc |- *;
      (destruct Hc as [Hc | (cl & names & Hcl & Hc & Hok)]; [now apply Hsame|];
       split; [exact Hi|]; eexists; split; [exact Hc|];
       constructor; [|constructor]; split; [exact Hok|];
       exists cl; split; [|reflexivity];
       destruct (DualApiSequentialJob.next_client_id st =? 1); [now left | now right]).
  - destruct (DualApiSequentialJob.max_id st <=? DualApiSequentialJob.completed_count st);
      now apply Hsame.
  - destruct ((0 <? remain) && negb (DualApiSequentialJob._stop_event st));
      [|now apply Hsame].
    destruct (DualApiSequentialJob.paused st); now apply Hsame.
  - now apply Hsame.
Qed.

(** X6. On a catalog with distinct identifiers, every call the loop
    makes to the price service, along any run and whatever the service
    and the store answer, asks for at least one and at most
    [batch_size] names, each of them the non-empty [market_hash_name]
    of a catalog item.  The single job makes it with its client's
    key, the dual job with the key of one of its two clients. *)
Theorem calls_ask_for_at_most_batch_size_catalog_names :
  (forall (n : nat) (p : pc) (st : PriceBatchJob.t) (w : world),
      unique_ids w ->
      exists cs,
        calls (snd (PriceBatchJob.run e n (p, st, w))) = calls w ++ cs
        /\ Forall (fun c => call_ok (items w) (PriceBatchJob.batch_size st) c
                            /\ fst c = SteamDTClient.api_key (PriceBatchJob.client st)) cs)
  /\ (forall (n : nat) (p : pc) (st : DualApiSequentialJob.t) (w : world),
      unique_ids w ->
      exists cs,
        calls (snd (DualApiSequentialJob.run e n (p, st, w))) = calls w ++ cs
        /\ Forall (fun c => call_ok (items w) (DualApiSequentialJob.batch_size st) c
                            /\ exists cl,
                                (DualApiSequentialJob.client1 st = Some cl
                                 \/ DualApiSequentialJob.client2 st = Some cl)
                                /\ fst c = SteamDTClient.api_key cl) cs).
Proof.
  split.
  - induction n as [|k IH]; intros p st w Hu.
    + exists []. cbn. now rewrite app_nil_r.
    + cbn [PriceBatchJob.run].
      pose proof (single_calls_step p st w Hu) as (Hi & cs1 & Hc1 & Hok1).
      pose proof (single_progress_step e st p st w (single_progress_refl st))
        as (_ & Hb & _ & Hcl & _).
      destruct (PriceBatchJob.loop_step e (p, st, w)) as [[p1 st1] w1].
      cbn [fst snd] in Hi, Hc1, Hb, Hcl.
      assert (Hu1 : unique_ids w1) by (unfold unique_ids; now rewrite Hi).
      destruct (IH p1 st1 w1 Hu1) as (cs2 & Hc2 & Hok2).
      exists (cs1 ++ cs2). split; [now rewrite Hc2, Hc1, app_assoc|].
      apply Forall_app. split; [exact Hok1|].
      rewrite Hi, Hb, Hcl in Hok2. exact Hok2.
  - induction n as [|k IH]; intros p st w Hu.
    + exists []. cbn. now rewrite app_nil_r.
    + cbn [DualApiSequentialJob.run].
      pose proof (dual_calls_step p st w Hu) as (Hi & cs1 & Hc1 & Hok1).
      pose proof (dual_progress_step e st p st w (dual_progress_refl st))
        as (_ & Hb & _ & Hcl1 & Hcl2 & _).
      destruct (DualApiSequentialJob.loop_step e (p, st, w)) as [[p1 st1] w1].
      cbn [fst snd] in Hi, Hc1, Hb, Hcl1, Hcl2.
      assert (Hu1 : unique_ids w1) by (unfold unique_ids; now rewrite Hi).
      destruct (IH p1 st1 w1 Hu1) as (cs2 & Hc2 & Hok2).
      exists (cs1 ++ cs2). split; [now rewrite Hc2, Hc1, app_assoc|].
      apply Forall_app. split; [exact Hok1|].
      rewrite Hi, Hb, Hcl1, Hcl2 in Hok2. exact Hok2.
Qed.
End Calls.

Lemma small_world_unique_ids : unique_ids small_world.
Proof.
  unfold unique_ids. cbn.
  repeat (constructor; [cbn; intuition discriminate|]). constructor.
Qed.

Lemma calls_ask_for_at_most_batch_size_catalog_names_witness :
  unique_ids small_world
  /\ exists cs,
      calls (snd (PriceBatchJob.run (rt := stub_runtime) fair_env 20
                    (AtLoopHead, single_on_small_world, small_world)))
      = calls small_world ++ cs
      /\ Forall (fun c => call_ok (items small_world) 2 c /\ fst c = Some "K") cs.
Proof.
  split; [exact small_world_unique_ids|].
  exact (proj1 (calls_ask_for_at_most_batch_size_catalog_names (rt := stub_runtime) fair_env)
           20%nat AtLoopHead single_on_small_world small_world small_world_unique_ids).
Defined.

(** ** The single job without a key *)

Section NoKey.
Context {rt : Runtime}.

Lemma single_run_one_range_no_key (e e' : env) (st : PriceBatchJob.t) (w : world) :
  SteamDTClient.has_key (PriceBatchJob.client st) = false ->
  PriceBatchJob._run_one_range e st w = PriceBatchJob._run_one_range e' st w
  /\ prices (snd (PriceBatchJob._run_one_range e st w)) = prices w
  /\ commits (snd (PriceBatchJob._run_one_range e st w)) = commits w.
Proof.
  intros Hk. unfold PriceBatchJob._run_one_range.
  destruct (_ || _); [auto|].
  destruct (items_in_range _ _ _); [auto|].
  destruct (nonempty_names _) as [|n ns]; [auto|].
  unfold SteamDTClient.get_price_batch, SteamDTClient._ensure_key. rewrite Hk.
  cbn. auto.
Qed.

Lemma single_no_key_step (e e' : env) (p : pc) (st : PriceBatchJob.t) (w : world) :
  SteamDTClient.has_key (PriceBatchJob.client st) = false ->
  PriceBatchJob.loop_step e (p, st, w) = PriceBatchJob.loop_step e' (p, st, w)
  /\ prices (snd (PriceBatchJob.loop_step e (p, st, w))) = prices w
  /\ commits (snd (PriceBatchJob.loop_step e (p, st, w))) = commits w.
Proof.
  intros Hk. destruct p; cbn [PriceBatchJob.loop_step].
  - destruct (PriceBatchJob._stop_event st); auto.
  - destruct (PriceBatchJob.paused st && negb (PriceBatchJob._stop_event st)); auto.
  - destruct (PriceBatchJob._stop_event st); auto.
  - destruct (single_run_one_range_no_key e e' st w Hk) as (He & Hp & Hc).
    rewrite <- He.
    destruct (PriceBatchJob._run_one_range e st w) as [[r st1] w1]. auto.
  - destruct (PriceBatchJob.max_id st <=? PriceBatchJob.completed_count st); auto.
  - destruct ((0 <? remain) && negb (PriceBatchJob._stop_event st)); [|auto].
    destruct (PriceBatchJob.paused st); auto.
  - auto.
Qed.

(** X7. A single job whose client has no key can be started and runs
    its loop, but every window with names fails before the request
    is sent: along any run the loop writes no price row and attempts
    no commit, and the run does not depend on what the service and
    the store would have answered. *)
Theorem single_job_without_key_never_writes (e : env) (n : nat) (p : pc)
    (st : PriceBatchJob.t) (w : world) :
  SteamDTClient.has_key (PriceBatchJob.client st) = false ->
  prices (snd (PriceBatchJob.run e n (p, st, w))) = prices w
  /\ commits (snd (PriceBatchJob.run e n (p, st, w))) = commits w
  /\ forall e' : env, PriceBatchJob.run e' n (p, st, w) = PriceBatchJob.run e n (p, st, w).
Proof.
  revert p st w. induction n as [|k IH]; intros p st w Hk; [cbn; auto|].
  cbn [PriceBatchJob.run].
  pose proof (single_no_key_step e e p st w Hk) as (_ & Hp & Hc).
  pose proof (single_progress_step e st p st w (single_progress_refl st))
    as (_ & _ & _ & Hcl & _).
  assert (Hstep : forall e', PriceBatchJob.loop_step e' (p, st, w)
                             = PriceBatchJob.loop_step e (p, st, w))
    by (intros e'; apply (single_no_key_step e' e p st w Hk)).
  destruct (PriceBatchJob.loop_step e (p, st, w)) as [[p1 st1] w1].
  cbn [fst snd] in Hp, Hc, Hcl.
  assert (Hk1 : SteamDTClient.has_key (PriceBatchJob.client st1) = false)
    by now rewrite Hcl.
  destruct (IH p1 st1 w1 Hk1) as (Hp1 & Hc1 & He1).
  split; [congruence|]. split; [congruence|].
  intros e'. rewrite Hstep. apply He1.
Qed.
End NoKey.

Lemma single_job_without_key_never_writes_witness :
  let st := snd (fst (PriceBatchJob.start small_world None (Some 2) (Some 1)
                        (PriceBatchJob.init {| SteamDTClient.api_key := None |} 100 60))) in
  PriceBatchJob.running st = true
  /\ prices (snd (PriceBatchJob.run (rt := stub_runtime) fair_env 30
                    (AtLoopHead, st, small_world))) = []
  /\ PriceBatchJob.run (rt := stub_runtime) refusing_store_env 30 (AtLoopHead, st, small_world)
     = PriceBatchJob.run (rt := stub_runtime) fair_env 30 (AtLoopHead, st, small_world).
Proof.
  intros st.
  destruct (single_job_without_key_never_writes (rt := stub_runtime) fair_env 30
              AtLoopHead st small_world eq_refl) as (Hp & _ & He).
  split; [reflexivity|]. split; [exact Hp | exact (He refusing_store_env)].
Defined.

(** ** The credentials of the dual job, call after call *)

Section Turns.
Context {rt : Runtime}.
Variable e : env.

Lemma in_turn_app (c1 c2 : option SteamDTClient.t) (k k1 k2 : Z)
    (cs1 cs2 : list (option string * list string)) :
  in_turn c1 c2 k cs1 k1 -> in_turn c1 c2 k1 cs2 k2 -> in_turn c1 c2 k (cs1 ++ cs2) k2.
Proof.
  revert k. induction cs1 as [|c r IH]; intros k; cbn.
  - intros ->. trivial.
  - intros [Hk Hr] H2. split; [exact Hk | now apply IH].
Qed.

Lemma dual_turn_step (p : pc) (st : DualApiSequentialJob.t) (w : world) :
  DualRun.window_completes e (p, st, w) = true ->
  let c' := DualApiSequentialJob.loop_step e (p, st, w) in
  exists cs,
    calls (snd c') = calls w ++ cs
    /\ in_turn (DualApiSequentialJob.client1 st) (DualApiSequentialJob.client2 st)
         (DualApiSequentialJob.next_client_id st) cs
         (DualApiSequentialJob.next_client_id (snd (fst c'))).
Proof.
  assert (Hsame : forall (st' : DualApiSequentialJob.t) (w' : world),
            DualApiSequentialJob.next_client_id st' = DualApiSequentialJob.next_client_id st ->
            calls w' = calls w ->
            exists cs,
              calls w' = calls w ++ cs
              /\ in_turn (DualApiSequentialJob.client1 st) (DualApiSequentialJob.client2 st)
                   (DualApiSequentialJob.next_client_id st) cs
                   (DualApiSequentialJob.next_client_id st')).
  { intros st' w' Hk Hc. exists []. rewrite app_nil_r. split; [exact Hc | exact Hk]. }
  destruct p; cbn [DualApiSequentialJob.loop_step DualRun.window_completes]; intros Hwc.
  - destruct (DualApiSequentialJob._stop_event st); now apply Hsame.
  - destruct (DualApiSequentialJob.paused st && negb (DualApiSequentialJob._stop_event st));
      now apply Hsame.
  - destruct (DualApiSequentialJob._stop_event st); now apply Hsame.
  - revert Hwc. unfold DualApiSequentialJob._run_one_range.
    destruct (_ || _); [intros _; now apply Hsame|].
    destruct (items_in_range _ _ _); [intros _; now apply Hsame|].
    destruct (nonempty_names _) as [|n ns]; [intros _; now apply Hsame|].
    unfold DualApiSequentialJob.call_client.
    destruct (if DualApiSequentialJob.next_client_id st =? 1
              then DualApiSequentialJob.client1 st
              else DualApiSequentialJob.client2 st) as [c|] eqn:Hcl; [|discriminate].
    pose proof (get_price_batch_world e c (n :: ns) w) as Hl.
    destruct (SteamDTClient.get_price_batch _ _ _ _) as [[resp|x] w1]; [|discriminate].
    cbn in Hl. subst w1.
    pose proof (write_prices_catalog e resp (log_call w (SteamDTClient.api_key c) (n :: ns)))
      as (_ & _ & Hc).
    destruct (write_prices _ _ _) as [[u|x] w2]; [|discriminate].
    intros _. cbn in Hc |- *.
    exists [(SteamDTClient.api_key c, n :: ns)]. split; [exact Hc|].
    cbn. unfold key_at. rewrite Hcl. split; reflexivity.
  - destruct (DualApiSequentialJob.max_id st <=? DualApiSequentialJob.completed_count st);
      now apply Hsame.
  - destruct ((0 <? remain) && negb (DualApiSequentialJob._stop_event st));
      [|now apply Hsame].
    destruct (DualApiSequentialJob.paused st); now apply Hsame.
  - now apply Hsame.
Qed.

(** X8. In a run of the dual job in which every processed window
    completes, the calls to the price service take turns: the first
    is made with the key of the credential the pointer designates,
    each following one with the key of the other credential, and the
    pointer ends on the credential that has not served the last call.
    (Started by [start], the run calls with key 1, key 2, key 1, ...) *)
Theorem dual_calls_take_turns (n : nat) (p : pc) (st : DualApiSequentialJob.t)
    (w : world) :
  DualRun.completes_along e (p, st, w) ->
  exists cs,
    calls (snd (DualApiSequentialJob.run e n (p, st, w))) = calls w ++ cs
    /\ in_turn (DualApiSequentialJob.client1 st) (DualApiSequentialJob.client2 st)
         (DualApiSequentialJob.next_client_id st) cs
         (DualApiSequentialJob.next_client_id
            (snd (fst (DualApiSequentialJob.run e n (p, st, w))))).
Proof.
  revert p st w. induction n as [|k IH]; intros p st w Hall.
  - exists []. cbn. now rewrite app_nil_r.
  - cbn [DualApiSequentialJob.run].
    pose proof (dual_turn_step p st w (Hall 0%nat)) as (cs1 & Hc1 & Ht1).
    pose proof (dual_progress_step e st p st w (dual_progress_refl st))
      as (_ & _ & _ & Hcl1 & Hcl2 & _).
    pose proof (dual_completes_along_run e 1 (p, st, w) Hall) as Hall1.
    cbn [DualApiSequentialJob.run] in Hall1.
    destruct (DualApiSequentialJob.loop_step e (p, st, w)) as [[p1 st1] w1].
    cbn [fst snd] in Hc1, Ht1, Hcl1, Hcl2.
    destruct (IH p1 st1 w1 Hall1) as (cs2 & Hc2 & Ht2).
    exists (cs1 ++ cs2). split; [now rewrite Hc2, Hc1, app_assoc|].
    rewrite Hcl1, Hcl2 in Ht2. exact (in_turn_app _ _ _ _ _ _ _ Ht1 Ht2).
Qed.
End Turns.

Lemma dual_calls_take_turns_witness :
  map fst (calls (snd (DualApiSequentialJob.run (rt := stub_runtime) fair_env 16
                         (AtLoopHead, dual_on_small_world, small_world))))
  = [Some "K1"; Some "K2"]
  /\ exists cs,
      calls (snd (DualApiSequentialJob.run (rt := stub_runtime) fair_env 16
                    (AtLoopHead, dual_on_small_world, small_world)))
      = calls small_world ++ cs
      /\ in_turn (Some (keyed "K1")) (Some (keyed "K2")) 1 cs
           (DualApiSequentialJob.next_client_id
              (snd (fst (DualApiSequentialJob.run (rt := stub_runtime) fair_env 16
                           (AtLoopHead, dual_on_small_world, small_world))))).
Proof.
  assert (Hall : DualRun.completes_along (rt := stub_runtime) fair_env
                   (AtLoopHead, dual_on_small_world, small_world)).
  { apply (dual_completes_along_bounded fair_env 16); vm_compute; reflexivity. }
  split; [vm_compute; reflexivity|].
  exact (dual_calls_take_turns (rt := stub_runtime) fair_env 16 AtLoopHead
           dual_on_small_world small_world Hall).
Defined.

(** ** The names a complete run asks for *)

Lemma insert_by_id_app_left (x : Item.t) (a b : list Item.t) :
  Forall (fun y => Item.id x <= Item.id y) b ->
  insert_by_id x (a ++ b) = insert_by_id x a ++ b.
Proof.
  intros Hb. induction a as [|y r IH]; cbn.
  - destruct b as [|y r]; [reflexivity|]. cbn.
    apply Forall_inv in Hb. destruct (Z.leb_spec (Item.id x) (Item.id y)); [reflexivity | lia].
  - destruct (Item.id x <=? Item.id y); [reflexivity|]. cbn. now rewrite IH.
Qed.

Lemma insert_by_id_app_right (x : Item.t) (a b : list Item.t) :
  Forall (fun y => Item.id y < Item.id x) a ->
  insert_by_id x (a ++ b) = a ++ insert_by_id x b.
Proof.
  induction a as [|y r IH]; intros Ha; cbn; [reflexivity|].
  pose proof (Forall_inv Ha) as Hy. cbn beta in Hy. apply Forall_inv_tail in Ha.
  destruct (Z.leb_spec (Item.id x) (Item.id y)); [lia|]. now rewrite IH.
Qed.

(** A range of the catalog is its part up to [mid] followed by its
    part after [mid]. *)
Lemma items_in_range_split (w : world) (lo mid hi : Z) :
  mid <= hi -> lo <= mid + 1 ->
  items_in_range w lo hi = items_in_range w lo mid ++ items_in_range w (mid + 1) hi.
Proof.
  intros Hmh Hlm. unfold items_in_range.
  induction (items w) as [|x l IH]; [reflexivity|].
  assert (Hhigh : Forall (fun y => mid + 1 <= Item.id y)
                    (fold_right insert_by_id []
                       (filter (fun it => (mid + 1 <=? Item.id it) && (Item.id it <=? hi)) l))).
  { apply Forall_forall. intros y Hy. apply In_sort_by_id, filter_In in Hy as [_ Hy].
    apply andb_true_iff in Hy as [Hy _]. now apply Z.leb_le in Hy. }
  assert (Hlow : Forall (fun y => Item.id y <= mid)
                   (fold_right insert_by_id []
                      (filter (fun it => (lo <=? Item.id it) && (Item.id it <=? mid)) l))).
  { apply Forall_forall. intros y Hy. apply In_sort_by_id, filter_In in Hy as [_ Hy].
    apply andb_true_iff in Hy as [_ Hy]. now apply Z.leb_le in Hy. }
  cbn [filter].
  destruct (Z.leb_spec lo (Item.id x)), (Z.leb_spec (Item.id x) hi),
    (Z.leb_spec (Item.id x) mid), (Z.leb_spec (mid + 1) (Item.id x));
    cbn [andb fold_right]; try lia; try exact IH.
  - rewrite IH. apply insert_by_id_app_left.
    eapply Forall_impl; [|exact Hhigh]. cbn. intros; lia.
  - rewrite IH. apply insert_by_id_app_right.
    eapply Forall_impl; [|exact Hlow]. cbn. intros; lia.
Qed.

Lemma items_in_range_empty (w : world) (lo hi : Z) :
  hi < lo -> items_in_range w lo hi = [].
Proof.
  intros H. destruct (items_in_range w lo hi) as [|it r] eqn:E; [reflexivity|].
  assert (Hin : In it (items_in_range w lo hi)) by (rewrite E; now left).
  apply In_items_in_range in Hin. lia.
Qed.

Lemma nonempty_names_app (a b : list Item.t) :
  nonempty_names (a ++ b) = nonempty_names a ++ nonempty_names b.
Proof. unfold nonempty_names. now rewrite map_app, filter_app. Qed.

(** Windows that tile a range ask, one after the other, for the names
    of the range. *)
Lemma tiles_names_asked (w : world) (b hi : Z) (ws : list (Z * Z)) (lo : Z) :
  tiles lo hi b ws ->
  List.concat (map (names_asked w) ws) = nonempty_names (items_in_range w lo hi).
Proof.
  revert lo. induction ws as [|[s en] r IH]; intros lo; cbn [tiles map List.concat].
  - intros ->. now rewrite items_in_range_empty by lia.
  - intros (-> & Hse & Heh & _ & Hr).
    rewrite (IH _ Hr). unfold names_asked. cbn [fst snd].
    rewrite (items_in_range_split w lo en hi) by lia.
    now rewrite nonempty_names_app.
Qed.

Lemma names_asked_same_catalog (w w' : world) (win : Z * Z) :
  items w' = items w -> names_asked w' win = names_asked w win.
Proof. intros H. unfold names_asked, items_in_range. now rewrite H. Qed.

Lemma max_item_id_bounds (w : world) (it : Item.t) :
  In it (items w) -> Item.id it <= max_item_id w.
Proof.
  unfold max_item_id. destruct (items w) as [|x l]; [contradiction|].
  assert (Hgen : forall (l : list Item.t) (m : Z),
             m <= fold_left (fun m x => Z.max m (Item.id x)) l m
             /\ forall y, In y l ->
                  Item.id y <= fold_left (fun m x => Z.max m (Item.id x)) l m).
  { clear. induction l as [|a r IH]; intros m; cbn; [split; [lia | contradiction]|].
    destruct (IH (Z.max m (Item.id a))) as [H1 H2].
    split; [lia|]. intros y [<- | Hy]; [lia | now apply H2]. }
  destruct (Hgen l (Item.id x)) as [H1 H2].
  intros [<- | Hin]; [exact H1 | now apply H2].
Qed.

Section Asked.
Context {rt : Runtime}.
Variable e : env.

(** What a window that completes asks for. *)
Lemma single_window_asks (st : PriceBatchJob.t) (w : world) :
  SingleRun.window_completes e (AtRunWindow, st, w) = true ->
  let st' := snd (fst (PriceBatchJob._run_one_range e st w)) in
  let w' := snd (PriceBatchJob._run_one_range e st w) in
  items w' = items w
  /\ exists cs,
      calls w' = calls w ++ cs
      /\ List.concat (map snd cs)
         = List.concat (map (names_asked w) (SingleRun.window_done st st')).
Proof.
  unfold SingleRun.window_completes, PriceBatchJob._run_one_range. cbv zeta.
  set (s := PriceBatchJob.current_start_id st).
  set (en := Z.min (PriceBatchJob.max_id st) (s + PriceBatchJob.batch_size st - 1)).
  assert (Hout : items w = items w
                 /\ exists cs,
                     calls w = calls w ++ cs
                     /\ List.concat (map snd cs)
                        = List.concat (map (names_asked w) (SingleRun.window_done st st))).
  { split; [reflexivity|]. exists []. rewrite app_nil_r.
    unfold SingleRun.window_done. now rewrite Z.eqb_refl. }
  destruct (Z.ltb_spec en s); [intros _; exact Hout|].
  destruct (Z.leb_spec s 0); [intros _; exact Hout|]. cbn [orb].
  assert (Hdone : SingleRun.window_done st (PriceBatchJob.advance st s en) = [(s, en)]).
  { unfold SingleRun.window_done. cbn. fold s.
    destruct (Z.eqb_spec (en + 1) s); [lia | reflexivity]. }
  destruct (items_in_range w s en) as [|it its] eqn:Hits;
    [rewrite andb_false_r; discriminate|].
  destruct (nonempty_names (it :: its)) as [|n ns] eqn:Hn.
  { intros _. cbn [fst snd]. rewrite Hdone. split; [reflexivity|].
    exists []. rewrite app_nil_r. split; [reflexivity|].
    unfold names_asked. cbn [map fst snd List.concat]. now rewrite Hits, Hn. }
  pose proof (get_price_batch_world e (PriceBatchJob.client st) (n :: ns) w) as Hl.
  destruct (SteamDTClient.get_price_batch _ _ _ _) as [[resp|x] w1]; [|discriminate].
  cbn in Hl. subst w1.
  pose proof (write_prices_catalog e resp
                (log_call w (SteamDTClient.api_key (PriceBatchJob.client st)) (n :: ns)))
    as (Hi & _ & Hc).
  destruct (write_prices _ _ _) as [[u|x] w2]; [|discriminate].
  intros _. cbn [fst snd] in Hi, Hc |- *. rewrite Hdone. split; [exact Hi|].
  eexists. split; [exact Hc|].
  unfold names_asked. cbn [map fst snd List.concat]. now rewrite Hits, Hn.
Qed.

Lemma dual_window_asks (st : DualApiSequentialJob.t) (w : world) :
  DualRun.window_completes e (AtRunWindow, st, w) = true ->
  let st' := snd (fst (DualApiSequentialJob._run_one_range e st w)) in
  let w' := snd (DualApiSequentialJob._run_one_range e st w) in
  items w' = items w
  /\ exists cs,
      calls w' = calls w ++ cs
      /\ List.concat (map snd cs)
         = List.concat (map (names_asked w) (DualRun.window_done st st')).
Proof.
  unfold DualRun.window_completes, DualApiSequentialJob._run_one_range. cbv zeta.
  set (s := DualApiSequentialJob.current_start_id st).
  set (en := Z.min (DualApiSequentialJob.max_id st)
               (s + DualApiSequentialJob.batch_size st - 1)).
  assert (Hout : items w = items w
                 /\ exists cs,
                     calls w = calls w ++ cs
                     /\ List.concat (map snd cs)
                        = List.concat (map (names_asked w) (DualRun.window_done st st))).
  { split; [reflexivity|]. exists []. rewrite app_nil_r.
    unfold DualRun.window_done. now rewrite Z.eqb_refl. }
  destruct (Z.ltb_spec en s); [intros _; exact Hout|].
  destruct (Z.leb_spec s 0); [intros _; exact Hout|]. cbn [orb].
  assert (Hdone : DualRun.window_done st (DualApiSequentialJob.advance st s en) = [(s, en)]).
  { unfold DualRun.window_done. cbn. fold s.
    destruct (Z.eqb_spec (en + 1) s); [lia | reflexivity]. }
  assert (Hflip : forall k, DualRun.window_done st
                              (DualApiSequentialJob.advance_and_flip st s en k) = [(s, en)]).
  { intros k. unfold DualRun.window_done, DualApiSequentialJob.advance_and_flip. cbn. fold s.
    destruct (Z.eqb_spec (en + 1) s); [lia | reflexivity]. }
  destruct (items_in_range w s en) as [|it its] eqn:Hits.
  { intros _. cbn [fst snd]. rewrite Hdone. split; [reflexivity|].
    exists []. rewrite app_nil_r. split; [reflexivity|].
    unfold names_asked. cbn [map fst snd List.concat]. now rewrite Hits. }
  destruct (nonempty_names (it :: its)) as [|n ns] eqn:Hn.
  { intros _. cbn [fst snd]. rewrite Hdone. split; [reflexivity|].
    exists []. rewrite app_nil_r. split; [reflexivity|].
    unfold names_asked. cbn [map fst snd List.concat]. now rewrite Hits, Hn. }
  unfold DualApiSequentialJob.call_client.
  destruct (if DualApiSequentialJob.next_client_id st =? 1
            then DualApiSequentialJob.client1 st
            else DualApiSequentialJob.client2 st) as [c|]; [|discriminate].
  pose proof (get_price_batch_world e c (n :: ns) w) as Hl.
  destruct (SteamDTClient.get_price_batch _ _ _ _) as [[resp|x] w1]; [|discriminate].
  cbn in Hl. subst w1.
  pose proof (write_prices_catalog e resp (log_call w (SteamDTClient.api_key c) (n :: ns)))
    as (Hi & _ & Hc).
  destruct (write_prices _ _ _) as [[u|x] w2]; [|discriminate].
  intros _. cbn [fst snd] in Hi, Hc |- *. rewrite Hflip. split; [exact Hi|].
  eexists. split; [exact Hc|].
  unfold names_asked. cbn [map fst snd List.concat]. now rewrite Hits, Hn.
Qed.

(** The names asked for along a run are those of the windows it
    completes. *)
Lemma single_asked_run (n : nat) (c : pc * PriceBatchJob.t * world) :
  SingleRun.completes_along e c ->
  items (snd (PriceBatchJob.run e n c)) = items (snd c)
  /\ exists cs,
      calls (snd (PriceBatchJob.run e n c)) = calls (snd c) ++ cs
      /\ List.concat (map snd cs)
         = List.concat (map (names_asked (snd c)) (SingleRun.visited e n c)).
Proof.
  revert c. induction n as [|k IH]; intros c Hall.
  { split; [reflexivity|]. exists []. cbn. now rewrite app_nil_r. }
  pose proof (completes_along_run e 1 c Hall) as Hall1.
  cbn [PriceBatchJob.run] in Hall1.
  destruct (IH _ Hall1) as (Hi2 & cs2 & Hc2 & Hn2).
  assert (Hstep : items (snd (PriceBatchJob.loop_step e c)) = items (snd c)
                  /\ exists cs,
                      calls (snd (PriceBatchJob.loop_step e c)) = calls (snd c) ++ cs
                      /\ List.concat (map snd cs)
                         = List.concat
                             (map (names_asked (snd c))
                                match c with
                                | (AtRunWindow, st, _) =>
                                    SingleRun.window_done st
                                      (snd (fst (PriceBatchJob.loop_step e c)))
                                | _ => []
                                end)).
  { pose proof (Hall 0%nat) as Hw. cbn [PriceBatchJob.run] in Hw.
    assert (Hsame : forall w', items w' = items (snd c) -> calls w' = calls (snd c) ->
              items w' = items (snd c)
              /\ exists cs, calls w' = calls (snd c) ++ cs
                            /\ List.concat (map snd cs) = List.concat (map (names_asked (snd c)) [])).
    { intros w' H1 H2. split; [exact H1|]. exists []. now rewrite app_nil_r. }
    destruct c as [[p st] w]. destruct p; cbn [PriceBatchJob.loop_step fst snd] in *.
    - destruct (PriceBatchJob._stop_event st); now apply Hsame.
    - destruct (PriceBatchJob.paused st && negb (PriceBatchJob._stop_event st));
        now apply Hsame.
    - destruct (PriceBatchJob._stop_event st); now apply Hsame.
    - pose proof (single_window_asks st w Hw) as H.
      destruct (PriceBatchJob._run_one_range e st w) as [[r st1] w1]. exact H.
    - destruct (PriceBatchJob.max_id st <=? PriceBatchJob.completed_count st);
        now apply Hsame.
    - destruct ((0 <? remain) && negb (PriceBatchJob._stop_event st)); [|now apply Hsame].
      destruct (PriceBatchJob.paused st); now apply Hsame.
    - now apply Hsame. }
  destruct Hstep as (Hi1 & cs1 & Hc1 & Hn1).
  cbn [PriceBatchJob.run SingleRun.visited].
  split; [congruence|].
  exists (cs1 ++ cs2). split; [now rewrite Hc2, Hc1, app_assoc|].
  rewrite !map_app, !concat_app, Hn1, Hn2. f_equal.
  f_equal. apply map_ext. intros win. now apply names_asked_same_catalog.
Qed.

Lemma dual_asked_run (n : nat) (c : pc * DualApiSequentialJob.t * world) :
  DualRun.completes_along e c ->
  items (snd (DualApiSequentialJob.run e n c)) = items (snd c)
  /\ exists cs,
      calls (snd (DualApiSequentialJob.run e n c)) = calls (snd c) ++ cs
      /\ List.concat (map snd cs)
         = List.concat (map (names_asked (snd c)) (DualRun.visited e n c)).
Proof.
  revert c. induction n as [|k IH]; intros c Hall.
  { split; [reflexivity|]. exists []. cbn. now rewrite app_nil_r. }
  pose proof (dual_completes_along_run e 1 c Hall) as Hall1.
  cbn [DualApiSequentialJob.run] in Hall1.
  destruct (IH _ Hall1) as (Hi2 & cs2 & Hc2 & Hn2).
  assert (Hstep : items (snd (DualApiSequentialJob.loop_step e c)) = items (snd c)
                  /\ exists cs,
                      calls (snd (DualApiSequentialJob.loop_step e c)) = calls (snd c) ++ cs
                      /\ List.concat (map snd cs)
                         = List.concat
                             (map (names_asked (snd c))
                                match c with
                                | (AtRunWindow, st, _) =>
                                    DualRun.window_done st
                                      (snd (fst (DualApiSequentialJob.loop_step e c)))
                                | _ => []
                                end)).
  { pose proof (Hall 0%nat) as Hw. cbn [DualApiSequentialJob.run] in Hw.
    assert (Hsame : forall w', items w' = items (snd c) -> calls w' = calls (snd c) ->
              items w' = items (snd c)
              /\ exists cs, calls w' = calls (snd c) ++ cs
                            /\ List.concat (map snd cs) = List.concat (map (names_asked (snd c)) [])).
    { intros w' H1 H2. split; [exact H1|]. exists []. now rewrite app_nil_r. }
    destruct c as [[p st] w]. destruct p; cbn [DualApiSequentialJob.loop_step fst snd] in *.
    - destruct (DualApiSequentialJob._stop_event st); now apply Hsame.
    - destruct (DualApiSequentialJob.paused st
                && negb (DualApiSequentialJob._stop_event st)); now apply Hsame.
    - destruct (DualApiSequentialJob._stop_event st); now apply Hsame.
    - pose proof (dual_window_asks st w Hw) as H.
      destruct (DualApiSequentialJob._run_one_range e st w) as [[[u|x] st1] w1]; exact H.
    - destruct (DualApiSequentialJob.max_id st
                <=? DualApiSequentialJob.completed_count st); now apply Hsame.
    - destruct ((0 <? remain) && negb (DualApiSequentialJob._stop_event st));
        [|now apply Hsame].
      destruct (DualApiSequentialJob.paused st); now apply Hsame.
    - now apply Hsame. }
  destruct Hstep as (Hi1 & cs1 & Hc1 & Hn1).
  cbn [DualApiSequentialJob.run DualRun.visited].
  split; [congruence|].
  exists (cs1 ++ cs2). split; [now rewrite Hc2, Hc1, app_assoc|].
  rewrite !map_app, !concat_app, Hn1, Hn2. f_equal.
  f_equal. apply map_ext. intros win. now apply names_asked_same_catalog.
Qed.
End Asked.

(** X9. A job whose cursor stands at an identifier from 1 to
    [max_id + 1], as [start] puts it there, and in which every
    processed window completes, runs until its loop exits; the
    windows it completes tile the identifiers from the cursor to
    [max_id], and the names it has then asked the service for, call
    after call, are exactly the non-empty names of the catalog items
    with these identifiers, by ascending identifier: every named item
    from the cursor on is asked for, none twice. *)
Theorem complete_run_asks_for_every_named_item {rt : Runtime} (e : env) :
  (forall (st : PriceBatchJob.t) (w : world),
      1 <= PriceBatchJob.batch_size st ->
      PriceBatchJob.max_id st = max_item_id w ->
      1 <= PriceBatchJob.current_start_id st <= PriceBatchJob.max_id st + 1 ->
      PriceBatchJob.completed_count st = PriceBatchJob.current_start_id st - 1 ->
      PriceBatchJob._stop_event st = false ->
      PriceBatchJob.paused st = false ->
      SingleRun.completes_along e (AtLoopHead, st, w) ->
      exists n cs,
        fst (fst (PriceBatchJob._loop e n st w)) = Exited
        /\ tiles (PriceBatchJob.current_start_id st) (PriceBatchJob.max_id st)
             (PriceBatchJob.batch_size st) (SingleRun.visited e n (AtLoopHead, st, w))
        /\ calls (snd (PriceBatchJob._loop e n st w)) = calls w ++ cs
        /\ List.concat (map snd cs)
           = nonempty_names
               (items_in_range w (PriceBatchJob.current_start_id st) (max_item_id w))
        /\ forall it : Item.t,
            In it (items w) -> PriceBatchJob.current_start_id st <= Item.id it ->
            is_empty (Item.market_hash_name it) = false ->
            In (Item.market_hash_name it) (List.concat (map snd cs)))
  /\ (forall (st : DualApiSequentialJob.t) (w : world),
      1 <= DualApiSequentialJob.batch_size st ->
      DualApiSequentialJob.max_id st = max_item_id w ->
      1 <= DualApiSequentialJob.current_start_id st <= DualApiSequentialJob.max_id st + 1 ->
      DualApiSequentialJob.completed_count st = DualApiSequentialJob.current_start_id st - 1 ->
      DualApiSequentialJob._stop_event st = false ->
      DualApiSequentialJob.paused st = false ->
      DualRun.completes_along e (AtLoopHead, st, w) ->
      exists n cs,
        fst (fst (DualApiSequentialJob._loop e n st w)) = Exited
        /\ tiles (DualApiSequentialJob.current_start_id st) (DualApiSequentialJob.max_id st)
             (DualApiSequentialJob.batch_size st) (DualRun.visited e n (AtLoopHead, st, w))
        /\ calls (snd (DualApiSequentialJob._loop e n st w)) = calls w ++ cs
        /\ List.concat (map snd cs)
           = nonempty_names
               (items_in_range w (DualApiSequentialJob.current_start_id st) (max_item_id w))
        /\ forall it : Item.t,
            In it (items w) -> DualApiSequentialJob.current_start_id st <= Item.id it ->
            is_empty (Item.market_hash_name it) = false ->
            In (Item.market_hash_name it) (List.concat (map snd cs))).
Proof.
  assert (Hin : forall (w : world) (lo : Z) (l : list string),
            l = nonempty_names (items_in_range w lo (max_item_id w)) ->
            forall it : Item.t,
              In it (items w) -> lo <= Item.id it ->
              is_empty (Item.market_hash_name it) = false ->
              In (Item.market_hash_name it) l).
  { intros w lo l -> it Hit Hid Hne. apply In_nonempty_names. split; [exact Hne|].
    apply in_map. apply In_items_in_range. split; [exact Hit|].
    pose proof (max_item_id_bounds w it Hit). lia. }
  split.
  - intros st w Hb Hmax Hc Hcc Hs Hp Hall.
    destruct (run_covers e
                (Z.to_nat (PriceBatchJob.max_id st + 1 - PriceBatchJob.current_start_id st))
                st w Hs Hp Hb Hc Hcc (Nat.le_refl _) Hall)
      as (n & stf & wf & Hrun & Hvis & _).
    destruct (single_asked_run e n _ Hall) as (_ & cs & Hcalls & Hnames).
    cbn [snd] in Hcalls, Hnames.
    assert (Htiles : tiles (PriceBatchJob.current_start_id st) (PriceBatchJob.max_id st)
                       (PriceBatchJob.batch_size st)
                       (SingleRun.visited e n (AtLoopHead, st, w))).
    { rewrite Hvis. apply windows_from_tiles; lia. }
    assert (Heq : List.concat (map snd cs)
                  = nonempty_names
                      (items_in_range w (PriceBatchJob.current_start_id st)
                         (max_item_id w))).
    { rewrite Hnames, <- Hmax.
      exact (tiles_names_asked w (PriceBatchJob.batch_size st) _ _ _ Htiles). }
    exists n, cs. unfold PriceBatchJob._loop. rewrite Hrun in *. cbn [fst snd] in *.
    split; [reflexivity|]. split; [exact Htiles|]. split; [exact Hcalls|].
    split; [exact Heq|]. exact (Hin w _ _ Heq).
  - intros st w Hb Hmax Hc Hcc Hs Hp Hall.
    destruct (dual_run_covers e
                (Z.to_nat (DualApiSequentialJob.max_id st + 1
                           - DualApiSequentialJob.current_start_id st))
                st w Hs Hp Hb Hc Hcc (Nat.le_refl _) Hall)
      as (n & stf & wf & Hrun & Hvis & _).
    destruct (dual_asked_run e n _ Hall) as (_ & cs & Hcalls & Hnames).
    cbn [snd] in Hcalls, Hnames.
    assert (Htiles : tiles (DualApiSequentialJob.current_start_id st)
                       (DualApiSequentialJob.max_id st)
                       (DualApiSequentialJob.batch_size st)
                       (DualRun.visited e n (AtLoopHead, st, w))).
    { rewrite Hvis. apply windows_from_tiles; lia. }
    assert (Heq : List.concat (map snd cs)
                  = nonempty_names
                      (items_in_range w (DualApiSequentialJob.current_start_id st)
                         (max_item_id w))).
    { rewrite Hnames, <- Hmax.
      exact (tiles_names_asked w (DualApiSequentialJob.batch_size st) _ _ _ Htiles). }
    exists n, cs. unfold DualApiSequentialJob._loop. rewrite Hrun in *. cbn [fst snd] in *.
    split; [reflexivity|]. split; [exact Htiles|]. split; [exact Hcalls|].
    split; [exact Heq|]. exact (Hin w _ _ Heq).
Qed.

(** The single job on [small_world], started at the identifier 2. *)
Lemma complete_run_asks_for_every_named_item_witness :
  let st := snd (fst (PriceBatchJob.start small_world (Some 2) (Some 1) (Some 1)
                        (PriceBatchJob.init (keyed "K") 100 60))) in
  exists n cs,
    fst (fst (PriceBatchJob._loop (rt := stub_runtime) fair_env n st small_world)) = Exited
    /\ SingleRun.visited (rt := stub_runtime) fair_env n (AtLoopHead, st, small_world)
       = [(2, 2); (3, 3)]
    /\ calls (snd (PriceBatchJob._loop (rt := stub_runtime) fair_env n st small_world))
       = calls small_world ++ cs
    /\ List.concat (map snd cs) = ["AWP | Asiimov"; "M4A4 | Howl"].
Proof.
  intros st.
  assert (Hb : 1 <= PriceBatchJob.batch_size st) by (vm_compute; discriminate).
  assert (Hc : 1 <= PriceBatchJob.current_start_id st <= PriceBatchJob.max_id st + 1)
    by (split; vm_compute; discriminate).
  assert (Hall : SingleRun.completes_along (rt := stub_runtime) fair_env
                   (AtLoopHead, st, small_world)).
  { apply (completes_along_bounded fair_env 16); vm_compute; reflexivity. }
  destruct (proj1 (complete_run_asks_for_every_named_item (rt := stub_runtime) fair_env)
              st small_world Hb eq_refl Hc eq_refl eq_refl eq_refl Hall)
    as (n & cs & H1 & H2 & H3 & H4 & _).
  exists n, cs. split; [exact H1|]. split; [|split; [exact H3 | exact H4]].
  assert (Ht : forall l, tiles 2 3 1 l -> l = [(2, 2); (3, 3)]).
  { intros [|[s1 e1] [|[s2 e2] [|[s3 e3] r]]]; cbn; intros Hl.
    - lia.
    - destruct Hl as (-> & ? & ? & ? & ?). lia.
    - destruct Hl as (-> & ? & ? & ? & -> & ? & ? & ? & ?).
      repeat f_equal; lia.
    - destruct Hl as (-> & ? & ? & ? & -> & ? & ? & ? & -> & ? & ? & ? & ?). lia. }
  exact (Ht _ H2).
Defined.

(** ** The rows the job writes *)

(** A relation between worlds that every effect of the loop respects
    holds between the world a run starts in and the world it reaches. *)
Section WorldRelation.
Context {rt : Runtime}.
Variable e : env.
Variable R : world -> world -> Prop.
Hypothesis R_refl : forall w, R w w.
Hypothesis R_trans : forall w1 w2 w3, R w1 w2 -> R w2 w3 -> R w1 w3.
Hypothesis R_call : forall w k names, R w (log_call w k names).
Hypothesis R_sleep : forall w ms, R w (sleep w ms).
Hypothesis R_write : forall resp w, R w (snd (write_prices e resp w)).

Lemma single_run_one_range_related (st : PriceBatchJob.t) (w : world) :
  R w (snd (PriceBatchJob._run_one_range e st w)).
Proof.
  unfold PriceBatchJob._run_one_range.
  destruct (_ || _); [apply R_refl|].
  destruct (items_in_range _ _ _); [apply R_refl|].
  destruct (nonempty_names _) as [|n ns]; [apply R_refl|].
  pose proof (get_price_batch_world e (PriceBatchJob.client st) (n :: ns) w) as Hl.
  destruct (SteamDTClient.get_price_batch _ _ _ _) as [[resp|x] w1]; cbn in Hl; subst w1.
  - pose proof (R_write resp
                  (log_call w (SteamDTClient.api_key (PriceBatchJob.client st)) (n :: ns)))
      as Hw.
    destruct (write_prices _ _ _) as [[u|x] w2]; cbn in Hw |- *;
      exact (R_trans _ _ _ (R_call _ _ _) Hw).
  - apply R_call.
Qed.

Lemma dual_run_one_range_related (st : DualApiSequentialJob.t) (w : world) :
  R w (snd (DualApiSequentialJob._run_one_range e st w)).
Proof.
  unfold DualApiSequentialJob._run_one_range.
  destruct (_ || _); [apply R_refl|].
  destruct (items_in_range _ _ _); [apply R_refl|].
  destruct (nonempty_names _) as [|n ns]; [apply R_refl|].
  destruct (if DualApiSequentialJob.next_client_id st =? 1
            then DualApiSequentialJob.client1 st
            else DualApiSequentialJob.client2 st) as [c|];
    cbn [DualApiSequentialJob.call_client]; [|apply R_refl].
  pose proof (get_price_batch_world e c (n :: ns) w) as Hl.
  destruct (SteamDTClient.get_price_batch _ _ _ _) as [[resp|x] w1]; cbn in Hl; subst w1.
  - pose proof (R_write resp (log_call w (SteamDTClient.api_key c) (n :: ns))) as Hw.
    destruct (write_prices _ _ _) as [[u|x] w2]; cbn in Hw |- *;
      exact (R_trans _ _ _ (R_call _ _ _) Hw).
  - apply R_call.
Qed.

Lemma single_run_related (n : nat) (c : pc * PriceBatchJob.t * world) :
  R (snd c) (snd (PriceBatchJob.run e n c)).
Proof.
  revert c. induction n as [|k IH]; intros c; [apply R_refl|].
  cbn [PriceBatchJob.run].
  apply (R_trans _ (snd (PriceBatchJob.loop_step e c))); [|apply IH].
  destruct c as [[p st] w]. destruct p; cbn [PriceBatchJob.loop_step snd].
  - destruct (PriceBatchJob._stop_event st); apply R_refl.
  - destruct (PriceBatchJob.paused st && negb (PriceBatchJob._stop_event st));
      [apply R_sleep | apply R_refl].
  - destruct (PriceBatchJob._stop_event st); apply R_refl.
  - pose proof (single_run_one_range_related st w) as H.
    destruct (PriceBatchJob._run_one_range e st w) as [[r st1] w1]. exact H.
  - destruct (PriceBatchJob.max_id st <=? PriceBatchJob.completed_count st);
      apply R_refl.
  - destruct ((0 <? remain) && negb (PriceBatchJob._stop_event st)); [|apply R_refl].
    destruct (PriceBatchJob.paused st); [apply R_refl | apply R_sleep].
  - apply R_refl.
Qed.

Lemma dual_run_related (n : nat) (c : pc * DualApiSequentialJob.t * world) :
  R (snd c) (snd (DualApiSequentialJob.run e n c)).
Proof.
  revert c. induction n as [|k IH]; intros c; [apply R_refl|].
  cbn [DualApiSequentialJob.run].
  apply (R_trans _ (snd (DualApiSequentialJob.loop_step e c))); [|apply IH].
  destruct c as [[p st] w]. destruct p; cbn [DualApiSequentialJob.loop_step snd].
  - destruct (DualApiSequentialJob._stop_event st); apply R_refl.
  - destruct (DualApiSequentialJob.paused st && negb (DualApiSequentialJob._stop_event st));
      [apply R_sleep | apply R_refl].
  - destruct (DualApiSequentialJob._stop_event st); apply R_refl.
  - pose proof (dual_run_one_range_related st w) as H.
    destruct (DualApiSequentialJob._run_one_range e st w) as [[[u|x] st1] w1]; exact H.
  - destruct (DualApiSequentialJob.max_id st <=? DualApiSequentialJob.completed_count st);
      apply R_refl.
  - destruct ((0 <? remain) && negb (DualApiSequentialJob._stop_event st));
      [|apply R_refl].
    destruct (DualApiSequentialJob.paused st); [apply R_refl | apply R_sleep].
  - apply R_refl.
Qed.
End WorldRelation.

Section Rows.
Context {rt : Runtime}.

Lemma one_or_none_some {A : Type} (l : list A) (x : A) :
  one_or_none l = Ok (Some x) -> l = [x].
Proof. destruct l as [|a [|b r]]; cbn; congruence. Qed.

Lemma one_or_none_none {A : Type} (l : list A) :
  one_or_none l = Ok None -> l = [].
Proof. destruct l as [|a [|b r]]; cbn; congruence. Qed.

Lemma canonical_platform_name_fixed (v : pyval) (pn : string) :
  canonical_platform_name v = Ok pn -> canonical_str pn = pn.
Proof.
  unfold canonical_platform_name. destruct (py_or v (PStr "")); try discriminate.
  intros [= <-]. apply canonical_str_idem.
Qed.

Lemma platform_of_some (w : world) (i : Z) (pn : string) (pl : Platform.t) :
  platform_of w i pn = Ok (Some pl) ->
  In pl (platforms w) /\ Platform.item_id pl = i /\ Platform.name pl = pn.
Proof.
  unfold platform_of. destruct (encodable pn); [|discriminate].
  intros H. apply one_or_none_some in H.
  assert (Hin : In pl (filter (fun p => (Platform.item_id p =? i) && (Platform.name p =? pn)%str)
                         (platforms w))) by (rewrite H; now left).
  apply filter_In in Hin as [Hin Ht]. apply andb_true_iff in Ht as [H1 H2].
  apply Z.eqb_eq in H1. apply StrFacts.eqb_eq in H2. auto.
Qed.

Lemma item_by_name_some (w : world) (mhn : string) (it : Item.t) :
  item_by_name w mhn = Ok (Some it) ->
  In it (items w) /\ Item.market_hash_name it = mhn.
Proof.
  unfold item_by_name. destruct (encodable mhn); [|discriminate].
  intros H. apply one_or_none_some in H.
  assert (Hin : In it (filter (fun x => (Item.market_hash_name x =? mhn)%str) (items w)))
    by (rewrite H; now left).
  apply filter_In in Hin as [Hin Ht]. apply StrFacts.eqb_eq in Ht. auto.
Qed.

Lemma item_by_name_none (w : world) (mhn : string) (it : Item.t) :
  item_by_name w mhn = Ok None -> In it (items w) -> Item.market_hash_name it <> mhn.
Proof.
  unfold item_by_name. destruct (encodable mhn); [|discriminate].
  intros H Hin Heq. apply one_or_none_none in H.
  assert (Hf : In it (filter (fun x => (Item.market_hash_name x =? mhn)%str) (items w))).
  { apply filter_In. split; [exact Hin | now apply StrFacts.eqb_eq]. }
  rewrite H in Hf. contradiction.
Qed.

(** The row of a platform entry takes the name and the item it is
    given, a canonical platform name, and a platform of that item. *)
Lemma platform_row_ok (w : world) (mhn : string) (iid : option Z) (p : pyval)
    (row : Price.t) :
  platform_row w mhn iid p = Ok row ->
  Price.market_hash_name row = mhn
  /\ canonical_str (Price.platform row) = Price.platform row
  /\ Price.item_id row = iid
  /\ match Price.platform_id row with
     | Some pid =>
         exists pl, In pl (platforms w) /\ Platform.id pl = pid
                    /\ iid = Some (Platform.item_id pl)
                    /\ Platform.name pl = Price.platform row
     | None => True
     end.
Proof.
  destruct p as [| | | | |l|d]; try (cbn; discriminate).
  unfold platform_row. rewrite !get_or_dict. cbn [bind].
  destruct (canonical_platform_name _) as [pn|x] eqn:Hpn; cbn [bind]; [|discriminate].
  apply canonical_platform_name_fixed in Hpn.
  destruct iid as [i|].
  - destruct (i =? 0).
    + cbn [bind]. intros [= <-]. cbn. auto.
    + destruct (platform_of w i pn) as [[pl|]|x] eqn:Hpl; cbn [bind option_map];
        [| |discriminate]; intros [= <-]; cbn; [|auto].
      apply platform_of_some in Hpl as (H1 & H2 & H3).
      repeat split; auto. exists pl. subst i. auto.
  - cbn [bind]. intros [= <-]. cbn. auto.
Qed.
End Rows.

Section RowsOfTheRun.
Context {rt : Runtime}.

(** The name [mhn] and the item found for it, as [add_item_rows] hands
    them to the rows of the item. *)
Lemma add_platform_rows_ok (w : world) (mhn : string) (iid : option Z)
    (plats : list pyval) (s : session) :
  is_empty mhn = false -> strip mhn = mhn ->
  match iid with
  | Some i => exists it, In it (items w) /\ Item.id it = i /\ Item.market_hash_name it = mhn
  | None => forall it, In it (items w) -> Item.market_hash_name it <> mhn
  end ->
  Forall (row_ok (items w) (platforms w)) (pending s) ->
  Forall (row_ok (items w) (platforms w))
    (pending (snd (add_platform_rows w mhn iid plats s))).
Proof.
  intros Hne Hst Hid. revert s. induction plats as [|p ps IH]; intros s Hs; [exact Hs|].
  cbn [add_platform_rows].
  destruct (platform_row w mhn iid p) as [row|x] eqn:Hrow; [|exact Hs].
  apply IH. cbn. apply Forall_app. split; [exact Hs|]. constructor; [|constructor].
  apply platform_row_ok in Hrow as (H1 & H2 & H3 & H4).
  unfold row_ok. rewrite H1, H3. repeat split; try assumption;
    intros Heq; rewrite Heq in H2; discriminate.
Qed.

Lemma add_item_rows_ok (w : world) (it : pyval) (s : session) :
  Forall (row_ok (items w) (platforms w)) (pending s) ->
  Forall (row_ok (items w) (platforms w)) (pending (snd (add_item_rows w it s))).
Proof.
  intros Hs. unfold add_item_rows.
  destruct (bind (get_or it ["marketHashName"; "market_hash_name"]) _) as [mhn|x] eqn:Hm;
    [|exact Hs].
  destruct (is_empty mhn) eqn:Hne; [exact Hs|].
  destruct (bind (get_or it ["platforms"; "platformList"; "dataList"]) _) as [plats0|x];
    [|exact Hs].
  destruct (item_by_name w mhn) as [item_rec|x] eqn:Hrec; [|exact Hs].
  destruct (py_iter _) as [ps|x]; [|exact Hs].
  assert (Hst : strip mhn = mhn).
  { destruct (get_or it ["marketHashName"; "market_hash_name"]) as [v|x];
      cbn [bind] in Hm; [|discriminate].
    destruct (py_or v (PStr "")); try discriminate.
    cbn in Hm. injection Hm as <-. apply strip_idem. }
  apply add_platform_rows_ok; [exact Hne | exact Hst | | exact Hs].
  destruct item_rec as [x|]; cbn [option_map].
  - apply item_by_name_some in Hrec as [H1 H2]. exists x. auto.
  - intros y Hy. exact (item_by_name_none w mhn y Hrec Hy).
Qed.

Lemma add_all_rows_ok (w : world) (data_list : list pyval) (s : session) :
  Forall (row_ok (items w) (platforms w)) (pending s) ->
  Forall (row_ok (items w) (platforms w)) (pending (snd (add_all_rows w data_list s))).
Proof.
  revert s. induction data_list as [|it r IH]; intros s Hs; [exact Hs|].
  cbn [add_all_rows].
  pose proof (add_item_rows_ok w it s Hs) as H1.
  destruct (add_item_rows w it s) as [[u|x] s1]; [apply IH; exact H1 | exact H1].
Qed.

Lemma grows_by_rows_ok_refl (w : world) : grows_by_rows_ok w w.
Proof. repeat split. exists []. now rewrite app_nil_r. Qed.

Lemma grows_by_rows_ok_trans (w1 w2 w3 : world) :
  grows_by_rows_ok w1 w2 -> grows_by_rows_ok w2 w3 -> grows_by_rows_ok w1 w3.
Proof.
  intros (I1 & P1 & r1 & R1 & F1) (I2 & P2 & r2 & R2 & F2).
  split; [congruence|]. split; [congruence|].
  exists (r1 ++ r2). split; [now rewrite R2, R1, app_assoc|].
  apply Forall_app. split; [exact F1|]. now rewrite I1, P1 in F2.
Qed.

Lemma write_prices_rows_ok (e : env) (resp : pyval) (w : world) :
  grows_by_rows_ok w (snd (write_prices e resp w)).
Proof.
  unfold write_prices, build_rows.
  pose proof (add_all_rows_ok w (data_list_of resp) get_session (Forall_nil _)) as H.
  destruct (add_all_rows w (data_list_of resp) get_session) as [[u|x] s];
    [|apply grows_by_rows_ok_refl].
  cbn [snd] in H.
  destruct (commit_ok e (commits w) (pending s)); cbn.
  - split; [reflexivity|]. split; [reflexivity|]. now exists (pending s).
  - split; [reflexivity|]. split; [reflexivity|]. exists []. split; [reflexivity | constructor].
Qed.

(** X10. Every price row the loop writes, along any run and whatever
    the service answers, fits the catalog: its name is not empty and
    has no white space around it, its platform name is canonical (so
    neither "C5" nor "HALO"), its item is the catalog item of that
    name, or none when the catalog has no such item, and its platform,
    if any, is a platform row of that item with that platform name.
    The catalog itself is left as it was. *)
Theorem written_rows_fit_the_catalog (e : env) :
  (forall (n : nat) (c : pc * PriceBatchJob.t * world),
      grows_by_rows_ok (snd c) (snd (PriceBatchJob.run e n c)))
  /\ (forall (n : nat) (c : pc * DualApiSequentialJob.t * world),
      grows_by_rows_ok (snd c) (snd (DualApiSequentialJob.run e n c))).
Proof.
  assert (Hcall : forall w k names, grows_by_rows_ok w (log_call w k names)).
  { intros. repeat split. exists []. cbn. now rewrite app_nil_r. }
  assert (Hsleep : forall w ms, grows_by_rows_ok w (sleep w ms)).
  { intros. repeat split. exists []. cbn. now rewrite app_nil_r. }
  split.
  - apply (single_run_related e grows_by_rows_ok grows_by_rows_ok_refl
             grows_by_rows_ok_trans Hcall Hsleep (write_prices_rows_ok e)).
  - apply (dual_run_related e grows_by_rows_ok grows_by_rows_ok_refl
             grows_by_rows_ok_trans Hcall Hsleep (write_prices_rows_ok e)).
Qed.
End RowsOfTheRun.

(** ** Starting a job through its route *)

Section Routes.
Context {rt : Runtime}.

Lemma to_int_arg_or (a : option Z) (d : Z) :
  _to_int (py_or (arg a) (PInt d)) = Some (int_or a d).
Proof.
  destruct a as [n|]; cbn; [|destruct (d =? 0); reflexivity].
  unfold py_or. cbn. destruct (n =? 0); reflexivity.
Qed.

Lemma single_api_start_typed (w : world) (a b c : option Z) (st : PriceBatchJob.t) :
  PriceBatchJobApi.start w (arg a) (arg b) (arg c) st
  = let '(r, st', p) := PriceBatchJob.start w a b c st in (Some r, st', p).
Proof.
  unfold PriceBatchJobApi.start, PriceBatchJob.start.
  destruct (PriceBatchJob.running st); [reflexivity|].
  rewrite !to_int_arg_or. reflexivity.
Qed.

Lemma dual_api_start_typed (w : world) (a b c : option Z) (st : DualApiSequentialJob.t) :
  DualApiSequentialJobApi.start w (arg a) (arg b) (arg c) st
  = let '(r, st', p) := DualApiSequentialJob.start w a b c st in (Some r, st', p).
Proof.
  unfold DualApiSequentialJobApi.start, DualApiSequentialJob.start.
  destruct (DualApiSequentialJob.running st); [reflexivity|].
  destruct (negb (DualApiSequentialJob.configured (DualApiSequentialJob.client1 st)));
    [reflexivity|].
  destruct (negb (DualApiSequentialJob.configured (DualApiSequentialJob.client2 st)));
    [reflexivity|].
  rewrite !to_int_arg_or. reflexivity.
Qed.

Lemma body_of_fields (a b c : option Z) :
  exists d,
    body_of a b c = PDict d
    /\ get d "startId" = arg a /\ get d "batchSize" = arg b /\ get d "intervalSec" = arg c.
Proof. eexists. split; [reflexivity|]. destruct a, b, c; repeat split. Qed.

Lemma job_start_body_of (w : world) (a b c : option Z) (job : PriceBatchJob.t) :
  job_bp.job_start (body_of a b c) w job
  = let '(r, st', p) := PriceBatchJob.start w a b c job in (Some r, st', p).
Proof.
  destruct (body_of_fields a b c) as (d & Hd & Ha & Hb & Hc).
  unfold job_bp.job_start. rewrite Hd.
  assert (Hor : py_or (PDict d) (PDict []) = PDict d) by (destruct d; reflexivity).
  rewrite Hor. cbn [py_get]. rewrite Ha, Hb, Hc. apply single_api_start_typed.
Qed.

Lemma dual_job_start_body_of (w : world) (a b c : option Z)
    (job : DualApiSequentialJob.t) :
  job_bp.dual_job_start (body_of a b c) w job
  = let '(r, st', p) := DualApiSequentialJob.start w a b c job in (Some r, st', p).
Proof.
  destruct (body_of_fields a b c) as (d & Hd & Ha & Hb & Hc).
  unfold job_bp.dual_job_start. rewrite Hd.
  assert (Hor : py_or (PDict d) (PDict []) = PDict d) by (destruct d; reflexivity).
  rewrite Hor. cbn [py_get]. rewrite Ha, Hb, Hc. apply dual_api_start_typed.
Qed.

(** X11. The start routes hand over to [start] what the request body
    holds: on a body that carries integers under [startId],
    [batchSize] and [intervalSec], or leaves some of them out, the
    reply, the job and the thread launched are those of [start]
    called with these integers; a body that is missing or falsy
    starts the job with all its defaults. *)
Theorem start_routes_agree_with_start (w : world) (a b c : option Z) :
  (forall job : PriceBatchJob.t,
      job_bp.job_start (body_of a b c) w job
      = (let '(r, st', p) := PriceBatchJob.start w a b c job in (Some r, st', p))
      /\ forall body : pyval,
          truthy body = false ->
          job_bp.job_start body w job
          = (let '(r, st', p) := PriceBatchJob.start w None None None job in
             (Some r, st', p)))
  /\ (forall job : DualApiSequentialJob.t,
      job_bp.dual_job_start (body_of a b c) w job
      = (let '(r, st', p) := DualApiSequentialJob.start w a b c job in (Some r, st', p))
      /\ forall body : pyval,
          truthy body = false ->
          job_bp.dual_job_start body w job
          = (let '(r, st', p) := DualApiSequentialJob.start w None None None job in
             (Some r, st', p))).
Proof.
  split; intros job; split.
  - apply job_start_body_of.
  - intros body Hf. unfold job_bp.job_start, py_or. rewrite Hf. cbn [py_get get find].
    exact (single_api_start_typed w None None None job).
  - apply dual_job_start_body_of.
  - intros body Hf. unfold job_bp.dual_job_start, py_or. rewrite Hf. cbn [py_get get find].
    exact (dual_api_start_typed w None None None job).
Qed.
End Routes.

Lemma start_routes_agree_with_start_witness :
  job_bp.job_start (rt := stub_runtime) (body_of None (Some 2) (Some 1)) small_world
    (PriceBatchJob.init (keyed "K") 100 60)
  = (Some (PriceBatchJob.status single_on_small_world), single_on_small_world,
     Some AtLoopHead)
  /\ truthy (PList []) = false
  /\ PriceBatchJob.batch_size
       (snd (fst (job_bp.job_start (rt := stub_runtime) (PList []) small_world
                    (PriceBatchJob.init (keyed "K") 100 60)))) = 100.
Proof.
  destruct (proj1 (start_routes_agree_with_start (rt := stub_runtime) small_world
                     None (Some 2) (Some 1))
              (PriceBatchJob.init (keyed "K") 100 60)) as [H1 H2].
  split; [exact H1|]. split; [reflexivity|].
  rewrite (H2 (PList []) eq_refl). reflexivity.
Defined.

(** ** A start that fails half way *)

Section HalfStart.
Context {rt : Runtime}.

(** X12. [start] marks the job as running before it converts its
    arguments.  On an idle job (with its two keys, for the dual job),
    when the conversion of [batchSize], of [intervalSec] or of
    [startId] raises, [start] gives no reply: the exception leaves
    the method, and the route answers with an error.  No thread has
    been launched, and the cursor, the progress, the last processed
    range and the thread handle are as before, but the job is left
    marked as running and not paused, and [status] reports it as
    running.  [stop] brings such a job back to idle. *)
Theorem start_that_raises_leaves_the_job_running :
  (forall (w : world) (a b c : pyval) (st : PriceBatchJob.t),
      PriceBatchJob.running st = false ->
      _to_int (py_or b (PInt (PriceBatchJob.default_batch_size st))) = None
      \/ _to_int (py_or c (PInt (PriceBatchJob.default_interval st))) = None
      \/ _to_int (py_or a (PInt 1)) = None ->
      let r := PriceBatchJobApi.start w a b c st in
      let st' := snd (fst r) in
      fst (fst r) = None
      /\ snd r = None
      /\ PriceBatchJob.running st' = true
      /\ PriceBatchJob.paused st' = false
      /\ PriceBatchJob._thread st' = PriceBatchJob._thread st
      /\ PriceBatchJob.current_start_id st' = PriceBatchJob.current_start_id st
      /\ PriceBatchJob.completed_count st' = PriceBatchJob.completed_count st
      /\ PriceBatchJob.last_processed_range st' = PriceBatchJob.last_processed_range st
      /\ PriceBatchJob.Status.state (PriceBatchJob.status st') = "running"
      /\ PriceBatchJob.running (snd (PriceBatchJob.stop st')) = false)
  /\ (forall (w : world) (a b c : pyval) (st : DualApiSequentialJob.t),
      DualApiSequentialJob.running st = false ->
      DualApiSequentialJob.configured (DualApiSequentialJob.client1 st) = true ->
      DualApiSequentialJob.configured (DualApiSequentialJob.client2 st) = true ->
      _to_int (py_or b (PInt (DualApiSequentialJob.default_batch_size st))) = None
      \/ _to_int (py_or c (PInt (DualApiSequentialJob.default_interval st))) = None
      \/ _to_int (py_or a (PInt 1)) = None ->
      let r := DualApiSequentialJobApi.start w a b c st in
      let st' := snd (fst r) in
      fst (fst r) = None
      /\ snd r = None
      /\ DualApiSequentialJob.running st' = true
      /\ DualApiSequentialJob.paused st' = false
      /\ DualApiSequentialJob._thread st' = DualApiSequentialJob._thread st
      /\ DualApiSequentialJob.current_start_id st'
         = DualApiSequentialJob.current_start_id st
      /\ DualApiSequentialJob.completed_count st'
         = DualApiSequentialJob.completed_count st
      /\ DualApiSequentialJob.last_processed_range st'
         = DualApiSequentialJob.last_processed_range st
      /\ DualApiSequentialJob.next_client_id st' = DualApiSequentialJob.next_client_id st
      /\ DualApiSequentialJob.Status.state (DualApiSequentialJob.status st') = "running"
      /\ DualApiSequentialJob.running (snd (DualApiSequentialJob.stop st')) = false).
Proof.
  split.
  - intros w a b c st Hr Hconv r st'. subst st' r. unfold PriceBatchJobApi.start.
    rewrite Hr.
    cbn [PriceBatchJobApi.mark_running PriceBatchJob.default_batch_size].
    destruct (_to_int (py_or b (PInt (PriceBatchJob.default_batch_size st))))
      as [vb|] eqn:Hb.
    + cbn [PriceBatchJobApi.set_batch_size PriceBatchJobApi.mark_running
           PriceBatchJob.default_interval].
      destruct (_to_int (py_or c (PInt (PriceBatchJob.default_interval st))))
        as [vc|] eqn:Hc.
      * destruct (_to_int (py_or a (PInt 1))) as [va|] eqn:Ha.
        -- destruct Hconv as [H | [H | H]]; discriminate H.
        -- cbn. repeat split.
      * cbn. repeat split.
    + cbn. repeat split.
  - intros w a b c st Hr H1 H2 Hconv r st'. subst st' r.
    unfold DualApiSequentialJobApi.start. rewrite Hr, H1, H2. cbn [negb].
    cbn [DualApiSequentialJobApi.mark_running DualApiSequentialJob.default_batch_size].
    destruct (_to_int (py_or b (PInt (DualApiSequentialJob.default_batch_size st))))
      as [vb|] eqn:Hb.
    + cbn [DualApiSequentialJobApi.set_batch_size DualApiSequentialJobApi.mark_running
           DualApiSequentialJob.default_interval].
      destruct (_to_int (py_or c (PInt (DualApiSequentialJob.default_interval st))))
        as [vc|] eqn:Hc.
      * destruct (_to_int (py_or a (PInt 1))) as [va|] eqn:Ha.
        -- destruct Hconv as [H | [H | H]]; discriminate H.
        -- cbn. repeat split.
      * cbn. repeat split.
    + cbn. repeat split.
Qed.
End HalfStart.

Lemma start_that_raises_leaves_the_job_running_witness :
  let job := PriceBatchJob.init (keyed "K") 100 60 in
  let body := PDict [("batchSize", PList [PInt 5])] in
  let job' := snd (fst (job_bp.job_start (rt := stub_runtime) body small_world job)) in
  job_bp.job_start (rt := stub_runtime) body small_world job = (None, job', None)
  /\ PriceBatchJob.Status.state (PriceBatchJob.status job') = "running"
  /\ PriceBatchJob._thread job' = false
  /\ PriceBatchJob.running (snd (PriceBatchJob.stop job')) = false.
Proof.
  intros job body job'.
  assert (H : job_bp.job_start (rt := stub_runtime) body small_world job
              = PriceBatchJobApi.start (rt := stub_runtime) small_world PNone
                  (PList [PInt 5]) PNone job) by reflexivity.
  destruct (proj1 (start_that_raises_leaves_the_job_running (rt := stub_runtime))
              small_world PNone (PList [PInt 5]) PNone job eq_refl (or_introl eq_refl))
    as (_ & _ & _ & _ & Hth & _ & _ & _ & Hstate & Hstop).
  unfold job'. rewrite H.
  split; [reflexivity|]. split; [exact Hstate|]. split; [exact Hth | exact Hstop].
Defined.

(** ** The jobs of the application *)

Section Wiring.
Context {rt : Runtime}.

Lemma str_or_truthy (a b : option string) : str_truthy a = true -> str_or a b = a.
Proof. destruct a as [s|]; cbn; [|discriminate]. now destruct (is_empty s). Qed.

Lemma has_key_new_client (env : environ) (k : option string) :
  str_truthy k = true ->
  SteamDTClient.api_key (new_client env k) = k
  /\ SteamDTClient.has_key (new_client env k) = true.
Proof.
  intros H. unfold new_client, SteamDTClient.has_key. cbn.
  rewrite (str_or_truthy _ _ H). split; [reflexivity|].
  destruct k as [s|]; [exact H | discriminate].
Qed.

Lemma has_key_default_client (env : environ) :
  SteamDTClient.has_key (new_client env (env "STEAMDT_API_KEY"))
  = str_truthy (env "STEAMDT_API_KEY").
Proof.
  unfold new_client, SteamDTClient.has_key, str_or, str_truthy. cbn.
  destruct (env "STEAMDT_API_KEY") as [s|] eqn:E; [|rewrite ?E; reflexivity].
  destruct (is_empty s) eqn:Es; rewrite ?E, ?Es; reflexivity.
Qed.

(** X13. The jobs as [create_app] builds them.  The dual job starts
    only if [STEAMDT_API_KEY_1] (or [STEAMDT_API_KEY_A]) and
    [STEAMDT_API_KEY_2] (or [STEAMDT_API_KEY_B]) are set and not
    empty: otherwise its start route answers with the error object
    that names the first missing key and the job stays as it is,
    whatever [STEAMDT_API_KEY] holds.  With both keys the job starts
    and calls with exactly these two keys.  The single job starts in
    every environment; its client holds a key exactly when
    [STEAMDT_API_KEY] is set and not empty. *)
Theorem jobs_of_the_application (env : environ) (w : world) (a b c : option Z) :
  let app := App.create_app env in
  let k1 := str_or (env "STEAMDT_API_KEY_1") (env "STEAMDT_API_KEY_A") in
  let k2 := str_or (env "STEAMDT_API_KEY_2") (env "STEAMDT_API_KEY_B") in
  let r := job_bp.dual_job_start (body_of a b c) w (App.dualjob app) in
  let rs := job_bp.job_start (body_of a b c) w (App.job app) in
  (str_truthy k1 = false ->
   r = (Some (DualApiSequentialJob.ConfigError false false DualApiSequentialJob.error_key_1),
        App.dualjob app, None))
  /\ (str_truthy k1 = true -> str_truthy k2 = false ->
      r = (Some (DualApiSequentialJob.ConfigError false false
                   DualApiSequentialJob.error_key_2),
           App.dualjob app, None))
  /\ (str_truthy k1 = true -> str_truthy k2 = true ->
      snd r = Some AtLoopHead
      /\ DualApiSequentialJob.running (snd (fst r)) = true
      /\ key_at (DualApiSequentialJob.client1 (snd (fst r)))
           (DualApiSequentialJob.client2 (snd (fst r))) 1 = k1
      /\ key_at (DualApiSequentialJob.client1 (snd (fst r)))
           (DualApiSequentialJob.client2 (snd (fst r))) 2 = k2)
  /\ snd rs = Some AtLoopHead
  /\ PriceBatchJob.running (snd (fst rs)) = true
  /\ SteamDTClient.has_key (PriceBatchJob.client (snd (fst rs)))
     = str_truthy (env "STEAMDT_API_KEY").
Proof.
  intros app k1 k2 r rs.
  subst r rs. rewrite dual_job_start_body_of, job_start_body_of.
  subst app. unfold App.create_app. cbn [App.dualjob App.job].
  fold k1. fold k2.
  unfold DualApiSequentialJob.start, PriceBatchJob.start.
  cbn [DualApiSequentialJob.init DualApiSequentialJob.running DualApiSequentialJob.client1
       DualApiSequentialJob.client2 PriceBatchJob.init PriceBatchJob.running].
  split; [|split; [|split]].
  - intros H1. rewrite H1. reflexivity.
  - intros H1 H2. rewrite H1, H2. cbn [DualApiSequentialJob.configured].
    rewrite (proj2 (has_key_new_client env k1 H1)). reflexivity.
  - intros H1 H2. rewrite H1, H2. cbn [DualApiSequentialJob.configured].
    rewrite (proj2 (has_key_new_client env k1 H1)),
      (proj2 (has_key_new_client env k2 H2)).
    cbn. unfold key_at. cbn.
    rewrite (str_or_truthy _ _ H1), (str_or_truthy _ _ H2). auto.
  - cbn. split; [reflexivity|]. split; [reflexivity|]. apply has_key_default_client.
Qed.
End Wiring.

Lemma jobs_of_the_application_witness :
  job_bp.dual_job_start (rt := stub_runtime) (body_of None None None) small_world
    (App.dualjob (App.create_app default_key_only))
  = (Some (DualApiSequentialJob.ConfigError false false DualApiSequentialJob.error_key_1),
     App.dualjob (App.create_app default_key_only), None)
  /\ (let r := job_bp.dual_job_start (rt := stub_runtime) (body_of None None None)
                 small_world (App.dualjob (App.create_app two_keys)) in
      DualApiSequentialJob.running (snd (fst r)) = true
      /\ key_at (DualApiSequentialJob.client1 (snd (fst r)))
           (DualApiSequentialJob.client2 (snd (fst r))) 1 = Some "K1"
      /\ key_at (DualApiSequentialJob.client1 (snd (fst r)))
           (DualApiSequentialJob.client2 (snd (fst r))) 2 = Some "K2").
Proof.
  split.
  - exact (proj1 (jobs_of_the_application (rt := stub_runtime) default_key_only small_world
                    None None None) eq_refl).
  - destruct (jobs_of_the_application (rt := stub_runtime) two_keys small_world
                None None None) as (_ & _ & H & _).
    destruct (H eq_refl eq_refl) as (_ & H1 & H2 & H3).
    split; [exact H1|]. split; [exact H2 | exact H3].
Defined.

(** ** Starting with nothing to do, or before the catalog *)

Section EdgeStarts.
Context {rt : Runtime}.
Variable e : env.

Lemma single_idle_window (st : PriceBatchJob.t) (w : world) :
  Z.min (PriceBatchJob.max_id st)
    (PriceBatchJob.current_start_id st + PriceBatchJob.batch_size st - 1)
  < PriceBatchJob.current_start_id st
  \/ PriceBatchJob.current_start_id st <= 0 ->
  PriceBatchJob._run_one_range e st w = (Ok tt, st, w).
Proof.
  intros H. unfold PriceBatchJob._run_one_range.
  destruct (Z.ltb_spec
              (Z.min (PriceBatchJob.max_id st)
                 (PriceBatchJob.current_start_id st + PriceBatchJob.batch_size st - 1))
              (PriceBatchJob.current_start_id st)); [reflexivity|].
  destruct (Z.leb_spec (PriceBatchJob.current_start_id st) 0); [reflexivity | lia].
Qed.

Lemma dual_idle_window (st : DualApiSequentialJob.t) (w : world) :
  Z.min (DualApiSequentialJob.max_id st)
    (DualApiSequentialJob.current_start_id st + DualApiSequentialJob.batch_size st - 1)
  < DualApiSequentialJob.current_start_id st
  \/ DualApiSequentialJob.current_start_id st <= 0 ->
  DualApiSequentialJob._run_one_range e st w = (Ok tt, st, w).
Proof.
  intros H. unfold DualApiSequentialJob._run_one_range.
  destruct (Z.ltb_spec
              (Z.min (DualApiSequentialJob.max_id st)
                 (DualApiSequentialJob.current_start_id st
                  + DualApiSequentialJob.batch_size st - 1))
              (DualApiSequentialJob.current_start_id st)); [reflexivity|].
  destruct (Z.leb_spec (DualApiSequentialJob.current_start_id st) 0); [reflexivity | lia].
Qed.

Lemma single_nothing_to_do (st : PriceBatchJob.t) (w : world) :
  PriceBatchJob._stop_event st = false -> PriceBatchJob.paused st = false ->
  PriceBatchJob.max_id st <= PriceBatchJob.completed_count st ->
  PriceBatchJob.completed_count st = Z.max 0 (PriceBatchJob.current_start_id st - 1) ->
  PriceBatchJob.run e 5 (AtLoopHead, st, w)
  = (Exited,
     snd (PriceBatchJob.stop
            (PriceBatchJob.set_next_run_ts st
               (clock w + 1000 * PriceBatchJob.interval_sec st))), w).
Proof.
  intros Hs Hp Hdone Hcc.
  destruct (head_reaches_window e st w Hs Hp) as [H3 _].
  change 5%nat with (3 + 2)%nat. rewrite run_add, H3.
  cbn [PriceBatchJob.run PriceBatchJob.loop_step].
  rewrite single_idle_window by lia. cbn [PriceBatchJob.loop_step].
  destruct (Z.leb_spec (PriceBatchJob.max_id st) (PriceBatchJob.completed_count st));
    [reflexivity | lia].
Qed.

Lemma dual_nothing_to_do (st : DualApiSequentialJob.t) (w : world) :
  DualApiSequentialJob._stop_event st = false -> DualApiSequentialJob.paused st = false ->
  DualApiSequentialJob.max_id st <= DualApiSequentialJob.completed_count st ->
  DualApiSequentialJob.completed_count st
  = Z.max 0 (DualApiSequentialJob.current_start_id st - 1) ->
  DualApiSequentialJob.run e 5 (AtLoopHead, st, w)
  = (Exited,
     snd (DualApiSequentialJob.stop
            (DualApiSequentialJob.set_next_run_ts
               (DualApiSequentialJob.set_last_error st None)
               (clock w + 1000 * DualApiSequentialJob.interval_sec st))), w).
Proof.
  intros Hs Hp Hdone Hcc.
  destruct (dual_head_reaches_window e st w Hs Hp) as [H3 _].
  change 5%nat with (3 + 2)%nat. rewrite dual_run_add, H3.
  cbn [DualApiSequentialJob.run DualApiSequentialJob.loop_step].
  rewrite dual_idle_window by lia.
  cbn [DualApiSequentialJob.loop_step DualApiSequentialJob.set_last_error
       DualApiSequentialJob.max_id DualApiSequentialJob.completed_count].
  destruct (Z.leb_spec (DualApiSequentialJob.max_id st)
              (DualApiSequentialJob.completed_count st)); [reflexivity | lia].
Qed.

(** X14. An idle job started where nothing is left to do, that is
    on an empty catalog or with a start identifier beyond the largest
    identifier of the catalog, launches its loop, and the loop exits
    at its first completion test: no call is made, the world is as it
    was, and the job is idle again, with the cursor where [start] put
    it and no window processed. *)
Theorem start_with_nothing_to_do_ends_at_once :
  (forall (w : world) (a b c : option Z) (job : PriceBatchJob.t),
      PriceBatchJob.running job = false ->
      max_item_id w <= Z.max 0 (int_or a 1 - 1) ->
      let r := PriceBatchJob.start w a b c job in
      let c5 := PriceBatchJob._loop e 5 (snd (fst r)) w in
      snd r = Some AtLoopHead
      /\ fst (fst c5) = Exited
      /\ snd c5 = w
      /\ PriceBatchJob.Status.state (PriceBatchJob.status (snd (fst c5))) = "idle"
      /\ PriceBatchJob.current_start_id (snd (fst c5)) = int_or a 1
      /\ PriceBatchJob.last_processed_range (snd (fst c5)) = None)
  /\ (forall (w : world) (a b c : option Z) (job : DualApiSequentialJob.t),
      DualApiSequentialJob.running job = false ->
      DualApiSequentialJob.configured (DualApiSequentialJob.client1 job) = true ->
      DualApiSequentialJob.configured (DualApiSequentialJob.client2 job) = true ->
      max_item_id w <= Z.max 0 (int_or a 1 - 1) ->
      let r := DualApiSequentialJob.start w a b c job in
      let c5 := DualApiSequentialJob._loop e 5 (snd (fst r)) w in
      snd r = Some AtLoopHead
      /\ fst (fst c5) = Exited
      /\ snd c5 = w
      /\ DualApiSequentialJob.Status.state
           (DualApiSequentialJob.status (snd (fst c5))) = "idle"
      /\ DualApiSequentialJob.current_start_id (snd (fst c5)) = int_or a 1
      /\ DualApiSequentialJob.last_processed_range (snd (fst c5)) = None).
Proof.
  split.
  - intros w a b c job Hr Hmax r c5. subst c5 r.
    unfold PriceBatchJob.start, PriceBatchJob._loop. rewrite Hr. cbn [fst snd].
    rewrite single_nothing_to_do; cbn; auto. repeat split.
  - intros w a b c job Hr H1 H2 Hmax r c5. subst c5 r.
    unfold DualApiSequentialJob.start, DualApiSequentialJob._loop.
    rewrite Hr, H1, H2. cbn [fst snd negb].
    rewrite dual_nothing_to_do; cbn; auto. repeat split.
Qed.
End EdgeStarts.

Lemma start_with_nothing_to_do_ends_at_once_witness :
  max_item_id empty_world <= Z.max 0 (int_or None 1 - 1)
  /\ max_item_id small_world <= Z.max 0 (int_or (Some 7) 1 - 1)
  /\ PriceBatchJob._loop (rt := stub_runtime) fair_env 5
       (snd (fst (PriceBatchJob.start empty_world None None None
                    (PriceBatchJob.init (keyed "K") 100 60)))) empty_world
     = (Exited,
        snd (fst (PriceBatchJob._loop (rt := stub_runtime) fair_env 5
                    (snd (fst (PriceBatchJob.start empty_world None None None
                                 (PriceBatchJob.init (keyed "K") 100 60)))) empty_world)),
        empty_world)
  /\ fst (fst (DualApiSequentialJob._loop (rt := stub_runtime) fair_env 5
                 (snd (fst (DualApiSequentialJob.start small_world (Some 7) None None
                              (DualApiSequentialJob.init (Some (keyed "K1"))
                                 (Some (keyed "K2")) 100 30)))) small_world)) = Exited.
Proof.
  assert (E1 : max_item_id empty_world <= Z.max 0 (int_or None 1 - 1))
    by (vm_compute; discriminate).
  assert (E2 : max_item_id small_world <= Z.max 0 (int_or (Some 7) 1 - 1))
    by (vm_compute; discriminate).
  split; [exact E1|]. split; [exact E2|].
  destruct (proj1 (start_with_nothing_to_do_ends_at_once (rt := stub_runtime) fair_env)
              empty_world None None None (PriceBatchJob.init (keyed "K") 100 60)
              eq_refl E1) as (_ & H1 & H2 & _).
  destruct (proj2 (start_with_nothing_to_do_ends_at_once (rt := stub_runtime) fair_env)
              small_world (Some 7) None None
              (DualApiSequentialJob.init (Some (keyed "K1")) (Some (keyed "K2")) 100 30)
              eq_refl eq_refl eq_refl E2) as (_ & D1 & _).
  split; [|exact D1].
  destruct (PriceBatchJob._loop fair_env 5 _ empty_world) as [[p st] w].
  cbn [fst snd] in *. now subst.
Defined.

(** ** Starting before the catalog *)

Section Spinning.
Context {rt : Runtime}.
Variable e : env.

Lemma single_spinning_step (cur : Z) (w0 : world) (c : pc * PriceBatchJob.t * world) :
  cur <= 0 -> single_spinning cur w0 c -> single_spinning cur w0 (PriceBatchJob.loop_step e c).
Proof.
  intros Hcur. destruct c as [[p st] w].
  intros (Hp & Hs & Hc & Hcc & Hm & Hl & Hr & Hcalls & Hprices).
  destruct p; cbn [PriceBatchJob.loop_step].
  - rewrite Hs. repeat split; auto; discriminate.
  - rewrite Hs, andb_true_r.
    destruct (PriceBatchJob.paused st); repeat split; auto; discriminate.
  - rewrite Hs. repeat split; auto; discriminate.
  - rewrite single_idle_window by lia. repeat split; auto; discriminate.
  - destruct (Z.leb_spec (PriceBatchJob.max_id st) (PriceBatchJob.completed_count st));
      [lia|]. repeat split; auto; discriminate.
  - rewrite Hs, andb_true_r. destruct (0 <? remain); [|repeat split; auto; discriminate].
    destruct (PriceBatchJob.paused st); repeat split; auto; discriminate.
  - contradiction.
Qed.

Lemma dual_spinning_step (cur : Z) (w0 : world) (c : pc * DualApiSequentialJob.t * world) :
  cur <= 0 -> dual_spinning cur w0 c ->
  dual_spinning cur w0 (DualApiSequentialJob.loop_step e c).
Proof.
  intros Hcur. destruct c as [[p st] w].
  intros (Hp & Hs & Hc & Hcc & Hm & Hl & Hr & Hcalls & Hprices).
  destruct p; cbn [DualApiSequentialJob.loop_step].
  - rewrite Hs. repeat split; auto; discriminate.
  - rewrite Hs, andb_true_r.
    destruct (DualApiSequentialJob.paused st); repeat split; auto; discriminate.
  - rewrite Hs. repeat split; auto; discriminate.
  - rewrite dual_idle_window by lia. repeat split; auto; discriminate.
  - destruct (Z.leb_spec (DualApiSequentialJob.max_id st)
                (DualApiSequentialJob.completed_count st)); [lia|].
    repeat split; auto; discriminate.
  - rewrite Hs, andb_true_r. destruct (0 <? remain); [|repeat split; auto; discriminate].
    destruct (DualApiSequentialJob.paused st); repeat split; auto; discriminate.
  - contradiction.
Qed.

(** X15. [start] takes a negative start identifier as it is.  On a
    catalog with a positive identifier the loop then turns for ever
    without doing anything: every window is skipped because the
    cursor is not positive, the completion test never holds, so after
    any number of steps the thread has not exited, the job still
    reports itself as running, the cursor is the negative identifier,
    no window is recorded and no call or row has been added. *)
Theorem start_before_the_catalog_never_ends :
  (forall (w : world) (a : Z) (b c : option Z) (job : PriceBatchJob.t) (n : nat),
      PriceBatchJob.running job = false ->
      a < 0 -> 0 < max_item_id w ->
      single_spinning a w
        (PriceBatchJob._loop e n (snd (fst (PriceBatchJob.start w (Some a) b c job))) w))
  /\ (forall (w : world) (a : Z) (b c : option Z) (job : DualApiSequentialJob.t)
        (n : nat),
      DualApiSequentialJob.running job = false ->
      DualApiSequentialJob.configured (DualApiSequentialJob.client1 job) = true ->
      DualApiSequentialJob.configured (DualApiSequentialJob.client2 job) = true ->
      a < 0 -> 0 < max_item_id w ->
      dual_spinning a w
        (DualApiSequentialJob._loop e n
           (snd (fst (DualApiSequentialJob.start w (Some a) b c job))) w)).
Proof.
  split.
  - intros w a b c job n Hr Ha Hm. unfold PriceBatchJob._loop.
    assert (H0 : single_spinning a w
                   (AtLoopHead, snd (fst (PriceBatchJob.start w (Some a) b c job)), w)).
    { unfold PriceBatchJob.start. rewrite Hr. cbn.
      destruct (Z.eqb_spec a 0); [lia|]. repeat split; auto; try discriminate; lia. }
    generalize dependent (AtLoopHead, snd (fst (PriceBatchJob.start w (Some a) b c job)), w).
    induction n as [|k IH]; intros c0 H0; [exact H0|].
    cbn [PriceBatchJob.run]. apply IH. apply single_spinning_step; [lia | exact H0].
  - intros w a b c job n Hr H1 H2 Ha Hm. unfold DualApiSequentialJob._loop.
    assert (H0 : dual_spinning a w
                   (AtLoopHead,
                    snd (fst (DualApiSequentialJob.start w (Some a) b c job)), w)).
    { unfold DualApiSequentialJob.start. rewrite Hr, H1, H2. cbn.
      destruct (Z.eqb_spec a 0); [lia|]. repeat split; auto; try discriminate; lia. }
    generalize dependent
      (AtLoopHead, snd (fst (DualApiSequentialJob.start w (Some a) b c job)), w).
    induction n as [|k IH]; intros c0 H0; [exact H0|].
    cbn [DualApiSequentialJob.run]. apply IH. apply dual_spinning_step; [lia | exact H0].
Qed.
End Spinning.

Lemma start_before_the_catalog_never_ends_witness :
  single_spinning (-5) small_world
    (PriceBatchJob._loop (rt := stub_runtime) fair_env 1000
       (snd (fst (PriceBatchJob.start small_world (Some (-5)) None None
                    (PriceBatchJob.init (keyed "K") 100 60)))) small_world).
Proof.
  apply (proj1 (start_before_the_catalog_never_ends (rt := stub_runtime) fair_env)
           small_world (-5) None None (PriceBatchJob.init (keyed "K") 100 60) 1000%nat
           eq_refl); [reflexivity | vm_compute; reflexivity].
Defined.

(** ** What the status announces *)

Section Status.
Context {rt : Runtime}.
Variable e : env.

(** X16. The status announces the window to come: whenever
    [_run_one_range] moves the cursor, the range it records as last
    processed is the pair made of [currentStartId] and
    [currentEndIdNext] of the status read just before, the new
    [completedCount] is that [currentEndIdNext] and the new
    [currentStartId] is one more.  And on a job in which being paused
    implies running, as in every state the job can be in, [state] is
    "idle" exactly when the job is not running and "paused" exactly
    when it is paused. *)
Theorem status_announces_the_next_window :
  (forall (st : PriceBatchJob.t) (w : world),
      let st' := snd (fst (PriceBatchJob._run_one_range e st w)) in
      let s := PriceBatchJob.status st in
      let s' := PriceBatchJob.status st' in
      (PriceBatchJob.current_start_id st' <> PriceBatchJob.current_start_id st ->
       PriceBatchJob.Status.lastProcessedRange s'
       = Some (PriceBatchJob.Status.currentStartId s,
               PriceBatchJob.Status.currentEndIdNext s)
       /\ PriceBatchJob.Status.completedCount s' = PriceBatchJob.Status.currentEndIdNext s
       /\ PriceBatchJob.Status.currentStartId s'
          = PriceBatchJob.Status.currentEndIdNext s + 1
       /\ PriceBatchJob.Status.currentStartId s <= PriceBatchJob.Status.currentEndIdNext s
          <= PriceBatchJob.Status.maxId s)
      /\ (single_sound st ->
          (PriceBatchJob.Status.state s = "idle" <-> PriceBatchJob.running st = false)
          /\ (PriceBatchJob.Status.state s = "paused" <-> PriceBatchJob.paused st = true)))
  /\ (forall (st : DualApiSequentialJob.t) (w : world),
      let st' := snd (fst (DualApiSequentialJob._run_one_range e st w)) in
      let s := DualApiSequentialJob.status st in
      let s' := DualApiSequentialJob.status st' in
      (DualApiSequentialJob.current_start_id st'
       <> DualApiSequentialJob.current_start_id st ->
       DualApiSequentialJob.Status.lastProcessedRange s'
       = Some (DualApiSequentialJob.Status.currentStartId s,
               DualApiSequentialJob.Status.currentEndIdNext s)
       /\ DualApiSequentialJob.Status.completedCount s'
          = DualApiSequentialJob.Status.currentEndIdNext s
       /\ DualApiSequentialJob.Status.currentStartId s'
          = DualApiSequentialJob.Status.currentEndIdNext s + 1
       /\ DualApiSequentialJob.Status.currentStartId s
          <= DualApiSequentialJob.Status.currentEndIdNext s
          <= DualApiSequentialJob.Status.maxId s)
      /\ (dual_sound st ->
          (DualApiSequentialJob.Status.state s = "idle"
           <-> DualApiSequentialJob.running st = false)
          /\ (DualApiSequentialJob.Status.state s = "paused"
              <-> DualApiSequentialJob.paused st = true))).
Proof.
  split.
  - intros st w st' s s'. split.
    + subst s s'. pose proof (single_run_one_range_effect e st w) as H.
      cbv zeta in H. fold st' in H.
      destruct H as [-> | (-> & Hle & Hpos)]; [congruence|].
      intros _. cbn.
      destruct (Z.ltb_spec 0 (PriceBatchJob.current_start_id st)); [|lia].
      repeat split; lia.
    + intros (_ & _ & _ & _ & Hp & _). subst s. cbn.
      destruct (PriceBatchJob.paused st), (PriceBatchJob.running st);
        try (specialize (Hp eq_refl)); repeat split; intros; congruence.
  - intros st w st' s s'. split.
    + subst s s'. pose proof (dual_run_one_range_effect e st w) as H.
      cbv zeta in H. fold st' in H.
      destruct H as [-> | ([-> | ->] & Hle & Hpos)]; [congruence| |];
        intros _; cbn;
        (destruct (Z.ltb_spec 0 (DualApiSequentialJob.current_start_id st)); [|lia]);
        repeat split; lia.
    + intros (_ & _ & _ & _ & Hp & _). subst s. cbn.
      destruct (DualApiSequentialJob.paused st), (DualApiSequentialJob.running st);
        try (specialize (Hp eq_refl)); repeat split; intros; congruence.
Qed.
End Status.

Lemma status_announces_the_next_window_witness :
  let st' := snd (fst (PriceBatchJob._run_one_range (rt := stub_runtime) fair_env
                         single_on_small_world small_world)) in
  PriceBatchJob.Status.currentEndIdNext (PriceBatchJob.status single_on_small_world) = 2
  /\ PriceBatchJob.Status.lastProcessedRange (PriceBatchJob.status st') = Some (1, 2)
  /\ PriceBatchJob.Status.currentStartId (PriceBatchJob.status st') = 3
  /\ PriceBatchJob.Status.state (PriceBatchJob.status single_on_small_world) <> "idle".
Proof.
  intros st'.
  assert (S1 : single_sound single_on_small_world) by sound_by_computation.
  assert (Hmove : PriceBatchJob.current_start_id st'
                  <> PriceBatchJob.current_start_id single_on_small_world)
    by (vm_compute; discriminate).
  destruct (proj1 (status_announces_the_next_window (rt := stub_runtime) fair_env)
              single_on_small_world small_world) as [Hw Hs].
  destruct (Hw Hmove) as (H1 & _ & H3 & _).
  destruct (Hs S1) as [Hidle _].
  split; [reflexivity|]. split; [exact H1|]. split; [exact H3|].
  intros Hi. apply Hidle in Hi. discriminate Hi.
Defined.

(** ** The platform filter of the application *)

Lemma normalize_platform_filter_by_key (s : string) :
  normalize_platform_filter s = normalize_platform_filter (upper (strip s)).
Proof. unfold normalize_platform_filter. now rewrite upper_strip_fixed. Qed.

Lemma normalize_platform_filter_has_key (p : string) :
  upper (strip p) = p -> is_empty p = false -> In p (normalize_platform_filter p).
Proof.
  intros Hp Hne. unfold normalize_platform_filter. rewrite Hp, Hne.
  assert (Hup : upper p = p) by (rewrite <- Hp; apply upper_idem).
  unfold PLATFORM_ALIASES. cbn [find fst snd].
  repeat match goal with
         | |- context [Str.eqb ?k p] =>
             destruct (StrFacts.eqb_spec k p) as [<-|?]; [cbn; tauto|]
         end.
  cbn. left. exact Hup.
Qed.

(** X17. The platform filter of the listing routes and the canonical
    platform names of the job agree: the filter built from a name is
    empty exactly when the name is blank; otherwise it holds the name
    itself, stripped and in upper case, and the canonical name under
    which the job stores the platform, all its members are in upper
    case, and the filter built from the canonical name has the same
    members. *)
Theorem platform_filter_holds_the_canonical_name (s : string) :
  (is_empty (upper (strip s)) = true -> normalize_platform_filter s = [])
  /\ (is_empty (upper (strip s)) = false ->
      In (upper (strip s)) (normalize_platform_filter s)
      /\ In (canonical_str s) (normalize_platform_filter s))
  /\ Forall (fun x => upper x = x) (normalize_platform_filter s)
  /\ (forall x, In x (normalize_platform_filter (canonical_str s))
                <-> In x (normalize_platform_filter s)).
Proof.
  assert (Hkey : is_empty (upper (strip s)) = false ->
                 In (upper (strip s)) (normalize_platform_filter s)).
  { intros Hne. rewrite normalize_platform_filter_by_key.
    apply normalize_platform_filter_has_key; [apply upper_strip_fixed | exact Hne]. }
  split; [|split; [|split]].
  - intros He. unfold normalize_platform_filter. now rewrite He.
  - intros Hne. split; [now apply Hkey|].
    unfold canonical_str.
    destruct (StrFacts.eqb_spec (upper (strip s)) "C5") as [E|_].
    { rewrite normalize_platform_filter_by_key, E. vm_compute. auto. }
    destruct (StrFacts.eqb_spec (upper (strip s)) "HALO") as [E|_].
    { rewrite normalize_platform_filter_by_key, E. vm_compute. auto. }
    now apply Hkey.
  - unfold normalize_platform_filter.
    destruct (is_empty (upper (strip s))); [constructor|].
    apply Forall_forall. intros x Hx. apply in_map_iff in Hx as (y & <- & _).
    apply upper_idem.
  - intros x. unfold canonical_str.
    destruct (StrFacts.eqb_spec (upper (strip s)) "C5") as [E|_].
    { rewrite (normalize_platform_filter_by_key s), E.
      replace (normalize_platform_filter "C5GAME") with ["C5GAME"; "C5"]
        by (vm_compute; reflexivity).
      replace (normalize_platform_filter "C5") with ["C5"; "C5GAME"]
        by (vm_compute; reflexivity).
      cbn [In]. tauto. }
    destruct (StrFacts.eqb_spec (upper (strip s)) "HALO") as [E|_].
    { rewrite (normalize_platform_filter_by_key s), E.
      replace (normalize_platform_filter "HALOSKINS") with ["HALOSKINS"; "HALO"]
        by (vm_compute; reflexivity).
      replace (normalize_platform_filter "HALO") with ["HALO"; "HALOSKINS"]
        by (vm_compute; reflexivity).
      cbn [In]. tauto. }
    rewrite <- normalize_platform_filter_by_key. tauto.
Qed.

Lemma platform_filter_holds_the_canonical_name_witness :
  In "C5GAME" (normalize_platform_filter " c5 ")
  /\ normalize_platform_filter "   " = []
  /\ normalize_platform_filter (String 12288 (String 160 EmptyString)) = []
  /\ In "HALOSKINS" (normalize_platform_filter (String 12288 "halo"))
  /\ In "STRASSE" (normalize_platform_filter "straße").
Proof.
  split; [|split; [|split; [|split]]].
  - exact (proj2 (proj1 (proj2 (platform_filter_holds_the_canonical_name " c5 ")) eq_refl)).
  - exact (proj1 (platform_filter_holds_the_canonical_name "   ") eq_refl).
  - exact (proj1 (platform_filter_holds_the_canonical_name
                    (String 12288 (String 160 EmptyString))) eq_refl).
  - exact (proj2 (proj1 (proj2 (platform_filter_holds_the_canonical_name
                                  (String 12288 "halo"))) eq_refl)).
  - exact (proj1 (proj1 (proj2 (platform_filter_holds_the_canonical_name "straße"))
                    eq_refl)).
Defined.

(** ** The test route of the two credentials *)

Section TestRoute.
Context {rt : Runtime}.
Variable e : env.

(** X18. The test route [test_dual_fetch] stores nothing and calls
    the service at most once.  It answers with the success object
    only for [clientId] 1 or 2, when the client of that number is
    configured and the fixed range of that client, 1 to 100 or 101 to
    200, holds a named item; the one call it has then made carries
    the key of that client and the non-empty names of the range, the
    count it reports is their number, at most 100 on a catalog with
    distinct identifiers, and the data is the answer of the service.
    A request it turns down with status 400 makes no call. *)
Theorem test_dual_fetch_contract (app : App.t) (body : pyval) (w : world) :
  let r := fst (test_dual_fetch e app body w) in
  let w' := snd (test_dual_fetch e app body w) in
  prices w' = prices w /\ items w' = items w /\ platforms w' = platforms w
  /\ commits w' = commits w
  /\ (forall (cid : Z) (rng : Z * Z) (cnt : Z) (data : pyval),
         r = Fetched cid rng cnt data ->
         (cid = 1 /\ rng = (1, 100) \/ cid = 2 /\ rng = (101, 200))
         /\ exists cl,
             (if cid =? 1 then App.client1 app else App.client2 app) = Some cl
             /\ SteamDTClient.has_key cl = true
             /\ calls w' = calls w ++ [(SteamDTClient.api_key cl, names_asked w rng)]
             /\ cnt = Z.of_nat (List.length (names_asked w rng))
             /\ 1 <= cnt
             /\ (unique_ids w -> cnt <= 100)
             /\ post_batch e (List.length (calls w)) (SteamDTClient.api_key cl)
                  (names_asked w rng) = Ok data)
  /\ (forall error : string, r = BadRequest error -> calls w' = calls w)
  /\ (r = ServerError ->
      calls w' = calls w \/ exists c, calls w' = calls w ++ [c]).
Proof.
  unfold test_dual_fetch.
  assert (Hnone : forall x : fetch_reply,
            (forall cid rng cnt data, x = Fetched cid rng cnt data -> False) ->
            let r := fst (x, w) in
            let w' := snd (x, w) in
            prices w' = prices w /\ items w' = items w /\ platforms w' = platforms w
            /\ commits w' = commits w
            /\ (forall (cid : Z) (rng : Z * Z) (cnt : Z) (data : pyval),
                   r = Fetched cid rng cnt data ->
                   (cid = 1 /\ rng = (1, 100) \/ cid = 2 /\ rng = (101, 200))
                   /\ exists cl,
                       (if cid =? 1 then App.client1 app else App.client2 app) = Some cl
                       /\ SteamDTClient.has_key cl = true
                       /\ calls w' = calls w ++ [(SteamDTClient.api_key cl, names_asked w rng)]
                       /\ cnt = Z.of_nat (List.length (names_asked w rng))
                       /\ 1 <= cnt
                       /\ (unique_ids w -> cnt <= 100)
                       /\ post_batch e (List.length (calls w)) (SteamDTClient.api_key cl)
                            (names_asked w rng) = Ok data)
            /\ (forall error : string, r = BadRequest error -> calls w' = calls w)
            /\ (r = ServerError ->
                calls w' = calls w \/ exists c, calls w' = calls w ++ [c])).
  { intros x Hx. cbn. repeat split; auto; intros; exfalso; eapply Hx; eassumption. }
  destruct (py_get (py_or body (PDict [])) "clientId") as [v|x];
    [|apply Hnone; discriminate].
  destruct (_to_int (py_or v (PInt 0))) as [cid|]; [|apply Hnone; discriminate].
  destruct (negb ((cid =? 1) || (cid =? 2))) eqn:Hcid; [apply Hnone; discriminate|].
  assert (Hrng : exists s en,
             (if cid =? 1 then (1, 100) else (101, 200)) = (s, en)
             /\ (cid = 1 /\ (s, en) = (1, 100) \/ cid = 2 /\ (s, en) = (101, 200))
             /\ s <= en /\ en <= s + 100 - 1).
  { apply negb_false_iff, orb_true_iff in Hcid.
    destruct (Z.eqb_spec cid 1) as [E1|E1].
    - exists 1, 100. split; [reflexivity|]. split; [now left | lia].
    - destruct Hcid as [Hc|Hc]; [discriminate|]. apply Z.eqb_eq in Hc.
      exists 101, 200. split; [reflexivity|]. split; [now right | lia]. }
  destruct Hrng as (s & en & -> & Hcase & Hse & Hlen).
  destruct (if cid =? 1 then App.client1 app else App.client2 app) as [cl|] eqn:Hcl;
    cbn [DualApiSequentialJob.configured negb]; [|apply Hnone; discriminate].
  destruct (SteamDTClient.has_key cl) eqn:Hk; cbn [negb]; [|apply Hnone; discriminate].
  destruct (nonempty_names (items_in_range w s en)) as [|n ns] eqn:Hn;
    [apply Hnone; discriminate|].
  cbn [DualApiSequentialJob.call_client].
  unfold SteamDTClient.get_price_batch, SteamDTClient._ensure_key. rewrite Hk.
  destruct (post_batch e (List.length (calls w)) (SteamDTClient.api_key cl) (n :: ns))
    as [data|x] eqn:Hpost; cbn [fst snd].
  - cbn. repeat split; try discriminate.
    + injection H as <- <- _ _. exact Hcase.
    + injection H as <- <- <- <-. exists cl. unfold names_asked. cbn [fst snd].
      rewrite Hn. split; [exact Hcl|]. split; [exact Hk|]. split; [reflexivity|].
      split; [reflexivity|]. split; [cbn [List.length]; lia|]. split; [|exact Hpost].
      intros Hu.
      pose proof (length_nonempty_names (items_in_range w s en)) as H1.
      pose proof (length_items_in_range w s en Hu ltac:(lia)) as H2.
      rewrite Hn in H1. cbn [List.length] in H1. rewrite Zpos_P_of_succ_nat. lia.
  - cbn. repeat split; try discriminate. intros _. right. eexists. reflexivity.
Qed.
End TestRoute.

Lemma test_dual_fetch_contract_witness :
  let app := App.create_app two_keys in
  let body := PDict [("clientId", PInt 1)] in
  fst (test_dual_fetch (rt := stub_runtime) fair_env app body small_world)
  = Fetched 1 (1, 100) 3 one_price
  /\ exists cl,
      App.client1 app = Some cl
      /\ calls (snd (test_dual_fetch (rt := stub_runtime) fair_env app body small_world))
         = calls small_world
           ++ [(SteamDTClient.api_key cl, names_asked small_world (1, 100))].
Proof.
  intros app body.
  assert (H : fst (test_dual_fetch (rt := stub_runtime) fair_env app body small_world)
              = Fetched 1 (1, 100) 3 one_price) by (vm_compute; reflexivity).
  split; [exact H|].
  destruct (test_dual_fetch_contract (rt := stub_runtime) fair_env app body small_world)
    as (_ & _ & _ & _ & Hf & _).
  destruct (Hf 1 (1, 100) 3 one_price H) as (_ & cl & Hcl & _ & Hcalls & _).
  exists cl. split; [exact Hcl | exact Hcalls].
Defined.

(** ** The chunks of the batch route *)

Lemma range_by_zero (step : nat) : (0 < step)%nat -> range_by 0 step = [].
Proof.
  intros H. unfold range_by. cbn [Nat.add].
  rewrite Nat.div_small by lia. reflexivity.
Qed.

Lemma range_by_step (stop step : nat) :
  (0 < step)%nat -> (0 < stop)%nat ->
  range_by stop step = 0%nat :: map (fun i => (step + i)%nat) (range_by (stop - step) step).
Proof.
  intros Hstep Hstop. unfold range_by.
  assert (Hk : ((stop + step - 1) / step = S ((stop - step + step - 1) / step))%nat).
  { destruct (Nat.le_gt_cases step stop) as [Hle|Hlt].
    - replace (stop + step - 1)%nat with ((stop - step + step - 1) + 1 * step)%nat by lia.
      rewrite Nat.div_add by lia. lia.
    - replace (stop - step + step - 1)%nat with (step - 1)%nat by lia.
      rewrite (Nat.div_small (step - 1)) by lia.
      replace (stop + step - 1)%nat with ((stop - 1) + 1 * step)%nat by lia.
      rewrite Nat.div_add by lia. rewrite Nat.div_small by lia. reflexivity. }
  rewrite Hk. cbn [seq map]. f_equal.
  rewrite <- seq_shift, !map_map. apply map_ext. intros k. lia.
Qed.

Lemma chunk_nil {A : Type} (size : nat) : (0 < size)%nat -> chunk (@nil A) size = [].
Proof. intros H. unfold chunk. cbn [List.length]. now rewrite range_by_zero. Qed.

(** The first chunk, then the chunks of the rest. *)
Lemma chunk_step {A : Type} (lst : list A) (size : nat) :
  (0 < size)%nat -> lst <> [] ->
  chunk lst size = firstn size lst :: chunk (skipn size lst) size.
Proof.
  intros Hs Hne. unfold chunk.
  assert (Hlen : (0 < List.length lst)%nat) by (destruct lst; [congruence | cbn; lia]).
  rewrite (range_by_step _ _ Hs Hlen). cbn [map]. f_equal.
  - unfold slice. cbn [skipn Nat.add]. now rewrite Nat.sub_0_r.
  - rewrite length_skipn, map_map. apply map_ext. intros i. unfold slice.
    rewrite skipn_skipn. f_equal; [lia | f_equal; lia].
Qed.

(** X19. The chunks the batch route cuts its list of names into, for
    a positive size: put end to end they give back the list, in
    order; none is empty and none is longer than the size; and a list
    not longer than the size makes a single chunk, the list itself.
    The names of the route are those of the range whatever the order
    of its two bounds, stripped of the white space around them, and
    none of them is empty. *)
Theorem chunks_give_back_the_names {A : Type} (size : nat) (lst : list A) :
  (0 < size)%nat ->
  List.concat (chunk lst size) = lst
  /\ Forall (fun c => (1 <= List.length c <= size)%nat) (chunk lst size)
  /\ (lst <> [] -> (List.length lst <= size)%nat -> chunk lst size = [lst])
  /\ (forall (w : world) (a b : Z),
         batch_by_id_names w a b = batch_by_id_names w b a
         /\ Forall (fun n => strip n = n /\ is_empty n = false) (batch_by_id_names w a b)).
Proof.
  intros Hs.
  assert (Hind : forall (n : nat) (l : list A),
             (List.length l <= n)%nat ->
             List.concat (chunk l size) = l
             /\ Forall (fun c => (1 <= List.length c <= size)%nat) (chunk l size)).
  { induction n as [|n IH]; intros l Hl.
    - destruct l; [|cbn in Hl; lia]. rewrite chunk_nil by exact Hs. split; constructor.
    - destruct l as [|x r]; [rewrite chunk_nil by exact Hs; split; constructor|].
      rewrite chunk_step by (exact Hs || discriminate).
      destruct (IH (skipn size (x :: r))) as [Hc Hf].
      { rewrite length_skipn. cbn [List.length] in *. lia. }
      cbn [List.concat]. rewrite Hc, firstn_skipn. split; [reflexivity|].
      constructor; [|exact Hf].
      rewrite length_firstn. cbn [List.length]. lia. }
  split; [apply (Hind (List.length lst)); lia|].
  split; [apply (Hind (List.length lst)); lia|].
  split.
  - intros Hne Hle. rewrite chunk_step by assumption.
    rewrite firstn_all2 by exact Hle. rewrite skipn_all2 by exact Hle.
    now rewrite chunk_nil.
  - intros w a b. split.
    + unfold batch_by_id_names.
      destruct (Z.ltb_spec b a), (Z.ltb_spec a b); try reflexivity; try lia.
      replace b with a by lia. reflexivity.
    + unfold batch_by_id_names.
      destruct (if b <? a then (b, a) else (a, b)) as [s en].
      apply Forall_forall. intros n Hn. apply filter_In in Hn as [Hin Hne].
      apply negb_true_iff in Hne. split; [|exact Hne].
      apply in_map_iff in Hin as (it & <- & _). apply strip_idem.
Qed.

Lemma chunks_give_back_the_names_witness :
  chunk [1; 2; 3; 4; 5] 2 = [[1; 2]; [3; 4]; [5]]
  /\ List.concat (chunk [1; 2; 3; 4; 5] 2) = [1; 2; 3; 4; 5]
  /\ chunk (batch_by_id_names small_world 3 1) 100
     = [["AK-47 | Redline"; "AWP | Asiimov"; "M4A4 | Howl"]].
Proof.
  split; [reflexivity|]. split.
  - exact (proj1 (chunks_give_back_the_names 2 [1; 2; 3; 4; 5] ltac:(lia))).
  - reflexivity.
Defined.

(** ** Pausing while a window is in flight *)

Section PauseInFlight.
Context {rt : Runtime}.
Variable e : env.

Lemma single_run_one_range_one_call (st : PriceBatchJob.t) (w : world) :
  let c := PriceBatchJob._run_one_range e st w in
  PriceBatchJob.paused (snd (fst c)) = PriceBatchJob.paused st
  /\ PriceBatchJob._stop_event (snd (fst c)) = PriceBatchJob._stop_event st
  /\ (calls (snd c) = calls w \/ exists k, calls (snd c) = calls w ++ [k]).
Proof.
  cbv zeta.
  pose proof (single_run_one_range_effect e st w) as Hst. cbv zeta in Hst.
  assert (Hcalls : calls (snd (PriceBatchJob._run_one_range e st w)) = calls w
                   \/ exists k, calls (snd (PriceBatchJob._run_one_range e st w))
                                = calls w ++ [k]).
  { unfold PriceBatchJob._run_one_range.
    destruct (_ || _); [now left|].
    destruct (items_in_range _ _ _); [now left|].
    destruct (nonempty_names _) as [|n ns]; [now left|].
    pose proof (get_price_batch_world e (PriceBatchJob.client st) (n :: ns) w) as Hl.
    destruct (SteamDTClient.get_price_batch _ _ _ _) as [[resp|x] w1]; cbn in Hl; subst w1.
    - pose proof (write_prices_catalog e resp
                    (log_call w (SteamDTClient.api_key (PriceBatchJob.client st)) (n :: ns)))
        as (_ & _ & Hc).
      destruct (write_prices _ _ _) as [[u|x] w2]; cbn in Hc |- *; right; eexists; exact Hc.
    - right. eexists. reflexivity. }
  destruct Hst as [-> | (-> & _)]; auto.
Qed.

Lemma dual_run_one_range_one_call (st : DualApiSequentialJob.t) (w : world) :
  let c := DualApiSequentialJob._run_one_range e st w in
  DualApiSequentialJob.paused (snd (fst c)) = DualApiSequentialJob.paused st
  /\ DualApiSequentialJob._stop_event (snd (fst c)) = DualApiSequentialJob._stop_event st
  /\ (calls (snd c) = calls w \/ exists k, calls (snd c) = calls w ++ [k]).
Proof.
  cbv zeta.
  pose proof (dual_run_one_range_effect e st w) as Hst. cbv zeta in Hst.
  assert (Hcalls : calls (snd (DualApiSequentialJob._run_one_range e st w)) = calls w
                   \/ exists k, calls (snd (DualApiSequentialJob._run_one_range e st w))
                                = calls w ++ [k]).
  { unfold DualApiSequentialJob._run_one_range.
    destruct (_ || _); [now left|].
    destruct (items_in_range _ _ _); [now left|].
    destruct (nonempty_names _) as [|n ns]; [now left|].
    destruct (if DualApiSequentialJob.next_client_id st =? 1
              then DualApiSequentialJob.client1 st
              else DualApiSequentialJob.client2 st) as [c|];
      cbn [DualApiSequentialJob.call_client]; [|now left].
    pose proof (get_price_batch_world e c (n :: ns) w) as Hl.
    destruct (SteamDTClient.get_price_batch _ _ _ _) as [[resp|x] w1]; cbn in Hl; subst w1.
    - pose proof (write_prices_catalog e resp
                    (log_call w (SteamDTClient.api_key c) (n :: ns))) as (_ & _ & Hc).
      destruct (write_prices _ _ _) as [[u|x] w2]; cbn in Hc |- *; right; eexists; exact Hc.
    - right. eexists. reflexivity. }
  destruct Hst as [-> | ([-> | ->] & _)]; auto.
Qed.

(** Two steps after it is paused, the loop is out, on its way out, or
    between two windows, and has made at most one call. *)
Lemma single_paused_settles (p : pc) (st : PriceBatchJob.t) (w : world) :
  PriceBatchJob.paused st = true ->
  let c2 := PriceBatchJob.run e 2 (p, st, w) in
  held (fst (fst c2)) (PriceBatchJob.paused (snd (fst c2)))
    (PriceBatchJob._stop_event (snd (fst c2)))
  /\ (calls (snd c2) = calls w \/ exists k, calls (snd c2) = calls w ++ [k]).
Proof.
  intros Hp. unfold held.
  destruct p; cbn [PriceBatchJob.run PriceBatchJob.loop_step].
  - destruct (PriceBatchJob._stop_event st) eqn:Hs; cbn [PriceBatchJob.loop_step];
      [cbn; auto|]. rewrite Hp, Hs. cbn. auto.
  - rewrite Hp. destruct (PriceBatchJob._stop_event st) eqn:Hs;
      cbn [negb andb PriceBatchJob.loop_step]; rewrite ?Hp, ?Hs; cbn; auto.
  - destruct (PriceBatchJob._stop_event st) eqn:Hs; cbn [PriceBatchJob.loop_step];
      [cbn; auto|].
    pose proof (single_run_one_range_one_call st w) as (H1 & H2 & H3). cbv zeta in *.
    destruct (PriceBatchJob._run_one_range e st w) as [[r st1] w1].
    cbn [fst snd] in *. split; [|exact H3]. right; right. split; [reflexivity | congruence].
  - pose proof (single_run_one_range_one_call st w) as (H1 & H2 & H3). cbv zeta in *.
    destruct (PriceBatchJob._run_one_range e st w) as [[r st1] w1].
    cbn [fst snd PriceBatchJob.loop_step] in *.
    destruct (PriceBatchJob.max_id st1 <=? PriceBatchJob.completed_count st1);
      cbn; (split; [|exact H3]); [now left|]. right; right. split; [reflexivity | congruence].
  - destruct (PriceBatchJob.max_id st <=? PriceBatchJob.completed_count st);
      cbn [PriceBatchJob.loop_step]; [cbn; auto|].
    cbn [PriceBatchJob.set_next_run_ts PriceBatchJob._stop_event PriceBatchJob.paused
         PriceBatchJob.interval_sec].
    rewrite Hp.
    destruct ((0 <? 5 * PriceBatchJob.interval_sec st)
              && negb (PriceBatchJob._stop_event st)); cbn; auto.
  - rewrite Hp.
    assert (Hhead : (if (0 <? remain) && negb (PriceBatchJob._stop_event st)
                     then (AtLoopHead, st, w) else (AtLoopHead, st, w))
                    = (AtLoopHead, st, w))
      by (destruct ((0 <? remain) && negb (PriceBatchJob._stop_event st)); reflexivity).
    rewrite Hhead. cbn [PriceBatchJob.loop_step].
    destruct (PriceBatchJob._stop_event st); cbn; auto.
  - cbn. auto.
Qed.

Lemma dual_paused_settles (p : pc) (st : DualApiSequentialJob.t) (w : world) :
  DualApiSequentialJob.paused st = true ->
  let c2 := DualApiSequentialJob.run e 2 (p, st, w) in
  held (fst (fst c2)) (DualApiSequentialJob.paused (snd (fst c2)))
    (DualApiSequentialJob._stop_event (snd (fst c2)))
  /\ (calls (snd c2) = calls w \/ exists k, calls (snd c2) = calls w ++ [k]).
Proof.
  intros Hp. unfold held.
  destruct p; cbn [DualApiSequentialJob.run DualApiSequentialJob.loop_step].
  - destruct (DualApiSequentialJob._stop_event st) eqn:Hs;
      cbn [DualApiSequentialJob.loop_step]; [cbn; auto|]. rewrite Hp, Hs. cbn. auto.
  - rewrite Hp. destruct (DualApiSequentialJob._stop_event st) eqn:Hs;
      cbn [negb andb DualApiSequentialJob.loop_step]; rewrite ?Hp, ?Hs; cbn; auto.
  - destruct (DualApiSequentialJob._stop_event st) eqn:Hs;
      cbn [DualApiSequentialJob.loop_step]; [cbn; auto|].
    pose proof (dual_run_one_range_one_call st w) as (H1 & H2 & H3). cbv zeta in *.
    destruct (DualApiSequentialJob._run_one_range e st w) as [[[u|x] st1] w1];
      cbn [fst snd] in *; (split; [|exact H3]); right; right;
      (split; [reflexivity | cbn; congruence]).
  - pose proof (dual_run_one_range_one_call st w) as (H1 & H2 & H3). cbv zeta in *.
    destruct (DualApiSequentialJob._run_one_range e st w) as [[[u|x] st1] w1];
      cbn [fst snd DualApiSequentialJob.loop_step DualApiSequentialJob.set_last_error
           DualApiSequentialJob.max_id DualApiSequentialJob.completed_count] in *;
      (destruct (DualApiSequentialJob.max_id st1
                 <=? DualApiSequentialJob.completed_count st1);
       cbn; (split; [|exact H3]); [now left|]; right; right;
       split; [reflexivity | congruence]).
  - destruct (DualApiSequentialJob.max_id st <=? DualApiSequentialJob.completed_count st);
      cbn [DualApiSequentialJob.loop_step]; [cbn; auto|].
    cbn [DualApiSequentialJob.set_next_run_ts DualApiSequentialJob._stop_event
         DualApiSequentialJob.paused DualApiSequentialJob.interval_sec].
    rewrite Hp.
    destruct ((0 <? 5 * DualApiSequentialJob.interval_sec st)
              && negb (DualApiSequentialJob._stop_event st)); cbn; auto.
  - rewrite Hp.
    assert (Hhead : (if (0 <? remain) && negb (DualApiSequentialJob._stop_event st)
                     then (AtLoopHead, st, w) else (AtLoopHead, st, w))
                    = (AtLoopHead, st, w))
      by (destruct ((0 <? remain) && negb (DualApiSequentialJob._stop_event st));
          reflexivity).
    rewrite Hhead. cbn [DualApiSequentialJob.loop_step].
    destruct (DualApiSequentialJob._stop_event st); cbn; auto.
  - cbn. auto.
Qed.

(** X20. Pausing does not interrupt a window in flight, but lets no
    second one through.  Wherever the loop stands when the job is
    paused, within two steps it has made at most one call and is out
    of the loop, on its way out, or between two windows; from then on,
    however many steps it takes, the cursor, the completed count, the
    last processed range, the calls and the price rows stay as they
    are after these two steps. *)
Theorem pause_lets_one_window_through :
  (forall (p : pc) (st : PriceBatchJob.t) (w : world) (n : nat),
      PriceBatchJob.paused st = true ->
      let c2 := PriceBatchJob.run e 2 (p, st, w) in
      (calls (snd c2) = calls w \/ exists k, calls (snd c2) = calls w ++ [k])
      /\ SingleRun.frozen (snd (fst c2)) (snd c2) (PriceBatchJob.run e (2 + n) (p, st, w)))
  /\ (forall (p : pc) (st : DualApiSequentialJob.t) (w : world) (n : nat),
      DualApiSequentialJob.paused st = true ->
      let c2 := DualApiSequentialJob.run e 2 (p, st, w) in
      (calls (snd c2) = calls w \/ exists k, calls (snd c2) = calls w ++ [k])
      /\ DualRun.frozen (snd (fst c2)) (snd c2)
           (DualApiSequentialJob.run e (2 + n) (p, st, w))).
Proof.
  split.
  - intros p st w n Hp c2.
    destruct (single_paused_settles p st w Hp) as [Hheld Hcalls]. fold c2 in Hheld, Hcalls.
    split; [exact Hcalls|].
    rewrite (run_add e 2 n). fold c2.
    apply single_frozen_run. destruct c2 as [[p2 st2] w2]. cbn [fst snd] in *.
    repeat split; auto.
  - intros p st w n Hp c2.
    destruct (dual_paused_settles p st w Hp) as [Hheld Hcalls]. fold c2 in Hheld, Hcalls.
    split; [exact Hcalls|].
    rewrite (dual_run_add e 2 n). fold c2.
    apply dual_frozen_run. destruct c2 as [[p2 st2] w2]. cbn [fst snd] in *.
    repeat split; auto.
Qed.
End PauseInFlight.

Lemma pause_lets_one_window_through_witness :
  let st := snd (PriceBatchJob.pause single_on_small_world) in
  let c := PriceBatchJob.run (rt := stub_runtime) fair_env 52 (AtRunWindow, st, small_world) in
  PriceBatchJob.paused st = true
  /\ PriceBatchJob.current_start_id (snd (fst c)) = 3
  /\ List.length (calls (snd c)) = 1%nat.
Proof.
  intros st c.
  destruct (proj1 (pause_lets_one_window_through (rt := stub_runtime) fair_env)
              AtRunWindow st small_world 50%nat eq_refl) as [_ Hf].
  change (2 + 50)%nat with 52%nat in Hf. fold c in Hf.
  destruct c as [[p' st'] w']. destruct Hf as (_ & Hc & _ & _ & _ & Hcalls).
  split; [reflexivity|]. split; [exact Hc|].
  cbn [fst snd]. rewrite Hcalls. reflexivity.
Defined.

(** ** Pausing during the wait between two windows *)

Section CutShort.
Context {rt : Runtime}.
Variable e : env.

(** X21. A pause during the wait between two windows ends the wait:
    the waiting loop of a paused job goes back to the head of the
    loop without sleeping, whatever is left of the interval.  If the
    job is then resumed, it is the job it was before the pause and
    the next window starts at once, three steps later and with the
    clock where it was, while the job that is not paused sleeps
    through every slice that is left. *)
Theorem pause_and_resume_cut_the_wait_short :
  (forall (remain : Z) (st : PriceBatchJob.t) (w : world),
      single_sound st ->
      PriceBatchJob.running st = true -> PriceBatchJob.paused st = false ->
      PriceBatchJob._stop_event st = false ->
      let st_p := snd (PriceBatchJob.pause st) in
      PriceBatchJob.loop_step e (AtDelay remain, st_p, w) = (AtLoopHead, st_p, w)
      /\ PriceBatchJob.run e 3 (AtLoopHead, snd (PriceBatchJob.resume st_p), w)
         = (AtRunWindow, st, w)
      /\ (0 < remain ->
          PriceBatchJob.loop_step e (AtDelay remain, st, w)
          = (AtDelay (remain - 1), st, sleep w 200)))
  /\ (forall (remain : Z) (st : DualApiSequentialJob.t) (w : world),
      dual_sound st ->
      DualApiSequentialJob.running st = true -> DualApiSequentialJob.paused st = false ->
      DualApiSequentialJob._stop_event st = false ->
      let st_p := snd (DualApiSequentialJob.pause st) in
      DualApiSequentialJob.loop_step e (AtDelay remain, st_p, w) = (AtLoopHead, st_p, w)
      /\ DualApiSequentialJob.run e 3 (AtLoopHead, snd (DualApiSequentialJob.resume st_p), w)
         = (AtRunWindow, st, w)
      /\ (0 < remain ->
          DualApiSequentialJob.loop_step e (AtDelay remain, st, w)
          = (AtDelay (remain - 1), st, sleep w 200))).
Proof.
  split.
  - intros remain st w (_ & _ & _ & _ & _ & Hev) Hr Hp Hs st_p.
    specialize (Hev Hr). rewrite Hp in Hev.
    assert (Hback : snd (PriceBatchJob.resume st_p) = st).
    { subst st_p. unfold PriceBatchJob.pause, PriceBatchJob.resume.
      rewrite Hr, Hp. cbn. destruct st. cbn in *. subst. reflexivity. }
    split; [|split].
    + subst st_p. unfold PriceBatchJob.pause. rewrite Hr, Hp.
      cbn [negb andb snd PriceBatchJob.loop_step PriceBatchJob.set_pause
           PriceBatchJob.paused PriceBatchJob._stop_event].
      rewrite Hs. destruct (0 <? remain); reflexivity.
    + rewrite Hback. exact (proj1 (head_reaches_window e st w Hs Hp)).
    + intros Hpos. cbn [PriceBatchJob.loop_step]. rewrite Hs, Hp.
      destruct (Z.ltb_spec 0 remain); [reflexivity | lia].
  - intros remain st w (_ & _ & _ & _ & _ & Hev & _) Hr Hp Hs st_p.
    specialize (Hev Hr). rewrite Hp in Hev.
    assert (Hback : snd (DualApiSequentialJob.resume st_p) = st).
    { subst st_p. unfold DualApiSequentialJob.pause, DualApiSequentialJob.resume.
      rewrite Hr, Hp. cbn. destruct st. cbn in *. subst. reflexivity. }
    split; [|split].
    + subst st_p. unfold DualApiSequentialJob.pause. rewrite Hr, Hp.
      cbn [negb andb snd DualApiSequentialJob.loop_step DualApiSequentialJob.set_pause
           DualApiSequentialJob.paused DualApiSequentialJob._stop_event].
      rewrite Hs. destruct (0 <? remain); reflexivity.
    + rewrite Hback. exact (proj1 (dual_head_reaches_window e st w Hs Hp)).
    + intros Hpos. cbn [DualApiSequentialJob.loop_step]. rewrite Hs, Hp.
      destruct (Z.ltb_spec 0 remain); [reflexivity | lia].
Qed.
End CutShort.

Lemma pause_and_resume_cut_the_wait_short_witness :
  let st_p := snd (PriceBatchJob.pause single_on_small_world) in
  PriceBatchJob.run (rt := stub_runtime) fair_env 1 (AtDelay 5, st_p, small_world)
  = (AtLoopHead, st_p, small_world)
  /\ PriceBatchJob.run (rt := stub_runtime) fair_env 3
       (AtLoopHead, snd (PriceBatchJob.resume st_p), small_world)
     = (AtRunWindow, single_on_small_world, small_world)
  /\ clock (snd (PriceBatchJob.run (rt := stub_runtime) fair_env 1
                   (AtDelay 5, single_on_small_world, small_world))) = 200.
Proof.
  intros st_p.
  assert (S1 : single_sound single_on_small_world) by sound_by_computation.
  destruct (proj1 (pause_and_resume_cut_the_wait_short (rt := stub_runtime) fair_env)
              5 single_on_small_world small_world S1 eq_refl eq_refl eq_refl)
    as (H1 & H2 & H3).
  split; [exact H1|]. split; [exact H2|].
  cbn [PriceBatchJob.run]. rewrite (H3 eq_refl). reflexivity.
Defined.

(** ** One row for each platform entry *)

Section RowKeys.
Context {rt : Runtime}.

Lemma platform_row_key (w : world) (mhn : string) (iid : option Z) (p : pyval)
    (row : Price.t) :
  platform_row w mhn iid p = Ok row ->
  (Price.market_hash_name row, Price.platform row) = (mhn, platform_name_of p).
Proof.
  destruct p as [| | | | |l|d]; try (cbn; discriminate).
  unfold platform_row, platform_name_of. rewrite !get_or_dict. cbn [bind].
  unfold canonical_platform_name. rewrite py_or_twice by reflexivity.
  destruct (py_or (first_or d ["platform"; "name"; "plat"]) (PStr ""));
    cbn [bind]; try discriminate.
  destruct iid as [i|].
  - destruct (i =? 0).
    + cbn [bind]. intros [= <-]. reflexivity.
    + destruct (platform_of w i (canonical_str s)) as [[pl|]|x]; cbn [bind option_map];
        [| |discriminate]; intros [= <-]; reflexivity.
  - cbn [bind]. intros [= <-]. reflexivity.
Qed.

Lemma add_platform_rows_keys (w : world) (mhn : string) (iid : option Z)
    (ps : list pyval) (s : session) :
  raised (fst (add_platform_rows w mhn iid ps s)) = false ->
  row_keys (pending (snd (add_platform_rows w mhn iid ps s)))
  = row_keys (pending s) ++ map (fun p => (mhn, platform_name_of p)) ps.
Proof.
  revert s. induction ps as [|p r IH]; intros s; cbn [add_platform_rows map].
  - intros _. now rewrite app_nil_r.
  - destruct (platform_row w mhn iid p) as [row|x] eqn:Hrow; [|discriminate].
    intros H. rewrite (IH _ H). cbn [session_add pending]. unfold row_keys.
    rewrite map_app. cbn [map]. rewrite (platform_row_key _ _ _ _ _ Hrow).
    now rewrite <- app_assoc.
Qed.

Lemma add_item_rows_keys (w : world) (it : pyval) (s : session) :
  raised (fst (add_item_rows w it s)) = false ->
  row_keys (pending (snd (add_item_rows w it s)))
  = row_keys (pending s)
    ++ map (fun p => (name_of it, platform_name_of p)) (entries_of it).
Proof.
  destruct it as [| | | | |l|d]; try (cbn; discriminate).
  unfold add_item_rows, entries_of, name_of. rewrite !get_or_dict. cbn [bind].
  destruct (py_or (first_or d ["marketHashName"; "market_hash_name"]) (PStr ""));
    try (cbn; discriminate).
  cbn [py_strip]. destruct (is_empty (strip s0)); [intros _; cbn; now rewrite app_nil_r|].
  destruct (item_by_name w (strip s0)) as [rec|x]; [|cbn; discriminate].
  unfold py_or.
  destruct (first_or d ["platforms"; "platformList"; "dataList"])
    as [|b|n|f|ps|l|pd] eqn:E; cbn [truthy].
  - intros _. cbn. now rewrite app_nil_r.
  - destruct b; [cbn; discriminate | intros _; cbn; now rewrite app_nil_r].
  - destruct (n =? 0); [intros _; cbn; now rewrite app_nil_r | cbn; discriminate].
  - destruct f; cbn; try discriminate; intros _; now rewrite app_nil_r.
  - destruct ps as [|c r]; [intros _; cbn; now rewrite app_nil_r | cbn; discriminate].
  - destruct l as [|p l']; [intros _; cbn; now rewrite app_nil_r|].
    cbn [py_iter]. apply add_platform_rows_keys.
  - destruct pd as [|kv pd']; [intros _; cbn; now rewrite app_nil_r|].
    cbn [py_iter]. apply add_platform_rows_keys.
Qed.

Lemma add_all_rows_keys (w : world) (data_list : list pyval) (s : session) :
  raised (fst (add_all_rows w data_list s)) = false ->
  row_keys (pending (snd (add_all_rows w data_list s)))
  = row_keys (pending s)
    ++ flat_map (fun it => map (fun p => (name_of it, platform_name_of p)) (entries_of it))
         data_list.
Proof.
  revert s. induction data_list as [|it r IH]; intros s; cbn [add_all_rows flat_map].
  - intros _. now rewrite app_nil_r.
  - pose proof (add_item_rows_keys w it s) as Hit.
    destruct (add_item_rows w it s) as [[u|x] s1]; [|discriminate].
    intros H. rewrite (IH _ H). cbn [fst snd raised] in Hit.
    rewrite (Hit eq_refl). now rewrite <- app_assoc.
Qed.

(** X22. What a window writes for the answer of the service: when the
    write of a response succeeds, the rows appended to the store are,
    in the order of the response, one for each platform entry of each
    item record whose name is not blank, stored under the stripped
    name of the record and the canonical name of the platform of the
    entry; no entry is left out and none gives two rows.  A write
    that raises appends nothing. *)
Theorem one_row_for_each_platform_entry (e : env) (resp : pyval) (w : world) :
  exists rows,
    prices (snd (write_prices e resp w)) = prices w ++ rows
    /\ (raised (fst (write_prices e resp w)) = false -> row_keys rows = keys_of resp)
    /\ (raised (fst (write_prices e resp w)) = true -> rows = []).
Proof.
  unfold write_prices, build_rows, keys_of.
  pose proof (add_all_rows_keys w (data_list_of resp) get_session) as Hk.
  destruct (add_all_rows w (data_list_of resp) get_session) as [[u|x] s].
  - cbn [fst snd raised] in Hk. specialize (Hk eq_refl). cbn in Hk.
    destruct (commit_ok e (commits w) (pending s)); cbn.
    + exists (pending s). split; [reflexivity|]. split; [intros _; exact Hk | discriminate].
    + exists []. split; [reflexivity|]. split; [discriminate | reflexivity].
  - exists []. cbn. split; [now rewrite app_nil_r|]. split; [discriminate | reflexivity].
Qed.
End RowKeys.

Lemma one_row_for_each_platform_entry_witness :
  let wide :=
    PList [PDict [("marketHashName", PStr (String 12288 (String 160 EmptyString)));
                  ("platforms", PList [PDict [("platform", PStr "buff")]])];
           PDict [("marketHashName", PStr (String 160 "Gloves"));
                  ("platforms", PList [PDict [("platform", PStr "ü")];
                                       PDict [("platform", PStr (String 8195 "halo"))]])]] in
  keys_of one_price = [("AK-47 | Redline", "C5GAME")]
  /\ (exists rows,
        prices (snd (write_prices (rt := stub_runtime) fair_env one_price small_world))
        = prices small_world ++ rows
        /\ row_keys rows = [("AK-47 | Redline", "C5GAME")])
  /\ keys_of wide = [("Gloves", "Ü"); ("Gloves", "HALOSKINS")]
  /\ (exists rows,
        prices (snd (write_prices (rt := stub_runtime) fair_env wide small_world))
        = prices small_world ++ rows
        /\ row_keys rows = [("Gloves", "Ü"); ("Gloves", "HALOSKINS")]).
Proof.
  intros wide.
  split; [reflexivity|]. split; [|split; [reflexivity|]].
  - destruct (one_row_for_each_platform_entry (rt := stub_runtime) fair_env one_price
                small_world) as (rows & H1 & H2 & _).
    exists rows. split; [exact H1 | exact (H2 eq_refl)].
  - destruct (one_row_for_each_platform_entry (rt := stub_runtime) fair_env wide
                small_world) as (rows & H1 & H2 & _).
    exists rows. split; [exact H1 | exact (H2 eq_refl)].
Defined.

(** ** The credential of a call of the dual job *)

Section DualCredential.
Variable e : env.

(** X23. A running dual job never fails a call for want of a
    credential.  In a state where running implies that both clients
    are configured, as in every state the job can be in, the client
    that [next_client_id] designates exists and holds a key, so that
    its call passes [_ensure_key]: whatever the names, the call is
    logged with that key and its outcome is the outcome of the request
    sent with that key.  The missing-key error of the client and the
    call on a missing client do not occur. *)
Theorem running_dual_job_calls_with_a_credential
    (st : DualApiSequentialJob.t) (w : world) (names : list string) :
  dual_sound st ->
  DualApiSequentialJob.running st = true ->
  exists cl : SteamDTClient.t,
    (if DualApiSequentialJob.next_client_id st =? 1
     then DualApiSequentialJob.client1 st
     else DualApiSequentialJob.client2 st) = Some cl
    /\ SteamDTClient.has_key cl = true
    /\ SteamDTClient._ensure_key cl = Ok tt
    /\ SteamDTClient.api_key cl
       = key_at (DualApiSequentialJob.client1 st) (DualApiSequentialJob.client2 st)
           (DualApiSequentialJob.next_client_id st)
    /\ DualApiSequentialJob.call_client e
         (if DualApiSequentialJob.next_client_id st =? 1
          then DualApiSequentialJob.client1 st
          else DualApiSequentialJob.client2 st) names w
       = (post_batch e (List.length (calls w)) (SteamDTClient.api_key cl) names,
          log_call w (SteamDTClient.api_key cl) names).
Proof.
  intros (_ & _ & _ & _ & _ & _ & Hconf & _) Hr. destruct (Hconf Hr) as [Hc1 Hc2].
  unfold DualApiSequentialJob.configured in Hc1, Hc2. unfold key_at.
  destruct (DualApiSequentialJob.next_client_id st =? 1).
  - destruct (DualApiSequentialJob.client1 st) as [cl|]; [|discriminate].
    exists cl. cbn [DualApiSequentialJob.call_client].
    unfold SteamDTClient.get_price_batch, SteamDTClient._ensure_key. rewrite Hc1.
    repeat split.
  - destruct (DualApiSequentialJob.client2 st) as [cl|]; [|discriminate].
    exists cl. cbn [DualApiSequentialJob.call_client].
    unfold SteamDTClient.get_price_batch, SteamDTClient._ensure_key. rewrite Hc2.
    repeat split.
Qed.
End DualCredential.

Lemma running_dual_job_calls_with_a_credential_witness :
  exists cl : SteamDTClient.t,
    DualApiSequentialJob.client1 dual_on_small_world = Some cl
    /\ SteamDTClient.api_key cl = Some "K1"
    /\ DualApiSequentialJob.call_client fair_env
         (DualApiSequentialJob.client1 dual_on_small_world)
         ["AK-47 | Redline"; "AWP | Asiimov"] small_world
       = (post_batch fair_env 0 (Some "K1") ["AK-47 | Redline"; "AWP | Asiimov"],
          log_call small_world (Some "K1") ["AK-47 | Redline"; "AWP | Asiimov"]).
Proof.
  assert (D1 : dual_sound dual_on_small_world) by sound_by_computation.
  destruct (running_dual_job_calls_with_a_credential fair_env
              dual_on_small_world small_world ["AK-47 | Redline"; "AWP | Asiimov"]
              D1 eq_refl) as (cl & Hcl & _ & _ & Hk & Hcall).
  exists cl. split; [exact Hcl|]. split; [exact Hk|].
  cbn in Hcl. injection Hcl as <-. exact Hcall.
Defined.
